(* ===== verification/_CoqProject ===== *)
-Q . S2P
Prelude.v
GoLib.v
GoText.v
Float.v
RelayWire.v
TcpFrame.v
GPGNet.v
JsonRpc.v
Json.v
RpcMessage.v
Flags.v
Session.v
Metrics.v
SessionManager.v
ManagerSpec.v
Router.v
HttpApi.v
ServerLoop.v
RelayServer.v
RelayConn.v
Transport.v
Peer.v
PeerMgr.v
GpgNetServer.v
EndToEnd.v
IcePeer.v
IceText.v
IceSignal.v
IceRestart.v
RpcHandler.v
AdapterRun.v
RpcServer.v
Commands.v
Status.v
DebugServer.v
Registration.v
StressTest.v
StressRun.v
Mock.v
Harness.v
System.v
SystemSafe.v
