(* ===== verification/Prelude.v ===== *)
(** * A verification of the FAF UDP relay

    The program lets players of a game reach each other through a relay
    server.  A relay server ([src/internal/relay]) keeps sessions of players,
    managed over HTTP, and forwards their packets over UDP, with TCP as a
    fallback.  Next to each game runs an adapter ([src/internal/adapter]): it
    speaks GPGNet with the game, JSON-RPC with the FAF client, the relay
    protocol with the server, and ICE with players that do not use the relay.
    The wire formats are in [src/internal/protocol].

    ** Files

    - [Prelude]: outcomes and results of Go calls, machine integers, bytes,
      unspecified map order, automation ([relay] hints, [wire] rewriting) and
      generic lemmas.
    - [GoLib]: the parts of Go's standard library the program uses: [time],
      [net/netip], [net.ParseIP], [net.SplitHostPort], [io.ReadFull],
      [bufio.Writer].  [GoText]: UTF-8 and numbers as text; [Float]: [float64]
      arithmetic with its rounding, and its texts; [Json]:
      [encoding/json] (encoder and parser); [Flags]: [flag] and the parsers of
      [strconv] behind it.
    - Protocols.  [RelayWire] ([protocol/relay_wire.go]), [TcpFrame] (the
      framing of [relay/router.go] as module [Server] and of
      [adapter/relayconn.go] as module [Adapter]), [GPGNet]
      ([protocol/gpgnet.go]), [JsonRpc] and [RpcMessage]
      ([protocol/jsonrpc.go]: the splitting of the stream, and the messages).
    - The relay server.  [Session] and [SessionManager] ([relay/session.go]),
      [Metrics] ([relay/metrics.go]), [ManagerSpec] (the contract of the
      session manager, its interface [SessionService] and the interleaving of
      its methods with the reaper), [Router] ([relay/router.go] and
      [relay/tcphandler.go]), [HttpApi] ([relay/httpapi.go], proved against
      the interface), [ServerLoop] (all goroutines of the running server over
      one state), [RelayServer] ([relay/server.go], [RunReaper] and
      [relay/cputime_*.go]: start, failures, shutdown).
    - The adapter.  [RelayConn] ([adapter/relayconn.go]), [Transport] (its
      goroutines and [probeAndSetupTransport] of [adapter/adapter.go]), [Peer]
      ([adapter/peer.go]), [PeerMgr] ([adapter/peermgr.go]), [GpgNetServer]
      ([adapter/gpgnetserver.go]), [IcePeer], [IceText] and [IceSignal]
      ([adapter/icepeer.go]), [IceRestart] ([iceRestartCallback] of
      [adapter/rpchandler.go]), [RpcHandler] (the other handlers of
      [adapter/rpchandler.go] and what they use of [adapter/adapter.go]),
      [RpcServer] ([adapter/rpcserver.go]), [AdapterRun] ([Run] of
      [adapter/adapter.go]), [Status] ([adapter/status.go]), [DebugServer]
      ([adapter/debugserver.go]), [Commands] ([adapter/configfile.go] and the
      two [main] functions under [src/cmd]).
    - The system.  [EndToEnd] (game to game through two adapters and the
      server, over UDP and over TCP) and [Registration] (the adapter's HTTP
      requests against the server's API).
    - The tools.  [StressTest] ([src/cmd/stress-test]: the load generator over
      an interface [NetOps] for the network) and [StressRun] (that interface
      implemented by the relay server), [Mock] ([src/internal/testutil]),
      [Harness] ([src/cmd/test-harness]: its scenarios over an interface [Lab]
      for the system under test), [System] (that interface implemented by a
      relay server, adapters with their RPC and GPGNet servers and mock clients
      on one machine, every message as bytes) and [SystemSafe] (an invariant of
      that system under every script, with the timers of its parts).

    ** How the code is modelled

    Go functions are Rocq functions with their names.  Mutable state is passed
    explicitly; the session objects, which the manager, the router and the
    reaper share by pointer, live in a store of the manager.  A run-time panic
    is the outcome [Panic], an [error] a value of a [result] or an [option].
    Integers are [Z] with the wrap-around of their width written out ([u32],
    [i64], ...).  A network write is recorded in the result ([Out],
    [IceWrite]); whether it succeeds, what the clock says and in which order Go
    ranges over a map ([Shuffle]) are arguments.  Goroutines are rounds or
    steps: [rstep] interleaves the manager's methods with the phases of the
    reaper, [qstep] the message queue with its flush, [sig_step] two ICE peers,
    [world_step] the runs of the restart callback, [rpc_step] the connections
    of the RPC server.  Where a long-running function itself can be interrupted
    anywhere ([Server.Run], [Adapter.Run], [probeAndSetupTransport]) it is cut
    into its statements, with a program counter in the state, and a list of
    events ([LifeEvent], [RunEvent], [Event]) gives the schedule together with
    the answers of the operating system; an event whose goroutine is not at that
    point does nothing.

    Loops over a stream take fuel; the callers pass one more than the length
    of the stream, and every frame takes at least three bytes, every GPGNet
    message at least eight.  [Router.handleLoop_fuel] and
    [GpgNetServer.readLoop_fuel] prove that more fuel changes nothing, so the
    totality theorems are about the loops themselves.  The JSON parser's fuel
    is bounded by the length of the text ([Json.value_fuel]).  The probe and the
    reconnect loop recurse over the list of events they see.  [WaitForTCPPort]
    has a turn for each ten milliseconds of its timeout, which is what a turn
    takes at least ([wait_for_port]); the counting loop of [run12Player] has 51
    for its 50 pauses ([harness_blind]).  In [System] a settling network carries
    at most 200 datagrams; a scenario has fewer in flight, which the evaluation
    of the scenarios shows, and [system_safe] holds for any number.
    [server_stops] asks for eight statements of [Run] because there are at most
    eight before the join.

    ** What is proved

    - Formats: each encoder is inverted by the reader of the other side, for
      whole streams ([gpgnet_roundtrip], [tcp_stream_in_order],
      [rpc_messages_roundtrip], [unmarshal_marshal]), and the readers are
      characterised on arbitrary input.
    - Sessions: pinning of addresses and the rate limit; the manager refines
      an abstract map of sessions and players ([manager_refines_spec]); its
      index, gauges and limits are right in every interleaving with the reaper
      ([reaper_interleaving_safe]); what the reaper removes ([reaper_exact])
      and logs ([reaper_cpu_percentage]); the race that is left ([reaper_delete_race]).
    - Forwarding: packets stay in the sender's session and reach exactly the
      routes of their receivers ([udp_routing_exact]); the TCP handler is total
      ([tcp_handler_total]); when the UDP loop panics ([udp_panics_iff]).
    - HTTP: only admitted requests change the manager, by the call they stand
      for ([http_request_effect]); the per-address limiter counts exactly.
    - The server as a whole: consistent under every interleaving of its
      goroutines without a [DELETE] between the phases of the reaper, up to the
      one panic there is, at a datagram of more than 1400 bytes
      ([server_consistent]); as long as none of this happens and no request
      removes it, a player that keeps sending is not reaped
      ([keepalive_never_reaped]) and stays connected to the others
      ([players_stay_connected]); its sockets, listeners and goroutines over its
      life ([server_lifecycle], [server_stops]) and what a failed start leaves
      behind ([failed_run_leaks]).
    - Adapter: the relay connection never panics, and its two directions use
      one transport ([transport_agreement], [transport_decided]); reports on the
      relay alternate and are true ([relay_state_reports]); two ways a socket
      error spoils the connection ([probe_error_blocks_udp],
      [tcp_timeout_desync]); peers own their sockets; messages for the game are
      neither lost nor reordered; ICE data arrives in order; signalling
      converges ([signalling_converges]) and its text survives the way through
      the client ([ice_text_exchange]); restarts are limited and do not act on a
      peer they have not seen, with one exception ([restarts_limited],
      [self_restart_not_stale], [remote_restart_undone]); no player has two
      peers; the status report is deterministic and reads back.
    - The RPC server: requests are handled in order and answered once
      ([rpc_session], [rpc_answers_exact]), connections are bounded and end
      ([rpc_clients_bounded], [rpc_connection_ends]), notifications reach every
      client ([notification_broadcast]).
    - The processes: arguments and file give the configuration asked for
      ([command_line_exact], [config_file_exact]); the adapter starts
      ([process_starts], [adapter_startup_exact]), panics only at a negative
      count in the game's stream and closes what it has deferred
      ([adapter_run_safe]), and ends with the game ([adapter_stops_with_game],
      [adapter_shutdown_exact]).
    - System: a datagram of one game arrives unchanged at the other
      ([game_to_game_udp], [game_to_game_tcp]); a registered player is found by
      the other adapters ([registration_visible]); on the composed system no
      script of a test with well-formed game messages and no schedule of the
      timers makes a part panic, and adapters close what they have deferred
      ([system_safe]); evaluations of the two scenarios of the harness
      ([two_players_end_to_end], [twelve_players_crash_harness]).
    - Tools: the load generator registers everybody ([stress_ramp_up]), each of
      its players receives what the others of its session sent and its counters
      and the server's agree for every schedule ([stress_balance],
      [stress_counters]), it ends ([stress_shutdown]) and its reports are right
      up to rounding ([stress_reports]); which arguments crash it
      ([stress_bad_arguments]).  Calls of the mock client return the results of
      the handlers ([mock_session]) unless a notification is pending
      ([call_takes_notification]).  What a passed scenario means
      ([basic_pass_means], over a record of all the scenario does) and does not
      ([harness_blind]).

    ** What is not modelled

    Log lines other than the statistics of the reaper, of the relay connection
    and of the load generator (that the log files are opened, and which of them is
    never closed, is modelled); HTTP requests that still
    run after the five seconds [Shutdown] gives them; signals, which appear as
    the cancellation of the context; the page of the debug server.  The ICE
    agent is the pion library: its credentials, candidates and connection
    results are parameters.  So are the conversion of number literals through
    [float64] and the wording of errors, which quotes the JSON decoder.  HTTP is
    modelled from parsed requests on.  Deadlines and tickers appear as the
    events they cause.  The composition of [StressRun] leaves out the reaper of
    the embedded server; the composition of [System] is on UDP only, without TCP
    connections to the relay and without ICE transports. *)

From Stdlib Require Export ZArith Lia.
From Stdlib.Strings Require Byte String.
From stdpp Require Export prelude gmap strings list fin_maps.

#[export] Set Default Goal Selector "!".

Declare Scope relay_scope.
Delimit Scope relay_scope with relay.

(** ** Shared notation *)

Abbreviation byte := Byte.byte.
(** A Go [[]byte]. *)
Abbreviation bytes := (list Byte.byte).
(** Go's [len] of a slice, as the machine integer it is compared with. *)
Abbreviation len l := (Z.of_nat (length l)).

Open Scope Z_scope.

(** ** Outcomes of Go calls

    A call that can raise a run-time panic returns an [outcome]; a call that
    returns an [error] value returns a [result]. *)

Inductive outcome (A : Type) : Type :=
| Ret (a : A)
| Panic.
Arguments Ret {A} a.
Arguments Panic {A}.

Inductive result (E A : Type) : Type :=
| Ok (a : A)
| Err (e : E).
Arguments Ok {E A} a.
Arguments Err {E A} e.

#[export] Instance outcome_ret : MRet outcome := fun _ => Ret.
#[export] Instance outcome_bind : MBind outcome := fun _ _ f o =>
  match o with Ret a => f a | Panic => Panic end.
#[export] Instance outcome_fmap : FMap outcome := fun _ _ f o =>
  match o with Ret a => Ret (f a) | Panic => Panic end.
#[export] Instance result_ret E : MRet (result E) := fun _ => Ok.
#[export] Instance result_bind E : MBind (result E) := fun _ _ f r =>
  match r with Ok a => f a | Err e => Err e end.

(** ** Machine integers *)

Definition u8 (z : Z) : Z := z mod 2 ^ 8.
Definition u16 (z : Z) : Z := z mod 2 ^ 16.
Definition u32 (z : Z) : Z := z mod 2 ^ 32.
Definition u64 (z : Z) : Z := z mod 2 ^ 64.
(** Two's-complement reading of the low [w] bits. *)
Definition swrap (w z : Z) : Z := (z + 2 ^ (w - 1)) mod 2 ^ w - 2 ^ (w - 1).
Definition i32 (z : Z) : Z := swrap 32 z.
Definition i64 (z : Z) : Z := swrap 64 z.

(** ** Bytes *)

Definition byteZ (b : byte) : Z := Z.of_N (Byte.to_N b).
Definition Zbyte (z : Z) : byte := default Byte.x00 (Byte.of_N (Z.to_N (u8 z))).

#[export] Instance byte_eq_decision : EqDecision byte := Byte.byte_eq_dec.

(** Fixed-width integers on the wire, most and least significant byte first. *)
Fixpoint le_encode (n : nat) (z : Z) : bytes :=
  match n with
  | O => []
  | S n' => Zbyte z :: le_encode n' (z / 2 ^ 8)
  end.
Fixpoint le_decode (bs : bytes) : Z :=
  match bs with
  | [] => 0
  | b :: bs' => byteZ b + 2 ^ 8 * le_decode bs'
  end.
Definition be_encode (n : nat) (z : Z) : bytes := rev (le_encode n z).
Definition be_decode (bs : bytes) : Z := le_decode (rev bs).

(** [s[lo:hi]] for indices already known to be in range. *)
Definition slice (lo hi : Z) (l : bytes) : bytes :=
  take (Z.to_nat (hi - lo)) (drop (Z.to_nat lo) l).

(** ** Go strings are byte sequences *)

Definition str_bytes (s : string) : bytes := String.list_byte_of_string s.
Definition bytes_str (b : bytes) : string := String.string_of_list_byte b.

(** ** Unspecified iteration order

    Go ranges over a map in an unspecified order.  Every operation that
    ranges over a map takes a [Shuffle]: any function that permutes lists. *)

Record Shuffle := {
  shuf :> forall A : Type, list A -> list A;
  shuf_perm : forall (A : Type) (l : list A), shuf A l ≡ₚ l;
}.
Arguments shuf _ {A} l : rename.
Definition id_shuffle : Shuffle :=
  {| shuf := fun _ l => l; shuf_perm := fun _ l => Permutation_refl l |}.
Definition rev_shuffle : Shuffle :=
  {| shuf := fun _ l => rev l; shuf_perm := fun _ l => Permutation_sym (Permutation_rev l) |}.

(** ** Proof automation *)

Create HintDb relay discriminated.
#[export] Hint Constants Opaque : relay.
Create Rewrite HintDb wire.

(** Split on the first boolean guard or match of the goal and close the
    branches that contradict a hypothesis. *)
Ltac split_guard :=
  match goal with
  | |- context [if ?b then _ else _] => destruct b eqn:?
  | |- context [match ?x with _ => _ end] => destruct x eqn:?
  end; simplify_eq/=.

(** The same on a hypothesis. *)
Ltac split_guard_in H :=
  match type of H with
  | context [if ?b then _ else _] => destruct b eqn:?
  | context [match ?x with _ => _ end] => destruct x eqn:?
  end; simplify_eq/=.

(** Turn boolean comparisons into facts for [lia]. *)
Ltac bool_facts :=
  repeat match goal with
  | H : (_ && _)%bool = true |- _ => apply andb_prop in H as [? ?]
  | H : (_ || _)%bool = false |- _ => apply orb_false_elim in H as [? ?]
  | H : negb _ = true |- _ => apply negb_true_iff in H
  | H : negb _ = false |- _ => apply negb_false_iff in H
  | H : (_ <? _) = true |- _ => apply Z.ltb_lt in H
  | H : (_ <? _) = false |- _ => apply Z.ltb_ge in H
  | H : (_ <=? _) = true |- _ => apply Z.leb_le in H
  | H : (_ <=? _) = false |- _ => apply Z.leb_gt in H
  | H : (_ =? _) = true |- _ => apply Z.eqb_eq in H
  | H : (_ =? _) = false |- _ => apply Z.eqb_neq in H
  | H : bool_decide _ = true |- _ => apply bool_decide_eq_true in H
  | H : bool_decide _ = false |- _ => apply bool_decide_eq_false in H
  end.

(** ** Integers *)

Lemma u8_range z : 0 <= u8 z < 2 ^ 8.
Proof. apply Z.mod_pos_bound; lia. Qed.

Lemma u32_range z : 0 <= u32 z < 2 ^ 32.
Proof. apply Z.mod_pos_bound; lia. Qed.

Lemma u32_small z : 0 <= z < 2 ^ 32 -> u32 z = z.
Proof. apply Z.mod_small. Qed.

Lemma u64_small z : 0 <= z < 2 ^ 64 -> u64 z = z.
Proof. apply Z.mod_small. Qed.

Lemma swrap_range w z : 0 < w -> - 2 ^ (w - 1) <= swrap w z < 2 ^ (w - 1).
Proof.
  intros Hw. unfold swrap.
  pose proof (Z.mod_pos_bound (z + 2 ^ (w - 1)) (2 ^ w)).
  replace (2 ^ w) with (2 * 2 ^ (w - 1)) in *; [lia|].
  rewrite <- Z.pow_succ_r by lia. f_equal; lia.
Qed.

Lemma swrap_small w z : 0 < w -> - 2 ^ (w - 1) <= z < 2 ^ (w - 1) -> swrap w z = z.
Proof.
  intros Hw Hz. unfold swrap. rewrite Z.mod_small; [lia|].
  replace (2 ^ w) with (2 * 2 ^ (w - 1)); [lia|].
  rewrite <- Z.pow_succ_r by lia. f_equal; lia.
Qed.

Lemma i64_small z : - 2 ^ 63 <= z < 2 ^ 63 -> i64 z = z.
Proof. intros. apply swrap_small; lia. Qed.

Lemma i32_small z : - 2 ^ 31 <= z < 2 ^ 31 -> i32 z = z.
Proof. intros. apply swrap_small; lia. Qed.

Lemma swrap_mod w z : 0 < w -> swrap w (z mod 2 ^ w) = swrap w z.
Proof. intros Hw. unfold swrap. by rewrite Zplus_mod_idemp_l. Qed.

(** ** Bytes and fixed-width integers *)

Lemma byteZ_range b : 0 <= byteZ b < 2 ^ 8.
Proof. unfold byteZ. pose proof (Byte.to_N_bounded b). lia. Qed.

Lemma Zbyte_byteZ b : Zbyte (byteZ b) = b.
Proof.
  unfold Zbyte, u8. rewrite Z.mod_small by apply byteZ_range.
  unfold byteZ. rewrite N2Z.id. by rewrite Byte.of_to_N.
Qed.

Lemma byteZ_Zbyte z : byteZ (Zbyte z) = u8 z.
Proof.
  unfold Zbyte. pose proof (u8_range z).
  destruct (Byte.of_N (Z.to_N (u8 z))) as [b|] eqn:E; simpl.
  - apply Byte.to_of_N in E. unfold byteZ. rewrite E. lia.
  - apply Byte.of_N_None_iff in E. lia.
Qed.

Lemma Zbyte_u8 z : Zbyte (u8 z) = Zbyte z.
Proof. unfold Zbyte, u8. by rewrite Z.mod_mod by lia. Qed.

Lemma byteZ_inj a b : byteZ a = byteZ b -> a = b.
Proof. intros H. by rewrite <- (Zbyte_byteZ a), H, Zbyte_byteZ. Qed.

Lemma length_le_encode n z : length (le_encode n z) = n.
Proof. revert z; induction n as [|n IH]; intros z; simpl; [done|]. by rewrite IH. Qed.

Lemma length_be_encode n z : length (be_encode n z) = n.
Proof. unfold be_encode. by rewrite length_rev, length_le_encode. Qed.

Lemma le_decode_encode n z : le_decode (le_encode n z) = z mod 2 ^ (8 * Z.of_nat n).
Proof.
  revert z; induction n as [|n IH]; intros z.
  - change (0 = z mod 1). by rewrite Z.mod_1_r.
  - cbn [le_encode le_decode]. rewrite IH, byteZ_Zbyte. unfold u8.
    replace (8 * Z.of_nat (S n)) with (8 + 8 * Z.of_nat n) by lia.
    rewrite Z.pow_add_r by lia.
    rewrite (Z.rem_mul_r z) by lia. lia.
Qed.

Lemma be_decode_encode n z : be_decode (be_encode n z) = z mod 2 ^ (8 * Z.of_nat n).
Proof. unfold be_decode, be_encode. rewrite rev_involutive. apply le_decode_encode. Qed.

Lemma le_decode_range bs : 0 <= le_decode bs < 2 ^ (8 * len bs).
Proof.
  induction bs as [|b bs IH]; simpl length; cbn [le_decode]; [simpl; lia|].
  pose proof (byteZ_range b).
  replace (8 * Z.of_nat (S (length bs))) with (8 + 8 * len bs) by lia.
  rewrite Z.pow_add_r by lia. nia.
Qed.

Lemma le_encode_decode bs : le_encode (length bs) (le_decode bs) = bs.
Proof.
  induction bs as [|b bs IH]; [done|]. cbn [length le_encode le_decode].
  pose proof (byteZ_range b). f_equal.
  - rewrite <- Zbyte_u8. unfold u8.
    rewrite (Z.mul_comm (2 ^ 8)), Z_mod_plus_full, Z.mod_small by lia. apply Zbyte_byteZ.
  - rewrite (Z.mul_comm (2 ^ 8)), Z.div_add by lia.
    rewrite (Z.div_small (byteZ b)) by lia. by rewrite Z.add_0_l.
Qed.

Lemma be_decode_range bs : 0 <= be_decode bs < 2 ^ (8 * len bs).
Proof. unfold be_decode. rewrite <- (length_rev bs). apply le_decode_range. Qed.

Lemma be_encode_decode n bs : length bs = n -> be_encode n (be_decode bs) = bs.
Proof.
  intros <-. unfold be_encode, be_decode. rewrite <- (length_rev bs), le_encode_decode.
  apply rev_involutive.
Qed.

Lemma le_encode_mod n z : le_encode n (z mod 2 ^ (8 * Z.of_nat n)) = le_encode n z.
Proof.
  rewrite <- le_decode_encode. rewrite <- (length_le_encode n z) at 1.
  apply le_encode_decode.
Qed.

Lemma le_encode_S n z : le_encode (S n) z = Zbyte z :: le_encode n (Z.shiftr z 8).
Proof. cbn [le_encode]. by rewrite Z.shiftr_div_pow2 by lia. Qed.

Lemma le_encode_O z : le_encode 0 z = [].
Proof. done. Qed.

(** Bytes written one by one with shifts are the big-endian encoding. *)
Lemma be_encode_8 z :
  be_encode 8 z = [Zbyte (Z.shiftr z 56); Zbyte (Z.shiftr z 48); Zbyte (Z.shiftr z 40);
    Zbyte (Z.shiftr z 32); Zbyte (Z.shiftr z 24); Zbyte (Z.shiftr z 16); Zbyte (Z.shiftr z 8);
    Zbyte z].
Proof. unfold be_encode. by rewrite !le_encode_S, le_encode_O, !Z.shiftr_shiftr by lia. Qed.

Lemma be_encode_4 z :
  be_encode 4 z = [Zbyte (Z.shiftr z 24); Zbyte (Z.shiftr z 16); Zbyte (Z.shiftr z 8); Zbyte z].
Proof. unfold be_encode. by rewrite !le_encode_S, le_encode_O, !Z.shiftr_shiftr by lia. Qed.

(** Horner's rule for big-endian bytes. *)
Lemma be_decode_snoc l b : be_decode (l ++ [b]) = 2 ^ 8 * be_decode l + byteZ b.
Proof. unfold be_decode. rewrite rev_app_distr. cbn [rev app le_decode]. lia. Qed.

Lemma be_decode_nil : be_decode [] = 0.
Proof. done. Qed.

(** Putting a byte below the bits of [x] with a bitwise or. *)
Lemma lor_shifted x b k :
  0 <= k -> 0 <= b < 2 ^ 8 ->
  Z.lor (Z.shiftl x (k + 8)) (Z.shiftl b k) = Z.shiftl (2 ^ 8 * x + b) k.
Proof.
  intros Hk Hb. rewrite Z.add_comm, <- Z.shiftl_shiftl, <- Z.shiftl_lor by lia. f_equal.
  rewrite <- Z.lxor_lor, <- Z.add_nocarry_lxor; rewrite ?Z.shiftl_mul_pow2 by lia; [lia|..];
  (apply Z.bits_inj'; intros n Hn; rewrite Z.land_spec, Z.bits_0;
   destruct (Z.lt_ge_cases n 8);
   [by rewrite Z.mul_pow2_bits_low by lia|
    rewrite (Z.bits_above_log2 b), andb_false_r; [done|lia|];
    destruct (Z.eq_dec b 0) as [->|]; [simpl; lia|]; apply Z.log2_lt_pow2; try lia;
    eapply Z.lt_le_trans; [apply Hb|]; by apply Z.pow_le_mono_r; lia]).
Qed.

#[export] Hint Rewrite length_le_encode length_be_encode @length_app @length_take
  @length_drop @length_rev : wire.

#[global] Opaque le_encode be_encode le_decode be_decode.

(** ** Lists *)

Lemma take_app_exact {A} (l k : list A) n : length l = n -> take n (l ++ k) = l.
Proof. intros <-. by rewrite take_app_length. Qed.

Lemma drop_app_exact {A} (l k : list A) n : length l = n -> drop n (l ++ k) = k.
Proof. intros <-. by rewrite drop_app_length. Qed.

Lemma slice_length lo hi l :
  0 <= lo -> lo <= hi -> hi <= len l -> length (slice lo hi l) = Z.to_nat (hi - lo).
Proof. intros. unfold slice. rewrite length_take, length_drop. lia. Qed.

Lemma shuf_elem_of (ρ : Shuffle) {A} (l : list A) x : x ∈ ρ A l <-> x ∈ l.
Proof. by rewrite (shuf_perm ρ A l). Qed.

Lemma shuf_length (ρ : Shuffle) {A} (l : list A) : length (ρ A l) = length l.
Proof. apply Permutation_length, shuf_perm. Qed.

Lemma shuf_nil (ρ : Shuffle) {A} : ρ A [] = [].
Proof. apply Permutation_nil_r, shuf_perm. Qed.

(** ** Reachability *)

Lemma rtc_invariant {A} (R : relation A) (P : A -> Prop) :
  (forall x y, R x y -> P x -> P y) -> forall x y, rtc R x y -> P x -> P y.
Proof. intros HR x y. induction 1; eauto. Qed.

(** ** Strings *)

Lemma str_bytes_str b : str_bytes (bytes_str b) = b.
Proof. apply String.list_byte_of_string_of_list_byte. Qed.

Lemma bytes_str_bytes s : bytes_str (str_bytes s) = s.
Proof. apply String.string_of_list_byte_of_string. Qed.

Lemma length_str_bytes s : length (str_bytes s) = String.length s.
Proof.
  unfold str_bytes, String.list_byte_of_string. rewrite length_map.
  induction s as [|c s IH]; simpl; [done|]. by rewrite IH.
Qed.
