(* ===== verification/GoLib.v ===== *)
(** * The parts of Go's standard library that the relay uses

    Clock values ([time]), addresses ([net/netip], [net.IP],
    [net.SplitHostPort], [net.ParseIP]), connections ([net.Conn]), blocking
    reads ([io.ReadFull]) and buffered writes ([bufio.Writer]).  Nothing in
    this file is code of the repository. *)

From S2P Require Import Prelude.
From Stdlib Require Import Ascii.

(** ** [time]

    A [time.Time] is the number of nanoseconds since the zero time (January 1
    of year 1, UTC); a [time.Duration] is a signed 64-bit number of
    nanoseconds. *)
Module Time.
Definition nanosecond : Z := 1.
Definition Millisecond : Z := 1000000.
Definition Second : Z := 1000000000.
Definition Minute : Z := 60 * Second.
Definition zero : Z := 0.
Definition IsZero (t : Z) : bool := t =? zero.
(** Seconds from the zero time to the Unix epoch. *)
Definition unixToInternal : Z := 62135596800.
Definition Unix (t : Z) : Z := t / Second - unixToInternal.
Definition UnixNano (t : Z) : Z := i64 (t - unixToInternal * Second).
Definition UnixMilli (t : Z) : Z := t / Millisecond - unixToInternal * 1000.
Definition maxDuration : Z := 2 ^ 63 - 1.
Definition minDuration : Z := - 2 ^ 63.
(** [t.Sub(u)], which saturates. *)
Definition Sub (t u : Z) : Z := Z.max minDuration (Z.min maxDuration (t - u)).
Definition Add (t d : Z) : Z := t + d.
End Time.

(** ** [net/netip] *)
Inductive Addr : Type :=
| AddrZero
| Addr4 (v : Z)
| Addr6 (v : Z) (zone : string).

Record AddrPort := MkAddrPort { ap_addr : Addr; ap_port : Z }.

(** [netip.AddrPort{}]. *)
Definition AddrPort_zero : AddrPort := MkAddrPort AddrZero 0.

#[export] Instance Addr_eq_dec : EqDecision Addr.
Proof. solve_decision. Defined.
#[export] Instance AddrPort_eq_dec : EqDecision AddrPort.
Proof. solve_decision. Defined.

Definition Addr_IsValid (a : Addr) : bool :=
  match a with AddrZero => false | _ => true end.
Definition IsValid (ap : AddrPort) : bool := Addr_IsValid (ap_addr ap).

(** ** Characters *)
Module Chars.
Definition is_digit (c : ascii) : bool :=
  let n := Z.of_N (N_of_ascii c) in (48 <=? n) && (n <=? 57).
Definition digit_val (c : ascii) : Z := Z.of_N (N_of_ascii c) - 48.
Definition hex_val (c : ascii) : option Z :=
  let n := Z.of_N (N_of_ascii c) in
  if (48 <=? n) && (n <=? 57) then Some (n - 48)
  else if (97 <=? n) && (n <=? 102) then Some (n - 97 + 10)
  else if (65 <=? n) && (n <=? 70) then Some (n - 65 + 10)
  else None.
Fixpoint index (c : ascii) (l : list ascii) : option nat :=
  match l with
  | [] => None
  | d :: l' => if bool_decide (c = d) then Some O else S <$> index c l'
  end.
Definition last_index (c : ascii) (l : list ascii) : option nat :=
  (fun k => (length l - 1 - k)%nat) <$> index c (rev l).
Definition contains (c : ascii) (l : list ascii) : bool :=
  match index c l with Some _ => true | None => false end.
End Chars.
Import Chars.

Definition chars (s : string) : list ascii := String.list_ascii_of_string s.
Definition of_chars (l : list ascii) : string := String.string_of_list_ascii l.

(** [net.SplitHostPort]. *)
Definition SplitHostPort (hostport : string) : option (string * string) :=
  let l := chars hostport in
  match last_index ":" l with
  | None => None
  | Some i =>
      let port := drop (S i) l in
      let finish host j k :=
        if contains "[" (drop j l) then None
        else if contains "]" (drop k l) then None
        else Some (of_chars host, of_chars port) in
      if bool_decide (hd_error l = Some "["%char) then
        match index "]" l with
        | None => None
        | Some e =>
            if bool_decide (S e = i) then finish (drop 1 (take e l)) 1%nat (S e)
            else None
        end
      else
        let host := take i l in
        if contains ":" host then None else finish host O O
  end.

(** [parseIPv4Fields]: four dotted decimal octets without leading zeros. *)
Fixpoint v4_fields (s : list ascii) (val pos digLen : Z) (prevDot : bool)
    (acc : list Z) : option (list Z) :=
  match s with
  | [] => if pos <? 3 then None else if prevDot then None else Some (acc ++ [val])
  | c :: s' =>
      if is_digit c then
        if (digLen =? 1) && (val =? 0) then None
        else
          let val' := val * 10 + digit_val c in
          if 255 <? val' then None
          else v4_fields s' val' pos (digLen + 1) false acc
      else if bool_decide (c = "."%char) then
        if prevDot then None
        else if bool_decide (s' = []) then None
        else if pos =? 3 then None
        else v4_fields s' 0 (pos + 1) 0 true (acc ++ [val])
      else None
  end.
Definition parseIPv4Fields (s : list ascii) : option (list Z) := v4_fields s 0 0 0 true [].

(** The leading hexadecimal group of a field: its value, its width, the rest. *)
Fixpoint hex_group (s : list ascii) (off acc : Z) : option (Z * Z * list ascii) :=
  match s with
  | [] => Some (acc, off, [])
  | c :: s' =>
      match hex_val c with
      | None => Some (acc, off, s)
      | Some d =>
          if 3 <? off then None
          else
            let acc' := acc * 16 + d in
            if 65535 <? acc' then None else hex_group s' (off + 1) acc'
      end
  end.

Definition v4_words (f : list Z) : list Z :=
  match f with
  | [a; b; c; d] => [a * 256 + b; c * 256 + d]
  | _ => []
  end.

(** The group loop of [parseIPv6]; [fuel] is the number of free groups. *)
Fixpoint v6_groups (fuel : nat) (s : list ascii) (ell : option nat) (acc : list Z)
    : option (list ascii * option nat * list Z) :=
  match fuel with
  | O => Some (s, ell, acc)
  | S fuel' =>
      match hex_group s 0 0 with
      | None => None
      | Some (v, off, s1) =>
          if off =? 0 then None
          else if bool_decide (hd_error s1 = Some "."%char) then
            if bool_decide (ell = None) && negb (bool_decide (length acc = 6%nat)) then None
            else if bool_decide (6 < length acc)%nat then None
            else match parseIPv4Fields s with
                 | None => None
                 | Some f => Some ([], ell, acc ++ v4_words f)
                 end
          else
            let acc1 := acc ++ [v] in
            match s1 with
            | [] => Some ([], ell, acc1)
            | c :: s2 =>
                if negb (bool_decide (c = ":"%char)) then None
                else match s2 with
                     | [] => None
                     | c2 :: s3 =>
                         if bool_decide (c2 = ":"%char) then
                           match ell with
                           | Some _ => None
                           | None =>
                               match s3 with
                               | [] => Some ([], Some (length acc1), acc1)
                               | _ => v6_groups fuel' s3 (Some (length acc1)) acc1
                               end
                           end
                         else v6_groups fuel' s2 ell acc1
                     end
            end
      end
  end.

Definition parseIPv6 (inp : list ascii) : option (list Z * string) :=
  let '(s, zone, bad) :=
    match index "%" inp with
    | None => (inp, [], false)
    | Some i => (take i inp, drop (S i) inp, bool_decide (drop (S i) inp = []))
    end in
  if bad then None
  else
    let lead := bool_decide (take 2 s = [":"%char; ":"%char]) in
    let s0 := if lead then drop 2 s else s in
    if lead && bool_decide (s0 = []) then Some (replicate 8 0, of_chars zone)
    else match v6_groups 8 s0 (if lead then Some O else None) [] with
         | None => None
         | Some (rest, ell, acc) =>
             if negb (bool_decide (rest = [])) then None
             else if (length acc <? 8)%nat then
               match ell with
               | None => None
               | Some e =>
                   Some (take e acc ++ replicate (8 - length acc) 0 ++ drop e acc,
                         of_chars zone)
               end
             else match ell with
                  | Some _ => None
                  | None => Some (acc, of_chars zone)
                  end
         end.

(** [net.IP]: [None] is nil, otherwise the sixteen bytes as eight words. *)
Abbreviation IP := (option (list Z)).

Fixpoint parse_dispatch (l s : list ascii) : IP :=
  match l with
  | [] => None
  | c :: l' =>
      if bool_decide (c = "."%char) then
        f ← parseIPv4Fields s; Some ([0; 0; 0; 0; 0; 65535] ++ v4_words f)
      else if bool_decide (c = ":"%char) then
        match parseIPv6 s with
        | Some (ip, zone) => if bool_decide (zone = ""%string) then Some ip else None
        | None => None
        end
      else if bool_decide (c = "%"%char) then None
      else parse_dispatch l' s
  end.
(** [net.ParseIP]. *)
Definition ParseIP (s : string) : IP := parse_dispatch (chars s) (chars s).
(** [net.IP.Equal]. *)
Definition IP_Equal (a b : IP) : bool := bool_decide (a = b).

Example ParseIP_v4 : ParseIP "10.0.0.7" = Some [0; 0; 0; 0; 0; 65535; 2560; 7].
Proof. reflexivity. Qed.
Example ParseIP_v4_leading_zero : ParseIP "10.0.0.07" = None.
Proof. reflexivity. Qed.
Example ParseIP_v4_short : ParseIP "10.0.7" = None.
Proof. reflexivity. Qed.
Example ParseIP_v6 : ParseIP "2001:db8::1" = Some [8193; 3512; 0; 0; 0; 0; 0; 1].
Proof. reflexivity. Qed.
Example ParseIP_mapped : ParseIP "::ffff:10.0.0.7" = ParseIP "10.0.0.7".
Proof. reflexivity. Qed.
Example ParseIP_zone : ParseIP "fe80::1%eth0" = None.
Proof. reflexivity. Qed.
Example SplitHostPort_v4 : SplitHostPort "10.0.0.7:443" = Some ("10.0.0.7", "443")%string.
Proof. reflexivity. Qed.
Example SplitHostPort_v6 : SplitHostPort "[2001:db8::1]:443" = Some ("2001:db8::1", "443")%string.
Proof. reflexivity. Qed.
Example SplitHostPort_none : SplitHostPort "10.0.0.7" = None.
Proof. reflexivity. Qed.

(** ** [net.Conn]

    A TCP connection is an object: two connections are the same when they
    have the same identity.  [c_remote] is the text of [RemoteAddr()], [None]
    when that is nil. *)
Record Conn := MkConn { c_id : nat; c_remote : option string }.

#[export] Instance Conn_eq_dec : EqDecision Conn.
Proof. solve_decision. Defined.

(** What a program asks of its sockets: a datagram to an address, one write on
    a connection, closing a connection. *)
Inductive Out :=
| SendUDP (addr : AddrPort) (data : bytes)
| SendTCP (conn : Conn) (data : bytes)
| CloseTCP (conn : Conn).

(** ** [io.ReadFull]

    A reader is the list of bytes the peer sends before it closes. *)
Inductive IOErr := EOF | ErrUnexpectedEOF | ErrShortBuffer.

Definition ReadFull (n : Z) (r : bytes) : result IOErr (bytes * bytes) :=
  if n =? 0 then Ok ([], r)
  else match r with
       | [] => Err EOF
       | _ => if len r <? n then Err ErrUnexpectedEOF
              else Ok (take (Z.to_nat n) r, drop (Z.to_nat n) r)
       end.

Lemma ReadFull_app n p r : len p = n -> ReadFull n (p ++ r) = Ok (p, r).
Proof.
  intros <-. unfold ReadFull. destruct (Z.eqb_spec (len p) 0) as [E|E].
  - destruct p; [done|simpl in E; lia].
  - destruct (p ++ r) as [|b l] eqn:D; [by destruct p|].
    rewrite <- D. rewrite length_app.
    rewrite (proj2 (Z.ltb_ge _ _)) by lia.
    by rewrite Nat2Z.id, take_app_length, drop_app_length.
Qed.

Lemma ReadFull_Ok n r p r' :
  0 <= n -> ReadFull n r = Ok (p, r') -> r = p ++ r' /\ len p = n.
Proof.
  intros Hn. unfold ReadFull. repeat split_guard; intros; simplify_eq; bool_facts.
  - by subst.
  - rewrite take_drop, length_take. simpl in *. split; [done|lia].
Qed.

(** ** [bufio.Writer] over a connection

    [bw_out] is what the connection has received, [bw_buf] what is buffered,
    [bw_err] the sticky error, [bw_broken] that the connection refuses
    further writes. *)
Record BufWriter := MkBufWriter {
  bw_out : bytes; bw_buf : bytes; bw_err : bool; bw_broken : bool }.

Definition defaultBufSize : Z := 4096.
Definition NewBufWriter : BufWriter := MkBufWriter [] [] false false.
Definition bw_avail (w : BufWriter) : Z := defaultBufSize - len (bw_buf w).
Definition bw_append (p : bytes) (w : BufWriter) : BufWriter :=
  MkBufWriter (bw_out w) (bw_buf w ++ p) (bw_err w) (bw_broken w).
(** One write to the underlying connection. *)
Definition bw_emit (p : bytes) (w : BufWriter) : BufWriter :=
  if bw_broken w then MkBufWriter (bw_out w) (bw_buf w) true true
  else MkBufWriter (bw_out w ++ p) (bw_buf w) (bw_err w) false.
(** [Flush]; the boolean is [true] on success. *)
Definition Flush (w : BufWriter) : BufWriter * bool :=
  if bw_err w then (w, false)
  else match bw_buf w with
       | [] => (w, true)
       | b => let w' := bw_emit b w in
              if bw_err w' then (w', false)
              else (MkBufWriter (bw_out w') [] false (bw_broken w'), true)
       end.
(** [Write]. *)
Definition Write (p : bytes) (w : BufWriter) : BufWriter * bool :=
  if bw_err w then (w, false)
  else if len p <=? bw_avail w then (bw_append p w, true)
  else match bw_buf w with
       | [] => let w' := bw_emit p w in (w', negb (bw_err w'))
       | _ =>
           let n := Z.to_nat (bw_avail w) in
           let '(w1, ok) := Flush (bw_append (take n p) w) in
           if negb ok then (w1, false)
           else if len (drop n p) <=? defaultBufSize then (bw_append (drop n p) w1, true)
           else let w2 := bw_emit (drop n p) w1 in (w2, negb (bw_err w2))
       end.
(** [WriteByte]. *)
Definition WriteByte (b : byte) (w : BufWriter) : BufWriter * bool :=
  if bw_err w then (w, false)
  else if bw_avail w <=? 0 then
    let '(w1, ok) := Flush w in
    if ok then (bw_append [b] w1, true) else (w1, false)
  else (bw_append [b] w, true).

(** A writer that can still make progress. *)
Definition bw_healthy (w : BufWriter) : Prop := bw_err w = false /\ bw_broken w = false.
(** Everything handed to the writer so far, sent or buffered. *)
Definition bw_content (w : BufWriter) : bytes := bw_out w ++ bw_buf w.

Lemma bw_append_spec p w :
  bw_healthy w -> bw_healthy (bw_append p w) /\ bw_content (bw_append p w) = bw_content w ++ p.
Proof. intros [??]. unfold bw_content; simpl. by rewrite app_assoc. Qed.

Lemma Flush_spec w :
  bw_healthy w -> exists w', Flush w = (w', true) /\ bw_healthy w' /\
    bw_out w' = bw_content w /\ bw_buf w' = [].
Proof.
  intros [He Hb]. unfold Flush, bw_emit, bw_content. rewrite He, Hb.
  destruct (bw_buf w) as [|b l] eqn:E; simpl.
  - exists w. rewrite app_nil_r. by repeat split.
  - eexists. rewrite ?He. by repeat split.
Qed.

Lemma Write_spec p w :
  bw_healthy w -> exists w', Write p w = (w', true) /\ bw_healthy w' /\
    bw_content w' = bw_content w ++ p.
Proof.
  intros Hw. pose proof Hw as [He Hb]. unfold Write. rewrite He.
  destruct (_ <=? _) eqn:E1.
  { eexists; split; [done|]. by apply bw_append_spec. }
  destruct (bw_buf w) as [|b l] eqn:Eb.
  { unfold bw_emit, bw_content. rewrite Hb. simpl. rewrite ?He. eexists; split; [done|].
    split; [done|]. simpl. by rewrite Eb, !app_nil_r. }
  set (n := Z.to_nat (bw_avail w)).
  destruct (bw_append_spec (take n p) w Hw) as [Ha Hc].
  destruct (Flush_spec _ Ha) as (w1 & -> & H1 & Ho & Hbuf). simpl.
  rewrite Hc in Ho. destruct (_ <=? defaultBufSize).
  - eexists; split; [done|]. destruct (bw_append_spec (drop n p) w1 H1) as [? ->].
    split; [done|]. unfold bw_content at 1. rewrite Hbuf, Ho, app_nil_r, <- app_assoc.
    by rewrite take_drop.
  - destruct H1 as [He1 Hb1]. unfold bw_emit. rewrite Hb1. simpl. rewrite ?He1.
    eexists; split; [done|]. split; [done|]. unfold bw_content at 1; simpl.
    by rewrite Hbuf, Ho, app_nil_r, <- app_assoc, take_drop.
Qed.

Lemma WriteByte_spec b w :
  bw_healthy w -> exists w', WriteByte b w = (w', true) /\ bw_healthy w' /\
    bw_content w' = bw_content w ++ [b].
Proof.
  intros Hw. unfold WriteByte. rewrite (proj1 Hw). destruct (_ <=? 0).
  - destruct (Flush_spec w Hw) as (w1 & -> & H1 & Ho & Hbuf).
    eexists; split; [done|]. destruct (bw_append_spec [b] w1 H1) as [? ->].
    split; [done|]. unfold bw_content at 1. by rewrite Hbuf, Ho, app_nil_r.
  - eexists; split; [done|]. by apply bw_append_spec.
Qed.

(** ** In-place writes

    [copy(buf[off:], src)]: as much of [src] as fits is written at [off]. *)
Definition copy_at (off : Z) (src buf : bytes) : bytes :=
  let o := Z.to_nat off in
  let n := Nat.min (length src) (length buf - o) in
  take o buf ++ take n src ++ drop (o + n) buf.
(** [binary.BigEndian.PutUint32(buf[off:off+4], v)] and its 16- and 64-bit
    variants, for an offset that is in range. *)
Definition PutUint16 (off v : Z) (buf : bytes) : bytes := copy_at off (be_encode 2 v) buf.
Definition PutUint32 (off v : Z) (buf : bytes) : bytes := copy_at off (be_encode 4 v) buf.
Definition PutUint64 (off v : Z) (buf : bytes) : bytes := copy_at off (be_encode 8 v) buf.
(** [binary.BigEndian.Uint32(b)]. *)
Definition Uint16 (b : bytes) : Z := be_decode b.
Definition Uint32 (b : bytes) : Z := be_decode b.
Definition Uint64 (b : bytes) : Z := be_decode b.

Lemma length_copy_at off src buf :
  0 <= off <= len buf -> length (copy_at off src buf) = length buf.
Proof. intros. unfold copy_at. rewrite !length_app, !length_take, length_drop. lia. Qed.

(** A write into the middle of a buffer whose parts are known. *)
Lemma copy_at_mid off src pre mid post :
  len pre = off -> length mid = length src ->
  copy_at off src (pre ++ mid ++ post) = pre ++ src ++ post.
Proof.
  intros <- Hm. unfold copy_at. rewrite Nat2Z.id, !length_app, take_app_length.
  f_equal. f_equal.
  - apply take_ge. lia.
  - rewrite drop_app_add'; [|done]. apply drop_app_exact. lia.
Qed.

Lemma copy_at_tail off src pre post :
  len pre = off -> length src = length post ->
  copy_at off src (pre ++ post) = pre ++ src.
Proof.
  intros Ho Hl. pose proof (copy_at_mid off src pre post [] Ho (eq_sym Hl)) as E.
  by rewrite !app_nil_r in E.
Qed.

Lemma copy_at_front src mid post :
  length mid = length src -> copy_at 0 src (mid ++ post) = src ++ post.
Proof. intros H. exact (copy_at_mid 0 src [] mid post eq_refl H). Qed.
