(* ===== verification/GoText.v ===== *)
(** * Go's text: [unicode/utf8], [strconv] and [strings]

    What the program uses of Go's text packages.  A Go string is its bytes; a
    rune is its code point. *)

From stdpp Require Import pretty.
From Stdlib Require Ascii.
From S2P Require Import Prelude.

(** ** [unicode/utf8] *)

Definition RuneError : Z := 65533.

Definition is_cont (lo hi : Z) (b : byte) : bool := (lo <=? byteZ b) && (byteZ b <=? hi).

(** [utf8.DecodeRune]: the first rune and its width; an encoding that is not
    valid gives [RuneError] and width one. *)
Definition DecodeRune (p : bytes) : Z * nat :=
  match p with
  | [] => (RuneError, 0%nat)
  | p0 :: r =>
      let b0 := byteZ p0 in
      if b0 <? 128 then (b0, 1%nat)
      else if (194 <=? b0) && (b0 <=? 223) then
        match r with
        | p1 :: _ =>
            if is_cont 128 191 p1 then ((b0 - 192) * 64 + (byteZ p1 - 128), 2%nat)
            else (RuneError, 1%nat)
        | _ => (RuneError, 1%nat)
        end
      else if (224 <=? b0) && (b0 <=? 239) then
        match r with
        | p1 :: p2 :: _ =>
            if is_cont (if b0 =? 224 then 160 else 128) (if b0 =? 237 then 159 else 191) p1 &&
               is_cont 128 191 p2
            then (((b0 - 224) * 64 + (byteZ p1 - 128)) * 64 + (byteZ p2 - 128), 3%nat)
            else (RuneError, 1%nat)
        | _ => (RuneError, 1%nat)
        end
      else if (240 <=? b0) && (b0 <=? 244) then
        match r with
        | p1 :: p2 :: p3 :: _ =>
            if is_cont (if b0 =? 240 then 144 else 128) (if b0 =? 244 then 143 else 191) p1 &&
               is_cont 128 191 p2 && is_cont 128 191 p3
            then ((((b0 - 240) * 64 + (byteZ p1 - 128)) * 64 + (byteZ p2 - 128)) * 64 +
                  (byteZ p3 - 128), 4%nat)
            else (RuneError, 1%nat)
        | _ => (RuneError, 1%nat)
        end
      else (RuneError, 1%nat)
  end.

(** [utf8.ValidRune] *)
Definition ValidRune (r : Z) : bool :=
  ((0 <=? r) && (r <? 55296)) || ((57343 <? r) && (r <=? 1114111)).

(** [utf8.AppendRune]: what it appends. *)
Definition EncodeRune (r : Z) : bytes :=
  let r := if ValidRune r then r else RuneError in
  if r <=? 127 then [Zbyte r]
  else if r <=? 2047 then [Zbyte (192 + r / 64); Zbyte (128 + r mod 64)]
  else if r <=? 65535 then
    [Zbyte (224 + r / 4096); Zbyte (128 + (r / 64) mod 64); Zbyte (128 + r mod 64)]
  else [Zbyte (240 + r / 262144); Zbyte (128 + (r / 4096) mod 64); Zbyte (128 + (r / 64) mod 64);
        Zbyte (128 + r mod 64)].

(** The text of a list of runes; a string is valid UTF-8 when it is such a
    text. *)
Definition utf8 (rs : list Z) : bytes := concat (EncodeRune <$> rs).
Definition valid_utf8 (s : bytes) : Prop :=
  exists rs, s = utf8 rs /\ Forall (fun r => ValidRune r = true) rs.

(** [[]rune(s)]; a rune takes at least one byte. *)
Fixpoint runesLoop (fuel : nat) (s : bytes) : list Z :=
  match fuel with
  | O => []
  | S fuel' =>
      match s with
      | [] => []
      | _ => let '(r, n) := DecodeRune s in r :: runesLoop fuel' (drop n s)
      end
  end.
Definition runes (s : bytes) : list Z := runesLoop (length s) s.

(** ** Lemmas on UTF-8 *)

Lemma byteZ_small z : 0 <= z < 256 -> byteZ (Zbyte z) = z.
Proof. intros. rewrite byteZ_Zbyte. apply Z.mod_small. done. Qed.

(** Decide the comparisons of a goal by arithmetic. *)
Ltac decide_guards :=
  repeat match goal with
  | |- context [?a <? ?b] =>
      first [rewrite (proj2 (Z.ltb_lt a b)) by lia | rewrite (proj2 (Z.ltb_ge a b)) by lia]
  | |- context [?a <=? ?b] =>
      first [rewrite (proj2 (Z.leb_le a b)) by lia | rewrite (proj2 (Z.leb_gt a b)) by lia]
  | |- context [?a =? ?b] =>
      first [rewrite (proj2 (Z.eqb_eq a b)) by lia | rewrite (proj2 (Z.eqb_neq a b)) by lia]
  end; cbn [andb orb].

Lemma ValidRune_range r :
  ValidRune r = true <-> 0 <= r < 55296 \/ 57343 < r <= 1114111.
Proof. unfold ValidRune. lia. Qed.

Lemma decode_1 r rest : 0 <= r < 128 -> DecodeRune (Zbyte r :: rest) = (r, 1%nat).
Proof. intros H. cbn [DecodeRune]. rewrite byteZ_small by lia. by decide_guards. Qed.

Lemma decode_2 r rest : 128 <= r < 2048 ->
  DecodeRune (Zbyte (192 + r / 64) :: Zbyte (128 + r mod 64) :: rest) = (r, 2%nat).
Proof.
  intros H. cbn [DecodeRune]. unfold is_cont.
  rewrite !byteZ_small by (Z.to_euclidean_division_equations; lia).
  assert (2 <= r / 64 < 32 /\ 0 <= r mod 64 < 64 /\ r = 64 * (r / 64) + r mod 64)
    by (Z.to_euclidean_division_equations; lia).
  decide_guards. f_equal. lia.
Qed.

Lemma decode_3 r rest : 2048 <= r < 65536 -> ~ 55296 <= r < 57344 ->
  DecodeRune (Zbyte (224 + r / 4096) :: Zbyte (128 + (r / 64) mod 64) :: Zbyte (128 + r mod 64) :: rest)
  = (r, 3%nat).
Proof.
  intros H Hs. cbn [DecodeRune]. unfold is_cont.
  set (a := r / 4096). set (b := (r / 64) mod 64). set (c := r mod 64).
  assert (0 <= a < 16 /\ 0 <= b < 64 /\ 0 <= c < 64 /\ r = 4096 * a + 64 * b + c) as (Ha & Hb & Hc & E)
    by (subst a b c; Z.to_euclidean_division_equations; lia).
  clearbody a b c. rewrite !byteZ_small by lia.
  destruct (Z.eqb_spec (224 + a) 224), (Z.eqb_spec (224 + a) 237); decide_guards; f_equal; lia.
Qed.

Lemma decode_4 r rest : 65536 <= r <= 1114111 ->
  DecodeRune (Zbyte (240 + r / 262144) :: Zbyte (128 + (r / 4096) mod 64) ::
              Zbyte (128 + (r / 64) mod 64) :: Zbyte (128 + r mod 64) :: rest) = (r, 4%nat).
Proof.
  intros H. cbn [DecodeRune]. unfold is_cont.
  set (a := r / 262144). set (b := (r / 4096) mod 64). set (c := (r / 64) mod 64). set (d := r mod 64).
  assert (0 <= a < 5 /\ 0 <= b < 64 /\ 0 <= c < 64 /\ 0 <= d < 64 /\
          r = 262144 * a + 4096 * b + 64 * c + d) as (Ha & Hb & Hc & Hd & E)
    by (subst a b c d; Z.to_euclidean_division_equations; lia).
  clearbody a b c d. rewrite !byteZ_small by lia.
  destruct (Z.eqb_spec (240 + a) 240), (Z.eqb_spec (240 + a) 244); decide_guards; f_equal; lia.
Qed.

(** Encoding a rune and decoding it again. *)
Lemma decode_encode_rune r rest :
  ValidRune r = true -> DecodeRune (EncodeRune r ++ rest) = (r, length (EncodeRune r)).
Proof.
  intros H. unfold EncodeRune. rewrite H. apply ValidRune_range in H.
  destruct (Z.leb_spec r 127); [apply decode_1; lia|].
  destruct (Z.leb_spec r 2047); [apply decode_2; lia|].
  destruct (Z.leb_spec r 65535); [apply decode_3; lia|]. apply decode_4; lia.
Qed.

Lemma EncodeRune_cons r : exists b l, EncodeRune r = b :: l.
Proof. unfold EncodeRune. repeat case_match; eauto. Qed.

(** The first byte tells ASCII runes from the others. *)
Lemma EncodeRune_ascii r : 0 <= r < 128 -> EncodeRune r = [Zbyte r].
Proof. intros H. unfold EncodeRune. rewrite (proj2 (ValidRune_range r)) by lia. by decide_guards. Qed.

Lemma EncodeRune_high r :
  ValidRune r = true -> 128 <= r -> Forall (fun b => 128 <= byteZ b) (EncodeRune r).
Proof.
  intros H Hr. unfold EncodeRune. rewrite H. apply ValidRune_range in H.
  repeat case_match; bool_facts; try lia; repeat constructor; rewrite byteZ_small;
    Z.to_euclidean_division_equations; lia.
Qed.

Lemma utf8_app a b : utf8 (a ++ b) = utf8 a ++ utf8 b.
Proof. unfold utf8. by rewrite fmap_app, concat_app. Qed.

Lemma valid_app a b : valid_utf8 a -> valid_utf8 b -> valid_utf8 (a ++ b).
Proof.
  intros (ra & -> & Ha) (rb & -> & Hb). exists (ra ++ rb). rewrite utf8_app.
  split; [done|by apply Forall_app].
Qed.

Lemma valid_rune r : ValidRune r = true -> valid_utf8 (EncodeRune r).
Proof. intros H. exists [r]. split; [|by constructor]. unfold utf8. simpl. by rewrite app_nil_r. Qed.

Lemma valid_ascii s : Forall (fun b => byteZ b < 128) s -> valid_utf8 s.
Proof.
  induction 1 as [|b s Hb Hs IH]; [by exists []|]. change (b :: s) with ([b] ++ s).
  apply valid_app; [|done]. pose proof (byteZ_range b). rewrite <- (Zbyte_byteZ b).
  rewrite <- EncodeRune_ascii by lia. apply valid_rune, ValidRune_range. lia.
Qed.

(** Decoding a valid string gives its runes. *)
Lemma runes_utf8 rs : Forall (fun r => ValidRune r = true) rs -> runes (utf8 rs) = rs.
Proof.
  unfold runes. intros H. enough (forall n, (length (utf8 rs) <= n)%nat -> runesLoop n (utf8 rs) = rs)
    by auto. induction H as [|r rs Hr Hrs IH]; intros n Hn.
  - by destruct n.
  - unfold utf8 in *. rewrite fmap_cons in *. cbn [concat] in *. rewrite length_app in Hn.
    destruct (EncodeRune_cons r) as (b & l & E).
    destruct n as [|n]; [rewrite E in Hn; simpl in Hn; lia|]. cbn [runesLoop].
    rewrite decode_encode_rune by done. rewrite drop_app_length.
    rewrite IH by (rewrite E in Hn; simpl in Hn; lia). by rewrite E.
Qed.

(** ** [strconv] *)

(** [strconv.Itoa] and the verb [%d]. *)
Definition Itoa (z : Z) : bytes := str_bytes (pretty z).

Fixpoint digitsVal (acc : Z) (s : bytes) : option Z :=
  match s with
  | [] => Some acc
  | b :: s' =>
      if (48 <=? byteZ b) && (byteZ b <=? 57) then digitsVal (acc * 10 + (byteZ b - 48)) s' else None
  end.
(** [strconv.Atoi] and [strconv.ParseInt(s, 10, 64)]; [None] is an error. *)
Definition Atoi (s : bytes) : option Z :=
  let '(neg, s) := match s with
                   | b :: s' => if byteZ b =? 45 then (true, s')
                                else if byteZ b =? 43 then (false, s') else (false, s)
                   | [] => (false, [])
                   end in
  match s with
  | [] => None
  | _ => v ← digitsVal 0 s;
         let v := if neg then - v else v in
         if (- 2 ^ 63 <=? v) && (v <? 2 ^ 63) then Some v else None
  end.

Lemma pretty_N_char_byte n : (n < 10)%N ->
  byteZ (Ascii.byte_of_ascii (pretty_N_char n)) = 48 + Z.of_N n.
Proof.
  intros H. destruct n as [|p]; [done|].
  do 4 (destruct p as [p|p|]; try done); exfalso; revert H; clear; lia.
Qed.

Lemma str_bytes_cons c s : str_bytes (String c s) = Ascii.byte_of_ascii c :: str_bytes s.
Proof. done. Qed.

Lemma digitsVal_go x s : digitsVal 0 (str_bytes (pretty_N_go x s)) = digitsVal (Z.of_N x) (str_bytes s).
Proof.
  revert s. induction (N.lt_wf_0 x) as [x _ IH]; intros s.
  destruct (decide (x = 0)%N) as [->|Hx]; [by rewrite pretty_N_go_0|].
  rewrite pretty_N_go_step by lia. rewrite IH by (apply N.div_lt; lia).
  rewrite str_bytes_cons. cbn [digitsVal].
  assert (Hm : (x `mod` 10 < 10)%N) by (apply N.mod_lt; lia).
  pose proof (N.div_mod x 10 ltac:(lia)) as E. rewrite (pretty_N_char_byte _ Hm).
  revert Hm E. generalize (x `mod` 10)%N (x `div` 10)%N. intros m d Hm E. decide_guards. f_equal. lia.
Qed.

(** Reading back what was printed. *)
Lemma Atoi_Itoa z : - 2 ^ 63 <= z < 2 ^ 63 -> Atoi (Itoa z) = Some z.
Proof.
  intros Hz. unfold Itoa.
  assert (Hpos : forall p, exists b l, str_bytes (pretty (N.pos p)) = b :: l /\
    48 <= byteZ b <= 57 /\ digitsVal 0 (b :: l) = Some (Z.pos p)).
  { intros p. pose proof (digitsVal_go (N.pos p) "") as E. unfold pretty, pretty_N.
    rewrite decide_False by done. destruct (str_bytes (pretty_N_go (N.pos p) "")) as [|b l]; [done|].
    exists b, l. split; [done|]. split; [|exact E]. cbn [digitsVal] in E. case_match eqn:G; [|done]. lia. }
  unfold Atoi. destruct z as [|p|p]; [done| |].
  - change (pretty (Z.pos p)) with (pretty (N.pos p)). destruct (Hpos p) as (b & l & -> & Hb & E).
    decide_guards. rewrite E. cbn [mbind option_bind]. by decide_guards.
  - change (pretty (Z.neg p)) with (String (Ascii.ascii_of_byte Byte.x2d) (pretty (N.pos p))).
    destruct (Hpos p) as (b & l & E1 & Hb & E). rewrite str_bytes_cons, E1.
    change (byteZ (Ascii.byte_of_ascii (Ascii.ascii_of_byte Byte.x2d)) =? 45) with true. cbv iota beta.
    rewrite E. cbn [mbind option_bind]. by decide_guards.
Qed.
