(* ===== verification/Float.v ===== *)
(** * Go's [float64]: rounding, arithmetic and the verb [%.Nf]

    Conversions from integers, division, product and sum round the exact result
    to the nearest number with 53 significant bits, ties to even.  The numbers
    the program computes this way (rates, sizes, percentages) stay far inside
    the range of normal numbers ([round64_normal]), so neither infinities nor
    subnormal numbers appear.  Formatting with a fixed number of decimals
    rounds the exact value of the number again, ties to even.  The sign of a
    zero is not kept. *)

From Stdlib Require Import QArith Qabs Qpower Lqa.
From S2P Require Import Prelude GoText.
Open Scope Z_scope.

(** A finite [float64]: mantissa times a power of two. *)
Record float64 := MkFloat { f_mant : Z; f_exp : Z }.
Definition f_trunc (f : float64) : Z :=
  if 0 <=? f_exp f then f_mant f * 2 ^ f_exp f
  else Z.quot (f_mant f) (2 ^ (- f_exp f)).

(** Its exact value. *)
Definition f_val (f : float64) : Q := (inject_Z (f_mant f) * 2 ^ f_exp f)%Q.

(** The integer nearest to [a / b], ties to even. *)
Definition rne (a b : Z) : Z :=
  let q := a / b in
  let r := a mod b in
  if 2 * r <? b then q
  else if b <? 2 * r then q + 1
  else if Z.even q then q else q + 1.

(** [n / d / 2 ^ e] as a fraction of integers. *)
Definition scaleN (e n : Z) : Z := n * 2 ^ Z.max 0 (- e).
Definition scaleD (e d : Z) : Z := d * 2 ^ Z.max 0 e.

(** The exponent for which the quotient has 53 bits. *)
Definition round_exp (n d : Z) : Z :=
  let e := Z.log2 (Z.abs n) - Z.log2 d - 53 in
  if 2 ^ 53 * scaleD e d <=? scaleN e (Z.abs n) then e + 1 else e.
Definition round64 (n d : Z) : float64 :=
  if n =? 0 then MkFloat 0 0
  else let e := round_exp n d in MkFloat (rne (scaleN e n) (scaleD e d)) e.

(** [float64(z)], [x / y] for [y] not zero, [x * y] and [x + y]. *)
Definition float_of (z : Z) : float64 := round64 z 1.
Definition fdiv (x y : float64) : float64 :=
  let e := f_exp x - f_exp y in
  round64 (Z.sgn (f_mant y) * scaleN (- e) (f_mant x)) (scaleD (- e) (Z.abs (f_mant y))).
Definition fmul (x y : float64) : float64 :=
  let e := f_exp x + f_exp y in
  round64 (scaleN (- e) (f_mant x * f_mant y)) (scaleD (- e) 1).
Definition fadd (x y : float64) : float64 :=
  let e := Z.min (f_exp x) (f_exp y) in
  round64 (scaleN (- e) (f_mant x * 2 ^ (f_exp x - e) + f_mant y * 2 ^ (f_exp y - e))) (scaleD (- e) 1).

(** The decimal mantissa [%.Nf] prints, and the text. *)
Definition fixed (prec : nat) (f : float64) : Z :=
  rne (scaleN (- f_exp f) (f_mant f * 10 ^ Z.of_nat prec)) (scaleD (- f_exp f) 1).
Fixpoint padded (n : nat) (z : Z) : bytes :=
  match n with
  | O => []
  | S n' => padded n' (z / 10) ++ [Zbyte (48 + z mod 10)]
  end.
Definition fixed_text (prec : nat) (neg : bool) (z : Z) : bytes :=
  (if neg then [Zbyte 45] else []) ++ Itoa (z / 10 ^ Z.of_nat prec) ++
  match prec with O => [] | _ => Zbyte 46 :: padded prec z end.
Definition fmtF (prec : nat) (f : float64) : bytes :=
  fixed_text prec (f_mant f <? 0) (Z.abs (fixed prec f)).

(** ** Rounding to an integer *)

Lemma rne_spec a b : 0 < b -> 2 * Z.abs (rne a b * b - a) <= b.
Proof.
  intros Hb. unfold rne. pose proof (Z.mod_pos_bound a b Hb). pose proof (Z.div_mod a b ltac:(lia)) as E.
  revert H E. generalize (a mod b) (a / b). intros r q Hr E.
  repeat case_match; bool_facts; nia.
Qed.

Lemma rne_exact q b : 0 < b -> rne (q * b) b = q.
Proof.
  intros Hb. unfold rne. rewrite Z.div_mul, Z.mod_mul by lia. by rewrite (proj2 (Z.ltb_lt _ _)) by lia.
Qed.

(** ** Scaling by powers of two *)

Lemma scaleD_pos e d : 0 < d -> 0 < scaleD e d.
Proof. intros. unfold scaleD. pose proof (Z.pow_pos_nonneg 2 (Z.max 0 e)). nia. Qed.

Lemma scaleN_abs e n : scaleN e (Z.abs n) = Z.abs (scaleN e n).
Proof. unfold scaleN. pose proof (Z.pow_pos_nonneg 2 (Z.max 0 (- e))). rewrite Z.abs_mul. nia. Qed.

(** One more bit of exponent halves the fraction. *)
Lemma scale_succ e n d :
  (scaleN (e + 1) n = scaleN e n /\ scaleD (e + 1) d = 2 * scaleD e d) \/
  (scaleN e n = 2 * scaleN (e + 1) n /\ scaleD (e + 1) d = scaleD e d).
Proof.
  unfold scaleN, scaleD. destruct (Z.le_gt_cases 0 e); [left|right].
  - rewrite !(Z.max_r 0 e), !(Z.max_r 0 (e + 1)), !Z.max_l by lia. rewrite Z.pow_add_r by lia. lia.
  - rewrite !(Z.max_l 0 e), !(Z.max_l 0 (e + 1)), !Z.max_r by lia.
    replace (- e) with (- (e + 1) + 1) by lia. rewrite Z.pow_add_r by lia. lia.
Qed.

(** Before the adjustment the quotient has 53 or 54 bits. *)
Lemma round_exp_first n d : n <> 0 -> 0 < d ->
  let e := Z.log2 (Z.abs n) - Z.log2 d - 53 in
  2 ^ 52 * scaleD e d <= scaleN e (Z.abs n) < 2 ^ 54 * scaleD e d.
Proof.
  intros Hn Hd e. pose proof (Z.log2_spec (Z.abs n) ltac:(lia)) as [A1 A2].
  pose proof (Z.log2_spec d Hd) as [B1 B2]. pose proof (Z.log2_nonneg (Z.abs n)). pose proof (Z.log2_nonneg d).
  unfold scaleN, scaleD. set (k := Z.max 0 (- e)). set (l := Z.max 0 e).
  assert (Hkl : Z.log2 (Z.abs n) + k = 53 + Z.log2 d + l) by (subst k l e; lia).
  assert (Hk : 0 <= k) by (subst k; lia). assert (Hl : 0 <= l) by (subst l; lia).
  clearbody k l. clear e. rewrite Z.pow_succ_r in A2, B2 by lia.
  assert (E : 2 ^ Z.log2 (Z.abs n) * 2 ^ k = 2 ^ 53 * (2 ^ Z.log2 d * 2 ^ l))
    by (rewrite <- !Z.pow_add_r by lia; f_equal; lia).
  pose proof (Z.pow_pos_nonneg 2 k ltac:(lia) Hk). pose proof (Z.pow_pos_nonneg 2 l ltac:(lia) Hl).
  revert A1 A2 B1 B2 E H1 H2.
  generalize (2 ^ Z.log2 (Z.abs n)) (2 ^ Z.log2 d) (2 ^ k) (2 ^ l). generalize (Z.abs n).
  intros a N D K L A1 A2 B1 B2 E HK HL.
  assert (N * K <= a * K /\ a * K < 2 * N * K /\ D * L <= d * L /\ d * L < 2 * D * L)
    by (repeat split; first [apply Z.mul_le_mono_nonneg_r | apply Z.mul_lt_mono_pos_r]; lia).
  lia.
Qed.

Lemma round_exp_spec n d : n <> 0 -> 0 < d ->
  let e := round_exp n d in
  2 ^ 52 * scaleD e d <= Z.abs (scaleN e n) < 2 ^ 53 * scaleD e d.
Proof.
  intros Hn Hd e. subst e. rewrite <- scaleN_abs. pose proof (round_exp_first n d Hn Hd) as H. cbv zeta in H.
  unfold round_exp. cbv zeta. case_match; bool_facts; [|lia].
  destruct (scale_succ (Z.log2 (Z.abs n) - Z.log2 d - 53) (Z.abs n) d) as [[-> ->]|[E ->]]; lia.
Qed.

(** ** Values *)

Lemma pow2_pos (e : Z) : (0 < 2 ^ e)%Q.
Proof. apply Qpower_0_lt. reflexivity. Qed.

Lemma pow2_Z (k : Z) : 0 <= k -> (2 ^ k == inject_Z (2 ^ k))%Q.
Proof. intros Hk. symmetry. apply (Zpower_Qpower 2 k Hk). Qed.

(** The fraction that [scaleN] and [scaleD] stand for. *)
Lemma scale_val e n d : 0 < d ->
  (inject_Z (scaleN e n) / inject_Z (scaleD e d) * 2 ^ e == inject_Z n / inject_Z d)%Q.
Proof.
  intros Hd. assert (Hd' : ~ (inject_Z d == 0)%Q) by (unfold Qeq; simpl; lia).
  unfold scaleN, scaleD. rewrite !inject_Z_mult, <- !pow2_Z by lia.
  pose proof (pow2_pos (Z.max 0 (- e))). pose proof (pow2_pos (Z.max 0 e)).
  replace e with (Z.max 0 e - Z.max 0 (- e)) at 3 by lia.
  rewrite Qpower_minus by (intros E; discriminate E). field. repeat split; try done; intros E; lra.
Qed.

Lemma scale_val_inv e m d : 0 < d ->
  (inject_Z (scaleN (- e) m) / inject_Z (scaleD (- e) d) == inject_Z m * 2 ^ e / inject_Z d)%Q.
Proof.
  intros Hd. assert (Hd' : ~ (inject_Z d == 0)%Q) by (unfold Qeq; simpl; lia).
  rewrite <- (Qmult_inj_r _ _ (2 ^ (- e))%Q) by (pose proof (pow2_pos (- e)); intros E; lra).
  rewrite (scale_val (- e) m d Hd). pose proof (pow2_pos e). rewrite Qpower_opp. field.
  split; [intros E; lra|done].
Qed.

(** The fraction [n / d]. *)
Abbreviation frac n d := (inject_Z n / inject_Z d)%Q.
(** Half a unit in the last of 53 bits. *)
Definition ulp : Q := 1 # 9007199254740992.

Lemma Qabs_inject z : (Qabs (inject_Z z) == inject_Z (Z.abs z))%Q.
Proof. reflexivity. Qed.

Lemma inject_pos z : 0 < z -> (0 < inject_Z z)%Q.
Proof. intros. unfold Qlt. simpl. lia. Qed.

Lemma inject_le a b : a <= b -> (inject_Z a <= inject_Z b)%Q.
Proof. intros. by rewrite <- Zle_Qle. Qed.

(** Rounding commits a relative error of at most half a unit in the last
    place. *)
Lemma round64_error n d : 0 < d ->
  (Qabs (f_val (round64 n d) - frac n d) <= Qabs (frac n d) * ulp)%Q.
Proof.
  intros Hd. pose proof (inject_pos d Hd) as Hdq. unfold round64.
  destruct (Z.eqb_spec n 0) as [->|Hn].
  { assert (E0 : (frac 0 d == 0)%Q) by (field; intros E; lra). rewrite E0. unfold f_val. discriminate. }
  pose proof (round_exp_spec n d Hn Hd) as [Hlo _]. cbv zeta in Hlo. set (e := round_exp n d) in *.
  set (A := scaleN e n) in *. set (B := scaleD e d) in *.
  assert (HB : 0 < B) by (by apply scaleD_pos). pose proof (rne_spec A B HB) as Hr.
  pose proof (inject_pos B HB) as HBq. pose proof (pow2_pos e) as He.
  unfold f_val. cbn [f_mant f_exp]. rewrite <- (scale_val e n d Hd). fold A B.
  assert (E1 : (inject_Z (rne A B) * 2 ^ e - inject_Z A / inject_Z B * 2 ^ e ==
                inject_Z (rne A B * B - A) * (2 ^ e / inject_Z B))%Q).
  { unfold Zminus. rewrite inject_Z_plus, inject_Z_mult, inject_Z_opp. field. intros E; lra. }
  assert (E2 : (inject_Z A / inject_Z B * 2 ^ e == inject_Z A * (2 ^ e / inject_Z B))%Q)
    by (field; intros E; lra).
  assert (HF : (0 < 2 ^ e / inject_Z B)%Q)
    by (apply Qlt_shift_div_l; [done|]; rewrite Qmult_0_l; done).
  rewrite E1, E2, !Qabs_Qmult, !Qabs_inject, (Qabs_pos (2 ^ e / inject_Z B)) by lra.
  assert (H : (inject_Z (Z.abs (rne A B * B - A)) <= inject_Z (Z.abs A) * ulp)%Q).
  { unfold ulp, Qle. simpl. lia. }
  revert H HF. generalize (2 ^ e / inject_Z B)%Q (inject_Z (Z.abs (rne A B * B - A))) (inject_Z (Z.abs A)).
  intros F x y H HF. rewrite <- Qmult_assoc, (Qmult_comm F ulp), Qmult_assoc.
  apply Qmult_le_compat_r; [done|]. lra.
Qed.

(** A fraction that is [m * 2 ^ k], scaled. *)
Lemma scale_cross e n d m k : 0 < d -> (frac n d == inject_Z m * 2 ^ k)%Q ->
  scaleN e n * 2 ^ Z.max 0 (e - k) = m * 2 ^ Z.max 0 (k - e) * scaleD e d.
Proof.
  intros Hd E. pose proof (scale_val e n d Hd) as Ev. rewrite E in Ev.
  pose proof (inject_pos _ (scaleD_pos e d Hd)) as HB. set (B := scaleD e d) in *. set (A := scaleN e n) in *.
  apply inject_Z_injective. rewrite !inject_Z_mult, <- !pow2_Z by lia. pose proof (pow2_pos e) as He.
  assert (Hk : (2 ^ k * 2 ^ Z.max 0 (e - k) == 2 ^ e * 2 ^ Z.max 0 (k - e))%Q).
  { rewrite <- !Qpower_plus by (intros E'; discriminate E').
    by replace (k + Z.max 0 (e - k)) with (e + Z.max 0 (k - e)) by lia. }
  apply (Qmult_inj_r _ _ (2 ^ e / inject_Z B)%Q).
  { intros E'. assert (0 < 2 ^ e / inject_Z B)%Q by (apply Qlt_shift_div_l; lra). lra. }
  transitivity (inject_Z A / inject_Z B * 2 ^ e * 2 ^ Z.max 0 (e - k))%Q; [field; intros ?; lra|].
  rewrite Ev, <- Qmult_assoc, Hk. field. intros ?; lra.
Qed.

(** Numbers with at most 53 bits are not rounded. *)
Lemma round64_exact n d m k : 0 < d -> Z.abs m <= 2 ^ 53 ->
  (frac n d == inject_Z m * 2 ^ k)%Q -> (f_val (round64 n d) == frac n d)%Q.
Proof.
  intros Hd Hm E. pose proof (inject_pos d Hd) as Hdq. unfold round64.
  destruct (Z.eqb_spec n 0) as [->|Hn].
  { unfold f_val. simpl. field. intros E'; lra. }
  pose proof (round_exp_spec n d Hn Hd) as [Hlo _]. cbv zeta in *. set (e := round_exp n d) in *.
  pose proof (scaleD_pos e d Hd) as HB. pose proof (scale_val e n d Hd) as Ev.
  pose proof (scale_cross e n d m k Hd E) as Ec. set (A := scaleN e n) in *. set (B := scaleD e d) in *.
  pose proof (inject_pos B HB) as HBq.
  assert (exists q, A = q * B) as [q Hq].
  { destruct (Z.le_gt_cases e k) as [Hk|Hk].
    - exists (m * 2 ^ (k - e)). rewrite Z.max_l, Z.max_r in Ec by lia. lia.
    - exists (Z.sgn m * 2 ^ 52). rewrite Z.max_r, Z.max_l in Ec by lia.
      assert (HP : 2 ^ 1 <= 2 ^ (e - k)) by (apply Z.pow_le_mono_r; lia).
      revert Ec HP. generalize (2 ^ (e - k)). intros P Ec HP.
      assert (Ha : Z.abs A * P = Z.abs m * B)
        by (rewrite <- (Z.abs_eq P), <- (Z.abs_eq B), <- !Z.abs_mul by lia; f_equal; lia).
      assert (Z.abs A * P >= 2 ^ 52 * B * P /\ Z.abs m * B <= 2 ^ 53 * B) as [? ?] by nia.
      assert (P = 2) as -> by nia. lia. }
  unfold f_val. cbn [f_mant f_exp]. rewrite <- Ev, Hq, rne_exact by done.
  rewrite inject_Z_mult. field. intros ?; lra.
Qed.

(** The results are normal numbers: 53 bits and an exponent in range. *)
Lemma round64_normal n d : n <> 0 -> 0 < d -> Z.abs n < 2 ^ 512 -> d < 2 ^ 512 ->
  2 ^ 52 <= Z.abs (f_mant (round64 n d)) <= 2 ^ 53 /\ -1022 <= f_exp (round64 n d) + 52 < 1023.
Proof.
  intros Hn Hd Hn2 Hd2. unfold round64. rewrite (proj2 (Z.eqb_neq n 0) Hn). cbn [f_mant f_exp]. split.
  - pose proof (round_exp_spec n d Hn Hd) as [L U]. cbv zeta in *.
    pose proof (scaleD_pos (round_exp n d) d Hd) as HB. revert L U HB.
    generalize (scaleN (round_exp n d) n) (scaleD (round_exp n d) d). intros A B L U HB.
    pose proof (rne_spec A B HB). nia.
  - assert (Z.log2 (Z.abs n) < 512) by (apply Z.log2_lt_pow2; lia).
    assert (Z.log2 d < 512) by (by apply Z.log2_lt_pow2).
    pose proof (Z.log2_nonneg (Z.abs n)). pose proof (Z.log2_nonneg d).
    unfold round_exp. cbv zeta. case_match; lia.
Qed.

(** ** Operations *)

(** [near x y k]: [x] is [y] up to [k] rounding errors. *)
Definition near (x y : Q) (k : Z) : Prop := (Qabs (x - y) <= Qabs y * (inject_Z k * ulp))%Q.

Lemma float_of_exact z : Z.abs z <= 2 ^ 53 -> (f_val (float_of z) == inject_Z z)%Q.
Proof.
  intros Hz. unfold float_of.
  assert (E : (frac z 1 == inject_Z z)%Q) by (unfold Qdiv; rewrite Qmult_1_r; reflexivity).
  rewrite (round64_exact z 1 z 0); [done|lia|done|]. rewrite E. simpl. by rewrite Qmult_1_r.
Qed.

Lemma round64_near n d x : 0 < d -> (frac n d == x)%Q -> near (f_val (round64 n d)) x 1.
Proof.
  intros Hd E. unfold near. rewrite <- E. pose proof (round64_error n d Hd) as H.
  assert ((inject_Z 1 * ulp == ulp)%Q) as -> by reflexivity. done.
Qed.

Lemma float_of_near z : near (f_val (float_of z)) (inject_Z z) 1.
Proof. apply round64_near; [lia|]. unfold Qdiv. by rewrite Qmult_1_r. Qed.

Lemma fdiv_near x y : 0 < f_mant y -> near (f_val (fdiv x y)) (f_val x / f_val y)%Q 1.
Proof.
  intros Hy. unfold fdiv. rewrite Z.sgn_pos, Z.mul_1_l, Z.abs_eq by lia.
  apply round64_near; [by apply scaleD_pos|]. rewrite scale_val_inv by done. unfold f_val.
  rewrite Qpower_minus by (intros E; discriminate E). pose proof (inject_pos _ Hy). pose proof (pow2_pos (f_exp y)).
  field. split; intros ?; lra.
Qed.

Lemma fmul_near x y : near (f_val (fmul x y)) (f_val x * f_val y)%Q 1.
Proof.
  unfold fmul. apply round64_near; [by apply scaleD_pos|]. rewrite scale_val_inv by lia. unfold f_val.
  rewrite inject_Z_mult, Qpower_plus by (intros E; discriminate E). field.
Qed.

Lemma fadd_near x y : near (f_val (fadd x y)) (f_val x + f_val y)%Q 1.
Proof.
  unfold fadd. apply round64_near; [by apply scaleD_pos|]. rewrite scale_val_inv by lia. unfold f_val.
  rewrite inject_Z_plus, !inject_Z_mult, <- !pow2_Z, !Qpower_minus by (lia || (intros E; discriminate E)).
  pose proof (pow2_pos (Z.min (f_exp x) (f_exp y))). field. intros ?; lra.
Qed.

(** The printed decimal is the nearest one. *)
Lemma fixed_error prec f :
  (Qabs (frac (fixed prec f) (10 ^ Z.of_nat prec) - f_val f) <= (1 # 2) / inject_Z (10 ^ Z.of_nat prec))%Q.
Proof.
  unfold fixed. pose proof (Z.pow_pos_nonneg 10 (Z.of_nat prec) ltac:(lia) ltac:(lia)) as HT.
  revert HT. generalize (10 ^ Z.of_nat prec). intros T HT. pose proof (inject_pos T HT) as HTq.
  pose proof (scaleD_pos (- f_exp f) 1 ltac:(lia)) as HB. pose proof (scale_val_inv (f_exp f) (f_mant f * T) 1 ltac:(lia)) as E.
  revert HB E. generalize (scaleN (- f_exp f) (f_mant f * T)) (scaleD (- f_exp f) 1). intros A B HB E.
  pose proof (inject_pos B HB) as HBq. pose proof (rne_spec A B HB) as Hr.
  assert (Ev : (f_val f == inject_Z A / inject_Z B / inject_Z T)%Q).
  { rewrite E, inject_Z_mult. unfold f_val. field. intros ?; lra. }
  rewrite Ev.
  assert (E2 : (frac (rne A B) T - inject_Z A / inject_Z B / inject_Z T ==
                inject_Z (rne A B * B - A) / (inject_Z B * inject_Z T))%Q).
  { unfold Zminus. rewrite inject_Z_plus, inject_Z_mult, inject_Z_opp. field. split; intros ?; lra. }
  rewrite E2. unfold Qdiv. rewrite Qabs_Qmult, Qabs_inject, Qabs_Qinv, Qabs_pos by nra.
  apply (Qmult_le_r _ _ (inject_Z B * inject_Z T)); [nra|].
  apply Qle_trans with (inject_Z (Z.abs (rne A B * B - A))); [apply Qle_lteq; right; field; split; intros ?; lra|].
  apply Qle_trans with ((1 # 2) * inject_Z B)%Q; [|apply Qle_lteq; right; field; intros ?; lra].
  unfold Qle. simpl. lia.
Qed.

(** ** Chains of operations *)

#[export] Instance near_proper : Proper (Qeq ==> Qeq ==> eq ==> iff) near.
Proof. intros x x' Hx y y' Hy k ? <-. unfold near. by rewrite Hx, Hy. Qed.

Lemma near_trans x y z a b : 0 <= a <= 2 ^ 20 -> 0 <= b <= 2 ^ 20 ->
  near x y a -> near y z b -> near x z (a + b + 1).
Proof.
  unfold near. intros Ha Hb H1 H2. rewrite !inject_Z_plus.
  assert (Habq : (inject_Z a * inject_Z b * ulp <= 1)%Q).
  { rewrite <- inject_Z_mult. unfold ulp, Qle. simpl. nia. }
  pose proof (inject_le 0 a (proj1 Ha)) as Ha0. pose proof (inject_le 0 b (proj1 Hb)) as Hb0.
  change (inject_Z 0) with 0%Q in *. change (inject_Z 1) with 1%Q in *.
  pose proof (Qabs_nonneg z) as Hz. assert (Hu : (0 <= ulp)%Q) by discriminate.
  assert (Hxz : (Qabs (x - z) <= Qabs (x - y) + Qabs (y - z))%Q).
  { assert ((x - z == (x - y) + (y - z))%Q) as -> by ring. apply Qabs_triangle. }
  assert (Hy : (Qabs y <= Qabs z + Qabs (y - z))%Q).
  { assert ((y == z + (y - z))%Q) as E by ring. rewrite E at 1. apply Qabs_triangle. }
  revert Habq Ha0 Hb0 Hz Hu Hxz Hy H1 H2.
  generalize (inject_Z a) (inject_Z b) ulp (Qabs z) (Qabs (y - z)) (Qabs (x - y)) (Qabs (x - z)) (Qabs y).
  intros A B u Z YZ XY XZ Y Hab HA HB HZ Hu Hxz Hy H1 H2.
  assert (Hau : (0 <= A * u)%Q) by nra.
  assert (S1 : (Y * (A * u) <= (Z + Z * (B * u)) * (A * u))%Q) by (apply Qmult_le_compat_r; lra).
  assert (S2 : (A * B * u * (Z * u) <= 1 * (Z * u))%Q) by (apply Qmult_le_compat_r; nra). lra.
Qed.

Lemma near_scale x y c k : near x y k -> near (x * c) (y * c) k.
Proof.
  unfold near. intros H. assert ((x * c - y * c == (x - y) * c)%Q) as -> by ring. rewrite !Qabs_Qmult.
  pose proof (Qabs_nonneg c). nra.
Qed.

(** One more operation on a value already known up to [a] errors. *)
Lemma near_step x y c z a : 0 <= a <= 2 ^ 20 ->
  near z (x * c) 1 -> near x y a -> near z (y * c) (a + 2).
Proof.
  intros Ha H1 H2. replace (a + 2) with (1 + a + 1) by lia.
  apply (near_trans _ (x * c)); [lia|done|done|by apply near_scale].
Qed.

(** What is printed of a value known up to [k] errors. *)
Lemma printed_error prec f y Y k : 0 <= k -> near (f_val f) y k -> (0 <= y <= Y)%Q ->
  (Qabs (frac (fixed prec f) (10 ^ Z.of_nat prec) - y) <=
   (1 # 2) / inject_Z (10 ^ Z.of_nat prec) + Y * (inject_Z k * ulp))%Q.
Proof.
  intros Hk Hn [Hy HY]. unfold near in Hn. pose proof (fixed_error prec f) as Hf.
  set (p := frac (fixed prec f) (10 ^ Z.of_nat prec)) in *.
  assert ((p - y == (p - f_val f) + (f_val f - y))%Q) as -> by ring.
  eapply Qle_trans; [apply Qabs_triangle|]. rewrite (Qabs_pos y) in Hn by done.
  assert (Hku : (0 <= inject_Z k * ulp)%Q).
  { apply Qmult_le_0_compat; [apply (inject_le 0 k Hk)|discriminate]. }
  assert (y * (inject_Z k * ulp) <= Y * (inject_Z k * ulp))%Q by (by apply Qmult_le_compat_r). lra.
Qed.

Lemma f_val_pos f : (0 < f_val f)%Q -> 0 < f_mant f.
Proof.
  unfold f_val. intros H. destruct (Z.lt_ge_cases 0 (f_mant f)) as [|Hm]; [done|]. exfalso.
  pose proof (inject_le (f_mant f) 0 Hm) as Hq. change (inject_Z 0) with 0%Q in Hq.
  pose proof (pow2_pos (f_exp f)). assert (inject_Z (f_mant f) * 2 ^ f_exp f <= 0 * 2 ^ f_exp f)%Q
    by (apply Qmult_le_compat_r; lra). lra.
Qed.

Lemma round64_sign n d : 0 < d -> 0 <= n -> 0 <= f_mant (round64 n d).
Proof.
  intros Hd Hn. unfold round64. case_match; bool_facts; [done|]. cbn [f_mant].
  pose proof (scaleD_pos (round_exp n d) d Hd) as HB.
  pose proof (rne_spec (scaleN (round_exp n d) n) (scaleD (round_exp n d) d) HB) as Hr.
  assert (0 <= scaleN (round_exp n d) n) by (unfold scaleN; apply Z.mul_nonneg_nonneg; lia). nia.
Qed.

Lemma fdiv_sign x y : 0 <= f_mant x -> 0 < f_mant y -> 0 <= f_mant (fdiv x y).
Proof.
  intros Hx Hy. unfold fdiv. rewrite Z.sgn_pos, Z.mul_1_l, Z.abs_eq by lia. apply round64_sign; [by apply scaleD_pos|].
  unfold scaleN. apply Z.mul_nonneg_nonneg; lia.
Qed.

Lemma fmul_sign x y : 0 <= f_mant x -> 0 <= f_mant y -> 0 <= f_mant (fmul x y).
Proof.
  intros Hx Hy. unfold fmul. apply round64_sign; [by apply scaleD_pos|]. unfold scaleN.
  repeat apply Z.mul_nonneg_nonneg; lia.
Qed.

(** A small positive integer as a [float64]. *)
Lemma float_of_pos z : 0 < z <= 2 ^ 53 ->
  0 < f_mant (float_of z) /\ (f_val (float_of z) == inject_Z z)%Q.
Proof.
  intros Hz. assert (E : (f_val (float_of z) == inject_Z z)%Q) by (apply float_of_exact; lia).
  split; [|done]. apply f_val_pos. rewrite E. apply inject_pos. lia.
Qed.

(** Dividing by a small positive integer. *)
Lemma fdiv_int_near x y z a : 0 <= a <= 2 ^ 20 -> 0 < z <= 2 ^ 53 ->
  near (f_val x) y a -> near (f_val (fdiv x (float_of z))) (y / inject_Z z)%Q (a + 2).
Proof.
  intros Ha Hz Hx. destruct (float_of_pos z Hz) as [Hm E]. unfold Qdiv.
  apply (near_step (f_val x)); [done| |done]. rewrite <- E. by apply fdiv_near.
Qed.

Lemma near_exact x y : (x == y)%Q -> near x y 0.
Proof. intros E. unfold near. rewrite E. assert ((y - y == 0)%Q) as -> by ring. simpl. unfold Qle. simpl. lia. Qed.

Lemma fixed_sign prec f : 0 <= f_mant f -> 0 <= fixed prec f.
Proof.
  intros Hm. unfold fixed. pose proof (scaleD_pos (- f_exp f) 1 ltac:(lia)) as HB.
  pose proof (rne_spec (scaleN (- f_exp f) (f_mant f * 10 ^ Z.of_nat prec)) _ HB) as Hr.
  assert (0 <= scaleN (- f_exp f) (f_mant f * 10 ^ Z.of_nat prec)).
  { unfold scaleN. repeat apply Z.mul_nonneg_nonneg; lia. }
  nia.
Qed.

(** The text of a non-negative number. *)
Lemma fmtF_nonneg prec f : 0 <= f_mant f -> fmtF prec f = fixed_text prec false (fixed prec f).
Proof.
  intros Hm. unfold fmtF. rewrite (proj2 (Z.ltb_ge _ _)) by lia. by rewrite Z.abs_eq by by apply fixed_sign.
Qed.

(** Formatting half a unit: ties go to the even neighbour. *)
Example fmtF_ties : (fmtF 0 (fdiv (float_of 5) (float_of 2)), fmtF 0 (fdiv (float_of 7) (float_of 2)),
    fmtF 1 (fdiv (float_of 1) (float_of 4)), fmtF 2 (fdiv (float_of 1234567) (float_of 1000000))) =
  (str_bytes "2", str_bytes "4", str_bytes "0.2", str_bytes "1.23").
Proof. by vm_compute. Qed.
