(* ===== verification/RelayWire.v ===== *)
(** * [internal/protocol/relay_wire.go]

    The relay datagram: four bytes of sender, four bytes of destination, both
    big-endian, then the payload. *)

From S2P Require Import Prelude GoLib.

Definition RelayHeaderSize : Z := 8.
Definition MaxRelayPacket : Z := 1400.
Definition MaxRelayPayload : Z := MaxRelayPacket - RelayHeaderSize.
Definition BroadcastDest : Z := 0xFFFFFFFF.

Inductive WireErr := ErrPacketTooSmall | ErrPacketTooLarge.

Record RelayPacket := MkRelayPacket { SenderID : Z; DestID : Z; Payload : bytes }.

Definition EncodeRelayPacket (senderID destID : Z) (payload : bytes)
    : result WireErr bytes :=
  let total := RelayHeaderSize + len payload in
  if MaxRelayPacket <? total then Err ErrPacketTooLarge
  else
    let buf := replicate (Z.to_nat total) Byte.x00 in
    let buf := PutUint32 0 senderID buf in
    let buf := PutUint32 4 destID buf in
    Ok (copy_at 8 payload buf).

(** [dst] is the backing array of the slice: [dst[0:4]] and [dst[4:8]] panic
    when it is shorter than the header. *)
Definition EncodeRelayHeader (dst : bytes) (senderID destID : Z) : outcome bytes :=
  if len dst <? 8 then Panic
  else Ret (PutUint32 4 destID (PutUint32 0 senderID dst)).

Definition DecodeRelayPacket (data : bytes) : result WireErr RelayPacket :=
  if len data <? RelayHeaderSize then Err ErrPacketTooSmall
  else Ok (MkRelayPacket (Uint32 (slice 0 4 data)) (Uint32 (slice 4 8 data))
             (drop (Z.to_nat RelayHeaderSize) data)).

Definition DecodeRelayHeader (data : bytes) : result WireErr (Z * Z) :=
  if len data <? RelayHeaderSize then Err ErrPacketTooSmall
  else Ok (Uint32 (slice 0 4 data), Uint32 (slice 4 8 data)).

(** ** Helper lemmas *)

(** The eight header bytes. *)
Definition header (s d : Z) : bytes := be_encode 4 s ++ be_encode 4 d.

Lemma length_header s d : length (header s d) = 8%nat.
Proof. unfold header. by autorewrite with wire. Qed.
#[export] Hint Rewrite length_header : wire.

Lemma put_header s d h tl :
  length h = 8%nat -> PutUint32 4 d (PutUint32 0 s (h ++ tl)) = header s d ++ tl.
Proof.
  intros Hh. unfold PutUint32, header.
  rewrite <- (take_drop 4 h), <- !app_assoc.
  rewrite copy_at_front by (autorewrite with wire; lia).
  rewrite copy_at_mid; [done|by autorewrite with wire|]. autorewrite with wire. lia.
Qed.

Lemma EncodeRelayPacket_Ok s d p :
  len p <= MaxRelayPayload -> EncodeRelayPacket s d p = Ok (header s d ++ p).
Proof.
  unfold EncodeRelayPacket, MaxRelayPayload, RelayHeaderSize, MaxRelayPacket. intros Hp.
  rewrite (proj2 (Z.ltb_ge _ _)) by lia. f_equal.
  replace (Z.to_nat (8 + len p)) with (8 + length p)%nat by lia.
  rewrite replicate_add, put_header by apply length_replicate.
  apply copy_at_tail; autorewrite with wire; [done|by rewrite length_replicate].
Qed.

Lemma DecodeRelayHeader_app s d tl :
  0 <= s < 2 ^ 32 -> 0 <= d < 2 ^ 32 ->
  DecodeRelayHeader (header s d ++ tl) = Ok (s, d).
Proof.
  intros Hs Hd. unfold DecodeRelayHeader, RelayHeaderSize, Uint32, slice, header.
  rewrite (proj2 (Z.ltb_ge _ _)) by (autorewrite with wire; lia).
  change (Z.to_nat (4 - 0)) with 4%nat. change (Z.to_nat (8 - 4)) with 4%nat.
  change (Z.to_nat 0) with 0%nat. change (Z.to_nat 4) with 4%nat.
  rewrite <- app_assoc, drop_0, (take_app_exact (be_encode 4 s)) by apply length_be_encode.
  rewrite (drop_app_exact (be_encode 4 s)) by apply length_be_encode.
  rewrite take_app_exact by apply length_be_encode.
  by rewrite !be_decode_encode, !Z.mod_small.
Qed.

Lemma DecodeRelayHeader_range data s d :
  DecodeRelayHeader data = Ok (s, d) -> 0 <= s < 2 ^ 32 /\ 0 <= d < 2 ^ 32.
Proof.
  unfold DecodeRelayHeader. split_guard; [done|]. intros [= <- <-]. bool_facts.
  unfold RelayHeaderSize, Uint32 in *.
  split; [pose proof (be_decode_range (slice 0 4 data)) as H
         |pose proof (be_decode_range (slice 4 8 data)) as H];
    rewrite slice_length in H by lia; exact H.
Qed.

(** The header decoder and the packet decoder read the same identifiers. *)
Lemma DecodeRelayPacket_header data :
  DecodeRelayPacket data =
  match DecodeRelayHeader data with
  | Ok (s, d) => Ok (MkRelayPacket s d (drop 8 data))
  | Err e => Err e
  end.
Proof. unfold DecodeRelayPacket, DecodeRelayHeader. by destruct (_ <? _). Qed.

Lemma header_decode data s d :
  DecodeRelayHeader data = Ok (s, d) -> header s d ++ drop 8 data = data.
Proof.
  unfold DecodeRelayHeader. split_guard; [done|]. intros [= <- <-]. bool_facts.
  unfold RelayHeaderSize, Uint32, slice, header in *.
  change (Z.to_nat (4 - 0)) with 4%nat. change (Z.to_nat (8 - 4)) with 4%nat.
  change (Z.to_nat 0) with 0%nat. change (Z.to_nat 4) with 4%nat. rewrite drop_0.
  rewrite !be_encode_decode by (autorewrite with wire; lia). rewrite <- app_assoc.
  change (drop 8 data) with (drop (4 + 4) data).
  by rewrite <- drop_drop, take_drop, take_drop.
Qed.

(** ** Properties *)

(** A packet that the encoder accepts decodes to the same sender,
    destination and payload. *)
Theorem relay_packet_roundtrip (s d : Z) (p : bytes) :
  0 <= s < 2 ^ 32 -> 0 <= d < 2 ^ 32 -> len p <= MaxRelayPayload ->
  exists buf, EncodeRelayPacket s d p = Ok buf /\ len buf = RelayHeaderSize + len p /\
    DecodeRelayPacket buf = Ok (MkRelayPacket s d p).
Proof.
  intros Hs Hd Hp. exists (header s d ++ p).
  split; [by apply EncodeRelayPacket_Ok|].
  split; [autorewrite with wire; unfold RelayHeaderSize; lia|].
  rewrite DecodeRelayPacket_header, DecodeRelayHeader_app by done.
  by rewrite drop_app_exact by apply length_header.
Qed.

Lemma relay_packet_roundtrip_witness :
  exists buf, EncodeRelayPacket 7 BroadcastDest [Byte.x61; Byte.x62] = Ok buf /\
    len buf = RelayHeaderSize + 2 /\
    DecodeRelayPacket buf = Ok (MkRelayPacket 7 BroadcastDest [Byte.x61; Byte.x62]).
Proof.
  apply (relay_packet_roundtrip 7 BroadcastDest [Byte.x61; Byte.x62]);
    unfold BroadcastDest, MaxRelayPayload, MaxRelayPacket, RelayHeaderSize; simpl; lia.
Defined.

(** Every datagram of a legal size is the encoding of exactly what it
    decodes to, so distinct datagrams never denote the same packet. *)
Theorem relay_packet_canonical (data : bytes) :
  RelayHeaderSize <= len data <= MaxRelayPacket ->
  exists q, DecodeRelayPacket data = Ok q /\
    EncodeRelayPacket (SenderID q) (DestID q) (Payload q) = Ok data.
Proof.
  intros Hl. rewrite DecodeRelayPacket_header.
  destruct (DecodeRelayHeader data) as [[s d]|e] eqn:E.
  - eexists; split; [done|]; simpl. rewrite EncodeRelayPacket_Ok.
    + by rewrite header_decode.
    + rewrite length_drop. unfold MaxRelayPayload, RelayHeaderSize, MaxRelayPacket in *. lia.
  - unfold DecodeRelayHeader in E. split_guard_in E; bool_facts. lia.
Qed.

Lemma relay_packet_canonical_witness :
  exists q, DecodeRelayPacket (replicate 9 Byte.x01) = Ok q /\
    EncodeRelayPacket (SenderID q) (DestID q) (Payload q) = Ok (replicate 9 Byte.x01).
Proof.
  apply (relay_packet_canonical (replicate 9 Byte.x01)).
  unfold RelayHeaderSize, MaxRelayPacket; simpl; lia.
Defined.

(** The allocation-free path (write the header into a reused buffer, then
    copy the payload behind it) produces byte for byte what
    [EncodeRelayPacket] produces, whatever the buffer held before. *)
Theorem header_in_place_equiv (buf : bytes) (s d : Z) (p : bytes) :
  len p <= MaxRelayPayload -> MaxRelayPacket <= len buf ->
  exists buf', EncodeRelayHeader buf s d = Ret buf' /\
    EncodeRelayPacket s d p =
      Ok (take (Z.to_nat (RelayHeaderSize + len p)) (copy_at RelayHeaderSize p buf')).
Proof.
  unfold MaxRelayPayload, MaxRelayPacket, RelayHeaderSize. intros Hp Hb.
  unfold EncodeRelayHeader. rewrite (proj2 (Z.ltb_ge _ _)) by lia.
  eexists; split; [done|]. rewrite EncodeRelayPacket_Ok by (unfold MaxRelayPayload; done).
  rewrite <- (take_drop 8 buf), put_header by (rewrite length_take; lia).
  rewrite <- (take_drop (length p) (drop 8 buf)).
  rewrite copy_at_mid; [|by autorewrite with wire|rewrite length_take, length_drop; lia].
  rewrite app_assoc, take_app_exact; [done|]. autorewrite with wire. lia.
Qed.

Lemma header_in_place_equiv_witness :
  exists buf', EncodeRelayHeader (replicate 1500 Byte.xff) 3 4 = Ret buf' /\
    EncodeRelayPacket 3 4 [Byte.x61] =
      Ok (take (Z.to_nat (RelayHeaderSize + 1)) (copy_at RelayHeaderSize [Byte.x61] buf')).
Proof.
  apply (header_in_place_equiv (replicate 1500 Byte.xff) 3 4 [Byte.x61]);
    unfold MaxRelayPayload, MaxRelayPacket, RelayHeaderSize;
    rewrite ?length_replicate; simpl; lia.
Defined.

(** The encoder refuses exactly the payloads over 1392 bytes and the
    decoder exactly the datagrams under 8 bytes. *)
Theorem relay_wire_errors (s d : Z) (p data : bytes) :
  (EncodeRelayPacket s d p = Err ErrPacketTooLarge <-> MaxRelayPayload < len p) /\
  (DecodeRelayPacket data = Err ErrPacketTooSmall <-> len data < RelayHeaderSize) /\
  (DecodeRelayHeader data = Err ErrPacketTooSmall <-> len data < RelayHeaderSize).
Proof.
  unfold EncodeRelayPacket, DecodeRelayPacket, DecodeRelayHeader, MaxRelayPayload.
  repeat split; intros H; repeat split_guard; repeat split_guard_in H; bool_facts;
    unfold MaxRelayPacket, RelayHeaderSize in *; done || lia.
Qed.
