(* ===== verification/TcpFrame.v ===== *)
(** * TCP framing of relay packets

    [writeTCPFrame] and [readTCPFrame] of the server
    ([internal/relay/router.go]) and of the adapter
    ([internal/adapter/relayconn.go]): two bytes of big-endian length, then
    the relay packet.  Both writers assemble the frame in a reused buffer of
    1402 bytes. *)

From S2P Require Import Prelude GoLib RelayWire.

Inductive FrameErr :=
| FrameIO (e : IOErr)
| EmptyFrame
| FrameTooLarge (n : Z).

(** The frame as the wire carries it. *)
Definition frame (data : bytes) : bytes := be_encode 2 (len data) ++ data.

Module Server.
Definition maxTCPFramePayload : Z := 1400.

(** [New] of [tcpFramePool]: the size of a pooled buffer. *)
Definition poolBufSize : Z := 2 + maxTCPFramePayload.

(** [bp] is the pooled buffer, with whatever an earlier frame left in it;
    slicing it to [total] bytes panics when [total] exceeds its capacity.  The result is
    the bytes of the single [conn.Write]. *)
Definition writeTCPFrame (bp data : bytes) : outcome bytes :=
  let total := 2 + len data in
  if len bp <? total then Panic
  else
    let buf := take (Z.to_nat total) bp in
    let buf := PutUint16 0 (u16 (len data)) buf in
    Ret (copy_at 2 data buf).

(** [bufLen] is [len(buf)] of the caller's buffer; the result is [buf[:n]]
    and what is left on the connection. *)
Definition readTCPFrame (bufLen : Z) (conn : bytes)
    : result FrameErr (bytes * bytes) :=
  match ReadFull 2 conn with
  | Err e => Err (FrameIO e)
  | Ok (hdr, conn) =>
      let n := Uint16 hdr in
      if n =? 0 then Err EmptyFrame
      else if maxTCPFramePayload <? n then Err (FrameTooLarge n)
      else if bufLen <? n then Err (FrameIO ErrShortBuffer)
      else match ReadFull n conn with
           | Err e => Err (FrameIO e)
           | Ok (p, conn) => Ok (p, conn)
           end
  end.

(** The frames the read loop of [handleConn] takes off a connection, and
    the error that ends it.  Every frame consumes at least three bytes. *)
Fixpoint readFrames (fuel : nat) (bufLen : Z) (conn : bytes)
    : list bytes * option FrameErr :=
  match fuel with
  | O => ([], None)
  | S fuel' =>
      match readTCPFrame bufLen conn with
      | Err e => ([], Some e)
      | Ok (p, conn') =>
          let '(ps, e) := readFrames fuel' bufLen conn' in (p :: ps, e)
      end
  end.
End Server.

Module Adapter.
(** [tcpFrameBuf] is allocated once with [2 + MaxRelayPacket] bytes. *)
Definition tcpFrameBufSize : Z := 2 + MaxRelayPacket.

(** The bytes written and the buffer as the call leaves it. *)
Definition writeTCPFrame (tcpFrameBuf data : bytes) : outcome (bytes * bytes) :=
  let total := 2 + len data in
  let b := PutUint16 0 (u16 (len data)) tcpFrameBuf in
  if len tcpFrameBuf <? total then Panic
  else
    let b := copy_at 2 data b in
    Ret (take (Z.to_nat total) b, b).

Definition readTCPFrame (bufLen : Z) (conn : bytes)
    : result FrameErr (bytes * bytes) :=
  match ReadFull 2 conn with
  | Err e => Err (FrameIO e)
  | Ok (hdr, conn) =>
      let n := Uint16 hdr in
      if bufLen <? n then Err (FrameIO ErrShortBuffer)
      else match ReadFull n conn with
           | Err e => Err (FrameIO e)
           | Ok (p, conn) => Ok (p, conn)
           end
  end.
End Adapter.

(** ** Helper lemmas *)

Lemma length_frame data : length (frame data) = (2 + length data)%nat.
Proof. unfold frame. by autorewrite with wire. Qed.
#[export] Hint Rewrite length_frame : wire.

Lemma be_encode_u16 z : be_encode 2 (u16 z) = be_encode 2 z.
Proof.
  rewrite <- (be_encode_decode 2 (be_encode 2 z)) by apply length_be_encode.
  by rewrite be_decode_encode.
Qed.

Lemma write_frame_spec b data :
  2 + len data <= len b ->
  copy_at 2 data (PutUint16 0 (u16 (len data)) b) =
  frame data ++ drop (2 + length data) b.
Proof.
  intros Hb. unfold PutUint16, frame.
  rewrite <- (take_drop 2 b) at 1. rewrite copy_at_front by (autorewrite with wire; lia).
  rewrite <- (take_drop (length data) (drop 2 b)) at 1.
  rewrite copy_at_mid; [|by autorewrite with wire|autorewrite with wire; lia].
  by rewrite be_encode_u16, drop_drop, <- app_assoc.
Qed.

Lemma server_write_spec bp data :
  len bp = Server.poolBufSize ->
  Server.writeTCPFrame bp data =
  if Server.maxTCPFramePayload <? len data then Panic else Ret (frame data).
Proof.
  unfold Server.writeTCPFrame, Server.poolBufSize, Server.maxTCPFramePayload. intros Hb.
  destruct (Z.ltb_spec 1400 (len data)); [by rewrite (proj2 (Z.ltb_lt _ _)) by lia|].
  rewrite (proj2 (Z.ltb_ge _ _)) by lia. f_equal.
  rewrite write_frame_spec by (rewrite length_take; lia).
  rewrite drop_ge, app_nil_r; [done|]. rewrite length_take; lia.
Qed.

Lemma adapter_write_spec b data :
  len b = Adapter.tcpFrameBufSize -> len data <= MaxRelayPacket ->
  exists b', Adapter.writeTCPFrame b data = Ret (frame data, b') /\ length b' = length b.
Proof.
  unfold Adapter.writeTCPFrame, Adapter.tcpFrameBufSize, MaxRelayPacket. intros Hb Hd.
  rewrite (proj2 (Z.ltb_ge _ _)) by lia. eexists. split.
  - rewrite write_frame_spec by lia.
    rewrite take_app_exact; [done|]. autorewrite with wire. lia.
  - autorewrite with wire. lia.
Qed.

Lemma read_len data rest :
  len data < 2 ^ 16 ->
  exists hdr, ReadFull 2 (frame data ++ rest) = Ok (hdr, data ++ rest) /\
    Uint16 hdr = len data.
Proof.
  intros Hd. exists (be_encode 2 (len data)). unfold frame. rewrite <- app_assoc.
  split; [apply ReadFull_app; by autorewrite with wire|].
  unfold Uint16. rewrite be_decode_encode. apply Z.mod_small. simpl; lia.
Qed.

Lemma server_read_frame bufLen data rest :
  1 <= len data <= Server.maxTCPFramePayload -> Server.maxTCPFramePayload <= bufLen ->
  Server.readTCPFrame bufLen (frame data ++ rest) = Ok (data, rest).
Proof.
  unfold Server.readTCPFrame, Server.maxTCPFramePayload. intros Hd Hb.
  destruct (read_len data rest) as (hdr & -> & ->); [lia|].
  rewrite (proj2 (Z.eqb_neq _ _)), (proj2 (Z.ltb_ge _ _)), (proj2 (Z.ltb_ge _ _)) by lia.
  by rewrite ReadFull_app.
Qed.

Lemma adapter_read_frame bufLen data rest :
  len data <= bufLen < 2 ^ 16 ->
  Adapter.readTCPFrame bufLen (frame data ++ rest) = Ok (data, rest).
Proof.
  unfold Adapter.readTCPFrame. intros Hd.
  destruct (read_len data rest) as (hdr & -> & ->); [lia|].
  rewrite (proj2 (Z.ltb_ge _ _)) by lia. by rewrite ReadFull_app.
Qed.

(** ** Properties *)

(** A packet framed by the server is what the adapter reads, and a packet
    framed by the adapter is what the server reads; the rest of the stream is
    untouched and the content the reused buffers had is irrelevant. *)
Theorem tcp_frame_roundtrip (bp fb data rest : bytes) :
  len bp = Server.poolBufSize -> len fb = Adapter.tcpFrameBufSize ->
  1 <= len data <= MaxRelayPacket ->
  (exists f, Server.writeTCPFrame bp data = Ret f /\
     Adapter.readTCPFrame 1500 (f ++ rest) = Ok (data, rest)) /\
  (exists f fb', Adapter.writeTCPFrame fb data = Ret (f, fb') /\
     len fb' = Adapter.tcpFrameBufSize /\
     Server.readTCPFrame 1500 (f ++ rest) = Ok (data, rest)).
Proof.
  intros Hb Hf Hd. unfold MaxRelayPacket in Hd. split.
  - exists (frame data). rewrite server_write_spec by done.
    unfold Server.maxTCPFramePayload. rewrite (proj2 (Z.ltb_ge _ _)) by lia.
    split; [done|]. apply adapter_read_frame. lia.
  - destruct (adapter_write_spec fb data Hf) as (b' & -> & Hl); [unfold MaxRelayPacket; lia|].
    exists (frame data), b'. split; [done|]. split; [by rewrite Hl|].
    apply server_read_frame; unfold Server.maxTCPFramePayload; lia.
Qed.

Lemma tcp_frame_roundtrip_witness :
  let bp := replicate 1402 Byte.xff in
  (exists f, Server.writeTCPFrame bp [Byte.x01] = Ret f /\
     Adapter.readTCPFrame 1500 (f ++ []) = Ok ([Byte.x01], [])) /\
  (exists f fb', Adapter.writeTCPFrame bp [Byte.x01] = Ret (f, fb') /\
     len fb' = Adapter.tcpFrameBufSize /\
     Server.readTCPFrame 1500 (f ++ []) = Ok ([Byte.x01], [])).
Proof.
  apply (tcp_frame_roundtrip (replicate 1402 Byte.xff) (replicate 1402 Byte.xff) [Byte.x01] []);
    [by vm_compute..|unfold MaxRelayPacket; simpl; lia].
Defined.

(** What the server's reader has read. *)
Lemma server_read_Ok (bufLen : Z) (conn p rest : bytes) :
  Server.readTCPFrame bufLen conn = Ok (p, rest) ->
  1 <= len p <= Server.maxTCPFramePayload /\ len p <= bufLen /\ conn = frame p ++ rest.
Proof.
  unfold Server.readTCPFrame. intros H.
  destruct (ReadFull 2 conn) as [[hdr c]|] eqn:E; [|done].
  apply ReadFull_Ok in E as [-> Hh]; [|lia].
  pose proof (be_decode_range hdr) as Hr. fold (Uint16 hdr) in Hr.
  do 3 split_guard_in H. bool_facts.
  destruct (ReadFull (Uint16 hdr) c) as [[p' c']|] eqn:E2; [|done]. simplify_eq.
  apply ReadFull_Ok in E2 as [-> Hp]; [|lia].
  unfold Server.maxTCPFramePayload in *. repeat split; [lia..|].
  unfold frame. rewrite Hp, <- app_assoc. unfold Uint16.
  by rewrite be_encode_decode by lia.
Qed.

(** The server's writer panics exactly on packets over 1400 bytes, the
    capacity of its pooled buffers; otherwise it writes the frame. *)
Theorem server_write_panics_iff (bp data : bytes) :
  len bp = Server.poolBufSize ->
  (Server.writeTCPFrame bp data = Panic <-> 1400 < len data).
Proof.
  intros Hb. rewrite server_write_spec by done. unfold Server.maxTCPFramePayload.
  destruct (Z.ltb_spec 1400 (len data)); split; done || lia.
Qed.

Lemma server_write_panics_iff_witness :
  Server.writeTCPFrame (replicate 1402 Byte.x00) (replicate 1401 Byte.x00) = Panic <->
  1400 < len (replicate 1401 Byte.x00).
Proof. apply server_write_panics_iff. by vm_compute. Defined.

(** The server's reader returns only frames of 1 to 1400 bytes, and what
    it returns is exactly what the prefix announced. *)
Theorem server_read_bounds (bufLen : Z) (conn p rest : bytes) :
  Server.readTCPFrame bufLen conn = Ok (p, rest) ->
  1 <= len p <= Server.maxTCPFramePayload /\ len p <= bufLen /\ conn = frame p ++ rest.
Proof. apply server_read_Ok. Qed.

Lemma server_read_bounds_witness :
  1 <= len [Byte.x07] <= Server.maxTCPFramePayload /\ len [Byte.x07] <= 1500 /\
  [Byte.x00; Byte.x01; Byte.x07; Byte.x08] = frame [Byte.x07] ++ [Byte.x08].
Proof.
  apply (server_read_bounds 1500 [Byte.x00; Byte.x01; Byte.x07; Byte.x08]).
  by vm_compute.
Defined.

Lemma server_frames_app bufLen ps : forall fuel,
  Server.maxTCPFramePayload <= bufLen ->
  Forall (fun p => 1 <= len p <= Server.maxTCPFramePayload) ps ->
  (length ps < fuel)%nat ->
  Server.readFrames fuel bufLen (concat (frame <$> ps)) = (ps, Some (FrameIO EOF)).
Proof.
  induction ps as [|p ps IH]; intros [|fuel] Hb Hps Hf; simpl in *; try lia; [done|].
  inversion_clear Hps. rewrite server_read_frame by done. rewrite IH by (done || lia). done.
Qed.

(** Any sequence of packets the adapter writes back to back on one
    connection is read by the server's loop as that sequence, in order and
    without loss, and the loop then ends with end-of-file. *)
Theorem tcp_stream_in_order (fb : bytes) (ps : list bytes) :
  len fb = Adapter.tcpFrameBufSize ->
  Forall (fun p => 1 <= len p <= MaxRelayPacket) ps ->
  exists frames,
    Forall2 (fun p f => exists b b', len b = Adapter.tcpFrameBufSize /\
               Adapter.writeTCPFrame b p = Ret (f, b')) ps frames /\
    Server.readFrames (S (length ps)) 1500 (concat frames) = (ps, Some (FrameIO EOF)).
Proof.
  intros Hf Hps. exists (frame <$> ps). split.
  - apply Forall2_fmap_r. apply Forall_Forall2_diag. eapply Forall_impl; [exact Hps|].
    intros p [_ Hp]. destruct (adapter_write_spec fb p Hf) as (b' & E & _); [done|]. eauto.
  - apply server_frames_app; [unfold Server.maxTCPFramePayload; lia|done|lia].
Qed.

Lemma tcp_stream_in_order_witness :
  exists frames,
    Forall2 (fun p f => exists b b', len b = Adapter.tcpFrameBufSize /\
               Adapter.writeTCPFrame b p = Ret (f, b')) [[Byte.x01]; [Byte.x02]] frames /\
    Server.readFrames 3 1500 (concat frames) =
      ([[Byte.x01]; [Byte.x02]], Some (FrameIO EOF)).
Proof.
  apply (tcp_stream_in_order (replicate 1402 Byte.x00) [[Byte.x01]; [Byte.x02]]);
    [by vm_compute|]. unfold MaxRelayPacket.
  repeat constructor; simpl; lia.
Defined.
