(* ===== verification/GPGNet.v ===== *)
(** * [internal/protocol/gpgnet.go]

    The binary protocol between the adapter and the game: little-endian
    32-bit integers, length-prefixed strings, a header string followed by at
    most ten typed chunks.  The reader consumes the bytes of a connection; the
    writer fills a [bufio.Writer]. *)

From S2P Require Import Prelude GoLib Float.
From Stdlib Require Import Ascii.

Definition FieldTypeInt : Z := 0.
Definition FieldTypeString : Z := 1.
Definition FieldTypeFollowUpString : Z := 2.
Definition MaxChunkSize : Z := 10.
Definition MaxStringLength : Z := 65535.

(** ** Reader *)

(** The errors, each constructor one [fmt.Errorf] of the reader. *)
Inductive ReadErr :=
| ErrIO (e : IOErr)
| ReadingStringLength (e : ReadErr)
| InvalidStringLength (size : Z)
| ReadingStringBytes (e : ReadErr)
| ReadingChunkCount (e : ReadErr)
| TooManyChunks (count : Z)
| ReadingChunkType (e : ReadErr)
| ReadingIntChunk (e : ReadErr)
| ReadingStringChunk (e : ReadErr)
| ReadingMessageHeader (e : ReadErr)
| ReadingMessageChunks (e : ReadErr).

(** A read returns a value and the rest of the stream, an error, or panics. *)
Inductive rres (A : Type) : Type :=
| ROk (a : A) (rest : bytes)
| RErr (e : ReadErr)
| RPanic.
Arguments ROk {A} a rest.
Arguments RErr {A} e.
Arguments RPanic {A}.

Definition rd (A : Type) : Type := bytes -> rres A.
#[export] Instance rd_ret : MRet rd := fun _ a r => ROk a r.
#[export] Instance rd_bind : MBind rd := fun _ _ f m r =>
  match m r with ROk a r' => f a r' | RErr e => RErr e | RPanic => RPanic end.
Definition rd_fail {A} (e : ReadErr) : rd A := fun _ => RErr e.
Definition rd_panic {A} : rd A := fun _ => RPanic.
(** [fmt.Errorf("...: %w", err)]. *)
Definition on_err {A} (f : ReadErr -> ReadErr) (m : rd A) : rd A := fun r =>
  match m r with RErr e => RErr (f e) | o => o end.
Definition rd_full (n : Z) : rd bytes := fun r =>
  match ReadFull n r with Ok (p, r') => ROk p r' | Err e => RErr (ErrIO e) end.

Definition ReadInt : rd Z :=
  b ← rd_full 4; mret (i32 (le_decode b)).

Definition ReadString : rd string :=
  size ← on_err ReadingStringLength ReadInt;
  if (size <? 0) || (MaxStringLength <? size) then rd_fail (InvalidStringLength size)
  else
    buf ← on_err ReadingStringBytes (rd_full size);
    mret (bytes_str buf).

(** [strings.ReplaceAll(s, string(a)+string(b), string(c))]. *)
Fixpoint ReplaceAll2 (a b c : ascii) (s : string) : string :=
  match s with
  | String x ((String y r) as t) =>
      if bool_decide (x = a) && bool_decide (y = b) then String c (ReplaceAll2 a b c r)
      else String x (ReplaceAll2 a b c t)
  | _ => s
  end.

Definition replaceEscapes (s : string) : string :=
  let s := ReplaceAll2 "/" "t" "009" s in
  ReplaceAll2 "/" "n" "010" s.

Inductive Chunk := CInt (v : Z) | CStr (s : string).

(** The [switch] on the type byte: every type but 0 is a string. *)
Definition ReadTyped (t : Z) : rd Chunk :=
  if t =? FieldTypeInt then
    v ← on_err ReadingIntChunk ReadInt; mret (CInt v)
  else
    s ← on_err ReadingStringChunk ReadString; mret (CStr (replaceEscapes s)).

(** One turn of the chunk loop. *)
Definition ReadChunk : rd Chunk :=
  t ← on_err ReadingChunkType (rd_full 1); ReadTyped (le_decode t).

Fixpoint ReadChunkLoop (n : nat) : rd (list Chunk) :=
  match n with
  | O => mret []
  | S n' => c ← ReadChunk; cs ← ReadChunkLoop n'; mret (c :: cs)
  end.

(** [make([]interface{}, 0, count)] panics on a negative [count]. *)
Definition ReadChunks : rd (list Chunk) :=
  count ← on_err ReadingChunkCount ReadInt;
  if MaxChunkSize <? count then rd_fail (TooManyChunks count)
  else if count <? 0 then rd_panic
  else ReadChunkLoop (Z.to_nat count).

Definition ReadMessage : rd (string * list Chunk) :=
  header ← on_err ReadingMessageHeader ReadString;
  chunks ← on_err ReadingMessageChunks ReadChunks;
  mret (header, chunks).

(** ** Writer *)

(** The dynamic types an [interface{}] argument can have. *)
Inductive Arg :=
| ArgInt (v : Z)
| ArgInt32 (v : Z)
| ArgUint16 (v : Z)
| ArgUint32 (v : Z)
| ArgFloat64 (f : float64)
| ArgString (s : string)
| ArgOther.

Inductive WriteErr :=
| WriteIO
| StringTooLong (n : Z)
| UnsupportedArg
| WritingMessageHeader (e : WriteErr)
| WritingMessageArgs (e : WriteErr).

(** A write changes the buffered writer and returns an error or nil. *)
Definition wr : Type := BufWriter -> BufWriter * option WriteErr.
Definition wr_nil : wr := fun w => (w, None).
Definition wr_then (m k : wr) : wr := fun w =>
  match m w with (w', None) => k w' | (w', Some e) => (w', Some e) end.
Definition wr_fail (e : WriteErr) : wr := fun w => (w, Some e).
Definition wr_err (f : WriteErr -> WriteErr) (m : wr) : wr := fun w =>
  match m w with (w', Some e) => (w', Some (f e)) | o => o end.
Definition wr_io (f : BufWriter -> BufWriter * bool) : wr := fun w =>
  let '(w', ok) := f w in (w', if ok then None else Some WriteIO).
Notation "m ;;; k" := (wr_then m k) (at level 100, right associativity) : relay_scope.
#[local] Open Scope relay_scope.

Definition WriteInt (v : Z) : wr := wr_io (Write (le_encode 4 v)).
Definition WriteByteG (b : Z) : wr := wr_io (WriteByte (Zbyte b)).
Definition WriteString (s : string) : wr :=
  if MaxStringLength <? Z.of_nat (String.length s) then
    wr_fail (StringTooLong (Z.of_nat (String.length s)))
  else
    WriteInt (i32 (Z.of_nat (String.length s))) ;;; wr_io (Write (str_bytes s)).

Section Writer.
(** Go leaves the conversion of an out-of-range [float64] to [int32]
    implementation-specific. *)
Variable out_of_range : float64 -> Z.
Definition float_int32 (f : float64) : Z :=
  let t := f_trunc f in
  if (- 2 ^ 31 <=? t) && (t <? 2 ^ 31) then t else i32 (out_of_range f).

Definition WriteArg (a : Arg) : wr :=
  match a with
  | ArgInt v => WriteByteG FieldTypeInt ;;; WriteInt (i32 v)
  | ArgInt32 v => WriteByteG FieldTypeInt ;;; WriteInt v
  | ArgUint16 v => WriteByteG FieldTypeInt ;;; WriteInt (i32 v)
  | ArgUint32 v => WriteByteG FieldTypeInt ;;; WriteInt v
  | ArgFloat64 f => WriteByteG FieldTypeInt ;;; WriteInt (float_int32 f)
  | ArgString s => WriteByteG FieldTypeString ;;; WriteString s
  | ArgOther => wr_fail UnsupportedArg
  end.

Fixpoint WriteArgLoop (args : list Arg) : wr :=
  match args with
  | [] => wr_nil
  | a :: args' => WriteArg a ;;; WriteArgLoop args'
  end.

Definition WriteArgs (args : list Arg) : wr :=
  WriteInt (i32 (len args)) ;;; WriteArgLoop args.

Definition WriteMessage (header : string) (args : list Arg) : wr :=
  wr_err WritingMessageHeader (WriteString header) ;;;
  wr_err WritingMessageArgs (WriteArgs args) ;;;
  wr_io Flush.
End Writer.

(** ** The wire format as a reference encoder *)

Definition enc_str (s : string) : bytes :=
  le_encode 4 (Z.of_nat (String.length s)) ++ str_bytes s.
Definition enc_arg (oor : float64 -> Z) (a : Arg) : bytes :=
  match a with
  | ArgInt v | ArgInt32 v | ArgUint16 v | ArgUint32 v => Zbyte FieldTypeInt :: le_encode 4 v
  | ArgFloat64 f => Zbyte FieldTypeInt :: le_encode 4 (float_int32 oor f)
  | ArgString s => Zbyte FieldTypeString :: enc_str s
  | ArgOther => []
  end.
Definition enc_message (oor : float64 -> Z) (h : string) (args : list Arg) : bytes :=
  enc_str h ++ le_encode 4 (len args) ++ concat (enc_arg oor <$> args).

(** The arguments the writer accepts. *)
Definition arg_ok (a : Arg) : Prop :=
  match a with
  | ArgString s => Z.of_nat (String.length s) <= MaxStringLength
  | ArgOther => False
  | _ => True
  end.
#[export] Instance arg_ok_dec a : Decision (arg_ok a).
Proof. destruct a; simpl; apply _. Defined.

(** What the reader makes of an argument. *)
Definition chunk_of (oor : float64 -> Z) (a : Arg) : Chunk :=
  match a with
  | ArgInt v | ArgInt32 v | ArgUint16 v | ArgUint32 v => CInt (i32 v)
  | ArgFloat64 f => CInt (float_int32 oor f)
  | ArgString s => CStr (replaceEscapes s)
  | ArgOther => CInt 0
  end.

(** ** Writer lemmas *)

(** [m] succeeds on a healthy writer and hands it exactly [p]. *)
Definition emits (m : wr) (p : bytes) : Prop := forall w, bw_healthy w ->
  exists w', m w = (w', None) /\ bw_healthy w' /\ bw_content w' = bw_content w ++ p.
(** [m] fails with [e] after handing the writer [p]. *)
Definition leaks (m : wr) (p : bytes) (e : WriteErr) : Prop := forall w, bw_healthy w ->
  exists w', m w = (w', Some e) /\ bw_healthy w' /\ bw_content w' = bw_content w ++ p.

Lemma emits_nil : emits wr_nil [].
Proof. intros w Hw. exists w. by rewrite app_nil_r. Qed.

Lemma emits_then m k p q : emits m p -> emits k q -> emits (m ;;; k) (p ++ q).
Proof.
  intros Hm Hk w Hw. destruct (Hm w Hw) as (w1 & E1 & H1 & C1).
  destruct (Hk w1 H1) as (w2 & E2 & H2 & C2). exists w2. unfold wr_then.
  rewrite E1, E2, C2, C1, app_assoc. done.
Qed.

Lemma leaks_then m k p q e : emits m p -> leaks k q e -> leaks (m ;;; k) (p ++ q) e.
Proof.
  intros Hm Hk w Hw. destruct (Hm w Hw) as (w1 & E1 & H1 & C1).
  destruct (Hk w1 H1) as (w2 & E2 & H2 & C2). exists w2. unfold wr_then.
  rewrite E1, E2, C2, C1, app_assoc. done.
Qed.

Lemma leaks_first m k p e : leaks m p e -> leaks (m ;;; k) p e.
Proof.
  intros Hm w Hw. destruct (Hm w Hw) as (w1 & E1 & H1 & C1). exists w1.
  unfold wr_then. by rewrite E1.
Qed.

Lemma emits_err f m p : emits m p -> emits (wr_err f m) p.
Proof.
  intros Hm w Hw. destruct (Hm w Hw) as (w1 & E1 & ?). exists w1. unfold wr_err. by rewrite E1.
Qed.

Lemma leaks_err f m p e : leaks m p e -> leaks (wr_err f m) p (f e).
Proof.
  intros Hm w Hw. destruct (Hm w Hw) as (w1 & E1 & ?). exists w1. unfold wr_err. by rewrite E1.
Qed.

Lemma leaks_fail e : leaks (wr_fail e) [] e.
Proof. intros w Hw. exists w. by rewrite app_nil_r. Qed.

Lemma emits_Write p : emits (wr_io (Write p)) p.
Proof.
  intros w Hw. destruct (Write_spec p w Hw) as (w' & E & ? & ?). exists w'.
  unfold wr_io. by rewrite E.
Qed.

Lemma emits_WriteByte b : emits (WriteByteG b) [Zbyte b].
Proof.
  intros w Hw. destruct (WriteByte_spec (Zbyte b) w Hw) as (w' & E & ? & ?). exists w'.
  unfold WriteByteG, wr_io. by rewrite E.
Qed.

Lemma le_encode_i32 v : le_encode 4 (i32 v) = le_encode 4 v.
Proof.
  rewrite <- (le_encode_mod 4 (i32 v)), <- (le_encode_mod 4 v). f_equal.
  change (2 ^ (8 * Z.of_nat 4)) with (2 ^ 32). unfold i32, swrap.
  rewrite Zminus_mod, Z.mod_mod, <- Zminus_mod by lia. f_equal; lia.
Qed.

Lemma emits_WriteString s :
  Z.of_nat (String.length s) <= MaxStringLength -> emits (WriteString s) (enc_str s).
Proof.
  intros Hs. unfold WriteString, enc_str. rewrite (proj2 (Z.ltb_ge _ _)) by done.
  apply emits_then; [|apply emits_Write]. rewrite <- le_encode_i32. apply emits_Write.
Qed.

Lemma emits_WriteArg oor a : arg_ok a -> emits (WriteArg oor a) (enc_arg oor a).
Proof.
  intros Ha. destruct a; simpl in *; try done;
    match goal with |- emits _ (?b :: ?l) => change (b :: l) with ([b] ++ l) end;
    (apply emits_then; [apply emits_WriteByte|]);
    try (unfold WriteInt; rewrite ?le_encode_i32; apply emits_Write).
  by apply emits_WriteString.
Qed.

Lemma emits_WriteArgLoop oor args :
  Forall arg_ok args -> emits (WriteArgLoop oor args) (concat (enc_arg oor <$> args)).
Proof.
  induction 1; simpl; [apply emits_nil|]. apply emits_then; [by apply emits_WriteArg|done].
Qed.

Lemma emits_WriteArgs oor args :
  Forall arg_ok args ->
  emits (WriteArgs oor args) (le_encode 4 (len args) ++ concat (enc_arg oor <$> args)).
Proof.
  intros. apply emits_then; [|by apply emits_WriteArgLoop].
  rewrite <- le_encode_i32. apply emits_Write.
Qed.

(** A message whose header and arguments are acceptable is flushed whole,
    behind whatever the writer still held. *)
Lemma WriteMessage_flushes oor h args w :
  bw_healthy w -> Z.of_nat (String.length h) <= MaxStringLength -> Forall arg_ok args ->
  exists w', WriteMessage oor h args w = (w', None) /\ bw_healthy w' /\
    bw_out w' = bw_content w ++ enc_message oor h args /\ bw_buf w' = [].
Proof.
  intros Hw Hh Ha. unfold WriteMessage.
  destruct (emits_err WritingMessageHeader _ _ (emits_WriteString h Hh) w Hw)
    as (w1 & E1 & H1 & C1).
  destruct (emits_err WritingMessageArgs _ _ (emits_WriteArgs oor args Ha) w1 H1)
    as (w2 & E2 & H2 & C2).
  destruct (Flush_spec w2 H2) as (w3 & E3 & H3 & O3 & B3).
  exists w3. unfold wr_then at 1. rewrite E1. unfold wr_then at 1. rewrite E2.
  unfold wr_io. rewrite E3. repeat split; try apply H3; try done.
  rewrite O3, C2, C1. unfold enc_message. by rewrite !app_assoc.
Qed.

Lemma WriteArgLoop_leaks oor pre a post e p :
  Forall arg_ok pre -> leaks (WriteArg oor a) p e ->
  leaks (WriteArgLoop oor (pre ++ a :: post)) (concat (enc_arg oor <$> pre) ++ p) e.
Proof.
  induction 1; simpl; intros Hl.
  - by apply leaks_first.
  - rewrite <- app_assoc. apply leaks_then; [by apply emits_WriteArg|auto].
Qed.

(** ** Reader lemmas *)

(** [m] consumes exactly [p] and returns [a], whatever follows. *)
Definition reads {A} (m : rd A) (p : bytes) (a : A) : Prop := forall r, m (p ++ r) = ROk a r.

Lemma reads_bind {A B} (m : rd A) (k : A -> rd B) p q a b :
  reads m p a -> reads (k a) q b -> reads (m ≫= k) (p ++ q) b.
Proof.
  intros Hm Hk r. unfold mbind, rd_bind. by rewrite <- app_assoc, Hm, Hk.
Qed.

Lemma reads_ret {A} (a : A) : reads (mret a) [] a.
Proof. by intros r. Qed.

Lemma reads_map {A B} (m : rd A) (f : A -> B) p a :
  reads m p a -> reads (x ← m; mret (f x)) p (f a).
Proof. intros H. rewrite <- (app_nil_r p). eapply reads_bind; [done|apply reads_ret]. Qed.

Lemma reads_err {A} f (m : rd A) p a : reads m p a -> reads (on_err f m) p a.
Proof. intros H r. unfold on_err. by rewrite H. Qed.

Lemma reads_full n p : len p = n -> reads (rd_full n) p p.
Proof. intros H r. unfold rd_full. by rewrite ReadFull_app. Qed.

Lemma reads_ReadInt v : reads ReadInt (le_encode 4 v) (i32 v).
Proof.
  unfold ReadInt. replace (i32 v) with (i32 (le_decode (le_encode 4 v))).
  - apply (reads_map _ (fun b => i32 (le_decode b))), reads_full. by rewrite length_le_encode.
  - rewrite le_decode_encode. by apply swrap_mod.
Qed.

Lemma reads_ReadString s :
  Z.of_nat (String.length s) <= MaxStringLength -> reads ReadString (enc_str s) s.
Proof.
  intros Hs. unfold ReadString, enc_str, MaxStringLength in *.
  eapply reads_bind; [apply reads_err, reads_ReadInt|]. rewrite i32_small by lia.
  rewrite (proj2 (Z.ltb_ge _ _)), (proj2 (Z.ltb_ge _ _)) by lia. simpl.
  rewrite <- (bytes_str_bytes s) at 3.
  apply (reads_map _ bytes_str), reads_err, reads_full. by rewrite length_str_bytes.
Qed.

Lemma le_decode_1 b : le_decode [b] = byteZ b.
Proof.
  rewrite <- (Zbyte_byteZ b) at 1. change [Zbyte (byteZ b)] with (le_encode 1 (byteZ b)).
  rewrite le_decode_encode. apply Z.mod_small, byteZ_range.
Qed.

Lemma reads_tag b q c : reads (ReadTyped (u8 b)) q c -> reads ReadChunk (Zbyte b :: q) c.
Proof.
  intros H. change (Zbyte b :: q) with ([Zbyte b] ++ q).
  eapply reads_bind; [by apply reads_err, reads_full|].
  by rewrite le_decode_1, byteZ_Zbyte.
Qed.

Lemma float_int32_range oor f : - 2 ^ 31 <= float_int32 oor f < 2 ^ 31.
Proof.
  unfold float_int32. split_guard; bool_facts; [lia|].
  pose proof (swrap_range 32 (oor f)). unfold i32. lia.
Qed.

Lemma reads_ReadChunk oor a : arg_ok a -> reads ReadChunk (enc_arg oor a) (chunk_of oor a).
Proof.
  intros Ha. destruct a; simpl in *; try done; apply reads_tag; cbn -[ReadInt ReadString];
    try (apply (reads_map _ CInt), reads_err, reads_ReadInt).
  - rewrite <- (i32_small (float_int32 oor f)) at 2 by apply float_int32_range.
    apply (reads_map _ CInt), reads_err, reads_ReadInt.
  - apply (reads_map _ (fun s => CStr (replaceEscapes s))), reads_err. by apply reads_ReadString.
Qed.

Lemma reads_ReadChunkLoop oor args :
  Forall arg_ok args ->
  reads (ReadChunkLoop (length args)) (concat (enc_arg oor <$> args)) (chunk_of oor <$> args).
Proof.
  induction 1; simpl; [apply reads_ret|].
  eapply reads_bind; [by apply reads_ReadChunk|].
  by apply (reads_map _ (cons _)).
Qed.

Lemma reads_ReadMessage oor h args :
  Z.of_nat (String.length h) <= MaxStringLength -> Forall arg_ok args ->
  len args <= MaxChunkSize ->
  reads ReadMessage (enc_message oor h args) (h, chunk_of oor <$> args).
Proof.
  intros Hh Ha Hl. unfold ReadMessage, enc_message.
  eapply reads_bind; [by apply reads_err, reads_ReadString|].
  apply (reads_map _ (pair h)), reads_err. unfold ReadChunks, MaxChunkSize in *.
  eapply reads_bind; [apply reads_err, reads_ReadInt|]. rewrite i32_small by lia.
  rewrite (proj2 (Z.ltb_ge _ _)), (proj2 (Z.ltb_ge _ _)) by lia.
  rewrite Nat2Z.id. by apply reads_ReadChunkLoop.
Qed.

(** ** Inversion of the reader *)

Lemma rd_bind_inv {A B} (m : rd A) (k : A -> rd B) r b r' :
  (m ≫= k) r = ROk b r' -> exists a r1, m r = ROk a r1 /\ k a r1 = ROk b r'.
Proof. unfold mbind, rd_bind. destruct (m r); [eauto|done..]. Qed.

Lemma rd_bind_panic {A B} (m : rd A) (k : A -> rd B) r :
  (m ≫= k) r = RPanic -> m r = RPanic \/ exists a r1, m r = ROk a r1 /\ k a r1 = RPanic.
Proof. unfold mbind, rd_bind. destruct (m r); [eauto|done|by left]. Qed.

Lemma on_err_inv {A} f (m : rd A) r a r' : on_err f m r = ROk a r' -> m r = ROk a r'.
Proof. unfold on_err. by destruct (m r). Qed.

Lemma on_err_panic {A} f (m : rd A) r : on_err f m r = RPanic -> m r = RPanic.
Proof. unfold on_err. by destruct (m r). Qed.

Lemma rd_full_inv n r p r' :
  0 <= n -> rd_full n r = ROk p r' -> r = p ++ r' /\ len p = n.
Proof.
  unfold rd_full. destruct (ReadFull n r) as [[??]|] eqn:E; intros; simplify_eq.
  by apply ReadFull_Ok.
Qed.

Lemma rd_full_no_panic n r : rd_full n r <> RPanic.
Proof. unfold rd_full. by destruct (ReadFull n r) as [[??]|]. Qed.

Lemma ReadInt_inv r v r' :
  ReadInt r = ROk v r' -> r = le_encode 4 v ++ r' /\ - 2 ^ 31 <= v < 2 ^ 31.
Proof.
  intros (b & r1 & H1 & H2)%rd_bind_inv. cbv [mret rd_ret] in H2. simplify_eq.
  apply rd_full_inv in H1 as [-> Hl]; [|lia].
  split; [|pose proof (swrap_range 32 (le_decode b)); unfold i32; lia].
  rewrite le_encode_i32. replace 4%nat with (length b) by lia. by rewrite le_encode_decode.
Qed.

Lemma ReadInt_no_panic r : ReadInt r <> RPanic.
Proof. intros [H|(b & r1 & ? & ?)]%rd_bind_panic; [by apply rd_full_no_panic in H|done]. Qed.

Lemma ReadString_inv r s r' :
  ReadString r = ROk s r' ->
  r = enc_str s ++ r' /\ Z.of_nat (String.length s) <= MaxStringLength.
Proof.
  intros (n & r1 & H1%on_err_inv & H2)%rd_bind_inv.
  apply ReadInt_inv in H1 as [-> Hn].
  destruct (_ || _) eqn:E; [done|]. bool_facts.
  apply rd_bind_inv in H2 as (b & r2 & H2%on_err_inv & H3). cbv [mret rd_ret] in H3. simplify_eq.
  apply rd_full_inv in H2 as [-> Hb]; [|lia]. unfold enc_str.
  rewrite <- length_str_bytes, str_bytes_str, Hb, <- app_assoc. split; [done|lia].
Qed.

Lemma ReadString_no_panic r : ReadString r <> RPanic.
Proof.
  intros [H%on_err_panic|(n & r1 & ? & H)]%rd_bind_panic; [by apply ReadInt_no_panic in H|].
  destruct (_ || _); [done|].
  apply rd_bind_panic in H as [H%on_err_panic|(? & ? & ? & ?)]; [|done].
  by apply rd_full_no_panic in H.
Qed.

Lemma ReadTyped_no_panic t r : ReadTyped t r <> RPanic.
Proof.
  unfold ReadTyped. destruct (_ =? _);
    intros [H%on_err_panic|(? & ? & ? & ?)]%rd_bind_panic; try done;
    by apply ReadInt_no_panic in H || apply ReadString_no_panic in H.
Qed.

Lemma ReadChunkLoop_no_panic n r : ReadChunkLoop n r <> RPanic.
Proof.
  revert r; induction n as [|n IH]; intros r; [done|]. cbn [ReadChunkLoop].
  intros [H|(c & r1 & _ & H)]%rd_bind_panic.
  - apply rd_bind_panic in H as [H%on_err_panic|(? & ? & ? & H)];
      [by apply rd_full_no_panic in H|by apply ReadTyped_no_panic in H].
  - apply rd_bind_panic in H as [H|(? & ? & ? & ?)]; [by apply IH in H|done].
Qed.

Lemma ReadChunkLoop_length n r cs r' :
  ReadChunkLoop n r = ROk cs r' -> length cs = n.
Proof.
  revert r cs; induction n as [|n IH]; intros r cs; cbn [ReadChunkLoop]; [by intros [= <- _]|].
  intros (c & r1 & _ & (cs' & r2 & H2 & H3)%rd_bind_inv)%rd_bind_inv.
  cbv [mret rd_ret] in H3. simplify_eq/=. by erewrite IH.
Qed.

(** ** Escape sequences *)

Fixpoint contains2 (a b : ascii) (s : string) : bool :=
  match s with
  | String x ((String y r) as t) =>
      (bool_decide (x = a) && bool_decide (y = b)) || contains2 a b t
  | _ => false
  end.

Lemma string_ind2 (P : string -> Prop) :
  P "" -> (forall x, P (String x "")) ->
  (forall x y r, P r -> P (String y r) -> P (String x (String y r))) -> forall s, P s.
Proof.
  intros H0 H1 H2 s. enough (P s /\ forall x, P (String x s)) by tauto.
  induction s as [|y r [IH1 IH2]]; split; auto.
Qed.

Lemma ReplaceAll2_cons2 a b c x y r :
  ReplaceAll2 a b c (String x (String y r)) =
  if bool_decide (x = a) && bool_decide (y = b) then String c (ReplaceAll2 a b c r)
  else String x (ReplaceAll2 a b c (String y r)).
Proof. done. Qed.

Lemma contains2_cons2 a b x y r :
  contains2 a b (String x (String y r)) =
  (bool_decide (x = a) && bool_decide (y = b)) || contains2 a b (String y r).
Proof. done. Qed.

Definition str_head (s : string) : option ascii :=
  match s with String x _ => Some x | EmptyString => None end.

Lemma ReplaceAll2_head a b c s x :
  str_head (ReplaceAll2 a b c s) = Some x -> x = c \/ str_head s = Some x.
Proof.
  destruct s as [|y [|z r]]; simpl; [done|auto|]. destruct (_ && _); simpl; intros; simplify_eq; auto.
Qed.

(** A later pass creates no occurrence of a pair that does not mention the
    replacement character. *)
Lemma ReplaceAll2_keeps a b c p q s :
  c <> p -> c <> q -> contains2 p q s = false -> contains2 p q (ReplaceAll2 a b c s) = false.
Proof.
  intros Hp Hq. induction s as [|x|x y r IH1 IH2] using string_ind2; [done..|].
  rewrite contains2_cons2, ReplaceAll2_cons2. intros [H1 H2]%orb_false_elim.
  assert (Hr : contains2 p q r = false).
  { destruct r; [done|]. rewrite contains2_cons2 in H2. by apply orb_false_elim in H2 as [_ ?]. }
  destruct (bool_decide (x = a) && bool_decide (y = b)).
  - specialize (IH1 Hr). destruct (ReplaceAll2 a b c r); [done|].
    rewrite contains2_cons2, (bool_decide_eq_false_2 (c = p)) by done. done.
  - specialize (IH2 H2). destruct (ReplaceAll2 a b c (String y r)) as [|h t] eqn:E; [done|].
    rewrite contains2_cons2. apply orb_false_intro; [|done].
    destruct (ReplaceAll2_head a b c (String y r) h) as [->|Hh]; [by rewrite E| |].
    + rewrite (bool_decide_eq_false_2 (c = q)) by done. apply andb_false_r.
    + simpl in Hh. simplify_eq. done.
Qed.

Lemma ReplaceAll2_removes a b c s :
  c <> a -> c <> b -> contains2 a b (ReplaceAll2 a b c s) = false.
Proof.
  intros Ha Hb. induction s as [|x|x y r IH1 IH2] using string_ind2; [done..|].
  rewrite ReplaceAll2_cons2. destruct (bool_decide (x = a) && bool_decide (y = b)) eqn:E.
  - destruct (ReplaceAll2 a b c r); [done|].
    rewrite contains2_cons2, (bool_decide_eq_false_2 (c = a)) by done. done.
  - destruct (ReplaceAll2 a b c (String y r)) as [|h t] eqn:E2; [done|].
    rewrite contains2_cons2. apply orb_false_intro; [|done].
    destruct (ReplaceAll2_head a b c (String y r) h) as [->|Hh]; [by rewrite E2| |].
    + rewrite (bool_decide_eq_false_2 (c = b)) by done. apply andb_false_r.
    + simpl in Hh. simplify_eq. done.
Qed.

Lemma ReplaceAll2_length a b c s :
  (String.length (ReplaceAll2 a b c s) <= String.length s)%nat.
Proof.
  induction s as [|x|x y r IH1 IH2] using string_ind2; [done..|].
  rewrite ReplaceAll2_cons2. destruct (bool_decide (x = a) && bool_decide (y = b)); simpl in *; lia.
Qed.

Lemma replaceEscapes_length s :
  (String.length (replaceEscapes s) <= String.length s)%nat.
Proof.
  unfold replaceEscapes. etrans; [apply ReplaceAll2_length|apply ReplaceAll2_length].
Qed.

(** The strings a chunk list holds. *)
Definition chunk_str_ok (c : Chunk) : Prop :=
  match c with
  | CInt v => - 2 ^ 31 <= v < 2 ^ 31
  | CStr s => Z.of_nat (String.length s) <= MaxStringLength /\
              contains2 "/" "t" s = false /\ contains2 "/" "n" s = false
  end.

Lemma ReadTyped_ok t r c r' : ReadTyped t r = ROk c r' -> chunk_str_ok c.
Proof.
  unfold ReadTyped. destruct (_ =? _);
    intros (v & r1 & H1%on_err_inv & H2)%rd_bind_inv; cbv [mret rd_ret] in H2; simplify_eq; simpl.
  - apply ReadInt_inv in H1 as [_ H]. exact H.
  - apply ReadString_inv in H1 as [_ H]. pose proof (replaceEscapes_length v).
    split; [lia|]. unfold replaceEscapes.
    split; [apply ReplaceAll2_keeps; try discriminate|]; apply ReplaceAll2_removes; discriminate.
Qed.

Lemma ReadChunkLoop_ok n r cs r' : ReadChunkLoop n r = ROk cs r' -> Forall chunk_str_ok cs.
Proof.
  revert r cs; induction n as [|n IH]; intros r cs; cbn [ReadChunkLoop]; [by intros [= <- _]|].
  intros (c & r1 & H1 & (cs' & r2 & H2 & H3)%rd_bind_inv)%rd_bind_inv.
  cbv [mret rd_ret] in H3. simplify_eq/=. apply rd_bind_inv in H1 as (? & ? & _ & H1).
  constructor; [by eapply ReadTyped_ok|by eapply IH].
Qed.

(** ** Properties *)

(** C27. Whatever the state of a working writer, a message with an acceptable
    header and at most ten acceptable arguments is written without error and
    flushed; if nothing was left in the buffer, the bytes added to the
    connection read back as the same header and the arguments' chunks, and the
    reader leaves the bytes that follow for the next message. *)
Theorem gpgnet_roundtrip (oor : float64 -> Z) (h : string) (args : list Arg) (w : BufWriter) :
  bw_healthy w -> bw_buf w = [] ->
  Z.of_nat (String.length h) <= MaxStringLength -> Forall arg_ok args ->
  len args <= MaxChunkSize ->
  exists w' sent, WriteMessage oor h args w = (w', None) /\ bw_healthy w' /\ bw_buf w' = [] /\
    bw_out w' = bw_out w ++ sent /\
    forall rest, ReadMessage (sent ++ rest) = ROk (h, chunk_of oor <$> args) rest.
Proof.
  intros Hw Hb Hh Ha Hl.
  destruct (WriteMessage_flushes oor h args w Hw Hh Ha) as (w' & E & Hw' & Ho & Hb').
  exists w', (enc_message oor h args). do 3 (split; [done|]).
  split; [by rewrite Ho; unfold bw_content; rewrite Hb, app_nil_r|].
  by apply reads_ReadMessage.
Qed.

Lemma gpgnet_roundtrip_witness :
  exists w' sent,
    WriteMessage (fun _ => 0) "JoinGame" [ArgString "127.0.0.1:6112"; ArgInt32 (-7)] NewBufWriter
      = (w', None) /\ bw_healthy w' /\ bw_buf w' = [] /\
    bw_out w' = bw_out NewBufWriter ++ sent /\
    forall rest, ReadMessage (sent ++ rest) =
      ROk ("JoinGame", [CStr "127.0.0.1:6112"; CInt (-7)])%string rest.
Proof.
  apply (gpgnet_roundtrip (fun _ => 0) "JoinGame" [ArgString "127.0.0.1:6112"; ArgInt32 (-7)]
           NewBufWriter); unfold MaxStringLength, MaxChunkSize; [done|done|simpl; lia| |simpl; lia].
  repeat constructor; simpl; unfold MaxStringLength; lia.
Defined.

(** A message the reader accepts has at most ten chunks; its header is at
    most 65535 bytes and is recovered verbatim; every integer is a signed
    32-bit value and every string is at most 65535 bytes and free of the
    escape sequences. *)
Theorem gpgnet_read_bounds (r : bytes) (h : string) (cs : list Chunk) (rest : bytes) :
  ReadMessage r = ROk (h, cs) rest ->
  len cs <= MaxChunkSize /\ Z.of_nat (String.length h) <= MaxStringLength /\
  Forall chunk_str_ok cs /\ exists tl, r = enc_str h ++ le_encode 4 (len cs) ++ tl.
Proof.
  intros (h' & r1 & H1%on_err_inv & H2)%rd_bind_inv.
  apply rd_bind_inv in H2 as (cs' & r2 & H2%on_err_inv & H3). cbv [mret rd_ret] in H3. simplify_eq.
  apply ReadString_inv in H1 as [-> Hh].
  apply rd_bind_inv in H2 as (n & r3 & H2%on_err_inv & H3).
  apply ReadInt_inv in H2 as [-> Hn]. unfold MaxChunkSize in *.
  do 2 (destruct (_ <? _) eqn:? in H3; [done|]). bool_facts.
  pose proof (ReadChunkLoop_length _ _ _ _ H3). split; [lia|]. split; [done|].
  split; [by eapply ReadChunkLoop_ok|]. exists r3. do 3 f_equal. lia.
Qed.

Lemma gpgnet_read_bounds_witness :
  len [CStr "a"] <= MaxChunkSize /\ Z.of_nat (String.length "H") <= MaxStringLength /\
  Forall chunk_str_ok [CStr "a"] /\
  exists tl, [Byte.x01; Byte.x00; Byte.x00; Byte.x00; Byte.x48; Byte.x01; Byte.x00; Byte.x00; Byte.x00; 
    Byte.x02; Byte.x01; Byte.x00; Byte.x00; Byte.x00; Byte.x61] =
    enc_str "H" ++ le_encode 4 (len [CStr "a"]) ++ tl.
Proof. apply (gpgnet_read_bounds _ "H" [CStr "a"] []). by vm_compute. Defined.

(** When the reader panics. *)
Lemma ReadMessage_panic (r : bytes) :
  ReadMessage r = RPanic <->
  exists h c tl, Z.of_nat (String.length h) <= MaxStringLength /\ - 2 ^ 31 <= c < 0 /\
    r = enc_str h ++ le_encode 4 c ++ tl.
Proof.
  split.
  - intros [H%on_err_panic|(h & r1 & H1%on_err_inv & H2)]%rd_bind_panic;
      [by apply ReadString_no_panic in H|].
    apply ReadString_inv in H1 as [-> Hh].
    apply rd_bind_panic in H2 as [H2%on_err_panic|(? & ? & ? & ?)]; [|done].
    apply rd_bind_panic in H2 as [H2%on_err_panic|(c & tl & H2%on_err_inv & H3)];
      [by apply ReadInt_no_panic in H2|].
    apply ReadInt_inv in H2 as [-> Hc]. exists h, c, tl.
    destruct (_ <? _) in H3; [done|]. destruct (_ <? _) eqn:E in H3; bool_facts.
    + repeat split; lia || done.
    + by apply ReadChunkLoop_no_panic in H3.
  - intros (h & c & tl & Hh & Hc & ->). unfold ReadMessage, mbind, rd_bind.
    rewrite (reads_err _ _ _ _ (reads_ReadString h Hh)).
    unfold on_err at 1, ReadChunks, mbind, rd_bind.
    rewrite (reads_err _ _ _ _ (reads_ReadInt c)), i32_small by lia. unfold MaxChunkSize.
    by rewrite (proj2 (Z.ltb_ge _ _)), (proj2 (Z.ltb_lt _ _)) by lia.
Qed.

(** The reader crashes exactly on a well-formed header followed by a
    negative chunk count: the count is checked against the maximum only, and
    the allocation with a negative capacity panics. *)
Theorem gpgnet_negative_count_panics (r : bytes) :
  ReadMessage r = RPanic <->
  exists h c tl, Z.of_nat (String.length h) <= MaxStringLength /\ - 2 ^ 31 <= c < 0 /\
    r = enc_str h ++ le_encode 4 c ++ tl.
Proof. apply ReadMessage_panic. Qed.

(** A write that fails on an unsupported argument leaves the bytes of the
    message so far in the buffer: the next message, although written without
    error, reaches the game behind that fragment. *)
Theorem gpgnet_failed_write_leaks (oor : float64 -> Z) (w : BufWriter)
    (h : string) (pre post : list Arg) (h2 : string) (args2 : list Arg) :
  bw_healthy w -> bw_buf w = [] ->
  Z.of_nat (String.length h) <= MaxStringLength -> Forall arg_ok pre ->
  Z.of_nat (String.length h2) <= MaxStringLength -> Forall arg_ok args2 ->
  let n := len (pre ++ ArgOther :: post) in
  exists w1 w2,
    WriteMessage oor h (pre ++ ArgOther :: post) w = (w1, Some (WritingMessageArgs UnsupportedArg)) /\
    WriteMessage oor h2 args2 w1 = (w2, None) /\
    bw_out w2 = bw_out w ++ enc_str h ++ le_encode 4 n ++ concat (enc_arg oor <$> pre) ++
                enc_message oor h2 args2.
Proof.
  intros Hw Hb Hh Hpre Hh2 Ha2 n.
  assert (L : leaks (WriteMessage oor h (pre ++ ArgOther :: post))
                (enc_str h ++ (le_encode 4 n ++ concat (enc_arg oor <$> pre) ++ []))
                (WritingMessageArgs UnsupportedArg)).
  { apply leaks_then; [by apply emits_err, emits_WriteString|]. apply leaks_first, leaks_err.
    apply leaks_then; [rewrite <- le_encode_i32; apply emits_Write|].
    apply WriteArgLoop_leaks; [done|apply leaks_fail]. }
  destruct (L w Hw) as (w1 & E1 & H1 & C1).
  destruct (WriteMessage_flushes oor h2 args2 w1 H1 Hh2 Ha2) as (w2 & E2 & H2 & O2 & _).
  exists w1, w2. split; [done|]. split; [done|]. rewrite O2, C1. unfold bw_content.
  by rewrite Hb, !app_nil_r, <- !app_assoc.
Qed.

(** The fragment makes the reader at the other end misread the message. *)
Lemma gpgnet_failed_write_leaks_witness :
  exists w1 w2,
    WriteMessage (fun _ => 0) "X" ([] ++ ArgOther :: []) NewBufWriter =
      (w1, Some (WritingMessageArgs UnsupportedArg)) /\
    WriteMessage (fun _ => 0) "GameState" [ArgString "Lobby"] w1 = (w2, None) /\
    bw_out w2 = bw_out NewBufWriter ++ enc_str "X" ++ le_encode 4 1 ++
                concat (enc_arg (fun _ => 0) <$> []) ++
                enc_message (fun _ => 0) "GameState" [ArgString "Lobby"] /\
    ReadMessage (enc_str "X" ++ le_encode 4 1 ++
                 enc_message (fun _ => 0) "GameState" [ArgString "Lobby"]) =
      RErr (ReadingMessageChunks (ReadingStringChunk (InvalidStringLength 1191182336))).
Proof.
  destruct (gpgnet_failed_write_leaks (fun _ => 0) NewBufWriter "X" [] [] "GameState"
              [ArgString "Lobby"]) as (w1 & w2 & E1 & E2 & E3); unfold MaxStringLength;
    [done|done|simpl; lia|constructor|simpl; lia|repeat constructor; simpl; unfold MaxStringLength; lia|].
  exists w1, w2. split; [exact E1|]. split; [exact E2|]. split; [exact E3|]. by vm_compute.
Defined.
