(* ===== verification/JsonRpc.v ===== *)
(** * [internal/protocol/jsonrpc.go]

    Framing of JSON-RPC messages by counting braces, byte at a time and
    without regard to JSON strings, and the newline-terminated writer.  A
    message is the text of a JSON object; the text is what [json.Marshal]
    returned. *)

From S2P Require Import Prelude GoLib.

Definition MaxJSONRPCMessageSize : Z := Z.shiftl 1 20.
Definition lbrace : byte := Byte.x7b.
Definition rbrace : byte := Byte.x7d.
Definition newline : byte := Byte.x0a.

Inductive RawErr := RawIO (e : IOErr) | MessageTooBig.

(** The loop of [ReadRaw]: one byte per turn. *)
Fixpoint ReadRawLoop (buf : bytes) (depth : Z) (started : bool) (r : bytes)
    : result RawErr (bytes * bytes) :=
  match r with
  | [] => Err (RawIO EOF)
  | b :: r' =>
      let '(depth, started) :=
        if bool_decide (b = lbrace) then (depth + 1, true)
        else if bool_decide (b = rbrace) then ((if started then depth - 1 else depth), started)
        else (depth, started) in
      let buf := if started then buf ++ [b] else buf in
      if started && (MaxJSONRPCMessageSize <? len buf) then Err MessageTooBig
      else if started && (depth =? 0) then Ok (buf, r')
      else ReadRawLoop buf depth started r'
  end.

Definition ReadRaw (r : bytes) : result RawErr (bytes * bytes) := ReadRawLoop [] 0 false r.

(** [writeJSON]: [data] is the result of [json.Marshal], [None] its error. *)
Inductive JsonWriteErr := Marshaling | JsonIO.
Definition writeJSON (data : option bytes) (w : BufWriter) : BufWriter * option JsonWriteErr :=
  match data with
  | None => (w, Some Marshaling)
  | Some data =>
      let '(w, ok) := Write data w in
      if negb ok then (w, Some JsonIO)
      else
        let '(w, ok) := WriteByte newline w in
        if negb ok then (w, Some JsonIO)
        else
          let '(w, ok) := Flush w in
          (w, if ok then None else Some JsonIO)
  end.

(** The raw messages a connection carries, until the first error. *)
Fixpoint ReadAllRaw (fuel : nat) (r : bytes) : list bytes * option RawErr :=
  match fuel with
  | O => ([], None)
  | S fuel' =>
      match ReadRaw r with
      | Err e => ([], Some e)
      | Ok (m, r') => let '(ms, e) := ReadAllRaw fuel' r' in (m :: ms, e)
      end
  end.

(** A caller that writes messages one after another and stops at an error. *)
Definition writeNext (wo : BufWriter * option JsonWriteErr) (m : bytes) :=
  let '(w, e) := wo in match e with None => writeJSON (Some m) w | Some _ => wo end.
Definition writeMessages (w : BufWriter) (ms : list bytes) : BufWriter * option JsonWriteErr :=
  foldl writeNext (w, None) ms.

(** ** Specification: brace-balanced objects *)

Definition brace (b : byte) : Z :=
  if bool_decide (b = lbrace) then 1 else if bool_decide (b = rbrace) then -1 else 0.
Definition balance (m : bytes) : Z := foldr (fun b d => brace b + d) 0 m.

(** [m] opens with a brace and the count returns to zero at its last byte and
    not before. *)
Definition is_object (m : bytes) : Prop :=
  hd_error m = Some lbrace /\ balance m = 0 /\
  forall p q, m = p ++ q -> p <> [] -> q <> [] -> 0 < balance p.
Definition no_open (g : bytes) : Prop := lbrace ∉ g.

(** ** Lemmas *)

Lemma balance_app p q : balance (p ++ q) = balance p + balance q.
Proof. induction p as [|b p IH]; simpl; [done|]. rewrite IH. lia. Qed.

(** One turn of the loop once the object has started. *)
Lemma loop_started buf d b r :
  ReadRawLoop buf d true (b :: r) =
  if MaxJSONRPCMessageSize <? len (buf ++ [b]) then Err MessageTooBig
  else if d + brace b =? 0 then Ok (buf ++ [b], r)
  else ReadRawLoop (buf ++ [b]) (d + brace b) true r.
Proof.
  unfold brace. cbn [ReadRawLoop].
  destruct (bool_decide (b = lbrace)); [done|]. destruct (bool_decide (b = rbrace)); simpl.
  - by replace (d + -1) with (d - 1) by lia.
  - by rewrite Z.add_0_r.
Qed.

Lemma loop_skip b r :
  b <> lbrace -> ReadRawLoop [] 0 false (b :: r) = ReadRawLoop [] 0 false r.
Proof.
  intros Hb. cbn [ReadRawLoop]. rewrite bool_decide_eq_false_2 by done.
  by destruct (bool_decide (b = rbrace)).
Qed.

Lemma loop_open r :
  ReadRawLoop [] 0 false (lbrace :: r) = ReadRawLoop [lbrace] 1 true r.
Proof. done. Qed.

Lemma ReadRaw_skip g r : no_open g -> ReadRaw (g ++ r) = ReadRaw r.
Proof.
  unfold ReadRaw, no_open. induction g as [|b g IH]; intros Hg; [done|].
  simpl app. rewrite loop_skip; [apply IH|]; set_solver.
Qed.

(** The loop in the middle of an object: [p] has been read, [q] is to come. *)
Lemma loop_object p q rest :
  q <> [] -> balance (p ++ q) = 0 ->
  (forall p1 q1, q = p1 ++ q1 -> p1 <> [] -> q1 <> [] -> 0 < balance (p ++ p1)) ->
  len (p ++ q) <= MaxJSONRPCMessageSize ->
  ReadRawLoop p (balance p) true (q ++ rest) = Ok (p ++ q, rest).
Proof.
  revert p; induction q as [|b q IH]; intros p Hne Hb Hpos Hl; [done|].
  simpl app. rewrite loop_started.
  replace (balance p + brace b) with (balance (p ++ [b])) by (rewrite balance_app; simpl; lia).
  rewrite !length_app in Hl; simpl in Hl.
  rewrite (proj2 (Z.ltb_ge _ _)) by (rewrite length_app; simpl; lia).
  rewrite (cons_middle b p q) in *.
  destruct q as [|c q].
  - rewrite app_nil_r in *. by rewrite Hb.
  - pose proof (Hpos [b] (c :: q) eq_refl) as H1.
    rewrite (proj2 (Z.eqb_neq _ _)).
    + rewrite (app_assoc p) in *. apply IH; [done|done|..].
      * intros p1 q1 E Hp1 Hq1. rewrite <- app_assoc. apply (Hpos ([b] ++ p1) q1); [|done..].
        simpl. by rewrite E.
      * rewrite !length_app; simpl in *; lia.
    + assert (0 < balance (p ++ [b])) by (by apply H1). lia.
Qed.

Lemma ReadRaw_object m rest :
  is_object m -> len m <= MaxJSONRPCMessageSize -> ReadRaw (m ++ rest) = Ok (m, rest).
Proof.
  intros (Hhd & Hb & Hpos) Hl. destruct m as [|b m]; [done|]. simpl in Hhd. simplify_eq.
  unfold ReadRaw. simpl app. rewrite loop_open.
  destruct m as [|c m]; [done|].
  apply (loop_object [lbrace] (c :: m)); [done|done| |done].
  intros p1 q1 E Hp Hq. apply (Hpos ([lbrace] ++ p1) q1); [|done..]. simpl. by rewrite E.
Qed.

(** What a successful run of the loop read. *)
Lemma loop_sound p r m rest :
  ReadRawLoop p (balance p) true r = Ok (m, rest) ->
  exists q, r = q ++ rest /\ m = p ++ q /\ q <> [] /\ balance m = 0 /\
    len m <= MaxJSONRPCMessageSize /\
    (forall p1 q1, q = p1 ++ q1 -> p1 <> [] -> q1 <> [] -> balance (p ++ p1) <> 0).
Proof.
  revert p; induction r as [|b r IH]; intros p; [done|]. rewrite loop_started.
  replace (balance p + brace b) with (balance (p ++ [b])) by (rewrite balance_app; simpl; lia).
  destruct (Z.ltb_spec MaxJSONRPCMessageSize (len (p ++ [b]))) as [|Hl]; [done|].
  destruct (Z.eqb_spec (balance (p ++ [b])) 0) as [E|E].
  - intros [= <- <-]. exists [b]. do 5 (split; [done|]).
    intros [|x p1] q1 Eq ? ?; [done|]. destruct p1, q1; simplify_eq/=.
  - intros H. destruct (IH _ H) as (q & -> & -> & Hq & Hb & Hlen & Hpos).
    exists (b :: q). rewrite <- (app_assoc p) in *. do 5 (split; [done|]).
    intros [|x p1] q1 Eq ? Hq1; [done|]. simplify_eq/=. destruct p1 as [|y p1]; [done|].
    rewrite cons_middle. rewrite app_assoc. by apply (Hpos (y :: p1) q1).
Qed.

(** Brace counts move by at most one, so a count that starts at one and never
    is zero stays positive. *)
Lemma balance_positive p :
  (forall p1 q1, p = p1 ++ q1 -> p1 <> [] -> balance p1 <> 0) ->
  hd_error p = Some lbrace -> 0 < balance p.
Proof.
  induction p as [|b p IH] using rev_ind; [done|]. intros Hnz Hhd.
  destruct p as [|x p]; [simpl in *; simplify_eq; done|].
  assert (0 < balance (x :: p)) as Hp.
  { apply IH; [|done]. intros p1 q1 E ?. apply (Hnz p1 (q1 ++ [b])); [|done].
    by rewrite E, app_assoc. }
  pose proof (Hnz (x :: p ++ [b]) [] (eq_sym (app_nil_r _)) ltac:(done)) as H0.
  change (x :: p ++ [b]) with ((x :: p) ++ [b]) in *. rewrite balance_app in *.
  change (balance [b]) with (brace b + 0) in *. unfold brace in *.
  repeat case_bool_decide; lia.
Qed.

Lemma ReadRaw_sound r m rest :
  ReadRaw r = Ok (m, rest) ->
  exists g, r = g ++ m ++ rest /\ no_open g /\ is_object m /\ len m <= MaxJSONRPCMessageSize.
Proof.
  unfold ReadRaw, no_open. induction r as [|b r IH]; [done|].
  destruct (decide (b = lbrace)) as [->|Hb].
  - rewrite loop_open. intros H. change 1 with (balance [lbrace]) in H.
    apply loop_sound in H as (q & -> & -> & Hq & Hbal & Hl & Hnz). exists [].
    split; [done|]. split; [set_solver|]. split; [|done].
    split; [done|]. split; [done|]. intros p q' E Hp Hq'. apply balance_positive.
    + intros p1 q1 -> Hp1. destruct p1 as [|x p1]; [done|]. simpl in E. simplify_eq.
      destruct p1 as [|y p1]; [done|].
      apply (Hnz (y :: p1) (q1 ++ q')); [by rewrite app_assoc|done|].
      by intros [-> ->]%app_nil.
    + destruct p; [done|]. by simplify_eq/=.
  - rewrite loop_skip by done. intros H. destruct (IH H) as (g & -> & Hg & ?).
    exists (b :: g). split; [done|]. split; [|done]. by apply not_elem_of_cons.
Qed.

Lemma writeJSON_ok data w :
  bw_healthy w -> bw_buf w = [] ->
  exists w', writeJSON (Some data) w = (w', None) /\ bw_healthy w' /\ bw_buf w' = [] /\
    bw_out w' = bw_out w ++ data ++ [newline].
Proof.
  intros Hw Hb. unfold writeJSON.
  destruct (Write_spec data w Hw) as (w1 & -> & H1 & C1). simpl.
  destruct (WriteByte_spec newline w1 H1) as (w2 & -> & H2 & C2). simpl.
  destruct (Flush_spec w2 H2) as (w3 & -> & H3 & O3 & B3). exists w3.
  split; [done|]. split; [done|]. split; [done|].
  rewrite O3, C2, C1, <- app_assoc. unfold bw_content. by rewrite Hb, app_nil_r.
Qed.

Lemma writeMessages_ok ms : forall w0, bw_healthy w0 -> bw_buf w0 = [] ->
  exists w, writeMessages w0 ms = (w, None) /\
    bw_out w = bw_out w0 ++ concat ((fun m => m ++ [newline]) <$> ms).
Proof.
  unfold writeMessages. induction ms as [|m ms IH]; intros w0 Hw Hb; cbn [foldl].
  - exists w0. by rewrite app_nil_r.
  - destruct (writeJSON_ok m w0 Hw Hb) as (w1 & E & H1 & B1 & O1).
    cbn [writeNext]. rewrite E. destruct (IH w1 H1 B1) as (w & E2 & O2).
    exists w. split; [done|]. rewrite fmap_cons, O2, O1. simpl concat. by rewrite <- !app_assoc.
Qed.

(** ** Properties *)

(** [ReadRaw] returns a message exactly when the stream is some bytes
    without an opening brace, then a brace-balanced object of at most 1 MiB;
    it returns that object and leaves the rest. *)
Theorem readraw_characterised (r m rest : bytes) :
  ReadRaw r = Ok (m, rest) <->
  exists g, r = g ++ m ++ rest /\ no_open g /\ is_object m /\ len m <= MaxJSONRPCMessageSize.
Proof.
  split; [apply ReadRaw_sound|].
  intros (g & -> & Hg & Hm & Hl). rewrite ReadRaw_skip by done. by apply ReadRaw_object.
Qed.

Lemma ReadAllRaw_objects ms :
  Forall (fun m => is_object m /\ len m <= MaxJSONRPCMessageSize) ms ->
  forall g, no_open g ->
  ReadAllRaw (S (length ms)) (g ++ concat ((fun m => m ++ [newline]) <$> ms)) =
  (ms, Some (RawIO EOF)).
Proof.
  induction 1 as [|m ms [Hm Hl] Hms IH]; intros g Hg; cbn [ReadAllRaw length].
  - rewrite ReadRaw_skip by done. done.
  - rewrite ReadRaw_skip by done. simpl concat. rewrite <- !app_assoc.
    rewrite ReadRaw_object by done.
    cbn [ReadAllRaw length] in IH. rewrite IH; [done|].
    apply not_elem_of_cons. split; [done|apply not_elem_of_nil].
Qed.

(** Any sequence of balanced messages, each written with its newline by
    the writer, is read back by the peer as that sequence, in order, and the
    peer then sees the end of the stream. *)
Theorem rpc_stream_roundtrip (ms : list bytes) :
  Forall (fun m => is_object m /\ len m <= MaxJSONRPCMessageSize) ms ->
  exists w, writeMessages NewBufWriter ms = (w, None) /\
    ReadAllRaw (S (length ms)) (bw_out w) = (ms, Some (RawIO EOF)).
Proof.
  intros Hms. destruct (writeMessages_ok ms NewBufWriter) as (w & E & O); [done|done|].
  exists w. split; [done|]. rewrite O.
  apply ReadAllRaw_objects; [done|apply not_elem_of_nil].
Qed.

Lemma is_object_empty : is_object [lbrace; rbrace].
Proof.
  split; [done|]. split; [done|]. intros [|a [|b p]] q E ? Hq; simplify_eq/=; [done..|].
  destruct p; simplify_eq/=.
Qed.

Lemma rpc_stream_roundtrip_witness :
  exists w, writeMessages NewBufWriter [[lbrace; rbrace]; [lbrace; rbrace]] = (w, None) /\
    ReadAllRaw 3 (bw_out w) = ([[lbrace; rbrace]; [lbrace; rbrace]], Some (RawIO EOF)).
Proof.
  apply (rpc_stream_roundtrip [[lbrace; rbrace]; [lbrace; rbrace]]).
  repeat constructor; try apply is_object_empty; by vm_compute.
Defined.
