(* ===== verification/Json.v ===== *)
(** * [encoding/json]

    The encoder and the parser of Go's [encoding/json] on JSON values.  A
    number is the text of its literal; a string is the bytes of the Go string.
    The parser is the scanner and the decoder in one: it accepts the texts the
    scanner accepts, up to its nesting limit. *)

From stdpp Require Import pretty.
From Stdlib Require Ascii.
From S2P Require Import Prelude GoText.

Inductive JSON :=
| JNull
| JBool (b : bool)
| JNum (lit : bytes)
| JStr (s : bytes)
| JArr (l : list JSON)
| JObj (l : list (bytes * JSON)).

(** Induction through the lists. *)
Fixpoint JSON_nested (P : JSON -> Prop) (Hnull : P JNull) (Hbool : forall b, P (JBool b))
    (Hnum : forall lit, P (JNum lit)) (Hstr : forall s, P (JStr s))
    (Harr : forall l, Forall P l -> P (JArr l))
    (Hobj : forall l, Forall (fun kv => P kv.2) l -> P (JObj l)) (v : JSON) : P v :=
  let rec := JSON_nested P Hnull Hbool Hnum Hstr Harr Hobj in
  match v with
  | JNull => Hnull
  | JBool b => Hbool b
  | JNum lit => Hnum lit
  | JStr s => Hstr s
  | JArr l => Harr l ((fix go l := match l return Forall P l with
                                   | [] => Forall_nil_2 P
                                   | x :: l' => Forall_cons_2 P x l' (rec x) (go l')
                                   end) l)
  | JObj l => Hobj l ((fix go l := match l return Forall (fun kv => P kv.2) l with
                                   | [] => Forall_nil_2 _
                                   | x :: l' => Forall_cons_2 _ x l' (rec x.2) (go l')
                                   end) l)
  end.

Abbreviation B s := (str_bytes s%string).
(** JSON text written with single quotes for double quotes. *)
Definition Q (s : string) : bytes :=
  map (fun b => if bool_decide (b = Byte.x27) then Byte.x22 else b) (str_bytes s).

(** ** [json.Marshal] *)

Definition hexDigit (n : Z) : byte := if n <? 10 then Zbyte (48 + n) else Zbyte (87 + n).

(** [appendString] on one ASCII byte, with HTML escaping. *)
Definition quoteByte (b : byte) : bytes :=
  let c := byteZ b in
  if (c =? 92) || (c =? 34) then [Byte.x5c; b]
  else if c =? 8 then B "\b" else if c =? 12 then B "\f" else if c =? 10 then B "\n"
  else if c =? 13 then B "\r" else if c =? 9 then B "\t"
  else if (c <? 32) || (c =? 60) || (c =? 62) || (c =? 38) then
    B "\u00" ++ [hexDigit (c / 16); hexDigit (c mod 16)]
  else [b].

Fixpoint quoteLoop (fuel : nat) (s : bytes) : bytes :=
  match fuel, s with
  | S fuel', b :: s' =>
      if byteZ b <? 128 then quoteByte b ++ quoteLoop fuel' s'
      else
        let '(c, size) := DecodeRune s in
        if (c =? RuneError) && bool_decide (size = 1%nat) then B "\ufffd" ++ quoteLoop fuel' s'
        else if (c =? 8232) || (c =? 8233) then
          B "\u202" ++ [hexDigit (c mod 16)] ++ quoteLoop fuel' (drop size s)
        else take size s ++ quoteLoop fuel' (drop size s)
  | _, _ => []
  end.
Definition quote (s : bytes) : bytes := [Byte.x22] ++ quoteLoop (length s) s ++ [Byte.x22].

(** The parts with commas between them. *)
Fixpoint commas (l : list bytes) : bytes :=
  match l with
  | [] => []
  | [x] => x
  | x :: l' => x ++ [Byte.x2c] ++ commas l'
  end.

Fixpoint Marshal (v : JSON) : bytes :=
  match v with
  | JNull => B "null"
  | JBool b => if b then B "true" else B "false"
  | JNum lit => lit
  | JStr s => quote s
  | JArr l => [Byte.x5b] ++ commas (map Marshal l) ++ [Byte.x5d]
  | JObj l => [Byte.x7b] ++ commas (map (fun kv => quote kv.1 ++ [Byte.x3a] ++ Marshal kv.2) l) ++
              [Byte.x7d]
  end.

(** ** The scanner and decoder *)

Definition is_ws (b : byte) : bool :=
  let c := byteZ b in (c =? 32) || (c =? 9) || (c =? 13) || (c =? 10).
Fixpoint ws (s : bytes) : bytes :=
  match s with b :: s' => if is_ws b then ws s' else s | [] => [] end.

(** The scanner's states inside a number. *)
Inductive NumState := NStart | NNeg | N0 | N1 | NDot | NDot0 | NE | NESign | NE0.
Definition num_step (st : NumState) (b : byte) : option NumState :=
  let c := byteZ b in
  let digit := (48 <=? c) && (c <=? 57) in
  let exponent := (c =? 101) || (c =? 69) in
  match st with
  | NStart => if c =? 45 then Some NNeg else if c =? 48 then Some N0
              else if digit then Some N1 else None
  | NNeg => if c =? 48 then Some N0 else if digit then Some N1 else None
  | N1 => if digit then Some N1 else if c =? 46 then Some NDot else if exponent then Some NE else None
  | N0 => if c =? 46 then Some NDot else if exponent then Some NE else None
  | NDot => if digit then Some NDot0 else None
  | NDot0 => if digit then Some NDot0 else if exponent then Some NE else None
  | NE => if (c =? 43) || (c =? 45) then Some NESign else if digit then Some NE0 else None
  | NESign | NE0 => if digit then Some NE0 else None
  end.
Definition num_run : NumState -> bytes -> option NumState :=
  foldl (fun st b => st ≫= fun st => num_step st b) ∘ Some.
Definition valid_num (lit : bytes) : bool :=
  match num_run NStart lit with Some (N0 | N1 | NDot0 | NE0) => true | _ => false end.
(** No byte of a number can follow a value, so a number is the longest run of
    such bytes. *)
Definition num_byte (b : byte) : bool :=
  let c := byteZ b in
  ((48 <=? c) && (c <=? 57)) || (c =? 43) || (c =? 45) || (c =? 46) || (c =? 101) || (c =? 69).
Fixpoint num_span (s : bytes) : bytes * bytes :=
  match s with
  | b :: s' => if num_byte b then let '(p, r) := num_span s' in (b :: p, r) else ([], s)
  | [] => ([], [])
  end.

Definition hexVal (b : byte) : option Z :=
  let c := byteZ b in
  if (48 <=? c) && (c <=? 57) then Some (c - 48)
  else if (97 <=? c) && (c <=? 102) then Some (c - 87)
  else if (65 <=? c) && (c <=? 70) then Some (c - 55) else None.
Definition hex4 (s : bytes) : option (Z * bytes) :=
  match s with
  | a :: b :: c :: d :: s' =>
      a ← hexVal a; b ← hexVal b; c ← hexVal c; d ← hexVal d;
      Some (((a * 16 + b) * 16 + c) * 16 + d, s')
  | _ => None
  end.
(** [getu4] *)
Definition getu4 (s : bytes) : option (Z * bytes) :=
  match s with
  | a :: b :: s' => if (byteZ a =? 92) && (byteZ b =? 117) then hex4 s' else None
  | _ => None
  end.
(** [utf16.DecodeRune]; [None] is the replacement character. *)
Definition utf16Decode (r1 r2 : Z) : option Z :=
  if (55296 <=? r1) && (r1 <? 56320) && (56320 <=? r2) && (r2 <? 57344)
  then Some ((r1 - 55296) * 1024 + (r2 - 56320) + 65536) else None.

(** An escape: [s] follows the backslash. *)
Definition escape (s : bytes) : option (bytes * bytes) :=
  match s with
  | [] => None
  | b :: s' =>
      let c := byteZ b in
      if (c =? 34) || (c =? 92) || (c =? 47) then Some ([b], s')
      else if c =? 98 then Some ([Byte.x08], s') else if c =? 102 then Some ([Byte.x0c], s')
      else if c =? 110 then Some ([Byte.x0a], s') else if c =? 114 then Some ([Byte.x0d], s')
      else if c =? 116 then Some ([Byte.x09], s')
      else if c =? 117 then
        '(rr, s1) ← hex4 s';
        if (55296 <=? rr) && (rr <? 57344) then
          match (rr1 ← getu4 s1; utf16Decode rr rr1.1) with
          | Some dec => Some (EncodeRune dec, drop 6 s1)
          | None => Some (EncodeRune RuneError, s1)
          end
        else Some (EncodeRune rr, s1)
      else None
  end.

(** A string literal after its opening quote; every turn takes a byte. *)
Fixpoint strLoop (fuel : nat) (s : bytes) : option (bytes * bytes) :=
  match fuel with
  | O => None
  | S fuel' =>
      match s with
      | [] => None
      | b :: s' =>
          let c := byteZ b in
          if c =? 34 then Some ([], s')
          else if c =? 92 then
            '(p, s1) ← escape s'; '(q, r) ← strLoop fuel' s1; Some (p ++ q, r)
          else if c <? 32 then None
          else if c <? 128 then '(q, r) ← strLoop fuel' s'; Some (b :: q, r)
          else
            let '(rr, n) := DecodeRune s in
            '(q, r) ← strLoop fuel' (drop n s); Some (EncodeRune rr ++ q, r)
      end
  end.
Definition strLit (s : bytes) : option (bytes * bytes) := strLoop (S (length s)) s.

Definition maxNestingDepth : Z := 10000.

Definition lit (p s : bytes) : option bytes :=
  if bool_decide (take (length p) s = p) then Some (drop (length p) s) else None.

(** A value after optional white space; [depth] is the number of open
    containers.  A byte is read at least at every other call, so a fuel of one
    more than twice the length of the text is enough ([value_fuel]). *)
Fixpoint value (fuel : nat) (depth : Z) (s : bytes) : option (JSON * bytes) :=
  match fuel with
  | O => None
  | S fuel' =>
      match ws s with
      | [] => None
      | b :: r =>
          let c := byteZ b in
          if c =? 34 then '(str, r) ← strLit r; Some (JStr str, r)
          else if c =? 91 then
            if maxNestingDepth <? depth + 1 then None
            else match ws r with
                 | b1 :: r1 =>
                     if byteZ b1 =? 93 then Some (JArr [], r1)
                     else '(l, r) ← elems fuel' (depth + 1) r; Some (JArr l, r)
                 | [] => None
                 end
          else if c =? 123 then
            if maxNestingDepth <? depth + 1 then None
            else match ws r with
                 | b1 :: r1 =>
                     if byteZ b1 =? 125 then Some (JObj [], r1)
                     else '(l, r) ← members fuel' (depth + 1) r; Some (JObj l, r)
                 | [] => None
                 end
          else if c =? 116 then r ← lit (B "true") (b :: r); Some (JBool true, r)
          else if c =? 102 then r ← lit (B "false") (b :: r); Some (JBool false, r)
          else if c =? 110 then r ← lit (B "null") (b :: r); Some (JNull, r)
          else
            let '(n, r) := num_span (b :: r) in
            if valid_num n then Some (JNum n, r) else None
      end
  end
with elems (fuel : nat) (depth : Z) (s : bytes) : option (list JSON * bytes) :=
  match fuel with
  | O => None
  | S fuel' =>
      '(v, r) ← value fuel' depth s;
      match ws r with
      | b :: r =>
          if byteZ b =? 44 then '(l, r) ← elems fuel' depth r; Some (v :: l, r)
          else if byteZ b =? 93 then Some ([v], r) else None
      | [] => None
      end
  end
with members (fuel : nat) (depth : Z) (s : bytes) : option (list (bytes * JSON) * bytes) :=
  match fuel with
  | O => None
  | S fuel' =>
      match ws s with
      | b :: r =>
          if byteZ b =? 34 then
            '(k, r) ← strLit r;
            match ws r with
            | b :: r =>
                if byteZ b =? 58 then
                  '(v, r) ← value fuel' depth r;
                  match ws r with
                  | b :: r =>
                      if byteZ b =? 44 then
                        '(l, r) ← members fuel' depth r; Some ((k, v) :: l, r)
                      else if byteZ b =? 125 then Some ([(k, v)], r) else None
                  | [] => None
                  end
                else None
            | [] => None
            end
          else None
      | [] => None
      end
  end.

(** [json.Unmarshal] into an untyped value: one value and white space. *)
Definition Unmarshal (s : bytes) : option JSON :=
  '(v, r) ← value (S (2 * length s)) 0 s;
  match ws r with [] => Some v | _ => None end.

(** ** Well-formed values *)

(** How many containers are open at once. *)
Fixpoint height (v : JSON) : Z :=
  match v with
  | JArr l => 1 + foldr (fun x d => Z.max (height x) d) 0 l
  | JObj l => 1 + foldr (fun kv d => Z.max (height kv.2) d) 0 l
  | _ => 0
  end.
Fixpoint wf (v : JSON) : Prop :=
  match v with
  | JNull | JBool _ => True
  | JNum n => valid_num n = true
  | JStr s => valid_utf8 s
  | JArr l => foldr (fun x P => wf x /\ P) True l
  | JObj l => foldr (fun kv P => (valid_utf8 kv.1 /\ wf kv.2) /\ P) True l
  end.


Example unmarshal_ex :
  Unmarshal (Q " {'a' : [1, -2.5e+3, true , null], 'b\u00e9\n':{} } ") =
  Some (JObj [(B "a", JArr [JNum (B "1"); JNum (B "-2.5e+3"); JBool true; JNull]);
              ([Byte.x62; Byte.xc3; Byte.xa9; Byte.x0a], JObj [])]).
Proof. vm_compute. reflexivity. Qed.
Example unmarshal_bad :
  omap Unmarshal [Q "{'a':01}"; Q "[1,]"; Q "{'a'}"; Q "'x"; Q "{} {}"; Q "tru"; Q "1."] = [].
Proof. vm_compute. reflexivity. Qed.
Example marshal_ex :
  Marshal (JObj [(B "a<b", JStr (Byte.x0a :: B "x")); (B "n", JNum (Itoa (-12)))]) =
  Q "{'a\u003cb':'\nx','n':-12}".
Proof. vm_compute. reflexivity. Qed.

(** ** Strings *)

Lemma escape_ascii b fuel t :
  byteZ b < 128 ->
  strLoop (S fuel) (quoteByte b ++ t) = '(q, r) ← strLoop fuel t; Some (b :: q, r).
Proof. intros H. destruct b; first [reflexivity|exfalso; vm_compute in H; discriminate H]. Qed.

Lemma quoteByte_length b : (1 <= length (quoteByte b))%nat.
Proof. unfold quoteByte. repeat case_match; simpl; lia. Qed.

Lemma quoteByte_ascii b : byteZ b < 128 -> Forall (fun b => byteZ b < 128) (quoteByte b).
Proof. intros H. destruct b; first [by repeat constructor|exfalso; vm_compute in H; discriminate H]. Qed.

(** One rune of a string, quoted and read back. *)
Lemma quote_rune r s n :
  ValidRune r = true -> (length (EncodeRune r ++ s) <= n)%nat ->
  exists p n', quoteLoop n (EncodeRune r ++ s) = p ++ quoteLoop n' s /\ (length s <= n')%nat /\
    (1 <= length p)%nat /\ valid_utf8 p /\
    forall fuel t, strLoop (S fuel) (p ++ t) = '(q, r') ← strLoop fuel t; Some (EncodeRune r ++ q, r').
Proof.
  intros Hr Hn. destruct (EncodeRune_cons r) as (b & l & E).
  destruct n as [|n]; [rewrite E in Hn; simpl in Hn; lia|]. rewrite length_app in Hn.
  pose proof (decode_encode_rune r s Hr) as Hd. pose proof Hr as Hr'. apply ValidRune_range in Hr'.
  destruct (Z.lt_ge_cases r 128) as [Ha|Ha].
  - rewrite EncodeRune_ascii in * by lia. exists (quoteByte (Zbyte r)), n.
    cbn [quoteLoop app]. rewrite byteZ_small by lia. decide_guards.
    split_and!; [done|simpl in Hn; lia|apply quoteByte_length|..].
    { apply valid_ascii, quoteByte_ascii. rewrite byteZ_small; lia. }
    intros fuel t. rewrite escape_ascii; [done|]. rewrite byteZ_small; lia.
  - pose proof (EncodeRune_high r Hr ltac:(lia)) as Hh.
    assert (Hb : 128 <= byteZ b) by (rewrite E in Hh; by inversion Hh).
    assert (Hsize : (length (EncodeRune r) <> 1)%nat).
    { unfold EncodeRune. rewrite Hr. repeat case_match; bool_facts; try lia; done. }
    assert (Hquote : quoteLoop (S n) (EncodeRune r ++ s) =
      (if (r =? 8232) || (r =? 8233) then B "\u202" ++ [hexDigit (r mod 16)] else EncodeRune r) ++
      quoteLoop n s).
    { rewrite E in *. cbn [quoteLoop app] in *. decide_guards. rewrite Hd.
      rewrite (bool_decide_eq_false_2 (_ = 1%nat)) by done. rewrite andb_false_r.
      change (b :: l ++ s) with ((b :: l) ++ s). rewrite drop_app_length, take_app_length.
      destruct (_ || _); [by rewrite <- app_assoc|done]. }
    eexists _, n. split; [exact Hquote|]. split; [rewrite E in Hn; simpl in Hn; lia|].
    destruct ((r =? 8232) || (r =? 8233)) eqn:Hls.
    + split; [simpl; lia|]. split.
      { apply valid_ascii. apply orb_true_iff in Hls as [->%Z.eqb_eq| ->%Z.eqb_eq]; by repeat constructor. }
      intros fuel t.
      apply orb_true_iff in Hls as [->%Z.eqb_eq| ->%Z.eqb_eq]; reflexivity.
    + split; [rewrite E; simpl; lia|]. split; [by apply valid_rune|]. intros fuel t.
      pose proof (decode_encode_rune r t Hr) as Hdt. rewrite E in *. cbn [strLoop app] in *.
      decide_guards. rewrite Hdt. change (b :: l ++ t) with ((b :: l) ++ t).
      rewrite drop_app_length. by rewrite E.
Qed.

Lemma strLoop_quote s n fuel rest :
  valid_utf8 s -> (length s <= n)%nat -> (length (quoteLoop n s) < fuel)%nat ->
  strLoop fuel (quoteLoop n s ++ Byte.x22 :: rest) = Some (s, rest).
Proof.
  intros (rs & -> & Hrs). revert n fuel. induction Hrs as [|r rs Hr Hrs IH]; intros n fuel Hn Hf.
  - replace (quoteLoop n (utf8 [])) with (@nil byte) in * by (by destruct n).
    destruct fuel; [simpl in Hf; lia|]. done.
  - change (utf8 (r :: rs)) with (EncodeRune r ++ utf8 rs) in *.
    destruct (quote_rune r (utf8 rs) n Hr Hn) as (p & n' & E & Hn' & Hp & _ & Hread).
    rewrite E in *. rewrite length_app in Hf. destruct fuel as [|fuel]; [lia|].
    rewrite <- app_assoc, Hread. rewrite IH by lia. done.
Qed.

Lemma strLit_quote s rest :
  valid_utf8 s -> strLit (quoteLoop (length s) s ++ Byte.x22 :: rest) = Some (s, rest).
Proof. intros H. apply strLoop_quote; [done|done|]. rewrite length_app. simpl. lia. Qed.

Lemma valid_quote s : valid_utf8 s -> valid_utf8 (quote s).
Proof.
  intros (rs & -> & Hrs). unfold quote. apply valid_app; [by apply valid_ascii; repeat constructor|].
  apply valid_app; [|by apply valid_ascii; repeat constructor].
  assert (G : forall n, (length (utf8 rs) <= n)%nat -> valid_utf8 (quoteLoop n (utf8 rs))); [|by apply G].
  induction Hrs as [|r rs Hr Hrs IH]; intros n Hn; [destruct n; by apply valid_ascii|].
  change (utf8 (r :: rs)) with (EncodeRune r ++ utf8 rs) in *.
  destruct (quote_rune r (utf8 rs) n Hr Hn) as (p & n' & -> & Hn' & _ & Hp & _).
  apply valid_app; [done|by apply IH].
Qed.

(** ** Numbers *)

(** Where a number must end. *)
Definition stops (r : bytes) : Prop :=
  match r with [] => True | b :: _ => num_byte b = false end.

Lemma num_run_cons st b l : num_run st (b :: l) = num_step st b ≫= fun st => num_run st l.
Proof.
  unfold num_run, compose. cbn [foldl]. simpl mbind. destruct (num_step st b); simpl; [done|].
  induction l; simpl; done.
Qed.

Lemma num_step_byte st b st' : num_step st b = Some st' -> num_byte b = true.
Proof. unfold num_step, num_byte. intros H. destruct st; repeat case_match; simplify_eq; lia. Qed.

Lemma num_span_valid st n r st' :
  num_run st n = Some st' -> stops r -> num_span (n ++ r) = (n, r).
Proof.
  revert st; induction n as [|b n IH]; intros st Hn Hr; simpl.
  - destruct r as [|b r]; [done|]. simpl in *. by rewrite Hr.
  - rewrite num_run_cons in Hn. apply bind_Some in Hn as (st1 & H1 & H2).
    rewrite (num_step_byte _ _ _ H1). by rewrite (IH st1).
Qed.

Lemma valid_num_head n : valid_num n = true ->
  exists b l, n = b :: l /\ (byteZ b = 45 \/ 48 <= byteZ b <= 57).
Proof.
  unfold valid_num. destruct n as [|b l]; [done|]. rewrite num_run_cons. intros H.
  exists b, l. split; [done|]. unfold num_step in H. repeat case_match; simplify_eq/=; lia.
Qed.

(** ** Round trip *)

(** The bytes that close or separate values end a number. *)
Lemma stops_close b r : byteZ b = 44 \/ byteZ b = 93 \/ byteZ b = 125 -> stops (b :: r).
Proof. simpl. unfold num_byte. intros H. lia. Qed.

Lemma ws_head b r : is_ws b = false -> ws (b :: r) = b :: r.
Proof. intros H. simpl. by rewrite H. Qed.

(** What a value starts with: no white space and no closing bracket. *)
Lemma Marshal_head v : wf v -> exists b l, Marshal v = b :: l /\ is_ws b = false /\
  byteZ b <> 93 /\ byteZ b <> 125.
Proof.
  intros H. destruct v as [|[]|n|s|l|l]; try (by repeat eexists).
  apply valid_num_head in H as (b & l & -> & Hb). exists b, l. unfold is_ws.
  split; [done|]. lia.
Qed.

Lemma height_elem v l : v ∈ l -> height v <= foldr (fun x d => Z.max (height x) d) 0 l.
Proof. induction 1; simpl; lia. Qed.

(** What is to be shown of one value. *)
Definition parses (v : JSON) : Prop := wf v ->
  forall fuel depth rest, (length (Marshal v) <= fuel)%nat ->
    depth + height v <= maxNestingDepth -> stops rest ->
    value fuel depth (Marshal v ++ rest) = Some (v, rest).

Lemma Marshal_nonempty v : wf v -> (1 <= length (Marshal v))%nat.
Proof. intros H. destruct (Marshal_head v H) as (b & l & -> & _). simpl. lia. Qed.

Lemma elems_marshal l :
  Forall parses l -> l <> [] -> foldr (fun x P => wf x /\ P) True l ->
  forall fuel depth rest, (length (commas (map Marshal l)) < fuel)%nat ->
    depth + foldr (fun x d => Z.max (height x) d) 0 l <= maxNestingDepth ->
    elems fuel depth (commas (map Marshal l) ++ Byte.x5d :: rest) = Some (l, rest).
Proof.
  induction 1 as [|v l Hv Hl IH]; [done|]. intros _ [Wv Wl] fuel depth rest Hf Hd.
  destruct fuel as [|fuel]; [lia|]. cbn [elems]. cbn [foldr] in Hd. destruct l as [|v' l'].
  - cbn [map commas] in *. rewrite (Hv Wv); [done|simpl in *; lia|lia|by apply stops_close; vm_compute; auto].
  - cbn [map commas] in *. rewrite !length_app in Hf. cbn [length] in Hf. rewrite <- !app_assoc.
    rewrite (Hv Wv); [|lia|lia|by apply stops_close; vm_compute; auto]. cbn [app].
    pose proof (Marshal_nonempty v Wv). cbn [mbind option_bind].
    rewrite (ws_head Byte.x2c) by done. replace (byteZ Byte.x2c =? 44) with true by done.
    change (commas (Marshal v' :: map Marshal l')) with (commas (map Marshal (v' :: l'))) in *.
    rewrite IH; [done|done|done|lia|lia].
Qed.

(** The text of a member. *)
Definition member (kv : bytes * JSON) : bytes := quote kv.1 ++ [Byte.x3a] ++ Marshal kv.2.

Lemma member_reads k v fuel depth t :
  valid_utf8 k -> wf v -> parses v -> (length (Marshal v) <= fuel)%nat ->
  depth + height v <= maxNestingDepth -> stops t ->
  members (S fuel) depth (member (k, v) ++ t) =
  match ws t with
  | b :: r =>
      if byteZ b =? 44 then '(l, r) ← members fuel depth r; Some ((k, v) :: l, r)
      else if byteZ b =? 125 then Some ([(k, v)], r) else None
  | [] => None
  end.
Proof.
  intros Hk Wv Hv Hf Hd Ht. unfold member, quote. cbn [fst snd]. rewrite <- !app_assoc.
  cbn [members app]. rewrite (ws_head Byte.x22) by done.
  replace (byteZ Byte.x22 =? 34) with true by done. rewrite strLit_quote by done.
  cbn [mbind option_bind]. rewrite (ws_head Byte.x3a) by done.
  replace (byteZ Byte.x3a =? 58) with true by done. rewrite (Hv Wv) by done. done.
Qed.

Lemma members_marshal l :
  Forall (fun kv => parses kv.2) l -> l <> [] ->
  foldr (fun kv P => (valid_utf8 kv.1 /\ wf kv.2) /\ P) True l ->
  forall fuel depth rest, (length (commas (map member l)) < fuel)%nat ->
    depth + foldr (fun kv d => Z.max (height kv.2) d) 0 l <= maxNestingDepth ->
    members fuel depth (commas (map member l) ++ Byte.x7d :: rest) = Some (l, rest).
Proof.
  induction 1 as [|[k v] l Hv Hl IH]; [done|]. intros _ [[Wk Wv] Wl] fuel depth rest Hf Hd.
  cbn [fst snd foldr] in *. destruct fuel as [|fuel]; [lia|].
  assert (Hlen : (length (Marshal v) < length (member (k, v)))%nat)
    by (unfold member, quote; rewrite !length_app; simpl; lia).
  destruct l as [|kv' l'].
  - cbn [map commas] in *. rewrite member_reads; solve [done|lia|apply stops_close; vm_compute; auto].
  - cbn [map commas] in *. rewrite !length_app in Hf. cbn [length] in Hf. rewrite <- !app_assoc.
    cbn [app]. rewrite member_reads by solve [done|lia|apply stops_close; vm_compute; auto].
    rewrite (ws_head Byte.x2c) by done. replace (byteZ Byte.x2c =? 44) with true by done.
    change (commas (member kv' :: map member l')) with (commas (map member (kv' :: l'))) in *.
    rewrite IH; [done|done|done|lia|lia].
Qed.

(** A container's contents start with neither white space nor a bracket. *)
Lemma commas_head {A} (f : A -> bytes) x l t :
  (exists b r, f x = b :: r /\ is_ws b = false /\ byteZ b <> 93 /\ byteZ b <> 125) ->
  exists b r, commas (map f (x :: l)) ++ t = b :: r /\ is_ws b = false /\ byteZ b <> 93 /\ byteZ b <> 125.
Proof.
  intros (b & r & E & H). destruct l; cbn [map commas]; rewrite E; by repeat eexists; try apply H.
Qed.

Lemma value_marshal v : parses v.
Proof.
  induction v as [|[]|n|s|l IH|l IH] using JSON_nested; intros W fuel depth rest Hf Hd Hs.
  1-3: destruct fuel; [simpl in Hf; lia|]; cbn [value app]; done.
  - pose proof (valid_num_head _ W) as (b & l & E & Hb). destruct fuel; [simpl in Hf; subst; simpl in Hf; lia|].
    cbn [Marshal] in *. assert (Hspan : num_span (n ++ rest) = (n, rest)).
    { cbn [wf] in W. unfold valid_num in W. destruct (num_run NStart n) eqn:R; [|done].
      by eapply num_span_valid. }
    cbn [value]. rewrite E in *. cbn [app] in *.
    rewrite ws_head by (unfold is_ws; lia). decide_guards. rewrite Hspan.
    cbn [wf] in W. by rewrite W.
  - destruct fuel; [simpl in Hf; lia|]. cbn [Marshal] in *. unfold quote. rewrite <- !app_assoc.
    cbn [value app]. rewrite (ws_head Byte.x22) by done.
    replace (byteZ Byte.x22 =? 34) with true by done. rewrite strLit_quote by done. done.
  - destruct fuel as [|fuel]; [simpl in Hf; lia|]. cbn [height wf Marshal] in *.
    rewrite !length_app in Hf. cbn [length] in Hf.
    assert (Hd' : 0 <= foldr (fun x d => Z.max (height x) d) 0 l) by (clear; induction l; simpl; lia).
    rewrite <- !app_assoc. cbn [value app]. rewrite (ws_head Byte.x5b) by done.
    replace (byteZ Byte.x5b) with 91 by done. decide_guards. destruct l as [|x l]; [done|].
    destruct (commas_head Marshal x l (Byte.x5d :: rest) (Marshal_head x (proj1 W)))
      as (b & r & E & Hb & H93 & _).
    rewrite E, (ws_head b r Hb), <- E. decide_guards.
    rewrite elems_marshal; [done|done|done|done|lia|lia].
  - destruct fuel as [|fuel]; [simpl in Hf; lia|]. cbn [height wf Marshal] in *.
    fold member in *. change (fun kv => quote kv.1 ++ [Byte.x3a] ++ Marshal kv.2) with member in *.
    rewrite !length_app in Hf. cbn [length] in Hf.
    assert (Hd' : 0 <= foldr (fun kv d => Z.max (height kv.2) d) 0 l) by (clear; induction l; simpl; lia).
    rewrite <- !app_assoc. cbn [value app]. rewrite (ws_head Byte.x7b) by done.
    replace (byteZ Byte.x7b) with 123 by done. decide_guards. destruct l as [|x l]; [done|].
    destruct (commas_head member x l (Byte.x7d :: rest)) as (b & r & E & Hb & _ & H125).
    { unfold member, quote. cbn [app]. by repeat eexists. }
    rewrite E, (ws_head b r Hb), <- E. decide_guards.
    rewrite members_marshal; [done|done|done|done|lia|lia].
Qed.

(** Decoding what was encoded gives the value back. *)
Theorem unmarshal_marshal (v : JSON) :
  wf v -> height v <= maxNestingDepth -> Unmarshal (Marshal v) = Some v.
Proof.
  intros W H. unfold Unmarshal. rewrite <- (app_nil_r (Marshal v)) at 2.
  rewrite value_marshal; [done|done|lia|done|done].
Qed.

(** ** Fuel *)

Lemma ws_length s : (length (ws s) <= length s)%nat.
Proof. induction s as [|b s IH]; simpl; [done|]. destruct (is_ws b); simpl; lia. Qed.

Lemma hex4_length s x r : hex4 s = Some (x, r) -> (length r < length s)%nat.
Proof.
  unfold hex4. destruct s as [|a [|b [|c [|d s]]]]; try done.
  intros H. repeat (apply bind_Some in H as (? & _ & H)). simplify_eq/=. lia.
Qed.

Lemma escape_length s p r : escape s = Some (p, r) -> (length r < length s)%nat.
Proof.
  destruct s as [|b s]; [done|]. unfold escape. intros H.
  repeat (case_match; simplify_eq/=; [lia|]). destruct (byteZ b =? 117); [|done].
  apply bind_Some in H as ([rr s1] & E & H). apply hex4_length in E. simpl in *.
  repeat case_match; simplify_eq; rewrite ?length_drop; lia.
Qed.

Lemma DecodeRune_width p : p <> [] -> (1 <= (DecodeRune p).2)%nat.
Proof. destruct p; [done|]. intros _. unfold DecodeRune. repeat case_match; simpl; lia. Qed.

Lemma strLoop_length fuel s q r : strLoop fuel s = Some (q, r) -> (length r < length s)%nat.
Proof.
  revert s q r; induction fuel as [|fuel IH]; intros s q r H; [done|]. destruct s as [|b s]; [done|].
  cbn [strLoop] in H. pose proof (DecodeRune_width (b :: s) ltac:(done)) as Hw.
  destruct (DecodeRune (b :: s)) as [rr n] eqn:D. cbn [snd] in Hw.
  repeat (destruct (_ =? _) || destruct (_ <? _)).
  - simplify_eq/=. lia.
  - apply bind_Some in H as ([p s1] & E & H). apply bind_Some in H as ([q' r'] & E' & H).
    simplify_eq. apply escape_length in E. apply IH in E'. simpl. lia.
  - done.
  - apply bind_Some in H as ([q' r'] & E' & H). simplify_eq. apply IH in E'. simpl. lia.
  - apply bind_Some in H as ([q' r'] & E' & H). simplify_eq. apply IH in E'.
    rewrite length_drop in E'. simpl in *. lia.
Qed.

Lemma num_span_length s p r : num_span s = (p, r) -> length s = (length p + length r)%nat.
Proof.
  revert p r; induction s as [|b s IH]; intros p r H; simpl in H; [by simplify_eq|].
  destruct (num_byte b); [|by simplify_eq/=]. destruct (num_span s) eqn:E. simplify_eq/=.
  by rewrite (IH _ _ eq_refl).
Qed.

(** A parser that reads at least one byte. *)
Definition eats {A} (f : bytes -> option (A * bytes)) : Prop :=
  forall s x r, f s = Some (x, r) -> (length r < length s)%nat.

Lemma lit_length p s r : lit p s = Some r -> length s = (length p + length r)%nat.
Proof.
  unfold lit. case_bool_decide as E; [|done]. intros [= <-].
  rewrite <- (take_drop (length p) s) at 1. by rewrite length_app, E.
Qed.

Ltac wsl s := pose proof (ws_length s).

Lemma parser_eats fuel : forall depth,
  eats (value fuel depth) /\ eats (elems fuel depth) /\ eats (members fuel depth).
Proof.
  induction fuel as [|fuel IH]; intros depth; [by split_and!|].
  assert (forall d, eats (value fuel d)) as IHv by apply IH.
  assert (forall d, eats (elems fuel d)) as IHe by apply IH.
  assert (forall d, eats (members fuel d)) as IHm by apply IH. clear IH. split_and!; intros s x r H.
  - cbn [value] in H. wsl s. destruct (ws s) as [|b t]; [done|]. wsl t.
    repeat (case_match; simplify_eq/=); try (apply bind_Some in H as (y & E & H); simplify_eq/=);
      repeat case_match; simplify_eq/=; try lia;
      try (apply strLoop_length in E); try (apply IHe in E); try (apply IHm in E);
      try (apply lit_length in E; simpl in E); try lia.
    match goal with H : num_span _ = _ |- _ => apply num_span_length in H; lia end.
  - cbn [elems] in H. apply bind_Some in H as ([v t] & E & H). apply IHv in E. wsl t.
    destruct (ws t) as [|b t']; [done|]. case_match.
    + apply bind_Some in H as ([l u] & E' & H). apply IHe in E'. simplify_eq/=. lia.
    + case_match; simplify_eq/=. lia.
  - cbn [members] in H. wsl s. destruct (ws s) as [|b t]; [done|]. case_match; [|done].
    apply bind_Some in H as ([k u] & E & H). apply strLoop_length in E. wsl u.
    destruct (ws u) as [|b' u']; [done|]. case_match; [|done].
    apply bind_Some in H as ([v t'] & E' & H). apply IHv in E'. wsl t'.
    destruct (ws t') as [|c t2]; [done|]. case_match.
    + apply bind_Some in H as ([l w] & E2 & H). apply IHm in E2. simplify_eq/=. lia.
    + case_match; simplify_eq/=. lia.
Qed.

(** More fuel changes nothing. *)
Lemma parser_fuel n : forall m depth s,
  ((2 * length s < n)%nat -> (2 * length s < m)%nat -> value n depth s = value m depth s) /\
  ((2 * length s + 1 < n)%nat -> (2 * length s + 1 < m)%nat -> elems n depth s = elems m depth s) /\
  ((2 * length s + 1 < n)%nat -> (2 * length s + 1 < m)%nat -> members n depth s = members m depth s).
Proof.
  induction n as [|n IH]; intros m depth s; [lia|].
  assert (Bind : forall A C (x y : option A) (f g : A -> option C),
    x = y -> (forall a, x = Some a -> f a = g a) -> x ≫= f = y ≫= g).
  { intros A C [a|] y f g <- Hfg; simpl; auto. }
  destruct m as [|m]; [lia|]. split_and!; intros Hn Hm.
  - cbn [value]. wsl s. destruct (ws s) as [|b t]; [done|]. wsl t. simpl in *.
    repeat (case_match; try done); (apply Bind; [apply IH; lia|done]).
  - cbn [elems]. apply Bind; [apply IH; lia|]. intros [v r] E. apply parser_eats in E. wsl r.
    destruct (ws r) as [|b t]; [done|]. case_match; [|done]. simpl in *.
    apply Bind; [apply IH; lia|done].
  - cbn [members]. wsl s. destruct (ws s) as [|b t]; [done|]. case_match; [|done]. simpl in *.
    apply Bind; [done|]. intros [k u] E. apply strLoop_length in E. wsl u.
    destruct (ws u) as [|b' u']; [done|]. case_match; [|done]. simpl in *.
    apply Bind; [apply IH; lia|]. intros [v r] E'. apply parser_eats in E'. wsl r.
    destruct (ws r) as [|c t2]; [done|]. case_match; [|done]. simpl in *.
    apply Bind; [apply IH; lia|done].
Qed.

Lemma value_fuel n depth s :
  (2 * length s < n)%nat -> value n depth s = value (S (2 * length s)) depth s.
Proof. intros H. apply parser_fuel; lia. Qed.

(** ** Integers are numbers *)

Lemma num_run_app st a b : num_run st (a ++ b) = num_run st a ≫= fun st => num_run st b.
Proof.
  revert st; induction a as [|x a IH]; intros st; [done|]. cbn [app]. rewrite !num_run_cons.
  destruct (num_step st x); simpl; auto.
Qed.

Definition is_digitb (b : byte) : Prop := 48 <= byteZ b <= 57.

Lemma num_run_digits l : Forall is_digitb l -> num_run N1 l = Some N1.
Proof.
  induction 1 as [|b l Hb Hl IH]; [done|]. rewrite num_run_cons. unfold num_step, is_digitb in *.
  by decide_guards.
Qed.

Lemma pretty_N_go_digits x s : (0 < x)%N ->
  exists b l, str_bytes (pretty_N_go x s) = b :: l ++ str_bytes s /\ 49 <= byteZ b <= 57 /\
    Forall is_digitb l.
Proof.
  revert s. induction (N.lt_wf_0 x) as [x _ IH]; intros s Hx.
  rewrite pretty_N_go_step by done.
  assert (Hm : (x `mod` 10 < 10)%N) by (apply N.mod_lt; lia).
  pose proof (pretty_N_char_byte _ Hm) as Hc.
  destruct (decide (x `div` 10 = 0)%N) as [E|E].
  - rewrite E, pretty_N_go_0. eexists _, []. split; [apply str_bytes_cons|]. split; [|done].
    rewrite Hc. pose proof (N.div_mod x 10 ltac:(lia)). rewrite E in *. lia.
  - destruct (IH (x `div` 10)%N ltac:(by apply N.div_lt) (String (pretty_N_char (x `mod` 10)) s))
      as (b & l & -> & Hb & Hl); [by apply N.neq_0_lt_0|].
    exists b, (l ++ [Ascii.byte_of_ascii (pretty_N_char (x `mod` 10))]).
    rewrite str_bytes_cons, <- app_assoc. split; [done|]. split; [done|].
    apply Forall_app. split; [done|]. apply Forall_singleton. unfold is_digitb. rewrite Hc.
    clear -Hm. revert Hm. generalize (x `mod` 10)%N. lia.
Qed.

Lemma Itoa_valid z : valid_num (Itoa z) = true.
Proof.
  assert (Hpos : forall p st, (forall b, 49 <= byteZ b <= 57 -> num_step st b = Some N1) ->
    num_run st (str_bytes (pretty (N.pos p))) = Some N1).
  { intros p st Hst. destruct (pretty_N_go_digits (N.pos p) "" ltac:(lia)) as (b & l & E & Hb & Hl).
    unfold pretty, pretty_N. rewrite decide_False by lia. rewrite E, num_run_cons, Hst by done.
    simpl. rewrite app_nil_r. by apply num_run_digits. }
  unfold valid_num, Itoa. destruct z as [|p|p]; [done| |].
  - change (pretty (Z.pos p)) with (pretty (N.pos p)). rewrite Hpos; [done|].
    intros b Hb. unfold num_step. by decide_guards.
  - change (pretty (Z.neg p)) with (String (Ascii.ascii_of_byte Byte.x2d) (pretty (N.pos p))).
    rewrite str_bytes_cons, num_run_cons. simpl mbind. rewrite Hpos; [done|].
    intros b Hb. unfold num_step. by decide_guards.
Qed.
#[export] Hint Resolve Itoa_valid : relay.

(** ** The text of a value is valid UTF-8 *)

Lemma valid_num_ascii n : valid_num n = true -> Forall (fun b => byteZ b < 128) n.
Proof.
  unfold valid_num. destruct (num_run NStart n) as [st|] eqn:E; [intros _|done].
  revert E. generalize NStart. induction n as [|b n IH]; intros s0 E; [done|].
  rewrite num_run_cons in E. apply bind_Some in E as (s1 & E1 & E2). constructor; [|by eapply IH].
  apply num_step_byte in E1. unfold num_byte in E1. lia.
Qed.

Lemma valid_commas l : Forall valid_utf8 l -> valid_utf8 (commas l).
Proof.
  induction 1 as [|x l Hx Hl IH]; [by apply valid_ascii|]. destruct l; [done|]. cbn [commas].
  apply valid_app; [done|]. apply valid_app; [by apply valid_ascii; repeat constructor|done].
Qed.

Lemma valid_Marshal v : wf v -> valid_utf8 (Marshal v).
Proof.
  assert (Br : forall a b m, byteZ a < 128 -> byteZ b < 128 -> valid_utf8 m -> valid_utf8 ([a] ++ m ++ [b])).
  { intros a b m Ha Hb Hm. apply valid_app; [by apply valid_ascii; repeat constructor|].
    apply valid_app; [done|by apply valid_ascii; repeat constructor]. }
  induction v as [|[]|n|s|l IH|l IH] using JSON_nested; intros H.
  1-3: by apply valid_ascii; repeat constructor.
  - by apply valid_ascii, valid_num_ascii.
  - by apply valid_quote.
  - cbn [Marshal]. apply Br; [done|done|]. apply valid_commas. cbn [wf] in H.
    induction IH as [|x l Hx Hl IHl]; cbn [map]; [constructor|].
    destruct H as [H1 H2]. constructor; auto.
  - cbn [Marshal]. apply Br; [done|done|]. apply valid_commas. cbn [wf] in H.
    induction IH as [|[k x] l Hx Hl IHl]; cbn [map]; [constructor|].
    destruct H as [[H1 H2] H3]. constructor; [|by apply IHl]. cbn [fst snd] in *.
    apply valid_app; [by apply valid_quote|].
    apply valid_app; [by apply valid_ascii; repeat constructor|by apply Hx].
Qed.
