(* ===== verification/RpcMessage.v ===== *)
(** * [internal/protocol/jsonrpc.go]: requests, responses and notifications

    The messages on top of the framing of [JsonRpc]: [ReadRequest] decodes an
    object into a request, the writers encode responses, errors and
    notifications.  Which texts survive the framing, that counts braces
    without regard to strings, is stated by [brace_safe]. *)

From S2P Require Import Prelude GoLib GoText JsonRpc Json.

(** ** Types *)

(** [ID] is [JNull] when the field is missing or null. *)
Record JSONRPCRequest := MkReq {
  rq_JSONRPC : bytes; rq_ID : JSON; rq_Method : bytes; rq_Params : list JSON }.
Definition zeroRequest : JSONRPCRequest := MkReq [] JNull [] [].

(** ** Decoding *)

(** [foldName]: the rune a rune is compared by.  Of the runes outside ASCII
    only the long s and the Kelvin sign fold to an ASCII letter; the others are
    left alone, since every field name is ASCII. *)
Definition foldRune (r : Z) : Z :=
  if (97 <=? r) && (r <=? 122) then r - 32
  else if r =? 383 then 83 else if r =? 8490 then 75 else r.
Definition foldName (k : bytes) : list Z := foldRune <$> runes k.
(** The field a key stands for: its own name, else a name it folds to. *)
Definition field (names : list bytes) (k : bytes) : option bytes :=
  if bool_decide (k ∈ names) then Some k
  else head (filter (fun n => foldName n = foldName k) names).

Section Decode.
(** The literal [json.Marshal] writes for the [float64] that [json.Unmarshal]
    reads from a literal; [None] when it is out of range. *)
Variable float_lit : bytes -> option bytes.

(** [sort.Strings] order on the keys of a map; a later entry replaces an
    earlier one. *)
Fixpoint bytes_ltb (a b : bytes) : bool :=
  match a, b with
  | _, [] => false
  | [], _ :: _ => true
  | x :: a', y :: b' => (byteZ x <? byteZ y) || ((byteZ x =? byteZ y) && bytes_ltb a' b')
  end.
Fixpoint putKey (k : bytes) (v : JSON) (l : list (bytes * JSON)) : list (bytes * JSON) :=
  match l with
  | [] => [(k, v)]
  | (k', v') :: l' =>
      if bool_decide (k = k') then (k, v) :: l'
      else if bytes_ltb k k' then (k, v) :: l else (k', v') :: putKey k v l'
  end.

(** A value decoded into an [interface{}], as [json.Marshal] will write it. *)
Fixpoint iface (v : JSON) : option JSON :=
  match v with
  | JNum n => JNum <$> float_lit n
  | JArr l => JArr <$> mapM iface l
  | JObj l => (fun l => JObj (foldl (fun m kv => putKey kv.1 kv.2 m) [] l)) <$>
                mapM (fun kv => (fun v => (kv.1, v)) <$> iface kv.2) l
  | v => Some v
  end.

Definition requestFields : list bytes := [B "jsonrpc"; B "id"; B "method"; B "params"].

(** One member of the object; [None] is a type error. *)
Definition setField (r : JSONRPCRequest) (kv : bytes * JSON) : option JSONRPCRequest :=
  match field requestFields kv.1 with
  | None => Some r
  | Some f =>
      if bool_decide (f = B "jsonrpc") then
        match kv.2 with
        | JStr s => Some (MkReq s (rq_ID r) (rq_Method r) (rq_Params r))
        | JNull => Some r
        | _ => None
        end
      else if bool_decide (f = B "id") then
        (fun v => MkReq (rq_JSONRPC r) v (rq_Method r) (rq_Params r)) <$> iface kv.2
      else if bool_decide (f = B "method") then
        match kv.2 with
        | JStr s => Some (MkReq (rq_JSONRPC r) (rq_ID r) s (rq_Params r))
        | JNull => Some r
        | _ => None
        end
      else
        match kv.2 with
        | JArr l => Some (MkReq (rq_JSONRPC r) (rq_ID r) (rq_Method r) l)
        | JNull => Some (MkReq (rq_JSONRPC r) (rq_ID r) (rq_Method r) [])
        | _ => None
        end
  end.

Definition decodeRequest (v : JSON) : option JSONRPCRequest :=
  match v with
  | JObj l => foldl (fun r kv => r ≫= fun r => setField r kv) (Some zeroRequest) l
  | JNull => Some zeroRequest
  | _ => None
  end.

Inductive ReqErr := ReqRaw (e : RawErr) | ReqParse.

Definition ReadRequest (r : bytes) : result ReqErr (JSONRPCRequest * bytes) :=
  match ReadRaw r with
  | Err e => Err (ReqRaw e)
  | Ok (raw, r') =>
      match Unmarshal raw ≫= decodeRequest with
      | None => Err ReqParse
      | Some req => Ok (req, r')
      end
  end.
End Decode.

(** ** Encoding *)

Definition responseJSON (id result : JSON) : JSON :=
  JObj [(B "jsonrpc", JStr (B "2.0")); (B "id", id); (B "result", result)].
Definition errorJSON (id : JSON) (code : Z) (message : bytes) : JSON :=
  JObj [(B "jsonrpc", JStr (B "2.0")); (B "id", id);
        (B "error", JObj [(B "code", JNum (Itoa code)); (B "message", JStr message)])].
Definition notificationJSON (method : bytes) (params : list JSON) : JSON :=
  JObj [(B "jsonrpc", JStr (B "2.0")); (B "method", JStr method); (B "params", JArr params)].

Definition WriteResponse (id result : JSON) (w : BufWriter) : BufWriter * option JsonWriteErr :=
  writeJSON (Some (Marshal (responseJSON id result))) w.
Definition WriteError (id : JSON) (code : Z) (message : bytes) (w : BufWriter)
    : BufWriter * option JsonWriteErr :=
  writeJSON (Some (Marshal (errorJSON id code message))) w.
Definition WriteNotification (method : bytes) (params : list JSON) (w : BufWriter)
    : BufWriter * option JsonWriteErr :=
  writeJSON (Some (Marshal (notificationJSON method params))) w.

(** ** Braces in strings *)

(** The depth after [m] when it starts at [d]; [None] once it is negative. *)
Fixpoint depths (d : Z) (m : bytes) : option Z :=
  match m with
  | [] => Some d
  | b :: m' => if d + brace b <? 0 then None else depths (d + brace b) m'
  end.
(** Every closing brace has its opening brace before it. *)
Definition brace_safe (m : bytes) : Prop := depths 0 m = Some 0.
#[export] Instance brace_safe_dec m : Decision (brace_safe m).
Proof. unfold brace_safe. apply _. Defined.

(** Every string and key of the value is safe. *)
Fixpoint safe (v : JSON) : Prop :=
  match v with
  | JNull | JBool _ => True
  | JNum n => valid_num n = true
  | JStr s => brace_safe s
  | JArr l => foldr (fun x P => safe x /\ P) True l
  | JObj l => foldr (fun kv P => (brace_safe kv.1 /\ safe kv.2) /\ P) True l
  end.

Lemma depths_app d a b : depths d (a ++ b) = depths d a ≫= fun d => depths d b.
Proof.
  revert d; induction a as [|x a IH]; intros d; [done|]. cbn [depths app].
  destruct (_ <? 0); [done|]. apply IH.
Qed.

Lemma depths_shift d e k m : 0 <= k -> depths d m = Some e -> depths (d + k) m = Some (e + k).
Proof.
  intros Hk. revert d; induction m as [|b m IH]; intros d; cbn [depths].
  - by intros [= ->].
  - destruct (Z.ltb_spec (d + brace b) 0); [done|]. intros H1%IH.
    rewrite (proj2 (Z.ltb_ge _ _)) by lia. by replace (d + k + brace b) with (d + brace b + k) by lia.
Qed.

Lemma depths_balance d e m :
  0 <= d -> depths d m = Some e ->
  e = d + balance m /\ forall p q, m = p ++ q -> 0 <= d + balance p.
Proof.
  revert d; induction m as [|b m IH]; intros d Hd; cbn [depths].
  - intros [= ->]. split; [simpl; lia|]. intros [|] ? ?; simplify_eq/=. lia.
  - destruct (Z.ltb_spec (d + brace b) 0); [done|]. intros [-> Hp]%IH; [|done].
    change (balance (b :: m)) with (brace b + balance m). split; [lia|].
    intros [|x p] q E; [simpl; lia|]. simplify_eq/=. specialize (Hp p q eq_refl). lia.
Qed.

Lemma safe_app a b : brace_safe a -> brace_safe b -> brace_safe (a ++ b).
Proof. unfold brace_safe. intros Ha Hb. by rewrite depths_app, Ha. Qed.

Lemma depths_plain d m : 0 <= d -> Forall (fun b => brace b = 0) m -> depths d m = Some d.
Proof.
  intros Hd. induction 1 as [|b m Hb Hm IH]; [done|]. cbn [depths]. rewrite Hb, Z.add_0_r.
  by rewrite (proj2 (Z.ltb_ge _ _)).
Qed.

Lemma braces_safe m : brace_safe m -> brace_safe ([lbrace] ++ m ++ [rbrace]).
Proof.
  unfold brace_safe. intros H. cbn [app depths]. change (0 + brace lbrace <? 0) with false. cbv iota.
  apply (depths_shift 0 0 1) in H; [|lia]. change (0 + brace lbrace) with (0 + 1).
  by rewrite depths_app, H.
Qed.

(** A safe body between braces is one frame. *)
Lemma safe_is_object m : brace_safe m -> is_object ([lbrace] ++ m ++ [rbrace]).
Proof.
  intros H. apply (depths_balance 0 0) in H as [Hb Hp]; [|lia]. split; [done|]. split.
  - rewrite !balance_app. rewrite Z.add_0_l in Hb. rewrite <- Hb. done.
  - intros p q E Hp0 Hq0. destruct p as [|x p]; [done|]. injection E as <- E.
    assert (exists t, m = p ++ t) as [t ->].
    { destruct q as [|y q] using rev_ind; [done|]. rewrite app_assoc in E.
      apply app_inj_tail in E as [-> _]. by exists q. }
    specialize (Hp p t eq_refl). change (balance (lbrace :: p)) with (1 + balance p). lia.
Qed.

(** ** Encoded values keep the braces of their strings *)

Lemma brace_high b : 128 <= byteZ b -> brace b = 0.
Proof.
  intros H. unfold brace. repeat case_bool_decide; subst; [by destruct (H eq_refl)..|done].
Qed.

Lemma depths_high d m : 0 <= d -> Forall (fun b => 128 <= byteZ b) m -> depths d m = Some d.
Proof. intros Hd Hm. apply depths_plain; [done|]. eapply Forall_impl; [done|]. apply brace_high. Qed.

(** What [DecodeRune] takes from a byte of at least 128 has no brace. *)
Lemma DecodeRune_high b s :
  128 <= byteZ b -> Forall (fun b => 128 <= byteZ b) (take (DecodeRune (b :: s)).2 (b :: s)).
Proof.
  intros Hb. cbn [DecodeRune]. unfold is_cont. decide_guards.
  destruct s as [|x [|y [|z s]]]; repeat case_match; cbn [snd take]; bool_facts;
    repeat constructor; try done; lia.
Qed.

Lemma quoteByte_braces b :
  quoteByte b = [b] \/ (brace b = 0 /\ Forall (fun x => brace x = 0) (quoteByte b)).
Proof. destruct b; first [left; reflexivity|right; split; [reflexivity|repeat constructor]]. Qed.

Lemma depths_quoteByte d b : 0 <= d -> depths d (quoteByte b) = depths d [b].
Proof.
  intros Hd. destruct (quoteByte_braces b) as [->|[Hb Hq]]; [done|].
  by rewrite !depths_plain by (try done; by constructor).
Qed.

Lemma brace_hexDigit n : 0 <= n < 16 -> brace (hexDigit n) = 0.
Proof.
  intros H. assert (byteZ (hexDigit n) < 103).
  { unfold hexDigit. destruct (Z.ltb_spec n 10); rewrite byteZ_small; lia. }
  unfold brace. case_bool_decide as E1; [by rewrite E1 in *|]. case_bool_decide as E2; [by rewrite E2 in *|done].
Qed.

Lemma depths_nonneg d e m : 0 <= d -> depths d m = Some e -> 0 <= e.
Proof.
  intros Hd H. apply depths_balance in H as [-> Hp]; [|done]. apply (Hp m []).
  by rewrite app_nil_r.
Qed.

Lemma depths_quote n s d :
  0 <= d -> (length s <= n)%nat -> depths d (quoteLoop n s) = depths d s.
Proof.
  revert s d; induction n as [|n IH]; intros s d Hd Hn; [by destruct s; simpl in Hn; [|lia]|].
  destruct s as [|b s]; [done|]. cbn [quoteLoop].
  assert (Step : forall p k, depths d p = depths d (take k (b :: s)) -> (1 <= k)%nat ->
    depths d (p ++ quoteLoop n (drop k (b :: s))) = depths d (b :: s)).
  { intros p k E Hk. rewrite <- (take_drop k (b :: s)) at 2. rewrite !depths_app, E.
    destruct (depths d (take k (b :: s))) as [e|] eqn:D; [|done]. simpl.
    apply IH; [by eapply depths_nonneg|]. rewrite length_drop. simpl in *. lia. }
  destruct (Z.ltb_spec (byteZ b) 128) as [Hb|Hb].
  { apply (Step (quoteByte b) 1%nat); [by apply depths_quoteByte|done]. }
  pose proof (DecodeRune_high b s Hb) as Hh. pose proof (DecodeRune_width (b :: s) ltac:(done)) as Hw.
  assert (Hb1 : depths d [b] = Some d) by (apply depths_high; [done|by constructor]).
  destruct (DecodeRune (b :: s)) as [c size]. cbn [fst snd] in *.
  destruct (_ && _); [|destruct (_ || _)].
  - apply (Step (B "\ufffd") 1%nat); [|done]. change (take 1 (b :: s)) with [b]. rewrite Hb1.
    apply depths_plain; [done|repeat constructor].
  - rewrite app_assoc. apply Step; [|done]. rewrite (depths_high d (take _ _)) by done.
    apply depths_plain; [done|]. repeat constructor.
    apply brace_hexDigit. apply Z.mod_pos_bound. lia.
  - by apply Step.
Qed.

Lemma safe_plain m : Forall (fun b => brace b = 0) m -> brace_safe m.
Proof. by apply depths_plain. Qed.

Lemma safe_quote s : brace_safe s -> brace_safe (quote s).
Proof.
  intros H. unfold quote. apply safe_app; [by apply safe_plain; repeat constructor|].
  apply safe_app; [|by apply safe_plain; repeat constructor].
  unfold brace_safe. by rewrite depths_quote.
Qed.

Lemma safe_num n : valid_num n = true -> brace_safe n.
Proof.
  intros H. apply safe_plain. unfold valid_num in H.
  destruct (num_run NStart n) as [st|] eqn:E; [clear H|done].
  revert E. generalize NStart. induction n as [|b n IH]; intros s0 E; [done|].
  rewrite num_run_cons in E. apply bind_Some in E as (s1 & E1 & E2). constructor; [|by eapply IH].
  apply num_step_byte in E1. unfold brace.
  case_bool_decide; [by subst|]. case_bool_decide; [by subst|done].
Qed.

Lemma safe_commas l : Forall brace_safe l -> brace_safe (commas l).
Proof.
  induction 1 as [|x l Hx Hl IH]; [done|]. destruct l; [done|]. cbn [commas].
  apply safe_app; [done|]. apply safe_app; [by apply safe_plain; repeat constructor|done].
Qed.

(** The contents of an object between its braces. *)
Definition body (l : list (bytes * JSON)) : bytes := commas (map member l).
Lemma Marshal_obj l : Marshal (JObj l) = [lbrace] ++ body l ++ [rbrace].
Proof. done. Qed.

Lemma safe_Marshal v : safe v -> brace_safe (Marshal v).
Proof.
  induction v as [|[]|n|s|l IH|l IH] using JSON_nested; intros H.
  1-3: by apply safe_plain; repeat constructor.
  - by apply safe_num.
  - by apply safe_quote.
  - cbn [Marshal]. apply safe_app; [by apply safe_plain; repeat constructor|].
    apply safe_app; [|by apply safe_plain; repeat constructor]. apply safe_commas.
    cbn [safe] in H. induction IH as [|x l Hx Hl IHl]; cbn [map]; [constructor|].
    destruct H as [H1 H2]. constructor; auto.
  - rewrite Marshal_obj. apply braces_safe, safe_commas. cbn [safe] in H.
    induction IH as [|[k x] l Hx Hl IHl]; cbn [map]; [constructor|].
    destruct H as [[Hk Hs] Hr]. constructor; [|by apply IHl]. simpl in *. unfold member. apply safe_app; [by apply safe_quote|].
    apply safe_app; [by apply safe_plain; repeat constructor|by apply Hx].
Qed.

Lemma safe_object l : safe (JObj l) -> is_object (Marshal (JObj l)).
Proof.
  intros H. rewrite Marshal_obj. apply safe_is_object, safe_commas. cbn [safe] in H.
  induction l as [|[k v] l IH]; cbn [map]; [constructor|]. destruct H as [[Hk Hs] Hr].
  constructor; [|by apply IH].
  unfold member. apply safe_app; [by apply safe_quote|].
  apply safe_app; [by apply safe_plain; repeat constructor|by apply safe_Marshal].
Qed.

(** ** Messages the peer can read *)

(** An object that fits a frame, with valid and brace-safe strings. *)
Definition sendable (v : JSON) : Prop :=
  (exists l, v = JObj l) /\ wf v /\ safe v /\ height v <= maxNestingDepth /\
  len (Marshal v) <= MaxJSONRPCMessageSize.

(** A test for ASCII values. *)
Definition plain_str (s : bytes) : bool :=
  forallb (fun b => byteZ b <? 128) s && bool_decide (brace_safe s).
Fixpoint plain (v : JSON) : bool :=
  match v with
  | JNull | JBool _ => true
  | JNum n => valid_num n
  | JStr s => plain_str s
  | JArr l => forallb plain l
  | JObj l => forallb (fun kv => plain_str kv.1 && plain kv.2) l
  end.

Lemma plain_str_ok s : plain_str s = true -> valid_utf8 s /\ brace_safe s.
Proof.
  unfold plain_str. intros [H1 H2]%andb_prop. apply bool_decide_eq_true in H2. split; [|done].
  apply valid_ascii. clear H2. revert H1.
  induction s as [|c s IH]; simpl; [constructor|]. intros [H2 H3]%andb_prop. constructor; [lia|auto].
Qed.

Lemma plain_ok v : plain v = true -> wf v /\ safe v.
Proof.
  induction v as [|b|n|s|l IH|l IH] using JSON_nested; intros H; try done.
  - by apply plain_str_ok in H.
  - cbn [wf safe plain] in *. induction IH as [|x l Hx Hl IHl]; [done|]. cbn [foldr forallb] in *.
    apply andb_prop in H as [H1 H2]. destruct (Hx H1), (IHl H2). by split.
  - cbn [wf safe plain] in *. induction IH as [|[k x] l Hx Hl IHl]; [done|]. cbn [foldr forallb fst snd] in *.
    apply andb_prop in H as [[H0 H1]%andb_prop H2]. apply plain_str_ok in H0 as [].
    destruct (Hx H1), (IHl H2). by repeat split.
Qed.

Lemma plain_sendable l :
  plain (JObj l) && (height (JObj l) <=? maxNestingDepth) &&
  (len (Marshal (JObj l)) <=? MaxJSONRPCMessageSize) = true -> sendable (JObj l).
Proof.
  intros [[H1 H2]%andb_prop H3]%andb_prop. apply plain_ok in H1 as [W S].
  split; [by eexists|]. split_and!; [done|done|lia|lia].
Qed.

(** What a peer sees of a stream: the values of its messages until the first
    one it cannot read. *)
Fixpoint ReadAllJSON (fuel : nat) (r : bytes) : list JSON :=
  match fuel with
  | O => []
  | S fuel' =>
      match ReadRaw r with
      | Err _ => []
      | Ok (raw, r') =>
          match Unmarshal raw with None => [] | Some v => v :: ReadAllJSON fuel' r' end
      end
  end.

Lemma ReadAllJSON_messages vs : Forall sendable vs -> forall n g, (length vs < n)%nat -> no_open g ->
  ReadAllJSON n (g ++ concat ((fun v => Marshal v ++ [newline]) <$> vs)) = vs.
Proof.
  induction 1 as [|v vs Hv Hvs IH]; intros n g Hn Hg; (destruct n as [|n]; [simpl in Hn; lia|]);
    cbn [ReadAllJSON]; rewrite ReadRaw_skip by done; [done|].
  destruct Hv as ([l ->] & W & S & D & L). rewrite fmap_cons. cbn [concat]. rewrite <- !app_assoc.
  rewrite ReadRaw_object by (by try apply safe_object). rewrite unmarshal_marshal by done.
  f_equal. apply IH; [simpl in Hn; lia|]. apply not_elem_of_cons. split; [done|apply not_elem_of_nil].
Qed.

(** Messages written one after the other read back as they were. *)
Theorem rpc_messages_roundtrip (vs : list JSON) :
  Forall sendable vs ->
  exists w, writeMessages NewBufWriter (Marshal <$> vs) = (w, None) /\
    ReadAllJSON (S (length vs)) (bw_out w) = vs.
Proof.
  intros H. destruct (writeMessages_ok (Marshal <$> vs) NewBufWriter) as (w & E & O); [done|done|].
  exists w. split; [done|]. rewrite O, <- list_fmap_compose.
  apply (ReadAllJSON_messages vs H _ []); [lia|apply not_elem_of_nil].
Qed.

(** ** Requests *)

(** A request as a client writes it: the keys of a Go map are sorted. *)
Definition requestJSON (id : JSON) (method : bytes) (params : list JSON) : JSON :=
  JObj [(B "id", id); (B "jsonrpc", JStr (B "2.0")); (B "method", JStr method); (B "params", JArr params)].

Lemma decodeRequest_call float_lit id id' method params :
  iface float_lit id = Some id' ->
  decodeRequest float_lit (requestJSON id method params) = Some (MkReq (B "2.0") id' method params).
Proof.
  intros H. unfold decodeRequest, requestJSON. cbn [foldl]. simpl mbind.
  unfold setField at 4. change (field requestFields (B "id")) with (Some (B "id")).
  cbn -[iface]. by rewrite H.
Qed.

Lemma ReadRequest_call float_lit id id' method params rest :
  iface float_lit id = Some id' -> sendable (requestJSON id method params) ->
  ReadRequest float_lit (Marshal (requestJSON id method params) ++ rest) =
  Ok (MkReq (B "2.0") id' method params, rest).
Proof.
  intros Hi (_ & W & S & D & L). unfold ReadRequest.
  rewrite ReadRaw_object by (by try apply safe_object). rewrite unmarshal_marshal by done.
  cbn [mbind option_bind]. by rewrite decodeRequest_call with (id' := id').
Qed.

(** A newline before the message is skipped. *)
Lemma ReadRequest_skip float_lit g r : no_open g -> ReadRequest float_lit (g ++ r) = ReadRequest float_lit r.
Proof. intros H. unfold ReadRequest. by rewrite ReadRaw_skip. Qed.

Lemma ReadRequest_length float_lit r req r' :
  ReadRequest float_lit r = Ok (req, r') -> (length r' < length r)%nat.
Proof.
  unfold ReadRequest. destruct (ReadRaw r) as [[raw r1]|] eqn:E; [|done]. case_match; [|done].
  intros [= <- <-]. apply ReadRaw_sound in E as (g & -> & _ & Hm & _).
  rewrite !length_app. destruct raw; [by destruct Hm|]. simpl. lia.
Qed.
