(* ===== verification/Flags.v ===== *)
(** * Go's [flag] package

    What the commands use of it: [Int], [Bool], [String], [Float64] and
    [Duration] flags and [flag.Parse], with the parsers behind them
    ([ParseInt(s, 0, 64)], [ParseBool] and what [ParseFloat] accepts of
    [strconv], [time.ParseDuration]). *)

From stdpp Require Import pretty.
From Stdlib Require Ascii.
From S2P Require Import Prelude GoLib GoText Float Json.

(** ** [strconv] *)

Definition lower (b : byte) : Z := Z.lor (byteZ b) 32.
Definition is_dec (b : byte) : bool := (48 <=? byteZ b) && (byteZ b <=? 57).
Definition is_hexletter (b : byte) : bool := (97 <=? lower b) && (lower b <=? 102).
Definition underscore : byte := Byte.x5f.

(** The last character seen by [underscoreOK]. *)
Inductive Seen := SeenStart | SeenDigit | SeenUnderscore | SeenOther.
#[export] Instance Seen_eq_dec : EqDecision Seen.
Proof. solve_decision. Defined.

Fixpoint underscoreLoop (hex : bool) (i : Seen) (s : bytes) : bool :=
  match s with
  | [] => negb (bool_decide (i = SeenUnderscore))
  | b :: s' =>
      if is_dec b || (hex && is_hexletter b) then underscoreLoop hex SeenDigit s'
      else if bool_decide (b = underscore) then
        if bool_decide (i = SeenDigit) then underscoreLoop hex SeenUnderscore s' else false
      else if bool_decide (i = SeenUnderscore) then false
      else underscoreLoop hex SeenOther s'
  end.

Definition dropSign (s : bytes) : bytes :=
  match s with b :: s' => if (byteZ b =? 45) || (byteZ b =? 43) then s' else s | [] => [] end.

Definition underscoreOK (s : bytes) : bool :=
  let s := dropSign s in
  match s with
  | z :: p :: s' =>
      if (byteZ z =? 48) && ((lower p =? 98) || (lower p =? 111) || (lower p =? 120))
      then underscoreLoop (lower p =? 120) SeenDigit s'
      else underscoreLoop false SeenStart s
  | _ => underscoreLoop false SeenStart s
  end.

(** The digits of [ParseUint]; underscores are skipped. *)
Fixpoint uintLoop (base acc : Z) (s : bytes) : option Z :=
  match s with
  | [] => Some acc
  | b :: s' =>
      if bool_decide (b = underscore) then uintLoop base acc s'
      else
        d ← (if is_dec b then Some (byteZ b - 48)
             else if (97 <=? lower b) && (lower b <=? 122) then Some (lower b - 97 + 10) else None);
        if base <=? d then None else uintLoop base (acc * base + d) s'
  end.

(** [ParseUint(s, 0, 64)] without its range check, which [ParseInt] makes again
    with a smaller range. *)
Definition parseUint0 (s : bytes) : option Z :=
  match s with
  | [] => None
  | z :: r =>
      let '(base, digits) :=
        if byteZ z =? 48 then
          match r with
          | p :: (_ :: _) as r' =>
              if lower p =? 98 then (2, tail r) else if lower p =? 111 then (8, tail r)
              else if lower p =? 120 then (16, tail r) else (8, r)
          | _ => (8, r)
          end
        else (10, s) in
      v ← uintLoop base 0 digits;
      if bool_decide (underscore ∈ digits) && negb (underscoreOK s) then None else Some v
  end.

(** [ParseInt(s, 0, 64)]; [None] is an error. *)
Definition ParseInt (s : bytes) : option Z :=
  match s with
  | [] => None
  | b :: s' =>
      let '(neg, u) := if byteZ b =? 43 then (false, s') else if byteZ b =? 45 then (true, s') else (false, s) in
      v ← parseUint0 u;
      if neg then (if 2 ^ 63 <? v then None else Some (- v))
      else if 2 ^ 63 <=? v then None else Some v
  end.

Definition ParseBool (s : string) : option bool :=
  if bool_decide (s ∈ ["1"; "t"; "T"; "TRUE"; "true"; "True"]) then Some true
  else if bool_decide (s ∈ ["0"; "f"; "F"; "FALSE"; "false"; "False"]) then Some false
  else None.

(** [readFloat]: the mantissa's digits, with the number of digits after the
    dot ([None]: no dot yet), then the rest. *)
Fixpoint mantissa (base : Z) (acc : Z) (frac : option Z) (saw : bool) (s : bytes)
    : Z * option Z * bool * bytes :=
  match s with
  | [] => (acc, frac, saw, [])
  | b :: s' =>
      if bool_decide (b = underscore) then mantissa base acc frac saw s'
      else if byteZ b =? 46 then
        match frac with Some _ => (acc, frac, saw, s) | None => mantissa base acc (Some 0) saw s' end
      else if is_dec b then mantissa base (acc * base + (byteZ b - 48)) (Z.succ <$> frac) true s'
      else if (base =? 16) && is_hexletter b
      then mantissa base (acc * base + (lower b - 97 + 10)) (Z.succ <$> frac) true s'
      else (acc, frac, saw, s)
  end.

Fixpoint expDigits (e : Z) (s : bytes) : option Z :=
  match s with
  | [] => Some e
  | b :: s' =>
      if bool_decide (b = underscore) then expDigits e s'
      else if is_dec b then expDigits (if e <? 10000 then e * 10 + (byteZ b - 48) else e) s'
      else None
  end.

(** The exponent up to the end of the text; [ch] starts it. *)
Definition exponent (ch : Z) (s : bytes) : option Z :=
  match s with
  | [] => if ch =? 112 then None else Some 0
  | c :: s' =>
      if lower c =? ch then
        let '(neg, d) := match s' with
                         | b :: r => if byteZ b =? 43 then (false, r) else if byteZ b =? 45 then (true, r)
                                     else (false, s')
                         | [] => (false, [])
                         end in
        match d with
        | b :: _ => if is_dec b then (fun e => if neg : bool then - e else e) <$> expDigits 0 d else None
        | [] => None
        end
      else None
  end.

(** From this magnitude on, a value rounds to infinity, which is an error. *)
Definition floatLimit : Z := 2 ^ 1024 - 2 ^ 970.
Definition inRange (m base e : Z) : bool :=
  if 0 <=? e then m * base ^ e <? floatLimit else m <? floatLimit * base ^ (- e).

Definition foldcase (s : bytes) : bytes := (fun b => Zbyte (lower b)) <$> s.
Definition infNaN (s : bytes) : bool :=
  let u := foldcase (dropSign s) in
  bool_decide (u = str_bytes "inf") || bool_decide (u = str_bytes "infinity") ||
  bool_decide (foldcase s = str_bytes "nan").

(** [ParseFloat(s, 64)] returns no error. *)
Definition ParseFloatOK (s : bytes) : bool :=
  infNaN s ||
  let u := dropSign s in
  let hex := match u with z :: x :: _ :: _ => (byteZ z =? 48) && (lower x =? 120) | _ => false end in
  let base := if hex then 16 else 10 in
  let '(m, frac, saw, rest) := mantissa base 0 None false (if hex then drop 2 u else u) in
  saw && match exponent (if hex then 112 else 101) rest with
         | None => false
         | Some e =>
             (negb (bool_decide (underscore ∈ s)) || underscoreOK s) &&
             (if hex then inRange m 2 (e - 4 * default 0 frac) else inRange m 10 (e - default 0 frac))
         end.

(** ** [time.ParseDuration] *)

(** [leadingInt]: the digits at the front; [None] is an overflow. *)
Fixpoint leadingInt (x : Z) (s : bytes) : option (Z * bytes) :=
  match s with
  | b :: s' =>
      if is_dec b then
        if 2 ^ 63 / 10 <? x then None
        else let x := x * 10 + (byteZ b - 48) in
             if 2 ^ 63 <? x then None else leadingInt x s'
      else Some (x, s)
  | [] => Some (x, [])
  end.
(** [leadingFraction]: digits that do not fit are skipped; the second result
    counts the others, [scale] being that power of ten. *)
Fixpoint leadingFraction (x : Z) (digits : Z) (overflow : bool) (s : bytes) : Z * Z * bytes :=
  match s with
  | b :: s' =>
      if is_dec b then
        let y := x * 10 + (byteZ b - 48) in
        if overflow || ((2 ^ 63 - 1) / 10 <? x) || (2 ^ 63 <? y) then leadingFraction x digits true s'
        else leadingFraction y (digits + 1) false s'
      else (x, digits, s)
  | [] => (x, digits, [])
  end.
(** Up to the next digit or dot. *)
Fixpoint spanUnit (s : bytes) : bytes * bytes :=
  match s with
  | b :: s' => if is_dec b || (byteZ b =? 46) then ([], s) else let '(u, r) := spanUnit s' in (b :: u, r)
  | [] => ([], [])
  end.
(** [unitMap]; the two spellings of the micro sign are U+00B5 and U+03BC. *)
Definition unitOf (u : bytes) : option Z :=
  if bool_decide (u = str_bytes "ns") then Some 1
  else if bool_decide (u = str_bytes "us" \/ u = [Byte.xc2; Byte.xb5; Byte.x73] \/
                       u = [Byte.xce; Byte.xbc; Byte.x73]) then Some 1000
  else if bool_decide (u = str_bytes "ms") then Some Time.Millisecond
  else if bool_decide (u = str_bytes "s") then Some Time.Second
  else if bool_decide (u = str_bytes "m") then Some Time.Minute
  else if bool_decide (u = str_bytes "h") then Some (60 * Time.Minute) else None.
(** [scale], which is multiplied up in floating point. *)
Definition scaleF (digits : Z) : float64 :=
  Nat.iter (Z.to_nat digits) (fun f => fmul f (float_of 10)) (float_of 1).
(** The loop: a number and its unit take two bytes at least. *)
Fixpoint durationLoop (fuel : nat) (d : Z) (s : bytes) : option Z :=
  match fuel, s with
  | _, [] => Some d
  | O, _ => None
  | S fuel', b :: _ =>
      if negb (is_dec b || (byteZ b =? 46)) then None
      else
        '(v, s1) ← leadingInt 0 s;
        let pre := negb (length s1 =? length s)%nat in
        let '(f, digits, post, s2) :=
          match s1 with
          | c :: s1' => if byteZ c =? 46 then
                          let '(f, digits, s2) := leadingFraction 0 0 false s1' in
                          (f, digits, negb (length s2 =? length s1')%nat, s2)
                        else (0, 0, false, s1)
          | [] => (0, 0, false, s1)
          end in
        if negb (pre || post) then None
        else
          let '(u, s3) := spanUnit s2 in
          unit ← unitOf u;
          if 2 ^ 63 / unit <? v then None
          else
            let v := v * unit in
            let v := if 0 <? f then v + f_trunc (fmul (float_of f) (fdiv (float_of unit) (scaleF digits)))
                     else v in
            if 2 ^ 63 <? v then None
            else let d := d + v in if 2 ^ 63 <? d then None else durationLoop fuel' d s3
  end.
Definition ParseDuration (s : bytes) : option Z :=
  let '(neg, u) := match s with
                   | b :: s' => if (byteZ b =? 45) || (byteZ b =? 43) then (byteZ b =? 45, s') else (false, s)
                   | [] => (false, [])
                   end in
  if bool_decide (u = str_bytes "0") then Some 0
  else match u with
       | [] => None
       | _ => d ← durationLoop (length u) 0 u;
              if neg : bool then Some (- d) else if 2 ^ 63 - 1 <? d then None else Some d
       end.

Example ParseDuration_examples :
  (ParseDuration (str_bytes "1h15m30.918s"), ParseDuration (str_bytes "-1.5ms"),
   ParseDuration (str_bytes ".5"), ParseDuration (str_bytes "10"), ParseDuration (str_bytes "0")) =
  (Some 4530918000000, Some (-1500000), None, None, Some 0).
Proof. by vm_compute. Qed.

(** ** Flags *)

Inductive Value :=
| VInt (n : Z)
| VBool (b : bool)
| VString (s : string)
| VDuration (d : Z)
| VFloat (text : string).   (* no command reads a float flag: its text *)

(** The flags of a command, with their values: the defaults at first. *)
Notation FlagSet := (gmap string Value).

(** [Value.Set]: the text in the type of the flag. *)
Definition SetValue (v : Value) (s : string) : option Value :=
  match v with
  | VInt _ => VInt <$> ParseInt (str_bytes s)
  | VBool _ => VBool <$> ParseBool s
  | VString _ => Some (VString s)
  | VDuration _ => VDuration <$> ParseDuration (str_bytes s)
  | VFloat _ => if ParseFloatOK (str_bytes s) then Some (VFloat s) else None
  end.

(** What an argument is. *)
Inductive Arg :=
| ArgPlain                                     (* not a flag: ends the flags *)
| ArgTerminator                                (* [--] *)
| ArgBad
| ArgFlag (name : string) (value : option string).

(** The name and the value after the first [=] that is not the first character. *)
Fixpoint cutEq (s : bytes) : bytes * option bytes :=
  match s with
  | [] => ([], None)
  | b :: s' => if byteZ b =? 61 then ([], Some s')
               else let '(n, v) := cutEq s' in (b :: n, v)
  end.

Definition flagName (s : bytes) : Arg :=
  match s with
  | [] => ArgBad
  | b :: s' => if (byteZ b =? 45) || (byteZ b =? 61) then ArgBad
               else let '(n, v) := cutEq s' in ArgFlag (bytes_str (b :: n)) (bytes_str <$> v)
  end.

Definition classify (arg : string) : Arg :=
  match str_bytes arg with
  | a :: b :: s =>
      if byteZ a =? 45 then
        if byteZ b =? 45 then match s with [] => ArgTerminator | _ => flagName s end
        else flagName (b :: s)
      else ArgPlain
  | _ => ArgPlain
  end.

(** [flag.Parse] with [ExitOnError]: the flags and the other arguments, or the
    exit status. *)
Fixpoint Parse (fs : FlagSet) (args : list string) : result Z (FlagSet * list string) :=
  match args with
  | [] => Ok (fs, [])
  | arg :: rest =>
      match classify arg with
      | ArgPlain => Ok (fs, args)
      | ArgTerminator => Ok (fs, rest)
      | ArgBad => Err 2
      | ArgFlag name value =>
          match fs !! name with
          | None => if bool_decide (name = "help") || bool_decide (name = "h") then Err 0 else Err 2
          | Some (VBool b) =>
              match SetValue (VBool b) (default "true" value) with
              | Some v => Parse (<[name := v]> fs) rest
              | None => Err 2
              end
          | Some old =>
              match value, rest with
              | Some text, _ =>
                  match SetValue old text with Some v => Parse (<[name := v]> fs) rest | None => Err 2 end
              | None, text :: rest' =>
                  match SetValue old text with Some v => Parse (<[name := v]> fs) rest' | None => Err 2 end
              | None, [] => Err 2
              end
          end
      end
  end.

(** ** Reading what was written *)

Definition all_digits (s : bytes) : Prop := Forall is_digitb s.

Lemma digit_not_underscore b : is_digitb b -> b <> underscore.
Proof. unfold is_digitb. intros H ->. change (byteZ underscore) with 95 in H. lia. Qed.

Lemma uintLoop_digits s acc : all_digits s -> uintLoop 10 acc s = digitsVal acc s.
Proof.
  intros H. revert acc. induction H as [|b s Hb Hs IH]; intros acc; [done|]. cbn [uintLoop digitsVal].
  rewrite bool_decide_false by (by apply digit_not_underscore). unfold is_dec, is_digitb in *.
  decide_guards. cbn [mbind option_bind]. decide_guards. apply IH.
Qed.

Lemma parseUint0_pretty p : parseUint0 (str_bytes (pretty (N.pos p))) = Some (Z.pos p).
Proof.
  destruct (pretty_N_go_digits (N.pos p) "" ltac:(lia)) as (b & l & E & Hb & Hl).
  pose proof (digitsVal_go (N.pos p) "") as Hv. unfold pretty, pretty_N. rewrite decide_False by lia.
  rewrite E in *. cbn [str_bytes String.list_byte_of_string] in *. rewrite app_nil_r in *.
  assert (Hall : all_digits (b :: l)) by (constructor; [unfold is_digitb; lia|done]).
  unfold parseUint0. decide_guards. rewrite uintLoop_digits, Hv by done. cbn [digitsVal mbind option_bind].
  rewrite bool_decide_false; [done|]. intros Hu.
  apply (digit_not_underscore underscore); [|done]. exact (proj1 (Forall_forall _ _) Hall _ Hu).
Qed.

Lemma ParseInt_pretty n : - 2 ^ 63 <= n < 2 ^ 63 -> ParseInt (str_bytes (pretty n)) = Some n.
Proof.
  intros Hn. destruct n as [|p|p]; [done| |].
  - change (pretty (Z.pos p)) with (pretty (N.pos p)). pose proof (parseUint0_pretty p) as E.
    destruct (pretty_N_go_digits (N.pos p) "" ltac:(lia)) as (b & l & Eb & Hb & _).
    unfold pretty, pretty_N in *. rewrite decide_False in * by lia. rewrite Eb in *.
    unfold ParseInt. decide_guards. rewrite E. cbn [mbind option_bind]. by decide_guards.
  - change (pretty (Z.neg p)) with (String (Ascii.ascii_of_byte Byte.x2d) (pretty (N.pos p))).
    rewrite str_bytes_cons. unfold ParseInt.
    change (Ascii.byte_of_ascii (Ascii.ascii_of_byte Byte.x2d)) with Byte.x2d.
    change (byteZ Byte.x2d =? 43) with false. change (byteZ Byte.x2d =? 45) with true. cbv iota beta.
    rewrite parseUint0_pretty. cbn [mbind option_bind]. by decide_guards.
Qed.

Lemma str_bytes_app s t : str_bytes (s +:+ t) = str_bytes s ++ str_bytes t.
Proof.
  induction s as [|c s IH]; [done|].
  change (str_bytes (String c s +:+ t)) with (Ascii.byte_of_ascii c :: str_bytes (s +:+ t)). by rewrite IH.
Qed.

(** A number of nanoseconds as a duration. *)
Lemma digitsVal_ge s x v : 0 <= x -> digitsVal x s = Some v -> x <= v.
Proof.
  revert x. induction s as [|b s IH]; intros x Hx; cbn [digitsVal]; [intros [= ->]; lia|].
  case_match eqn:E; [|done]. bool_facts. intros Hv. apply IH in Hv; lia.
Qed.

Lemma leadingInt_digits s rest x v :
  match rest with b :: _ => is_dec b = false | [] => True end ->
  digitsVal x s = Some v -> 0 <= x -> v <= 2 ^ 63 -> leadingInt x (s ++ rest) = Some (v, rest).
Proof.
  intros Hr. revert x. induction s as [|b s IH]; intros x E Hx Hv; cbn [app leadingInt digitsVal] in *.
  - simplify_eq. destruct rest as [|c r]; [done|]. cbn [leadingInt]. by rewrite Hr.
  - unfold is_dec. case_match eqn:Eb; [|done]. bool_facts. 
    pose proof (fun H => digitsVal_ge _ _ _ H E) as Hge. specialize (Hge ltac:(lia)).
    rewrite (proj2 (Z.ltb_ge (2 ^ 63 / 10) x)) by (apply Z.div_le_lower_bound; lia).
    rewrite (proj2 (Z.ltb_ge _ _)) by lia. apply IH; [done|lia|done].
Qed.

Lemma durationLoop_ns b l n :
  is_dec b = true -> digitsVal 0 (b :: l) = Some n -> n <= 2 ^ 63 ->
  durationLoop (length ((b :: l) ++ str_bytes "ns")) 0 ((b :: l) ++ str_bytes "ns") = Some n.
Proof.
  intros Hb E Hn. rewrite length_app, Nat.add_comm. change (length (str_bytes "ns")) with 2%nat.
  cbn [Nat.add durationLoop app]. rewrite Hb. cbn [negb orb].
  pose proof (leadingInt_digits (b :: l) (str_bytes "ns") 0 n ltac:(done) E ltac:(lia) Hn) as Hl.
  cbn [app] in Hl. rewrite Hl. cbn [mbind option_bind].
  assert (Hlen : (length (str_bytes "ns") =? length (b :: l ++ str_bytes "ns"))%nat = false).
  { apply Nat.eqb_neq. cbn [length]. rewrite length_app. simpl. lia. }
  rewrite Hlen. change (str_bytes "ns") with [Byte.x6e; Byte.x73]. cbv iota beta zeta.
  change (byteZ Byte.x6e =? 46) with false. cbn [negb orb]. change (spanUnit [Byte.x6e; Byte.x73]) with ([Byte.x6e; Byte.x73], @nil byte).
  cbv iota beta. match goal with |- context [unitOf ?u] => replace (unitOf u) with (Some 1) by done end. cbn [mbind option_bind].
  rewrite Z.div_1_r, Z.mul_1_r, Z.add_0_l. change (0 <? 0) with false. cbv iota.
  by rewrite !(proj2 (Z.ltb_ge (2 ^ 63) n)) by lia.
Qed.

Lemma ParseDuration_ns n : - 2 ^ 63 <= n < 2 ^ 63 -> ParseDuration (str_bytes (pretty n +:+ "ns")) = Some n.
Proof.
  intros Hn. rewrite str_bytes_app.
  assert (Hpos : forall p, exists b l, str_bytes (pretty (N.pos p)) = b :: l /\ is_dec b = true /\
    digitsVal 0 (b :: l) = Some (Z.pos p)).
  { intros p. destruct (pretty_N_go_digits (N.pos p) "" ltac:(lia)) as (b & l & E & Hb & _).
    pose proof (digitsVal_go (N.pos p) "") as Hv. unfold pretty, pretty_N. rewrite decide_False by lia.
    rewrite E in *. cbn [str_bytes String.list_byte_of_string] in *. rewrite app_nil_r in *.
    exists b, l. split; [done|]. split; [unfold is_dec; lia|done]. }
  unfold ParseDuration. destruct n as [|p|p]; [by vm_compute| |].
  - change (pretty (Z.pos p)) with (pretty (N.pos p)). destruct (Hpos p) as (b & l & E & Hb & Hv). rewrite E.
    pose proof (durationLoop_ns b l (Z.pos p) Hb Hv ltac:(lia)) as Hd. unfold is_dec in Hb. cbn [app] in *.
    decide_guards. rewrite bool_decide_eq_false_2 by (intros Eq; apply (f_equal length) in Eq; revert Eq; cbn [length];
      rewrite length_app; simpl; lia).
    rewrite Hd. cbn [mbind option_bind]. by rewrite (proj2 (Z.ltb_ge _ _)) by lia.
  - change (pretty (Z.neg p)) with (String (Ascii.ascii_of_byte Byte.x2d) (pretty (N.pos p))).
    rewrite str_bytes_cons. destruct (Hpos p) as (b & l & E & Hb & Hv). rewrite E.
    pose proof (durationLoop_ns b l (Z.pos p) Hb Hv ltac:(lia)) as Hd. cbn [app] in *.
    change (byteZ (Ascii.byte_of_ascii (Ascii.ascii_of_byte Byte.x2d))) with 45. cbn [Z.eqb Pos.eqb orb].
    rewrite bool_decide_eq_false_2 by (intros Eq; apply (f_equal length) in Eq; revert Eq; cbn [length];
      rewrite length_app; simpl; lia).
    by rewrite Hd.
Qed.

(** The text of a value on the command line. *)
Definition text (v : Value) : string :=
  match v with
  | VInt n => pretty n
  | VDuration n => pretty n +:+ "ns"
  | VBool b => if b then "true" else "false"
  | VString s | VFloat s => s
  end.

Definition same_type (v w : Value) : bool :=
  match v, w with
  | VInt _, VInt _ | VBool _, VBool _ | VString _, VString _ | VDuration _, VDuration _
  | VFloat _, VFloat _ => true
  | _, _ => false
  end.
Definition value_ok (v : Value) : bool :=
  match v with
  | VInt n | VDuration n => (- 2 ^ 63 <=? n) && (n <? 2 ^ 63)
  | VFloat s => ParseFloatOK (str_bytes s)
  | _ => true
  end.

Lemma SetValue_text old v : same_type old v = true -> value_ok v = true -> SetValue old (text v) = Some v.
Proof.
  destruct old, v; simpl; try done; intros _ H.
  - bool_facts. by rewrite ParseInt_pretty by lia.
  - by destruct b0.
  - bool_facts. by rewrite ParseDuration_ns by lia.
  - by rewrite H.
Qed.

(** Three ways to give a flag: [-name=value], [--name value], and [--name] for
    a boolean flag that becomes true. *)
Inductive Style := Equals | Separate | Bare.
Record Setting := MkSetting { st_style : Style; st_name : string; st_value : Value }.

Definition render (s : Setting) : list string :=
  match st_style s with
  | Equals => ["-" +:+ st_name s +:+ "=" +:+ text (st_value s)]
  | Separate => ["--" +:+ st_name s; text (st_value s)]
  | Bare => ["--" +:+ st_name s]
  end.

Definition style_ok (s : Setting) : bool :=
  match st_style s, st_value s with
  | Equals, _ => true
  | Separate, VBool _ => false
  | Separate, _ => true
  | Bare, VBool true => true
  | Bare, _ => false
  end.

Definition name_ok (n : string) : bool :=
  match str_bytes n with
  | [] => false
  | b :: s => negb ((byteZ b =? 45) || (byteZ b =? 61)) && forallb (fun b => negb (byteZ b =? 61)) s
  end.

(** The setting names a flag of the set and gives it a value of its type. *)
Definition setting_ok (fs : FlagSet) (s : Setting) : bool :=
  match fs !! st_name s with
  | Some old => same_type old (st_value s) && value_ok (st_value s) && style_ok s && name_ok (st_name s)
  | None => false
  end.

Definition apply_setting (fs : FlagSet) (s : Setting) : FlagSet := <[st_name s := st_value s]> fs.
Definition apply_all : list Setting -> FlagSet -> FlagSet := fun ss fs => foldl apply_setting fs ss.

Lemma cutEq_name s t :
  forallb (fun b => negb (byteZ b =? 61)) s = true ->
  cutEq s = (s, None) /\ cutEq (s ++ Byte.x3d :: t) = (s, Some t).
Proof.
  induction s as [|b s IH]; [done|]. cbn [forallb cutEq app]. intros H.
  apply andb_true_iff in H as [Hb Hs]. apply negb_true_iff in Hb. rewrite Hb.
  by destruct (IH Hs) as [-> ->].
Qed.

Lemma flagName_ok n : name_ok n = true ->
  flagName (str_bytes n) = ArgFlag n None /\
  forall t, flagName (str_bytes n ++ Byte.x3d :: str_bytes t) = ArgFlag n (Some t).
Proof.
  intros H. unfold name_ok in H. destruct (str_bytes n) as [|b s] eqn:E; [done|].
  apply andb_true_iff in H as [Hb Hs]. apply negb_true_iff in Hb. unfold flagName. cbn [app].
  rewrite Hb. split; [|intros t].
  - destruct (cutEq_name s [] Hs) as [-> _]. by rewrite <- E, bytes_str_bytes.
  - destruct (cutEq_name s (str_bytes t) Hs) as [_ ->]. rewrite <- E. cbn [fmap option_fmap option_map].
    by rewrite !bytes_str_bytes.
Qed.

Lemma classify_equals n t : name_ok n = true -> classify ("-" +:+ n +:+ "=" +:+ t) = ArgFlag n (Some t).
Proof.
  intros H. unfold classify. rewrite !str_bytes_app. change (str_bytes "-") with [Byte.x2d].
  change (str_bytes "=" ++ str_bytes t) with (Byte.x3d :: str_bytes t).
  destruct (flagName_ok n H) as [_ <-]. unfold name_ok in H. destruct (str_bytes n) as [|b s]; [done|].
  apply andb_true_iff in H as [Hb _]. cbn [app]. change (byteZ Byte.x2d =? 45) with true. cbv iota.
  destruct (byteZ b =? 45); [done|]. done.
Qed.

Lemma classify_dashes n : name_ok n = true -> classify ("--" +:+ n) = ArgFlag n None.
Proof.
  intros H. unfold classify. rewrite !str_bytes_app. change (str_bytes "--") with [Byte.x2d; Byte.x2d].
  destruct (flagName_ok n H) as [<- _]. unfold name_ok in H. destruct (str_bytes n) as [|b s]; [done|].
  cbn [app]. by change (byteZ Byte.x2d =? 45) with true.
Qed.

Lemma setting_ok_apply fs s t :
  setting_ok fs s = true -> setting_ok (apply_setting fs s) t = setting_ok fs t.
Proof.
  unfold setting_ok, apply_setting. intros Hs. destruct (decide (st_name t = st_name s)) as [->|Hn].
  - rewrite lookup_insert_eq. destruct (fs !! st_name s) as [old|]; [|done]. bool_facts.
    f_equal. f_equal. f_equal. by destruct old, (st_value s), (st_value t).
  - by rewrite lookup_insert_ne.
Qed.

Lemma Parse_setting fs s rest :
  setting_ok fs s = true -> Parse fs (render s ++ rest) = Parse (apply_setting fs s) rest.
Proof.
  unfold setting_ok, apply_setting. intros H. destruct (fs !! st_name s) as [old|] eqn:E; [|done].
  apply andb_true_iff in H as [H Hn]. apply andb_true_iff in H as [H Hst].
  apply andb_true_iff in H as [Ht Hv]. pose proof (SetValue_text _ _ Ht Hv) as Hset.
  destruct s as [sty name v]; simpl in *. unfold render, style_ok in *. simpl in *.
  destruct sty; cbn [app Parse];
    rewrite ?classify_equals, ?classify_dashes, E by done; destruct old, v; try done;
    cbn [default from_option]; rewrite ?Hset; try done.
  all: by destruct b0.
Qed.

Lemma Parse_settings fs ss rest :
  forallb (setting_ok fs) ss = true ->
  Parse fs (concat (render <$> ss) ++ rest) = Parse (apply_all ss fs) rest.
Proof.
  revert fs; induction ss as [|s ss IH]; intros fs; [done|]. cbn [forallb fmap list_fmap concat].
  intros H. apply andb_true_iff in H as [Hs Hss]. rewrite <- app_assoc, Parse_setting by done.
  rewrite IH; [done|]. rewrite forallb_forall in *. intros t Ht. rewrite setting_ok_apply by done. auto.
Qed.
