(* ===== verification/Session.v ===== *)
(** * [internal/relay/session.go], part 1: players and sessions

    A session is a map from player identifiers to player records.  Every
    method runs under the session's mutex, so each is one atomic operation.
    The clock value a method reads with [time.Now()] is an argument. *)

From S2P Require Import Prelude GoLib.

Definition PlayerTimeout : Z := 90 * Time.Second.
Definition SessionEmptyTimeout : Z := 2 * Time.Minute.
Definition MaxPacketsPerSecond : Z := 2000.

Record PlayerInfo := MkPlayer {
  PlayerID : Z;
  Login : string;
  p_Addr : AddrPort;
  p_TCPConn : option Conn;
  tcpIP : IP;
  Transport : string;
  LastSeen : Z;
  ratePkts : Z;
  rateSecond : Z;
}.

(** [&PlayerInfo{PlayerID: id, Login: login}]. *)
Definition new_player (playerID : Z) (login : string) : PlayerInfo :=
  MkPlayer playerID login AddrPort_zero None None "" Time.zero 0 0.

Definition CheckRate (p : PlayerInfo) (nowUnix : Z) : PlayerInfo * bool :=
  let pkts := if negb (rateSecond p =? nowUnix) then 0 else ratePkts p in
  let pkts := u32 (pkts + 1) in
  (MkPlayer (PlayerID p) (Login p) (p_Addr p) (p_TCPConn p) (tcpIP p) (Transport p)
     (LastSeen p) pkts nowUnix,
   pkts <=? MaxPacketsPerSecond).

Record Session := MkSession {
  s_ID : string;
  MaxPlayers : Z;
  CreatedAt : Z;
  players : gmap Z PlayerInfo;
}.

Definition set_players (f : gmap Z PlayerInfo -> gmap Z PlayerInfo) (s : Session) : Session :=
  MkSession (s_ID s) (MaxPlayers s) (CreatedAt s) (f (players s)).
Definition put_player (id : Z) (p : PlayerInfo) : Session -> Session :=
  set_players (fun m => <[id := p]> m).

Definition NewSession (id : string) (maxPlayers now : Z) : Session :=
  MkSession id maxPlayers now ∅.

Inductive SessionErr :=
| PlayerAlreadyInSession
| SessionFull.

Definition AddPlayer (playerID : Z) (login : string) (s : Session) : result SessionErr Session :=
  match players s !! playerID with
  | Some _ => Err PlayerAlreadyInSession
  | None =>
      if MaxPlayers s <=? Z.of_nat (size (players s)) then Err SessionFull
      else Ok (put_player playerID (new_player playerID login) s)
  end.

Definition ResetPlayerTransport (playerID : Z) (s : Session) : Session :=
  match players s !! playerID with
  | None => s
  | Some p =>
      put_player playerID
        (MkPlayer (PlayerID p) (Login p) AddrPort_zero None None "" Time.zero
           (ratePkts p) (rateSecond p)) s
  end.

Definition RemovePlayer (playerID : Z) (s : Session) : Session * bool :=
  (set_players (delete playerID) s,
   match players s !! playerID with Some _ => true | None => false end).

Definition GetPlayer (playerID : Z) (s : Session) : option PlayerInfo := players s !! playerID.

Definition GetPlayerAddr (playerID : Z) (s : Session) : AddrPort * bool :=
  match players s !! playerID with
  | None => (AddrPort_zero, false)
  | Some p => (p_Addr p, true)
  end.

Inductive PacketVerdict :=
| VerdictOK
| VerdictFirstAddr
| VerdictUnknown
| VerdictSpoofed
| VerdictRateLimited.

#[export] Instance PacketVerdict_eq_dec : EqDecision PacketVerdict.
Proof. solve_decision. Defined.

Definition is_nil {A} (o : option A) : bool := match o with None => true | Some _ => false end.

(** The player record is shared by reference: [CheckRate] has counted the
    packet even when the method returns [VerdictRateLimited]. *)
Definition UpdatePlayerAddr (playerID : Z) (addr : AddrPort) (now : Z) (s : Session)
    : Session * PacketVerdict :=
  match players s !! playerID with
  | None => (s, VerdictUnknown)
  | Some p =>
      if IsValid (p_Addr p) && negb (bool_decide (ap_addr (p_Addr p) = ap_addr addr))
      then (s, VerdictSpoofed)
      else
        let '(p1, ok) := CheckRate p (Time.Unix now) in
        if negb ok then (put_player playerID p1 s, VerdictRateLimited)
        else
          let wasNew := negb (IsValid (p_Addr p1)) && is_nil (p_TCPConn p1) in
          let ip := if is_nil (p_TCPConn p1) then tcpIP p1 else None in
          let p2 := MkPlayer (PlayerID p1) (Login p1) addr None ip "udp" now
                      (ratePkts p1) (rateSecond p1) in
          (put_player playerID p2 s, if wasNew then VerdictFirstAddr else VerdictOK)
  end.

(** The calls [fn] receives, in order. *)
Definition ForEachOtherPlayerAddr (ρ : Shuffle) (excludeID : Z) (s : Session)
    : list (Z * AddrPort) :=
  omap (fun '(id, p) =>
          if negb (id =? excludeID) && IsValid (p_Addr p) then Some (id, p_Addr p) else None)
    (ρ _ (map_to_list (players s))).

Record PlayerSendTarget := MkTarget {
  t_PlayerID : Z; t_UDPAddr : AddrPort; t_TCPConn : option Conn }.

Definition ForEachOtherPlayerTarget (ρ : Shuffle) (excludeID : Z) (s : Session)
    : list PlayerSendTarget :=
  omap (fun '(id, p) =>
          if negb (id =? excludeID) then
            if negb (is_nil (p_TCPConn p)) || IsValid (p_Addr p)
            then Some (MkTarget id (p_Addr p) (p_TCPConn p)) else None
          else None)
    (ρ _ (map_to_list (players s))).

Definition GetPlayerTarget (playerID : Z) (s : Session) : PlayerSendTarget * bool :=
  match players s !! playerID with
  | None => (MkTarget 0 AddrPort_zero None, false)
  | Some p => (MkTarget playerID (p_Addr p) (p_TCPConn p), true)
  end.

Definition tcpConnIP (conn : option Conn) : IP :=
  match conn with
  | None => None
  | Some c =>
      match c_remote c with
      | None => None
      | Some addr =>
          match SplitHostPort addr with
          | None => None
          | Some (host, _) => ParseIP host
          end
      end
  end.

Definition UpdatePlayerTCP (playerID : Z) (conn : Conn) (now : Z) (s : Session)
    : Session * (PacketVerdict * option Conn) :=
  match players s !! playerID with
  | None => (s, (VerdictUnknown, None))
  | Some p =>
      let connIP := tcpConnIP (Some conn) in
      if negb (is_nil (tcpIP p)) && negb (IP_Equal (tcpIP p) connIP)
      then (s, (VerdictSpoofed, None))
      else
        let '(p1, ok) := CheckRate p (Time.Unix now) in
        if negb ok then (put_player playerID p1 s, (VerdictRateLimited, None))
        else
          let wasNew := is_nil (p_TCPConn p1) && negb (IsValid (p_Addr p1)) in
          let oldConn := p_TCPConn p1 in
          let ip := if is_nil (tcpIP p1) && negb (is_nil connIP) then connIP else tcpIP p1 in
          let p2 := MkPlayer (PlayerID p1) (Login p1) (p_Addr p1) (Some conn) ip "tcp" now
                      (ratePkts p1) (rateSecond p1) in
          (put_player playerID p2 s,
           ((if wasNew then VerdictFirstAddr else VerdictOK), oldConn))
  end.

(** [make([]*PlayerInfo, 0, len(s.players)-1)] panics on an empty session. *)
Definition GetOtherPlayers (ρ : Shuffle) (excludeID : Z) (s : Session)
    : outcome (list PlayerInfo) :=
  if Z.of_nat (size (players s)) - 1 <? 0 then Panic
  else Ret (omap (fun '(id, p) => if negb (id =? excludeID) then Some p else None)
              (ρ _ (map_to_list (players s)))).

Definition PlayerCount (s : Session) : Z := Z.of_nat (size (players s)).

Definition PlayerIDs (ρ : Shuffle) (s : Session) : list Z :=
  fst <$> ρ _ (map_to_list (players s)).

(** The staleness test shared by [StalePlayers] and [RemovePlayerIfStale]. *)
Definition is_stale (s : Session) (p : PlayerInfo) (now timeout : Z) : bool :=
  if Time.IsZero (LastSeen p) then timeout <? Time.Sub now (CreatedAt s)
  else timeout <? Time.Sub now (LastSeen p).

Definition StalePlayers (ρ : Shuffle) (timeout now : Z) (s : Session) : list Z :=
  omap (fun '(id, p) => if is_stale s p now timeout then Some id else None)
    (ρ _ (map_to_list (players s))).

Definition RemovePlayerIfStale (playerID timeout now : Z) (s : Session)
    : Session * (bool * option Conn) :=
  match players s !! playerID with
  | None => (s, (false, None))
  | Some p =>
      if negb (is_stale s p now timeout) then (s, (false, None))
      else (set_players (delete playerID) s, (true, p_TCPConn p))
  end.

(** ** Invariant *)

(** A player's record is consistent: the TCP pin exists only beside a TCP
    connection, and the rate counter is a [uint32]. *)
Record player_ok (p : PlayerInfo) : Prop := {
  ok_pin : p_TCPConn p = None -> tcpIP p = None;
  ok_rate : 0 <= ratePkts p < 2 ^ 32;
}.

Record session_ok (s : Session) : Prop := {
  ok_keys : map_Forall (fun id p => PlayerID p = id) (players s);
  ok_players : map_Forall (fun _ p => player_ok p) (players s);
  ok_capacity : PlayerCount s <= Z.max 0 (MaxPlayers s);
}.

(** The mutating methods, as steps of one session. *)
Inductive session_step : Session -> Session -> Prop :=
| step_add id login s s' : AddPlayer id login s = Ok s' -> session_step s s'
| step_reset id s : session_step s (ResetPlayerTransport id s)
| step_remove id s : session_step s (RemovePlayer id s).1
| step_udp id addr now s : session_step s (UpdatePlayerAddr id addr now s).1
| step_tcp id conn now s : session_step s (UpdatePlayerTCP id conn now s).1
| step_reap id timeout now s : session_step s (RemovePlayerIfStale id timeout now s).1.

Lemma new_player_ok id login : player_ok (new_player id login).
Proof. by split. Qed.

Lemma CheckRate_ok p t : player_ok p -> player_ok (CheckRate p t).1.
Proof. intros [H1 H2]. split; [done|]. apply u32_range. Qed.

Lemma session_ok_put id p p' s :
  session_ok s -> players s !! id = Some p -> PlayerID p' = PlayerID p -> player_ok p' ->
  session_ok (put_player id p' s).
Proof.
  intros [Hk Hp Hc] E Hid Hok. split; simpl.
  - apply map_Forall_insert_2; [|done]. rewrite Hid. by apply Hk.
  - by apply map_Forall_insert_2.
  - unfold PlayerCount in *; simpl. rewrite map_size_insert_Some by eauto. done.
Qed.

Lemma session_ok_delete id s : session_ok s -> session_ok (set_players (delete id) s).
Proof.
  intros [Hk Hp Hc]. split; simpl; [by apply map_Forall_delete..|].
  unfold PlayerCount in *; simpl. rewrite map_size_delete. destruct (players s !! id); cbn; lia.
Qed.

Lemma session_ok_add id login s s' :
  session_ok s -> AddPlayer id login s = Ok s' -> session_ok s'.
Proof.
  intros [Hk Hp Hc]. unfold AddPlayer. destruct (players s !! id) eqn:E; [done|].
  destruct (Z.leb_spec (MaxPlayers s) (Z.of_nat (size (players s)))); [done|]. intros [= <-].
  split; simpl; [apply map_Forall_insert_2; done..|].
  unfold PlayerCount in *; simpl. rewrite map_size_insert_None by done. lia.
Qed.

Lemma session_ok_udp id addr now s : session_ok s -> session_ok (UpdatePlayerAddr id addr now s).1.
Proof.
  intros Hs. unfold UpdatePlayerAddr. destruct (players s !! id) as [p|] eqn:E; [|done].
  assert (player_ok p) as Hp by by eapply ok_players.
  destruct (_ && _); [done|]. destruct (CheckRate p (Time.Unix now)) as [p1 ok] eqn:C.
  assert (player_ok p1) as Hp1 by (apply (f_equal fst) in C; simpl in C; subst; by apply CheckRate_ok).
  assert (PlayerID p1 = PlayerID p) by (by unfold CheckRate in C; simplify_eq).
  destruct ok; simpl; (eapply session_ok_put; [done..|]); [|done].
  split; simpl; [|apply Hp1]. intros _. destruct (p_TCPConn p1) eqn:?; [done|]. by apply Hp1.
Qed.

Lemma session_ok_tcp id conn now s : session_ok s -> session_ok (UpdatePlayerTCP id conn now s).1.
Proof.
  intros Hs. unfold UpdatePlayerTCP. destruct (players s !! id) as [p|] eqn:E; [|done].
  assert (player_ok p) as Hp by by eapply ok_players.
  destruct (_ && _); [done|]. destruct (CheckRate p (Time.Unix now)) as [p1 ok] eqn:C.
  assert (player_ok p1) as Hp1 by (apply (f_equal fst) in C; simpl in C; subst; by apply CheckRate_ok).
  assert (PlayerID p1 = PlayerID p) by (by unfold CheckRate in C; simplify_eq).
  destruct ok; simpl; (eapply session_ok_put; [done..|]); [|done].
  split; simpl; [done|]. apply Hp1.
Qed.

Lemma session_ok_reset id s : session_ok s -> session_ok (ResetPlayerTransport id s).
Proof.
  intros Hs. unfold ResetPlayerTransport. destruct (players s !! id) as [p|] eqn:E; [|done].
  eapply session_ok_put; [done..|]. split; [done|]. by apply (ok_rate p), (ok_players s Hs id).
Qed.

Lemma session_ok_step s s' : session_step s s' -> session_ok s -> session_ok s'.
Proof.
  destruct 1; intros Hs.
  - by eapply session_ok_add.
  - by apply session_ok_reset.
  - by apply session_ok_delete.
  - by apply session_ok_udp.
  - by apply session_ok_tcp.
  - unfold RemovePlayerIfStale. repeat split_guard; done || by apply session_ok_delete.
Qed.

Lemma session_ok_new id n now : session_ok (NewSession id n now).
Proof.
  split; simpl; [apply map_Forall_empty..|]. unfold PlayerCount; simpl.
  rewrite map_size_empty. lia.
Qed.
#[export] Hint Resolve session_ok_new session_ok_add session_ok_udp session_ok_tcp
  session_ok_reset session_ok_delete : relay.

(** ** Lemmas on the packet updates *)

Lemma lookup_put_eq id p s : players (put_player id p s) !! id = Some p.
Proof. simpl. by rewrite lookup_insert_eq. Qed.

Lemma lookup_put_ne id id' p s : id <> id' -> players (put_player id p s) !! id' = players s !! id'.
Proof. intros. simpl. by rewrite lookup_insert_ne. Qed.

(** An update of one player leaves every other player alone. *)
Lemma UpdatePlayerAddr_other id id' addr now s :
  id <> id' -> players (UpdatePlayerAddr id addr now s).1 !! id' = players s !! id'.
Proof.
  intros. unfold UpdatePlayerAddr. repeat split_guard; try done; by rewrite lookup_insert_ne.
Qed.

Lemma UpdatePlayerTCP_other id id' conn now s :
  id <> id' -> players (UpdatePlayerTCP id conn now s).1 !! id' = players s !! id'.
Proof.
  intros. unfold UpdatePlayerTCP. repeat split_guard; try done; by rewrite lookup_insert_ne.
Qed.

(** Packet updates never change who is in the session. *)
Lemma UpdatePlayerAddr_dom id addr now s :
  dom (players (UpdatePlayerAddr id addr now s).1) = dom (players s).
Proof.
  unfold UpdatePlayerAddr. destruct (players s !! id) as [p|] eqn:E; [|done].
  repeat split_guard; try done; by apply dom_insert_lookup_L.
Qed.

Lemma UpdatePlayerTCP_dom id conn now s :
  dom (players (UpdatePlayerTCP id conn now s).1) = dom (players s).
Proof.
  unfold UpdatePlayerTCP. destruct (players s !! id) as [p|] eqn:E; [|done].
  repeat split_guard; try done; by apply dom_insert_lookup_L.
Qed.

Lemma Sub_gt timeout t u :
  - 2 ^ 63 <= timeout < Time.maxDuration -> (timeout <? Time.Sub t u) = (timeout <? t - u).
Proof.
  unfold Time.Sub, Time.maxDuration, Time.minDuration. intros.
  apply Bool.eq_iff_eq_true. rewrite !Z.ltb_lt. lia.
Qed.

(** ** Rate limiting *)

(** Successive calls of [CheckRate]: how many were accepted. *)
Fixpoint accepted (p : PlayerInfo) (secs : list Z) : Z :=
  match secs with
  | [] => 0
  | t :: secs' =>
      let '(p', ok) := CheckRate p t in (if ok then 1 else 0) + accepted p' secs'
  end.

Lemma accepted_same p sec n k :
  rateSecond p = sec -> ratePkts p = k -> 0 <= k -> k + Z.of_nat n < 2 ^ 32 ->
  accepted p (replicate n sec) = Z.max 0 (Z.min (k + Z.of_nat n) MaxPacketsPerSecond - k).
Proof.
  revert p k; induction n as [|n IH]; intros p k Hs Hk H0 Hn.
  - simpl. unfold MaxPacketsPerSecond. lia.
  - cbn [replicate accepted CheckRate]. rewrite Hs, Z.eqb_refl, Hk. simpl negb.
    rewrite u32_small by lia.
    rewrite (IH _ (k + 1)); [|done|done|lia|lia].
    unfold MaxPacketsPerSecond. destruct (Z.leb_spec (k + 1) 2000); lia.
Qed.

(** ** Iteration *)

Lemma elem_of_targets ρ ex s t :
  t ∈ ForEachOtherPlayerTarget ρ ex s <->
  exists p, players s !! t_PlayerID t = Some p /\ t_PlayerID t <> ex /\
    t_UDPAddr t = p_Addr p /\ t_TCPConn t = p_TCPConn p /\
    (p_TCPConn p <> None \/ IsValid (p_Addr p) = true).
Proof.
  unfold ForEachOtherPlayerTarget. rewrite list_elem_of_omap. split.
  - intros ([id p] & Hin & H). rewrite shuf_elem_of, elem_of_map_to_list in Hin.
    destruct (Z.eqb_spec id ex); [done|]. simpl in H.
    destruct (p_TCPConn p) eqn:Et; [|destruct (IsValid (p_Addr p)) eqn:Ev; [|done]]; simplify_eq/=;
      exists p; rewrite ?Et; split_and!; auto.
  - intros (p & Hp & Hne & Hu & Ht & Hor). exists (t_PlayerID t, p).
    rewrite shuf_elem_of, elem_of_map_to_list. split; [done|].
    rewrite (proj2 (Z.eqb_neq _ _)) by done. simpl.
    replace (negb (is_nil (p_TCPConn p)) || IsValid (p_Addr p)) with true.
    + destruct t; simpl in *; by subst.
    + destruct (p_TCPConn p); [done|]. destruct Hor; [done|]. by symmetry.
Qed.

Lemma targets_NoDup ρ ex s : NoDup (t_PlayerID <$> ForEachOtherPlayerTarget ρ ex s).
Proof.
  unfold ForEachOtherPlayerTarget.
  assert (Hnd : NoDup (fst <$> ρ _ (map_to_list (players s)))).
  { rewrite (shuf_perm ρ _ (map_to_list (players s))). apply NoDup_fst_map_to_list. }
  revert Hnd. generalize (ρ _ (map_to_list (players s))) as l.
  induction l as [|[id p] l IH]; simpl; [constructor|].
  intros [Hni Hnd]%NoDup_cons. specialize (IH Hnd).
  assert (Hsub : forall t, t ∈ omap (fun '(id, p) => if negb (id =? ex) then
      if negb (is_nil (p_TCPConn p)) || IsValid (p_Addr p)
      then Some (MkTarget id (p_Addr p) (p_TCPConn p)) else None else None) l ->
      t_PlayerID t ∈ fst <$> l).
  { intros t ([id' p'] & Hin & H)%list_elem_of_omap. apply list_elem_of_fmap.
    exists (id', p'). split; [|done]. repeat split_guard_in H; by simplify_eq/=. }
  destruct (negb (id =? ex)); [|done]. destruct (_ || _); [|done]. simpl.
  apply NoDup_cons. split; [|done].
  intros (t & Ht & Hin)%list_elem_of_fmap. simpl in Ht. apply Hni. rewrite Ht. by apply Hsub.
Qed.

Lemma elem_of_stale ρ timeout now s id :
  id ∈ StalePlayers ρ timeout now s <->
  exists p, players s !! id = Some p /\ is_stale s p now timeout = true.
Proof.
  unfold StalePlayers. rewrite list_elem_of_omap. split.
  - intros ([id' p] & Hin & H). rewrite shuf_elem_of, elem_of_map_to_list in Hin.
    split_guard_in H. eauto.
  - intros (p & Hp & Hs). exists (id, p). rewrite shuf_elem_of, elem_of_map_to_list.
    by rewrite Hs.
Qed.

Lemma elem_of_PlayerIDs ρ s id : id ∈ PlayerIDs ρ s <-> id ∈ dom (players s).
Proof.
  unfold PlayerIDs. rewrite list_elem_of_fmap, elem_of_dom. split.
  - intros ([? p] & -> & Hin). rewrite shuf_elem_of, elem_of_map_to_list in Hin. by exists p.
  - intros [p Hp]. exists (id, p). by rewrite shuf_elem_of, elem_of_map_to_list.
Qed.

Lemma length_PlayerIDs ρ s : len (PlayerIDs ρ s) = PlayerCount s.
Proof.
  unfold PlayerIDs, PlayerCount. by rewrite length_fmap, shuf_length, length_map_to_list.
Qed.

(** ** Sequences of packets *)

(** A UDP packet as [UpdatePlayerAddr] sees it. *)
Record UdpPkt := MkUdpPkt { u_id : Z; u_addr : AddrPort; u_now : Z }.

Fixpoint udp_run (l : list UdpPkt) (s : Session) : Session * list PacketVerdict :=
  match l with
  | [] => (s, [])
  | k :: l' =>
      let '(s1, v) := UpdatePlayerAddr (u_id k) (u_addr k) (u_now k) s in
      let '(s2, vs) := udp_run l' s1 in (s2, v :: vs)
  end.

Definition same_ip (a b : AddrPort) : Prop := ap_addr a = ap_addr b.

Lemma same_ip_valid a b : same_ip a b -> IsValid a = true -> IsValid b = true.
Proof. unfold same_ip, IsValid. by intros ->. Qed.

(** One packet of a pinned player. *)
Lemma UpdatePlayerAddr_pinned id p addr now s :
  players s !! id = Some p -> IsValid (p_Addr p) = true ->
  exists p', players (UpdatePlayerAddr id addr now s).1 !! id = Some p' /\
    same_ip (p_Addr p') (p_Addr p) /\
    (~ same_ip (p_Addr p) addr -> p' = p /\ (UpdatePlayerAddr id addr now s).2 = VerdictSpoofed).
Proof.
  intros Hp Hv. unfold UpdatePlayerAddr. rewrite Hp, Hv. simpl.
  destruct (decide (ap_addr (p_Addr p) = ap_addr addr)) as [E|E].
  - rewrite bool_decide_eq_true_2 by done. unfold negb at 1.
    unfold CheckRate. destruct (_ <=? _); simpl; rewrite lookup_insert_eq; eexists;
      (split; [done|]); (split; [unfold same_ip; simpl; done|]); unfold same_ip; done.
  - rewrite bool_decide_eq_false_2 by done. simpl. exists p. done.
Qed.

Lemma udp_run_pinned id l : forall s p,
  players s !! id = Some p -> IsValid (p_Addr p) = true ->
  exists p', players (udp_run l s).1 !! id = Some p' /\ same_ip (p_Addr p') (p_Addr p) /\
    Forall2 (fun k v => u_id k = id -> ~ same_ip (p_Addr p) (u_addr k) -> v = VerdictSpoofed)
      l (udp_run l s).2.
Proof.
  induction l as [|k l IH]; intros s p Hp Hv; cbn [udp_run].
  - exists p. by repeat split.
  - destruct (UpdatePlayerAddr (u_id k) (u_addr k) (u_now k) s) as [s1 v] eqn:E.
    assert (exists p1, players s1 !! id = Some p1 /\ same_ip (p_Addr p1) (p_Addr p) /\
              (u_id k = id -> ~ same_ip (p_Addr p) (u_addr k) -> v = VerdictSpoofed))
      as (p1 & Hp1 & Hs1 & Hv1).
    { destruct (decide (u_id k = id)) as [Ek|Hne]; [rewrite Ek in E|].
      - destruct (UpdatePlayerAddr_pinned id p (u_addr k) (u_now k) s Hp Hv) as (p1 & ? & ? & H).
        rewrite E in *. exists p1. split; [done|]. split; [done|]. intros _ Hn. by apply H.
      - exists p. split; [|done]. rewrite <- Hp.
        rewrite <- (UpdatePlayerAddr_other (u_id k) id (u_addr k) (u_now k) s Hne). by rewrite E. }
    destruct (IH s1 p1 Hp1) as (p2 & H2 & S2 & F2); [by eapply same_ip_valid|].
    destruct (udp_run l s1) as [s2 vs]. exists p2. split; [done|].
    unfold same_ip in *. split; [congruence|]. constructor; [done|].
    eapply Forall2_impl; [exact F2|]. simpl. intros ?? H ??. apply H; [done|congruence].
Qed.

(** ** Properties *)

(** In every session reachable from an empty one by any sequence of the
    mutating methods, each player is stored under its own identifier, a TCP
    address pin exists only beside a TCP connection, and the number of players
    never exceeds the configured maximum. *)
Theorem session_invariant (id : string) (n now : Z) (s : Session) :
  rtc session_step (NewSession id n now) s -> session_ok s.
Proof.
  intros H. eapply (rtc_invariant session_step session_ok); [|exact H|apply session_ok_new].
  apply session_ok_step.
Qed.

Definition demo_session : Session := put_player 7 (new_player 7 "a") (NewSession "g" 2 0).

Lemma session_invariant_witness : session_ok demo_session.
Proof.
  apply (session_invariant "g" 2 0). apply rtc_once.
  by apply (step_add 7 "a").
Defined.

(** Of [n] packets a player sends within one clock second, exactly the
    first 2000 pass the rate limiter, for any [n] below the wrap-around of the
    32-bit counter. *)
Theorem rate_limit_exact (p : PlayerInfo) (sec : Z) (n : nat) :
  rateSecond p <> sec -> Z.of_nat n < 2 ^ 32 ->
  accepted p (replicate n sec) = Z.min (Z.of_nat n) MaxPacketsPerSecond.
Proof.
  intros Hs Hn. destruct n as [|n]; [done|]. cbn [replicate accepted CheckRate].
  rewrite (proj2 (Z.eqb_neq _ _)) by done. simpl negb.
  rewrite (accepted_same _ _ _ 1); [|done|done|lia|lia].
  change (u32 (0 + 1)) with 1. unfold MaxPacketsPerSecond. change (1 <=? 2000) with true. cbv iota. lia.
Qed.

Lemma rate_limit_exact_witness :
  accepted (new_player 7 "a") (replicate 3 5) = Z.min 3 MaxPacketsPerSecond.
Proof. apply (rate_limit_exact (new_player 7 "a") 5 3); simpl; lia. Defined.

(** Once a player's UDP address is known, no sequence of UDP packets from
    any senders moves the player to another IP address (ports may change), and
    every packet that claims the player's identifier from another IP address
    is answered with [VerdictSpoofed]. *)
Theorem udp_ip_pinned (id : Z) (l : list UdpPkt) (s : Session) (p : PlayerInfo) :
  players s !! id = Some p -> IsValid (p_Addr p) = true ->
  exists p', players (udp_run l s).1 !! id = Some p' /\ same_ip (p_Addr p') (p_Addr p) /\
    Forall2 (fun k v => u_id k = id -> ~ same_ip (p_Addr p) (u_addr k) -> v = VerdictSpoofed)
      l (udp_run l s).2.
Proof. apply udp_run_pinned. Qed.

Definition demo_addr (ip : Z) : AddrPort := MkAddrPort (Addr4 ip) 6112.
Definition demo_player : PlayerInfo :=
  MkPlayer 7 "a" (demo_addr 1) None None "udp" 100 1 0.
Definition demo_pinned : Session := put_player 7 demo_player (NewSession "g" 2 0).

Lemma udp_ip_pinned_witness :
  exists p', players (udp_run [MkUdpPkt 7 (demo_addr 2) 200] demo_pinned).1 !! 7 = Some p' /\
    same_ip (p_Addr p') (demo_addr 1) /\
    Forall2 (fun k v => u_id k = 7 -> ~ same_ip (demo_addr 1) (u_addr k) -> v = VerdictSpoofed)
      [MkUdpPkt 7 (demo_addr 2) 200]
      (udp_run [MkUdpPkt 7 (demo_addr 2) 200] demo_pinned).2.
Proof. by apply (udp_ip_pinned 7 _ demo_pinned demo_player). Defined.

(** The two pins are independent.  A UDP packet from any address is
    accepted for a player that has only been seen over TCP: it replaces the
    TCP connection and removes the TCP pin.  A TCP connection from any IP
    address is accepted for a player that has only been seen over UDP, and
    then receives the player's traffic. *)
Theorem pins_are_per_transport (id : Z) (s : Session) (p : PlayerInfo)
    (addr : AddrPort) (conn : Conn) (now : Z) :
  players s !! id = Some p -> (CheckRate p (Time.Unix now)).2 = true ->
  (IsValid (p_Addr p) = false -> p_TCPConn p <> None ->
   exists p', players (UpdatePlayerAddr id addr now s).1 !! id = Some p' /\
     (UpdatePlayerAddr id addr now s).2 = VerdictOK /\
     p_Addr p' = addr /\ p_TCPConn p' = None /\ tcpIP p' = None) /\
  (tcpIP p = None -> IsValid (p_Addr p) = true ->
   exists p', players (UpdatePlayerTCP id conn now s).1 !! id = Some p' /\
     (UpdatePlayerTCP id conn now s).2 = (VerdictOK, p_TCPConn p) /\
     p_TCPConn p' = Some conn /\ p_Addr p' = p_Addr p).
Proof.
  intros Hp Hr. split.
  - intros Hv Ht. unfold UpdatePlayerAddr. rewrite Hp, Hv. cbn [is_nil negb andb].
    destruct (CheckRate p (Time.Unix now)) as [p1 ok] eqn:C. simpl in Hr. subst ok.
    unfold CheckRate in C. simplify_eq/=. rewrite lookup_insert_eq, Hv.
    destruct (p_TCPConn p); [|done]. simpl. eexists; by repeat split.
  - intros Hi Hv. unfold UpdatePlayerTCP. rewrite Hp, Hi. cbn [is_nil negb andb].
    destruct (CheckRate p (Time.Unix now)) as [p1 ok] eqn:C. simpl in Hr. subst ok.
    unfold CheckRate in C. simplify_eq/=. rewrite lookup_insert_eq, Hv, andb_false_r.
    eexists; by repeat split.
Qed.

Definition demo_tcp_player : PlayerInfo :=
  MkPlayer 7 "a" AddrPort_zero (Some (MkConn 1 (Some "10.0.0.7:5000")))
    (ParseIP "10.0.0.7") "tcp" 100 1 0.
Definition demo_tcp_session : Session := put_player 7 demo_tcp_player (NewSession "g" 2 0).

Lemma pins_are_per_transport_witness :
  (IsValid (p_Addr demo_tcp_player) = false -> p_TCPConn demo_tcp_player <> None ->
   exists p', players (UpdatePlayerAddr 7 (demo_addr 99) 200 demo_tcp_session).1 !! 7 = Some p' /\
     (UpdatePlayerAddr 7 (demo_addr 99) 200 demo_tcp_session).2 = VerdictOK /\
     p_Addr p' = demo_addr 99 /\ p_TCPConn p' = None /\ tcpIP p' = None) /\
  (tcpIP demo_tcp_player = None -> IsValid (p_Addr demo_tcp_player) = true ->
   exists p', players (UpdatePlayerTCP 7 (MkConn 2 None) 200 demo_tcp_session).1 !! 7 = Some p' /\
     (UpdatePlayerTCP 7 (MkConn 2 None) 200 demo_tcp_session).2 =
       (VerdictOK, p_TCPConn demo_tcp_player) /\
     p_TCPConn p' = Some (MkConn 2 None) /\ p_Addr p' = p_Addr demo_tcp_player).
Proof.
  by apply (pins_are_per_transport 7 demo_tcp_session demo_tcp_player).
Defined.

(** The reaper's staleness test for a player that has not sent a packet
    looks at the age of the session, not at the time of joining: whoever joins
    a session older than the timeout is stale at once and is removed by the
    next check. *)
Theorem late_joiner_is_stale (id : Z) (login : string) (s s' : Session) (now : Z) :
  AddPlayer id login s = Ok s' -> PlayerTimeout < now - CreatedAt s ->
  RemovePlayerIfStale id PlayerTimeout now s' = (s, (true, None)).
Proof.
  unfold AddPlayer. destruct (players s !! id) eqn:E; [done|]. split_guard; [done|].
  intros [= <-] Ht. unfold RemovePlayerIfStale. rewrite lookup_put_eq.
  unfold is_stale. simpl. rewrite Sub_gt by (split; by vm_compute).
  rewrite (proj2 (Z.ltb_lt _ _)) by done. simpl. unfold set_players; simpl.
  rewrite delete_insert_id by done. by destruct s.
Qed.

Lemma late_joiner_is_stale_witness :
  RemovePlayerIfStale 7 PlayerTimeout (91 * Time.Second) demo_session =
  (NewSession "g" 2 0, (true, None)).
Proof.
  apply (late_joiner_is_stale 7 "a" (NewSession "g" 2 0)); [done|].
  unfold PlayerTimeout, Time.Second; simpl; lia.
Defined.
