(* ===== verification/Metrics.v ===== *)
(** * [internal/relay/metrics.go]

    The server's atomic counters.  Each is kept at its width: packet and byte
    counters are [uint64], the gauges of live sessions and players [int64]. *)

From S2P Require Import Prelude.

Record Metrics := MkMetrics {
  PacketsRouted : Z;
  PacketsDropped : Z;
  PacketsSpoofed : Z;
  PacketsRateLimited : Z;
  BytesRouted : Z;
  ActiveSessions : Z;
  ActivePlayers : Z;
}.

Definition zero_metrics : Metrics := MkMetrics 0 0 0 0 0 0 0.

(** [m.PacketsRouted.Add(n)] and the other counters. *)
Definition add_routed (n : Z) (m : Metrics) : Metrics :=
  MkMetrics (u64 (PacketsRouted m + n)) (PacketsDropped m) (PacketsSpoofed m)
    (PacketsRateLimited m) (BytesRouted m) (ActiveSessions m) (ActivePlayers m).
Definition add_dropped (n : Z) (m : Metrics) : Metrics :=
  MkMetrics (PacketsRouted m) (u64 (PacketsDropped m + n)) (PacketsSpoofed m)
    (PacketsRateLimited m) (BytesRouted m) (ActiveSessions m) (ActivePlayers m).
Definition add_spoofed (n : Z) (m : Metrics) : Metrics :=
  MkMetrics (PacketsRouted m) (PacketsDropped m) (u64 (PacketsSpoofed m + n))
    (PacketsRateLimited m) (BytesRouted m) (ActiveSessions m) (ActivePlayers m).
Definition add_limited (n : Z) (m : Metrics) : Metrics :=
  MkMetrics (PacketsRouted m) (PacketsDropped m) (PacketsSpoofed m)
    (u64 (PacketsRateLimited m + n)) (BytesRouted m) (ActiveSessions m) (ActivePlayers m).
Definition add_bytes (n : Z) (m : Metrics) : Metrics :=
  MkMetrics (PacketsRouted m) (PacketsDropped m) (PacketsSpoofed m)
    (PacketsRateLimited m) (u64 (BytesRouted m + n)) (ActiveSessions m) (ActivePlayers m).
Definition add_sessions (n : Z) (m : Metrics) : Metrics :=
  MkMetrics (PacketsRouted m) (PacketsDropped m) (PacketsSpoofed m)
    (PacketsRateLimited m) (BytesRouted m) (i64 (ActiveSessions m + n)) (ActivePlayers m).
Definition add_players (n : Z) (m : Metrics) : Metrics :=
  MkMetrics (PacketsRouted m) (PacketsDropped m) (PacketsSpoofed m)
    (PacketsRateLimited m) (BytesRouted m) (ActiveSessions m) (i64 (ActivePlayers m + n)).

Record MetricsSnapshot := MkSnapshot { snap : Metrics; Goroutines : Z }.

(** [goroutines] is the value of [runtime.NumGoroutine()]. *)
Definition Snapshot (goroutines : Z) (m : Metrics) : MetricsSnapshot :=
  MkSnapshot m (i64 goroutines).
