(* ===== verification/SessionManager.v ===== *)
(** * [internal/relay/session.go], part 2: the session manager

    Sessions are objects shared by reference: the manager's map, the router's
    goroutines and the reaper's candidate list all hold pointers to them.
    [m_heap] is the store of session objects, [m_sessions] the manager's map
    from identifiers to pointers, [m_index] the map from players to session
    identifiers.  Every method runs under the manager's mutex. *)

From S2P Require Import Prelude GoLib Metrics Session.

Definition MaxTotalSessions : Z := 15000.
Definition MaxTotalPlayers : Z := 50000.

(** A [*Session]. *)
Abbreviation loc := nat.

Record Manager := MkManager {
  m_heap : gmap loc Session;
  m_next : loc;
  m_sessions : gmap string loc;
  m_index : gmap Z string;
  m_metrics : Metrics;
}.

Definition NewSessionManager (metrics : Metrics) : Manager := MkManager ∅ O ∅ ∅ metrics.

Inductive MgrErr :=
| SessionExists
| SessionCapacity
| SessionNotFound
| PlayerCapacity
| PlayerNotInSession
| MgrSession (e : SessionErr).

(** Dereference a session pointer. *)
Definition deref (l : loc) (m : Manager) : Session :=
  default (NewSession "" 0 0) (m_heap m !! l).
Definition set_session (l : loc) (s : Session) (m : Manager) : Manager :=
  MkManager (<[l := s]> (m_heap m)) (m_next m) (m_sessions m) (m_index m) (m_metrics m).
Definition with_metrics (f : Metrics -> Metrics) (m : Manager) : Manager :=
  MkManager (m_heap m) (m_next m) (m_sessions m) (m_index m) (f (m_metrics m)).
Definition with_index (f : gmap Z string -> gmap Z string) (m : Manager) : Manager :=
  MkManager (m_heap m) (m_next m) (m_sessions m) (f (m_index m)) (m_metrics m).
Definition with_sessions (f : gmap string loc -> gmap string loc) (m : Manager) : Manager :=
  MkManager (m_heap m) (m_next m) (f (m_sessions m)) (m_index m) (m_metrics m).
(** Allocate a session object. *)
Definition alloc (s : Session) (m : Manager) : loc * Manager :=
  (m_next m,
   MkManager (<[m_next m := s]> (m_heap m)) (S (m_next m)) (m_sessions m) (m_index m)
     (m_metrics m)).

Definition CreateSession (id : string) (maxPlayers now : Z) (m : Manager)
    : Manager * result MgrErr loc :=
  match m_sessions m !! id with
  | Some _ => (m, Err SessionExists)
  | None =>
      if MaxTotalSessions <=? Z.of_nat (size (m_sessions m)) then (m, Err SessionCapacity)
      else
        let '(l, m) := alloc (NewSession id maxPlayers now) m in
        let m := with_sessions (fun t => <[id := l]> t) m in
        let m := with_metrics (add_sessions 1) m in
        (m, Ok l)
  end.

Definition GetSession (id : string) (m : Manager) : option loc := m_sessions m !! id.

Definition delete_all (ids : list Z) (idx : gmap Z string) : gmap Z string :=
  foldl (fun t pid => delete pid t) idx ids.

Definition DeleteSession (ρ : Shuffle) (id : string) (m : Manager) : Manager * option MgrErr :=
  match m_sessions m !! id with
  | None => (m, Some SessionNotFound)
  | Some l =>
      let playerIDs := PlayerIDs ρ (deref l m) in
      let m := with_index (delete_all playerIDs) m in
      let m := with_metrics (add_players (- len playerIDs)) m in
      let m := with_sessions (delete id) m in
      let m := with_metrics (add_sessions (-1)) m in
      (m, None)
  end.

(** The block of [AddPlayerToSession] for a player that is registered
    somewhere; [true] when the method returns from inside it. *)
Definition leaveOld (sessionID : string) (l : loc) (playerID : Z) (m : Manager)
    : Manager * bool :=
  match m_index m !! playerID with
  | None => (m, false)
  | Some existing =>
      if bool_decide (existing = sessionID) then
        (set_session l (ResetPlayerTransport playerID (deref l m)) m, true)
      else
        let m := match m_sessions m !! existing with
                 | Some lo => set_session lo (RemovePlayer playerID (deref lo m)).1 m
                 | None => m
                 end in
        let m := with_index (delete playerID) m in
        (with_metrics (add_players (-1)) m, false)
  end.

Definition AddPlayerToSession (sessionID : string) (playerID : Z) (login : string)
    (m : Manager) : Manager * option MgrErr :=
  match m_sessions m !! sessionID with
  | None => (m, Some SessionNotFound)
  | Some l =>
      let '(m, returned) := leaveOld sessionID l playerID m in
      if returned then (m, None)
      else if MaxTotalPlayers <=? Z.of_nat (size (m_index m)) then (m, Some PlayerCapacity)
      else match AddPlayer playerID login (deref l m) with
           | Err e => (m, Some (MgrSession e))
           | Ok s =>
               let m := set_session l s m in
               let m := with_index (fun t => <[playerID := sessionID]> t) m in
               (with_metrics (add_players 1) m, None)
           end
  end.

Definition RemovePlayerFromSession (sessionID : string) (playerID : Z) (m : Manager)
    : Manager * option MgrErr :=
  match m_sessions m !! sessionID with
  | None => (m, Some SessionNotFound)
  | Some l =>
      let '(s, existed) := RemovePlayer playerID (deref l m) in
      let m := set_session l s m in
      if negb existed then (m, Some PlayerNotInSession)
      else
        let m := with_index (delete playerID) m in
        (with_metrics (add_players (-1)) m, None)
  end.

Definition FindSessionByPlayer (playerID : Z) (m : Manager) : option loc :=
  match m_index m !! playerID with
  | None => None
  | Some sessionID => m_sessions m !! sessionID
  end.

(** ** The reaper

    Phase 1 collects candidates under the read lock, phase 2 applies the
    removals under the write lock.  Between the two, other methods may run. *)

Record reapCandidate := MkCandidate {
  c_sessionID : string; c_session : loc; c_stalePIDs : list Z }.

(** Phase 1.  [clk l] is the clock value [StalePlayers] reads for the session
    at [l]. *)
Definition reapPhase1 (ρ : Shuffle) (now : Z) (clk : loc -> Z) (m : Manager)
    : list reapCandidate :=
  omap (fun '(sid, l) =>
          let s := deref l m in
          let stalePIDs := StalePlayers ρ PlayerTimeout (clk l) s in
          let isEmpty := (PlayerCount s =? 0) &&
                         (SessionEmptyTimeout <? Time.Sub now (CreatedAt s)) in
          if (0 <? len stalePIDs) || isEmpty then Some (MkCandidate sid l stalePIDs) else None)
    (ρ _ (map_to_list (m_sessions m))).

(** What phase 2 threads: the manager, the removal counts and the TCP
    connections it closes. *)
Record ReapState := MkReap {
  r_mgr : Manager; removedPlayers : Z; removedSessions : Z; r_closed : list Conn }.

(** The body of the inner loop; [clk l pid] is the clock value
    [RemovePlayerIfStale] reads. *)
Definition reapPlayer (clk : loc -> Z -> Z) (l : loc) (st : ReapState) (pid : Z) : ReapState :=
  let m := r_mgr st in
  let '(s, (removed, tcpConn)) := RemovePlayerIfStale pid PlayerTimeout (clk l pid) (deref l m) in
  let m := set_session l s m in
  if removed then
    let m := with_index (delete pid) m in
    let m := with_metrics (add_players (-1)) m in
    MkReap m (removedPlayers st + 1) (removedSessions st)
      (match tcpConn with Some c => r_closed st ++ [c] | None => r_closed st end)
  else MkReap m (removedPlayers st) (removedSessions st) (r_closed st).

(** The body of the outer loop. *)
Definition reapOne (now : Z) (clk : loc -> Z -> Z) (st : ReapState) (c : reapCandidate)
    : ReapState :=
  let st := foldl (reapPlayer clk (c_session c)) st (c_stalePIDs c) in
  let s := deref (c_session c) (r_mgr st) in
  if (PlayerCount s =? 0) && (SessionEmptyTimeout <? Time.Sub now (CreatedAt s)) then
    let m := with_sessions (delete (c_sessionID c)) (r_mgr st) in
    let m := with_metrics (add_sessions (-1)) m in
    MkReap m (removedPlayers st) (removedSessions st + 1) (r_closed st)
  else st.

Definition reapPhase2 (now : Z) (clk : loc -> Z -> Z) (cs : list reapCandidate) (m : Manager)
    : ReapState :=
  foldl (reapOne now clk) (MkReap m 0 0 []) cs.

(** The whole call when nothing runs between the phases. *)
Definition ReapStaleSessions (ρ : Shuffle) (now1 : Z) (clk1 : loc -> Z) (now2 : Z)
    (clk2 : loc -> Z -> Z) (m : Manager) : ReapState :=
  let cs := reapPhase1 ρ now1 clk1 m in
  if len cs =? 0 then MkReap m 0 0 []
  else reapPhase2 now2 clk2 cs m.

(** ** Updates by the packet path, through a session pointer *)

Definition udpUpdate (l : loc) (playerID : Z) (addr : AddrPort) (now : Z) (m : Manager)
    : Manager * PacketVerdict :=
  let '(s, v) := UpdatePlayerAddr playerID addr now (deref l m) in (set_session l s m, v).

Definition tcpUpdate (l : loc) (playerID : Z) (conn : Conn) (now : Z) (m : Manager)
    : Manager * (PacketVerdict * option Conn) :=
  let '(s, v) := UpdatePlayerTCP playerID conn now (deref l m) in (set_session l s m, v).

(** ** Invariant *)

(** The session registered under [sid]. *)
Definition registered (m : Manager) (sid : string) (l : loc) (s : Session) : Prop :=
  m_sessions m !! sid = Some l /\ m_heap m !! l = Some s.

Record mgr_ok (m : Manager) : Prop := {
  (** pointers are fresh above [m_next] *)
  inv_fresh : forall l, is_Some (m_heap m !! l) -> (l < m_next m)%nat;
  (** every registered pointer is allocated and carries its own identifier *)
  inv_reg : forall sid l, m_sessions m !! sid = Some l ->
              exists s, m_heap m !! l = Some s /\ s_ID s = sid;
  (** every session object is well formed *)
  inv_heap : map_Forall (fun _ s => session_ok s) (m_heap m);
  (** the index says exactly who is in which registered session *)
  inv_index : forall pid sid, m_index m !! pid = Some sid <->
                exists l s, registered m sid l s /\ pid ∈ dom (players s);
  (** the gauges count the maps *)
  inv_sessions : ActiveSessions (m_metrics m) = Z.of_nat (size (m_sessions m));
  inv_players : ActivePlayers (m_metrics m) = Z.of_nat (size (m_index m));
  (** the global limits hold *)
  inv_max_sessions : Z.of_nat (size (m_sessions m)) <= MaxTotalSessions;
  inv_max_players : Z.of_nat (size (m_index m)) <= MaxTotalPlayers;
}.

Lemma deref_lookup l m s : m_heap m !! l = Some s -> deref l m = s.
Proof. unfold deref. by intros ->. Qed.

Lemma registered_inj m sid sid' l s s' :
  mgr_ok m -> registered m sid l s -> registered m sid' l s' -> sid = sid'.
Proof.
  intros Hm [H1 H2] [H1' H2'].
  destruct (inv_reg m Hm _ _ H1) as (? & ? & <-).
  destruct (inv_reg m Hm _ _ H1') as (? & ? & <-). congruence.
Qed.

Lemma registered_fun m sid l s l' s' :
  registered m sid l s -> registered m sid l' s' -> l = l' /\ s = s'.
Proof. intros [H1 H2] [H1' H2']. split; congruence. Qed.

(** A player is in one registered session at most. *)
Lemma player_unique m sid sid' l l' s s' pid :
  mgr_ok m -> registered m sid l s -> registered m sid' l' s' ->
  pid ∈ dom (players s) -> pid ∈ dom (players s') -> sid = sid'.
Proof.
  intros Hm H H' Hp Hp'.
  assert (m_index m !! pid = Some sid) by (apply (inv_index m Hm); eauto).
  assert (m_index m !! pid = Some sid') by (apply (inv_index m Hm); eauto). congruence.
Qed.

(** Registration after one session object has changed. *)
Lemma registered_set m l s0 s' :
  m_heap m !! l = Some s0 ->
  forall sid' l' s, registered (set_session l s' m) sid' l' s <->
    m_sessions m !! sid' = Some l' /\
    (l' = l /\ s = s' \/ l' <> l /\ m_heap m !! l' = Some s).
Proof.
  intros Hl sid' l' s. unfold registered. simpl. rewrite lookup_insert.
  case_decide; naive_solver.
Qed.

(** Changing a session object without changing who is in it. *)
Lemma mgr_ok_set l s s' m :
  mgr_ok m -> m_heap m !! l = Some s -> session_ok s' ->
  s_ID s' = s_ID s -> dom (players s') = dom (players s) -> mgr_ok (set_session l s' m).
Proof.
  intros [Hf Hr Hh Hi Hs Hp Hms Hmp] Hl Hok Hid Hd. split; simpl; try done.
  - intros l'. rewrite lookup_insert_is_Some'. intros [<-|?]; eauto.
  - intros sid l' H. destruct (Hr _ _ H) as (s0 & H0 & <-). rewrite lookup_insert.
    case_decide; [|by eauto]. subst. exists s'. split; [done|]. congruence.
  - by apply map_Forall_insert_2.
  - intros pid sid. rewrite Hi. split.
    + intros (l' & s1 & [H1 H2] & Hin). destruct (decide (l' = l)) as [->|Hne].
      * exists l, s'. unfold registered; simpl. rewrite lookup_insert_eq.
        split; [done|]. rewrite Hd. congruence.
      * exists l', s1. unfold registered; simpl. by rewrite lookup_insert_ne.
    + intros (l' & s1 & [H1 H2] & Hin). simpl in *. rewrite lookup_insert in H2.
      case_decide; simplify_eq; [|by exists l', s1].
      exists l', s. split; [done|]. by rewrite <- Hd.
Qed.

(** Taking a player out of the session it is registered in. *)
Definition evict (l : loc) (pid : Z) (m : Manager) : Manager :=
  with_metrics (add_players (-1))
    (with_index (delete pid)
       (set_session l (set_players (delete pid) (deref l m)) m)).

Lemma gauge_small n : 0 <= n <= MaxTotalPlayers -> i64 n = n.
Proof. intros [??]. apply i64_small. unfold MaxTotalPlayers in *. lia. Qed.

Lemma mgr_ok_evict sid l s pid m :
  mgr_ok m -> registered m sid l s -> pid ∈ dom (players s) -> mgr_ok (evict l pid m).
Proof.
  intros Hm Hreg Hin. pose proof Hreg as [Hs Hl]. pose proof Hm as [Hf Hr Hh Hi Has Hap Hms Hmp].
  assert (Hidx : m_index m !! pid = Some sid) by (apply Hi; eauto).
  assert (Hsz : size (m_index m) = S (size (delete pid (m_index m)))).
  { rewrite map_size_delete_Some by eauto.
    assert (size (m_index m) <> 0%nat); [|lia]. intros E%map_size_empty_inv.
    by rewrite E, lookup_empty in Hidx. }
  unfold evict. rewrite (deref_lookup l m s) by done. split; simpl; try done.
  - intros l'. rewrite lookup_insert_is_Some'. intros [<-|?]; eauto.
  - intros sid' l' H. destruct (Hr _ _ H) as (s0 & H0 & <-). rewrite lookup_insert.
    case_decide; [|by eauto]. subst. eexists. split; [done|]. simpl. congruence.
  - apply map_Forall_insert_2; [|done]. by apply session_ok_delete, (Hh l).
  - intros pid' sid'. rewrite lookup_delete. case_decide as Hpid.
    + subst pid'. split; [done|]. intros (l' & s' & H & Hin').
      apply (registered_set m l s) in H as [H1 [[-> ->]|[Hne H2]]]; [|..|done].
      * simpl in Hin'. rewrite dom_delete_L in Hin'. set_solver.
      * destruct (player_unique m sid sid' l l' s s' pid) as []; try done.
        exfalso. apply Hne. congruence.
    + rewrite Hi. split.
      * intros (l' & s' & [H1 H2] & Hin'). destruct (decide (l' = l)) as [->|Hne].
        -- exists l, (set_players (delete pid) s). split.
           ++ apply (registered_set m l s); [done|]. auto.
           ++ simpl. rewrite dom_delete_L. simplify_eq. set_solver.
        -- exists l', s'. split; [|done]. apply (registered_set m l s); [done|]. auto.
      * intros (l' & s' & H & Hin').
        apply (registered_set m l s) in H as [H1 [[-> ->]|[Hne H2]]]; [|..|done].
        -- exists l, s. split; [done|]. simpl in Hin'. rewrite dom_delete_L in Hin'. set_solver.
        -- exists l', s'. done.
  - rewrite Hap, Hsz. rewrite gauge_small; lia.
  - lia.
Qed.

(** Adding a player that is registered nowhere. *)
Lemma mgr_ok_enroll sid l s s' pid login m :
  mgr_ok m -> registered m sid l s -> m_index m !! pid = None ->
  AddPlayer pid login s = Ok s' -> Z.of_nat (size (m_index m)) < MaxTotalPlayers ->
  mgr_ok (with_metrics (add_players 1)
            (with_index (fun t => <[pid := sid]> t) (set_session l s' m))).
Proof.
  intros Hm Hreg Hidx Hadd Hcap. pose proof Hreg as [Hs Hl].
  pose proof Hm as [Hf Hr Hh Hi Has Hap Hms Hmp].
  assert (Hs' : session_ok s') by (eapply session_ok_add; [by apply (Hh l)|done]).
  assert (Hshape : s_ID s' = s_ID s /\ dom (players s') = {[pid]} ∪ dom (players s)).
  { unfold AddPlayer in Hadd. repeat split_guard_in Hadd. split; [done|]. by rewrite dom_insert_L. }
  destruct Hshape as [Hid Hd]. split; simpl; try done.
  - intros l'. rewrite lookup_insert_is_Some'. intros [<-|?]; eauto.
  - intros sid' l' H. destruct (Hr _ _ H) as (s0 & H0 & <-). rewrite lookup_insert.
    case_decide; [|by eauto]. subst. exists s'. split; [done|]. congruence.
  - by apply map_Forall_insert_2.
  - intros pid' sid'. rewrite lookup_insert. case_decide as Hpid.
    + subst pid'. split.
      * intros [= <-]. exists l, s'. split; [apply (registered_set m l s); [done|]; auto|].
        rewrite Hd. set_solver.
      * intros (l' & s1 & H & Hin').
        apply (registered_set m l s) in H as [H1 [[-> ->]|[Hne H2]]]; [|..|done].
        -- f_equal. eapply (registered_inj m sid sid' l); done.
        -- exfalso. assert (m_index m !! pid = Some sid') by (apply Hi; by exists l', s1).
           congruence.
    + rewrite Hi. split.
      * intros (l' & s1 & [H1 H2] & Hin'). destruct (decide (l' = l)) as [->|Hne].
        -- exists l, s'. split; [apply (registered_set m l s); [done|]; auto|].
           rewrite Hd. simplify_eq. set_solver.
        -- exists l', s1. split; [|done]. apply (registered_set m l s); [done|]. auto.
      * intros (l' & s1 & H & Hin').
        apply (registered_set m l s) in H as [H1 [[-> ->]|[Hne H2]]]; [|..|done].
        -- exists l, s. split; [done|]. rewrite Hd in Hin'. set_solver.
        -- exists l', s1. done.
  - rewrite Hap, map_size_insert_None by done. rewrite gauge_small; lia.
  - rewrite map_size_insert_None by done. lia.
Qed.

(** ** Every method preserves the invariant *)

Lemma mgr_ok_new : mgr_ok (NewSessionManager zero_metrics).
Proof.
  split; simpl; try done.
  - intros l [? H]. by rewrite lookup_empty in H.
  - intros pid sid. split; [by rewrite lookup_empty|].
    intros (l & s & [H _] & _). simpl in H. by rewrite lookup_empty in H.
Qed.

Lemma mgr_ok_CreateSession id n now m : mgr_ok m -> mgr_ok (CreateSession id n now m).1.
Proof.
  intros Hm. pose proof Hm as [Hf Hr Hh Hi Has Hap Hms Hmp].
  unfold CreateSession. destruct (m_sessions m !! id) eqn:E; [done|].
  destruct (Z.leb_spec MaxTotalSessions (Z.of_nat (size (m_sessions m)))); [done|]. simpl.
  assert (Hnew : m_heap m !! m_next m = None).
  { destruct (m_heap m !! m_next m) eqn:E'; [|done].
    exfalso. assert (m_next m < m_next m)%nat; [by apply Hf|lia]. }
  assert (Hne : forall sid l, m_sessions m !! sid = Some l -> l <> m_next m).
  { intros sid l H1 ->. destruct (Hr _ _ H1) as (? & ? & _). congruence. }
  split; simpl; try done.
  - intros l. rewrite lookup_insert_is_Some'. intros [<-|Hl]; [lia|]. apply Hf in Hl. lia.
  - intros sid l. rewrite lookup_insert. case_decide as Hd.
    + intros [= <-]. subst. rewrite lookup_insert_eq. by eexists.
    + intros H1. rewrite lookup_insert_ne by (symmetry; eauto). eauto.
  - apply map_Forall_insert_2; [|done]. apply session_ok_new.
  - intros pid sid. rewrite Hi. unfold registered; simpl. split.
    + intros (l & s & [H1 H2] & Hin). exists l, s.
      rewrite !lookup_insert_ne; [done|by symmetry; eauto|congruence].
    + intros (l & s & [H1 H2] & Hin). rewrite lookup_insert in H1. case_decide.
      * simplify_eq. rewrite lookup_insert_eq in H2. simplify_eq. simpl in Hin. set_solver.
      * rewrite lookup_insert_ne in H2 by (symmetry; eauto). by exists l, s.
  - rewrite Has, map_size_insert_None by done. unfold MaxTotalSessions in *.
    rewrite i64_small; lia.
  - rewrite map_size_insert_None by done. lia.
Qed.

Lemma lookup_delete_all ids idx k :
  delete_all ids idx !! k = if decide (k ∈ ids) then None else idx !! k.
Proof.
  revert idx; induction ids as [|i ids IH]; intros idx.
  - by rewrite decide_False by set_solver.
  - cbn [delete_all foldl]. fold (delete_all ids (delete i idx)). rewrite IH.
    destruct (decide (k ∈ ids)).
    + by rewrite decide_True by set_solver.
    + destruct (decide (k = i)) as [->|].
      * by rewrite lookup_delete_eq, decide_True by set_solver.
      * by rewrite lookup_delete_ne, decide_False by set_solver.
Qed.

Lemma size_delete_all ids idx :
  NoDup ids -> (forall i, i ∈ ids -> is_Some (idx !! i)) ->
  Z.of_nat (size (delete_all ids idx)) = Z.of_nat (size idx) - len ids.
Proof.
  revert idx; induction ids as [|i ids IH]; intros idx Hnd Hin; simpl; [lia|].
  apply NoDup_cons in Hnd as [Hni Hnd]. rewrite IH; [|done|].
  - assert (Hi : is_Some (idx !! i)) by (apply Hin; set_solver).
    rewrite map_size_delete_Some by done.
    assert (size idx <> 0%nat); [|lia]. intros E%map_size_empty_inv.
    destruct Hi as [? Hi]. by rewrite E, lookup_empty in Hi.
  - intros j Hj. rewrite lookup_delete_ne by congruence. apply Hin. set_solver.
Qed.

Lemma PlayerIDs_NoDup ρ s : NoDup (PlayerIDs ρ s).
Proof.
  unfold PlayerIDs. rewrite (shuf_perm ρ _ (map_to_list (players s))).
  apply NoDup_fst_map_to_list.
Qed.

(** Unregistering a session together with the index entries of its players. *)
Lemma mgr_ok_unregister sid l s ids m :
  mgr_ok m -> registered m sid l s -> NoDup ids ->
  (forall i, i ∈ ids <-> i ∈ dom (players s)) ->
  mgr_ok (with_metrics (add_sessions (-1)) (with_sessions (delete sid)
    (with_metrics (add_players (- len ids)) (with_index (delete_all ids) m)))).
Proof.
  intros Hm Hreg Hnd Hids. pose proof Hreg as [Hs Hl].
  pose proof Hm as [Hf Hr Hh Hi Has Hap Hms Hmp].
  assert (Hsz : Z.of_nat (size (delete_all ids (m_index m))) =
                Z.of_nat (size (m_index m)) - len ids).
  { apply size_delete_all; [done|]. intros i Hin%Hids. exists sid. apply Hi. eauto. }
  assert (Hsz' : size (m_sessions m) = S (size (delete sid (m_sessions m)))).
  { rewrite map_size_delete_Some by eauto.
    assert (size (m_sessions m) <> 0%nat); [|lia]. intros E%map_size_empty_inv.
    by rewrite E, lookup_empty in Hs. }
  split; simpl; try done.
  - intros sid' l' H. apply lookup_delete_Some in H as [_ H]. eauto.
  - intros pid sid'. rewrite lookup_delete_all. case_decide as Hpid.
    + split; [done|]. intros (l' & s' & [H1 H2] & Hin'). simpl in H1.
      apply lookup_delete_Some in H1 as [Hne H1].
      destruct (Hne (player_unique m sid sid' l l' s s' pid Hm Hreg (conj H1 H2)
                       (proj1 (Hids _) Hpid) Hin')).
    + rewrite Hi. split.
      * intros (l' & s' & [H1 H2] & Hin'). exists l', s'. split; [|done].
        split; [|done]. apply lookup_delete_Some. split; [|done].
        intros <-. apply Hpid, Hids. congruence.
      * intros (l' & s' & [H1 H2] & Hin'). simpl in H1.
        apply lookup_delete_Some in H1 as [_ H1].
        by exists l', s'.
  - rewrite Has, Hsz'. unfold MaxTotalSessions in *. rewrite i64_small; lia.
  - rewrite Hap, Hsz. apply gauge_small. lia.
  - lia.
  - lia.
Qed.

Lemma registered_lookup m sid l :
  mgr_ok m -> m_sessions m !! sid = Some l -> registered m sid l (deref l m).
Proof.
  intros Hm H. destruct (inv_reg m Hm _ _ H) as (s & Hs & _).
  unfold deref. rewrite Hs. done.
Qed.

Lemma mgr_ok_DeleteSession ρ id m : mgr_ok m -> mgr_ok (DeleteSession ρ id m).1.
Proof.
  intros Hm. unfold DeleteSession. destruct (m_sessions m !! id) as [l|] eqn:E; [|done].
  simpl. eapply mgr_ok_unregister; [done|by apply registered_lookup|apply PlayerIDs_NoDup|].
  intros. apply elem_of_PlayerIDs.
Qed.

(** [leaveOld] either only touches the session in place, or leaves the player
    registered nowhere. *)
Lemma leaveOld_ok sid l pid m :
  mgr_ok m -> m_sessions m !! sid = Some l ->
  mgr_ok (leaveOld sid l pid m).1 /\
  m_sessions (leaveOld sid l pid m).1 = m_sessions m /\
  ((leaveOld sid l pid m).2 = false -> m_index (leaveOld sid l pid m).1 = delete pid (m_index m)).
Proof.
  intros Hm Hs. unfold leaveOld. destruct (m_index m !! pid) as [old|] eqn:E.
  2: { simpl. by rewrite delete_id. }
  destruct (bool_decide_reflect (old = sid)) as [->|Hne].
  - simpl. split; [|done]. apply registered_lookup in Hs as [Hs Hl]; [|done].
    eapply mgr_ok_set; [done|done| | |].
    + apply session_ok_reset. by apply (inv_heap m Hm l).
    + unfold ResetPlayerTransport. by destruct (players _ !! pid).
    + unfold ResetPlayerTransport. destruct (players _ !! pid) eqn:E'; [|done].
      by apply dom_insert_lookup_L.
  - pose proof E as (lo & so & Hreg & Hin)%(inv_index m Hm). pose proof Hreg as [Hlo Hso].
    rewrite Hlo. simpl. split; [|done]. by apply (mgr_ok_evict old lo so pid m).
Qed.

Lemma mgr_ok_AddPlayerToSession sid pid login m :
  mgr_ok m -> mgr_ok (AddPlayerToSession sid pid login m).1.
Proof.
  intros Hm. unfold AddPlayerToSession. destruct (m_sessions m !! sid) as [l|] eqn:E; [|done].
  destruct (leaveOld_ok sid l pid m Hm E) as (Hok & Hsess & Hidx).
  destruct (leaveOld sid l pid m) as [m' returned]. simpl in *.
  destruct returned; [done|]. specialize (Hidx eq_refl).
  destruct (Z.leb_spec MaxTotalPlayers (Z.of_nat (size (m_index m')))); [done|].
  destruct (AddPlayer pid login (deref l m')) as [s'|e] eqn:Ea; [|done].
  apply (mgr_ok_enroll sid l (deref l m') s' pid login); try done.
  - apply registered_lookup; [done|]. congruence.
  - by rewrite Hidx, lookup_delete_eq.
Qed.

Lemma set_session_same l m s : m_heap m !! l = Some s -> set_session l s m = m.
Proof. intros H. unfold set_session. rewrite insert_id by done. by destruct m. Qed.

Lemma set_players_delete_absent pid s :
  players s !! pid = None -> set_players (delete pid) s = s.
Proof. intros H. unfold set_players. rewrite delete_id by done. by destruct s. Qed.

Lemma mgr_ok_RemovePlayerFromSession sid pid m :
  mgr_ok m -> mgr_ok (RemovePlayerFromSession sid pid m).1.
Proof.
  intros Hm. unfold RemovePlayerFromSession, RemovePlayer.
  destruct (m_sessions m !! sid) as [l|] eqn:E; [|done].
  apply registered_lookup in E; [|done].
  destruct (players (deref l m) !! pid) eqn:Ep; simpl.
  - eapply (mgr_ok_evict sid l _ pid m); [done..|]. apply elem_of_dom. by eexists.
  - rewrite set_players_delete_absent by done. rewrite set_session_same by apply E. done.
Qed.

Lemma mgr_ok_udpUpdate l pid addr now m :
  mgr_ok m -> is_Some (m_heap m !! l) -> mgr_ok (udpUpdate l pid addr now m).1.
Proof.
  intros Hm [s Hs]. unfold udpUpdate. rewrite (deref_lookup l m s) by done.
  pose proof (session_ok_udp pid addr now s (inv_heap m Hm l s Hs)) as Hok.
  pose proof (UpdatePlayerAddr_dom pid addr now s) as Hd.
  assert (Hid : s_ID (UpdatePlayerAddr pid addr now s).1 = s_ID s).
  { unfold UpdatePlayerAddr. by repeat split_guard. }
  destruct (UpdatePlayerAddr pid addr now s) as [s' v]. by apply (mgr_ok_set l s s').
Qed.

Lemma mgr_ok_tcpUpdate l pid conn now m :
  mgr_ok m -> is_Some (m_heap m !! l) -> mgr_ok (tcpUpdate l pid conn now m).1.
Proof.
  intros Hm [s Hs]. unfold tcpUpdate. rewrite (deref_lookup l m s) by done.
  pose proof (session_ok_tcp pid conn now s (inv_heap m Hm l s Hs)) as Hok.
  pose proof (UpdatePlayerTCP_dom pid conn now s) as Hd.
  assert (Hid : s_ID (UpdatePlayerTCP pid conn now s).1 = s_ID s).
  { unfold UpdatePlayerTCP. by repeat split_guard. }
  destruct (UpdatePlayerTCP pid conn now s) as [s' v]. by apply (mgr_ok_set l s s').
Qed.

(** A reap candidate whose session is still the one registered. *)
Definition cand_ok (m : Manager) (c : reapCandidate) : Prop :=
  m_sessions m !! c_sessionID c = Some (c_session c).

Lemma reapPlayer_ok clk sid l st pid :
  mgr_ok (r_mgr st) -> m_sessions (r_mgr st) !! sid = Some l ->
  mgr_ok (r_mgr (reapPlayer clk l st pid)) /\
  m_sessions (r_mgr (reapPlayer clk l st pid)) = m_sessions (r_mgr st).
Proof.
  intros Hm Hs. apply registered_lookup in Hs; [|done]. unfold reapPlayer, RemovePlayerIfStale.
  destruct (players (deref l (r_mgr st)) !! pid) as [p|] eqn:Ep.
  2: { simpl. rewrite set_session_same by apply Hs. done. }
  destruct (is_stale _ p _ _); simpl.
  - split; [|done]. eapply (mgr_ok_evict sid l _ pid); [done..|]. apply elem_of_dom. by eexists.
  - rewrite set_session_same by apply Hs. done.
Qed.

Lemma reapPlayers_ok clk sid l pids st :
  mgr_ok (r_mgr st) -> m_sessions (r_mgr st) !! sid = Some l ->
  mgr_ok (r_mgr (foldl (reapPlayer clk l) st pids)) /\
  m_sessions (r_mgr (foldl (reapPlayer clk l) st pids)) = m_sessions (r_mgr st).
Proof.
  revert st; induction pids as [|pid pids IH]; intros st Hm Hs; [done|]. simpl.
  destruct (reapPlayer_ok clk sid l st pid Hm Hs) as [Hm' Hs'].
  destruct (IH (reapPlayer clk l st pid)) as [H1 H2]; [done|congruence|].
  split; [done|congruence].
Qed.

Lemma reapOne_ok now clk st c :
  mgr_ok (r_mgr st) -> cand_ok (r_mgr st) c ->
  mgr_ok (r_mgr (reapOne now clk st c)) /\
  forall sid l, sid <> c_sessionID c -> m_sessions (r_mgr st) !! sid = Some l ->
    m_sessions (r_mgr (reapOne now clk st c)) !! sid = Some l.
Proof.
  intros Hm Hc. unfold reapOne.
  destruct (reapPlayers_ok clk _ _ (c_stalePIDs c) st Hm Hc) as [Hm' Hs'].
  destruct (foldl _ st _) as [m' np ns cl]. simpl in *.
  destruct (_ && _) eqn:G; simpl; [|by rewrite Hs']. bool_facts.
  unfold cand_ok in Hc. rewrite <- Hs' in Hc |- *. apply registered_lookup in Hc; [|done].
  split; [|intros; by rewrite lookup_delete_ne by congruence].
  pose proof (mgr_ok_unregister _ _ _ [] m' Hm' Hc (NoDup_nil_2)) as Hu.
  assert (Hd : dom (players (deref (c_session c) m')) = ∅).
  { apply dom_empty_iff_L, map_size_empty_inv. unfold PlayerCount in *. lia. }
  replace (with_metrics (add_players (- len [])) (with_index (delete_all []) m')) with m' in Hu.
  - apply Hu. intros. rewrite Hd. set_solver.
  - unfold with_metrics, with_index, add_players; simpl. destruct m' as [h n se ix mt]; simpl.
    f_equal. destruct mt; simpl. f_equal. rewrite Z.add_0_r. symmetry.
    pose proof (inv_players _ Hm') as Hp. pose proof (inv_max_players _ Hm') as Hq.
    simpl in *. subst. apply gauge_small. lia.
Qed.

Lemma reapPhase2_ok now clk cs m :
  mgr_ok m -> Forall (cand_ok m) cs -> NoDup (c_sessionID <$> cs) ->
  mgr_ok (r_mgr (reapPhase2 now clk cs m)).
Proof.
  unfold reapPhase2. intros Hm. change m with (r_mgr (MkReap m 0 0 [])) in Hm |- * at 1.
  generalize (MkReap m 0 0 []) as st, Hm. clear Hm.
  induction cs as [|c cs IH]; intros st Hm Hall Hnd; [done|]. simpl.
  apply Forall_cons in Hall as [Hc Hall]. apply NoDup_cons in Hnd as [Hni Hnd].
  destruct (reapOne_ok now clk st c Hm Hc) as [Hm' Hs'].
  apply IH; [done| |done]. apply Forall_forall. intros c' Hin.
  apply Hs'; [|by eapply Forall_forall in Hall].
  intros E. apply Hni. rewrite <- E. by apply list_elem_of_fmap_2.
Qed.

Lemma reapPhase1_ok ρ now clk m :
  Forall (cand_ok m) (reapPhase1 ρ now clk m) /\
  NoDup (c_sessionID <$> reapPhase1 ρ now clk m).
Proof.
  unfold reapPhase1. split.
  - apply Forall_forall. intros c ([sid l] & Hin & H)%list_elem_of_omap.
    rewrite shuf_elem_of, elem_of_map_to_list in Hin. split_guard_in H. done.
  - assert (Hnd : NoDup (fst <$> ρ _ (map_to_list (m_sessions m)))).
    { rewrite (shuf_perm ρ _ (map_to_list (m_sessions m))). apply NoDup_fst_map_to_list. }
    revert Hnd. generalize (ρ _ (map_to_list (m_sessions m))) as t.
    induction t as [|[sid l] t IH]; simpl; [constructor|].
    intros [Hni Hnd]%NoDup_cons. specialize (IH Hnd).
    destruct (_ || _); [|done]. simpl. apply NoDup_cons. split; [|done].
    intros (c & -> & ([sid' l'] & Hin & H)%list_elem_of_omap)%list_elem_of_fmap.
    split_guard_in H. apply Hni, list_elem_of_fmap. by exists (sid', l').
Qed.

Lemma mgr_ok_ReapStaleSessions ρ now1 clk1 now2 clk2 m :
  mgr_ok m -> mgr_ok (r_mgr (ReapStaleSessions ρ now1 clk1 now2 clk2 m)).
Proof.
  intros Hm. unfold ReapStaleSessions. destruct (_ =? 0); [done|].
  destruct (reapPhase1_ok ρ now1 clk1 m). by apply reapPhase2_ok.
Qed.

#[export] Hint Resolve mgr_ok_new mgr_ok_CreateSession mgr_ok_DeleteSession
  mgr_ok_AddPlayerToSession mgr_ok_RemovePlayerFromSession mgr_ok_udpUpdate
  mgr_ok_tcpUpdate mgr_ok_ReapStaleSessions : relay.

(** ** Theorems *)

(** One call of a method of the manager that runs to completion. *)
Inductive mgr_call :=
| CallCreate (id : string) (maxPlayers now : Z)
| CallDelete (ρ : Shuffle) (id : string)
| CallJoin (id : string) (pid : Z) (login : string)
| CallLeave (id : string) (pid : Z).

Definition errOf {A} (r : result MgrErr A) : option MgrErr :=
  match r with Ok _ => None | Err e => Some e end.

Definition run_call (c : mgr_call) (m : Manager) : Manager * option MgrErr :=
  match c with
  | CallCreate id n now => let '(m', r) := CreateSession id n now m in (m', errOf r)
  | CallDelete ρ id => DeleteSession ρ id m
  | CallJoin id pid login => AddPlayerToSession id pid login m
  | CallLeave id pid => RemovePlayerFromSession id pid m
  end.
