(* ===== verification/ManagerSpec.v ===== *)
(** * The contract of the session manager

    [ManagerSpec] states what the manager of [internal/relay/session.go]
    promises to its callers without sessions objects, pointers or counters: a
    set of sessions with their capacities and a partial map that says where
    each player is.  The concrete methods refine it.  The second half models
    the reaper running concurrently with the other methods. *)

From S2P Require Import Prelude GoLib Metrics Session SessionManager.

(** ** Abstract state *)

Record AState := MkA {
  a_sessions : gmap string Z;
  a_where : gmap Z string;
}.

Definition a_members (sid : string) (w : gmap Z string) : gmap Z string :=
  filter (fun '(_, s) => s = sid) w.

Definition spec_create (id : string) (maxPlayers : Z) (a : AState) : AState * option MgrErr :=
  match a_sessions a !! id with
  | Some _ => (a, Some SessionExists)
  | None =>
      if MaxTotalSessions <=? Z.of_nat (size (a_sessions a)) then (a, Some SessionCapacity)
      else (MkA (<[id := maxPlayers]> (a_sessions a)) (a_where a), None)
  end.

Definition spec_delete (id : string) (a : AState) : AState * option MgrErr :=
  match a_sessions a !! id with
  | None => (a, Some SessionNotFound)
  | Some _ => (MkA (delete id (a_sessions a)) (filter (fun '(_, s) => s <> id) (a_where a)), None)
  end.

Definition spec_join (id : string) (pid : Z) (a : AState) : AState * option MgrErr :=
  match a_sessions a !! id with
  | None => (a, Some SessionNotFound)
  | Some maxPlayers =>
      if bool_decide (a_where a !! pid = Some id) then (a, None)
      else
        let w := delete pid (a_where a) in
        if MaxTotalPlayers <=? Z.of_nat (size w)
        then (MkA (a_sessions a) w, Some PlayerCapacity)
        else if maxPlayers <=? Z.of_nat (size (a_members id w))
        then (MkA (a_sessions a) w, Some (MgrSession SessionFull))
        else (MkA (a_sessions a) (<[pid := id]> w), None)
  end.

Definition spec_leave (id : string) (pid : Z) (a : AState) : AState * option MgrErr :=
  match a_sessions a !! id with
  | None => (a, Some SessionNotFound)
  | Some _ =>
      if bool_decide (a_where a !! pid = Some id)
      then (MkA (a_sessions a) (delete pid (a_where a)), None)
      else (a, Some PlayerNotInSession)
  end.

Definition spec_call (c : mgr_call) (a : AState) : AState * option MgrErr :=
  match c with
  | CallCreate id n _ => spec_create id n a
  | CallDelete _ id => spec_delete id a
  | CallJoin id pid _ => spec_join id pid a
  | CallLeave id pid => spec_leave id pid a
  end.

(** The abstract state of a manager. *)
Definition abs (m : Manager) : AState :=
  MkA ((fun l => MaxPlayers (deref l m)) <$> m_sessions m) (m_index m).

(** ** Refinement *)

Lemma abs_lookup m sid :
  a_sessions (abs m) !! sid = (fun l => MaxPlayers (deref l m)) <$> (m_sessions m !! sid).
Proof. simpl. apply lookup_fmap. Qed.

(** The index entries that name a session are its players. *)
Lemma members_dom m sid l s :
  mgr_ok m -> registered m sid l s -> dom (a_members sid (m_index m)) = dom (players s).
Proof.
  intros Hm Hreg. apply set_eq. intros pid. unfold a_members. rewrite elem_of_dom.
  transitivity (m_index m !! pid = Some sid).
  - split.
    + intros [sid' H]. apply map_lookup_filter_Some in H as [H ->]. done.
    + intros H. exists sid. by apply map_lookup_filter_Some.
  - rewrite (inv_index m Hm). split; [|eauto].
    intros (l' & s' & Hreg' & Hin). destruct (registered_fun _ _ _ _ _ _ Hreg Hreg') as [-> ->].
    done.
Qed.

Lemma members_size m sid l s :
  mgr_ok m -> registered m sid l s ->
  Z.of_nat (size (a_members sid (m_index m))) = PlayerCount s.
Proof.
  intros Hm Hreg. unfold PlayerCount. f_equal. rewrite <- !size_dom. f_equal.
  by apply (members_dom m sid l s).
Qed.

Lemma in_session_iff m sid l pid :
  mgr_ok m -> m_sessions m !! sid = Some l ->
  m_index m !! pid = Some sid <-> is_Some (players (deref l m) !! pid).
Proof.
  intros Hm Hs. apply registered_lookup in Hs; [|done]. rewrite (inv_index m Hm), <- elem_of_dom.
  split; [|eauto]. intros (l' & s' & Hreg' & Hin).
  destruct (registered_fun _ _ _ _ _ _ Hs Hreg') as [_ ->]. done.
Qed.

(** Changing a session object does not show in the abstraction when its
    capacity is kept. *)
Lemma abs_sessions_set m l s :
  MaxPlayers s = MaxPlayers (deref l m) ->
  a_sessions (abs (set_session l s m)) = a_sessions (abs m).
Proof.
  intros H. simpl. apply map_fmap_ext. intros sid l' _. unfold deref; simpl.
  rewrite lookup_insert. case_decide as E; [|done]. subst. simpl. rewrite H. done.
Qed.

Lemma refine_create id n now m :
  mgr_ok m ->
  let '(m', r) := run_call (CallCreate id n now) m in
  spec_call (CallCreate id n now) (abs m) = (abs m', r).
Proof.
  intros Hm. simpl. unfold CreateSession, spec_create. rewrite abs_lookup.
  destruct (m_sessions m !! id) eqn:E; simpl; [done|]. rewrite map_size_fmap.
  destruct (_ <=? _); simpl; [done|]. unfold abs; simpl. do 2 f_equal.
  rewrite fmap_insert. unfold deref at 2; simpl. rewrite lookup_insert_eq. simpl.
  f_equal. apply map_fmap_ext. intros sid l H. unfold deref; simpl.
  rewrite lookup_insert_ne; [done|]. destruct (inv_reg m Hm _ _ H) as (s & Hs & _).
  assert (l < m_next m)%nat by by apply (inv_fresh m Hm). lia.
Qed.

Lemma refine_delete ρ id m :
  mgr_ok m ->
  let '(m', r) := run_call (CallDelete ρ id) m in
  spec_call (CallDelete ρ id) (abs m) = (abs m', r).
Proof.
  intros Hm. simpl. unfold DeleteSession, spec_delete. rewrite abs_lookup.
  destruct (m_sessions m !! id) as [l|] eqn:E; simpl; [|done]. unfold abs; simpl. do 2 f_equal.
  - by rewrite fmap_delete.
  - apply map_eq. intros pid. rewrite lookup_delete_all.
    pose proof (in_session_iff m id l pid Hm E) as Hin.
    rewrite <- elem_of_dom, <- (elem_of_PlayerIDs ρ) in Hin.
    case_decide as Hp.
    + apply map_lookup_filter_None_2. right. intros s Hs. apply Hin in Hp.
      simplify_eq. tauto.
    + destruct (m_index m !! pid) as [sid|] eqn:Ei.
      * apply map_lookup_filter_Some_2; [done|]. intros ->. tauto.
      * apply map_lookup_filter_None_2. by left.
Qed.

Lemma refine_leave id pid m :
  mgr_ok m ->
  let '(m', r) := run_call (CallLeave id pid) m in
  spec_call (CallLeave id pid) (abs m) = (abs m', r).
Proof.
  intros Hm. simpl. unfold RemovePlayerFromSession, spec_leave, RemovePlayer. rewrite abs_lookup.
  destruct (m_sessions m !! id) as [l|] eqn:E; simpl; [|done].
  pose proof (in_session_iff m id l pid Hm E) as Hin.
  pose proof (abs_sessions_set m l (set_players (delete pid) (deref l m)) eq_refl) as Hs.
  destruct (players (deref l m) !! pid) eqn:Ep; simpl in *.
  - rewrite bool_decide_eq_true_2 by (apply Hin; by eexists). unfold abs; simpl.
    do 2 f_equal. symmetry. exact Hs.
  - rewrite bool_decide_eq_false_2; [|intros [? H]%Hin; done]. unfold abs; simpl.
    do 2 f_equal. symmetry. exact Hs.
Qed.

(** What [leaveOld] does to the abstract state. *)
Lemma leaveOld_abs id l pid m :
  mgr_ok m -> m_sessions m !! id = Some l ->
  (leaveOld id l pid m).2 = bool_decide (m_index m !! pid = Some id) /\
  abs (leaveOld id l pid m).1 =
    MkA (a_sessions (abs m))
      (if bool_decide (m_index m !! pid = Some id) then m_index m else delete pid (m_index m)).
Proof.
  intros Hm Hs. unfold leaveOld. destruct (m_index m !! pid) as [old|] eqn:E.
  2: { simpl. by rewrite delete_id. }
  destruct (bool_decide_reflect (old = id)) as [->|Hne].
  - rewrite bool_decide_eq_true_2 by done. simpl. split; [done|].
    unfold abs; simpl. f_equal. apply (abs_sessions_set m l).
    unfold ResetPlayerTransport. by destruct (players _ !! pid).
  - rewrite bool_decide_eq_false_2 by congruence.
    pose proof E as (lo & so & [Hlo Hso] & Hin)%(inv_index m Hm).
    rewrite Hlo. simpl. split; [done|].
    unfold abs; simpl. f_equal. by apply (abs_sessions_set m lo).
Qed.

Lemma refine_join id pid login m :
  mgr_ok m ->
  let '(m', r) := run_call (CallJoin id pid login) m in
  spec_call (CallJoin id pid login) (abs m) = (abs m', r).
Proof.
  intros Hm. simpl. unfold AddPlayerToSession, spec_join. rewrite abs_lookup.
  destruct (m_sessions m !! id) as [l|] eqn:E; simpl; [|done].
  destruct (leaveOld_abs id l pid m Hm E) as [Hret Habs].
  destruct (leaveOld_ok id l pid m Hm E) as (Hm' & Hsess & _).
  destruct (leaveOld id l pid m) as [m' returned]. simpl in Hret, Habs, Hm', Hsess. subst returned.
  destruct (bool_decide_reflect (m_index m !! pid = Some id)) as [Hin|Hout]; [by rewrite Habs|].
  apply (f_equal a_where) in Habs as Hw. simpl in Hw. rewrite <- Hw.
  destruct (_ <=? _); [by rewrite Habs, <- Hw|].
  assert (Hs' : m_sessions m' !! id = Some l) by congruence.
  pose proof (registered_lookup m' id l Hm' Hs') as Hreg.
  rewrite (members_size m' id l (deref l m')) by done.
  assert (Hmax : MaxPlayers (deref l m) = MaxPlayers (deref l m')).
  { apply (f_equal a_sessions), (f_equal (lookup id)) in Habs.
    rewrite abs_lookup, Hs' in Habs. simpl in Habs. rewrite lookup_fmap, E in Habs. by simplify_eq/=. }
  unfold AddPlayer. destruct (players (deref l m') !! pid) eqn:Ep.
  { exfalso. assert (H : is_Some (players (deref l m') !! pid)) by by eexists.
    apply (in_session_iff m' id l pid Hm' Hs') in H. by rewrite Hw, lookup_delete_eq in H. }
  rewrite Hmax. unfold PlayerCount. destruct (_ <=? _); [by rewrite Habs, <- Hw|].
  apply (f_equal a_sessions) in Habs. simpl in Habs. rewrite <- Habs.
  unfold abs; simpl. do 2 f_equal. symmetry.
  exact (abs_sessions_set m' l (put_player pid (new_player pid login) (deref l m')) eq_refl).
Qed.

Lemma refine_call c m :
  mgr_ok m -> let '(m', r) := run_call c m in spec_call c (abs m) = (abs m', r).
Proof.
  destruct c; [apply refine_create|apply refine_delete|apply refine_join|apply refine_leave].
Qed.

Lemma mgr_ok_call c m : mgr_ok m -> mgr_ok (run_call c m).1.
Proof.
  destruct c; simpl; auto with relay. intros Hm.
  pose proof (mgr_ok_CreateSession id maxPlayers now m Hm).
  by destruct (CreateSession id maxPlayers now m).
Qed.
#[export] Hint Resolve mgr_ok_call : relay.

Lemma refine_answer c m :
  mgr_ok m -> spec_call c (abs m) = (abs (run_call c m).1, (run_call c m).2).
Proof. intros Hm. pose proof (refine_call c m Hm). by destruct (run_call c m). Qed.

(** ** The interface

    What the manager promises to the HTTP layer: calls on some state, each
    answered as the abstract specification answers it.  The HTTP layer's
    theorems about sessions are proved against this class. *)
Class SessionService (M : Type) := {
  svc_call : mgr_call -> M -> M * option MgrErr;
  svc_abs : M -> AState;
  svc_ok : M -> Prop;
  svc_keeps : forall c m, svc_ok m -> svc_ok (svc_call c m).1;
  svc_refines : forall c m, svc_ok m ->
    spec_call c (svc_abs m) = (svc_abs (svc_call c m).1, (svc_call c m).2);
}.

#[export] Instance manager_service : SessionService Manager := {
  svc_call := run_call;
  svc_abs := abs;
  svc_ok := mgr_ok;
  svc_keeps := mgr_ok_call;
  svc_refines := refine_answer;
}.

(** A sequence of calls and the answers it gets. *)
Fixpoint run_calls (cs : list mgr_call) (m : Manager) : Manager * list (option MgrErr) :=
  match cs with
  | [] => (m, [])
  | c :: cs' =>
      let '(m1, r) := run_call c m in
      let '(m2, rs) := run_calls cs' m1 in (m2, r :: rs)
  end.

Fixpoint spec_calls (cs : list mgr_call) (a : AState) : AState * list (option MgrErr) :=
  match cs with
  | [] => (a, [])
  | c :: cs' =>
      let '(a1, r) := spec_call c a in
      let '(a2, rs) := spec_calls cs' a1 in (a2, r :: rs)
  end.

Lemma refine_calls cs m :
  mgr_ok m -> mgr_ok (run_calls cs m).1 /\
  spec_calls cs (abs m) = (abs (run_calls cs m).1, (run_calls cs m).2).
Proof.
  revert m; induction cs as [|c cs IH]; intros m Hm; simpl; [done|].
  pose proof (mgr_ok_call c m Hm) as Hm1. pose proof (refine_call c m Hm) as Hr.
  destruct (run_call c m) as [m1 r]. simpl in Hm1. rewrite Hr.
  destruct (IH m1 Hm1) as [Hm2 H2]. rewrite H2. by destruct (run_calls cs m1).
Qed.

(** ** What one uninterrupted run of the reaper does *)

(** A session without the players that are stale at [now]. *)
Definition prune (now : Z) (s : Session) : Session :=
  set_players (filter (fun '(_, p) => is_stale s p now PlayerTimeout = false)) s.

(** Players of a session after the reaper's inner loop over [pids]. *)
Definition prune_list (now : Z) (pids : list Z) (s : Session) : Session :=
  set_players (filter (fun '(id, p) => ~ (id ∈ pids /\ is_stale s p now PlayerTimeout = true))) s.

Lemma session_ext s s' :
  s_ID s = s_ID s' -> MaxPlayers s = MaxPlayers s' -> CreatedAt s = CreatedAt s' ->
  (forall k x, players s !! k = Some x <-> players s' !! k = Some x) -> s = s'.
Proof.
  destruct s, s'; simpl. intros -> -> -> H. f_equal. apply map_eq. intros k.
  apply option_eq. intros x. apply H.
Qed.

Lemma lookup_prune_list now pids s k x :
  players (prune_list now pids s) !! k = Some x <->
  players s !! k = Some x /\ ~ (k ∈ pids /\ is_stale s x now PlayerTimeout = true).
Proof. unfold prune_list; simpl. apply map_lookup_filter_Some. Qed.

Lemma prune_list_cons now pid pids s :
  prune_list now pids (RemovePlayerIfStale pid PlayerTimeout now s).1 =
  prune_list now (pid :: pids) s.
Proof.
  unfold RemovePlayerIfStale.
  destruct (players s !! pid) as [p|] eqn:E; [destruct (is_stale s p now PlayerTimeout) eqn:Es|];
    cbn [fst negb]; (apply session_ext; [done..|]); intros k x;
    rewrite !lookup_prune_list, elem_of_cons.
  - change (is_stale (set_players _ s)) with (is_stale s). simpl. rewrite lookup_delete_Some.
    destruct (decide (k = pid)) as [->|]; naive_solver congruence.
  - destruct (decide (k = pid)) as [->|]; naive_solver congruence.
  - destruct (decide (k = pid)) as [->|]; naive_solver congruence.
Qed.

Lemma reapPlayers_heap now clk l pids st :
  (forall l pid, clk l pid = now) -> is_Some (m_heap (r_mgr st) !! l) ->
  m_heap (r_mgr (foldl (reapPlayer clk l) st pids)) =
    <[l := prune_list now pids (deref l (r_mgr st))]> (m_heap (r_mgr st)).
Proof.
  intros Hclk. revert st; induction pids as [|pid pids IH]; intros st [s Hs]; simpl.
  - rewrite insert_id; [done|]. rewrite (deref_lookup _ _ s) by done. rewrite Hs. f_equal.
    destruct s as [i mx c ps]. unfold prune_list, set_players; simpl. f_equal.
    symmetry. apply map_filter_id. intros k x _ [H _]. by apply elem_of_nil in H.
  - assert (Hstep : m_heap (r_mgr (reapPlayer clk l st pid)) =
      <[l := (RemovePlayerIfStale pid PlayerTimeout now (deref l (r_mgr st))).1]>
        (m_heap (r_mgr st))).
    { unfold reapPlayer. rewrite Hclk. by destruct (RemovePlayerIfStale _ _ _ _) as [s' [[] c]]. }
    rewrite IH; [|rewrite Hstep, lookup_insert_eq; by eexists]. rewrite Hstep.
    rewrite insert_insert_eq. f_equal. unfold deref at 1. rewrite Hstep, lookup_insert_eq.
    simpl. apply prune_list_cons.
Qed.

Lemma prune_list_stale ρ now s :
  prune_list now (StalePlayers ρ PlayerTimeout now s) s = prune now s.
Proof.
  unfold prune_list, prune, set_players. f_equal. apply map_filter_ext. intros id p Hp.
  rewrite elem_of_stale. split.
  - intros H. destruct (is_stale s p now PlayerTimeout) eqn:E; [|done].
    exfalso. apply H. split; [|done]. by exists p.
  - intros H [_ H']. congruence.
Qed.

(** The test at the end of the reaper's outer loop. *)
Definition empty_and_old (now : Z) (s : Session) : bool :=
  (PlayerCount s =? 0) && (SessionEmptyTimeout <? Time.Sub now (CreatedAt s)).

Lemma reapOne_heap ρ now clk st c s :
  (forall l pid, clk l pid = now) -> m_heap (r_mgr st) !! c_session c = Some s ->
  c_stalePIDs c = StalePlayers ρ PlayerTimeout now s ->
  mgr_ok (r_mgr st) -> cand_ok (r_mgr st) c ->
  m_heap (r_mgr (reapOne now clk st c)) = <[c_session c := prune now s]> (m_heap (r_mgr st)) /\
  m_sessions (r_mgr (reapOne now clk st c)) =
    (if empty_and_old now (prune now s) then delete (c_sessionID c) (m_sessions (r_mgr st))
     else m_sessions (r_mgr st)).
Proof.
  intros Hclk Hs Hp Hm Hc. unfold reapOne.
  pose proof (reapPlayers_heap now clk (c_session c) (c_stalePIDs c) st Hclk) as Hh.
  destruct (reapPlayers_ok clk _ _ (c_stalePIDs c) st Hm Hc) as [_ Hsess].
  rewrite (deref_lookup _ _ s Hs), Hp, (prune_list_stale ρ) in Hh.
  rewrite Hp in Hsess |- *.
  destruct (foldl _ st _) as [m' np ns cl]. simpl in *. specialize (Hh (mk_is_Some _ _ Hs)).
  assert (Hd : deref (c_session c) m' = prune now s).
  { unfold deref. by rewrite Hh, lookup_insert_eq. }
  rewrite Hd. fold (empty_and_old now (prune now s)). unfold empty_and_old.
  destruct (_ && _); simpl; by rewrite ?Hsess.
Qed.

(** What the reaper leaves of one registered session. *)
Definition reaped (now : Z) (m m' : Manager) (sid : string) (l : loc) (s : Session) : Prop :=
  m_heap m' !! l = Some (prune now s) /\
  m_sessions m' !! sid = (if empty_and_old now (prune now s) then None else Some l).

Lemma reapPhase2_others now clk cs st l :
  (forall l pid, clk l pid = now) -> l ∉ c_session <$> cs ->
  Forall (fun c => is_Some (m_heap (r_mgr st) !! c_session c)) cs ->
  m_heap (r_mgr (foldl (reapOne now clk) st cs)) !! l = m_heap (r_mgr st) !! l.
Proof.
  intros Hclk. revert st; induction cs as [|c cs IH]; intros st Hl Hall; simpl; [done|].
  apply Forall_cons in Hall as [Hc Hall]. rewrite fmap_cons, not_elem_of_cons in Hl.
  assert (Hh : m_heap (r_mgr (reapOne now clk st c)) =
    <[c_session c := prune_list now (c_stalePIDs c) (deref (c_session c) (r_mgr st))]>
      (m_heap (r_mgr st))).
  { unfold reapOne. pose proof (reapPlayers_heap now clk _ (c_stalePIDs c) st Hclk Hc) as H.
    by destruct (_ && _). }
  rewrite IH; [| |].
  - rewrite Hh. apply lookup_insert_ne. naive_solver.
  - naive_solver.
  - eapply Forall_impl; [done|]. intros c' Hc'. rewrite Hh. by apply lookup_insert_is_Some'; right.
Qed.

Lemma reapPhase2_sessions_others now clk cs st sid :
  sid ∉ c_sessionID <$> cs -> mgr_ok (r_mgr st) -> Forall (cand_ok (r_mgr st)) cs ->
  NoDup (c_sessionID <$> cs) ->
  m_sessions (r_mgr (foldl (reapOne now clk) st cs)) !! sid = m_sessions (r_mgr st) !! sid.
Proof.
  revert st; induction cs as [|c cs IH]; intros st Hl Hm Hall Hnd; simpl; [done|].
  apply Forall_cons in Hall as [Hc Hall]. rewrite fmap_cons, not_elem_of_cons in Hl.
  apply NoDup_cons in Hnd as [Hni Hnd].
  destruct (reapOne_ok now clk st c Hm Hc) as [Hm' Hs'].
  assert (Hh : forall k, k <> c_sessionID c ->
    m_sessions (r_mgr (reapOne now clk st c)) !! k = m_sessions (r_mgr st) !! k).
  { intros k Hk. unfold reapOne. destruct (reapPlayers_ok clk _ _ (c_stalePIDs c) st Hm Hc) as [_ H].
    destruct (_ && _); simpl; rewrite H; [|done]. by rewrite lookup_delete_ne. }
  rewrite IH; [apply Hh; naive_solver|naive_solver|done| |done].
  apply Forall_forall. intros c' Hin. unfold cand_ok. rewrite Hh.
  - by eapply Forall_forall in Hall.
  - intros E. apply Hni. rewrite <- E. by apply list_elem_of_fmap_2.
Qed.

(** A candidate that still describes its session. *)
Definition cand_exact (ρ : Shuffle) (now : Z) (m : Manager) (c : reapCandidate) : Prop :=
  exists s, registered m (c_sessionID c) (c_session c) s /\
    c_stalePIDs c = StalePlayers ρ PlayerTimeout now s.

Lemma cand_locs_distinct m c cs :
  mgr_ok m -> cand_ok m c -> Forall (cand_ok m) cs -> c_sessionID c ∉ c_sessionID <$> cs ->
  c_session c ∉ c_session <$> cs.
Proof.
  intros Hm Hc Hall Hni (c' & E & Hin)%list_elem_of_fmap. apply Hni.
  apply list_elem_of_fmap. exists c'. split; [|done].
  eapply Forall_forall in Hall; [|done]. unfold cand_ok in Hc, Hall. rewrite E in Hc.
  eapply (registered_inj m _ _ (c_session c')); [done|by apply registered_lookup..].
Qed.

Lemma reapPhase2_reaped ρ now clk cs st :
  (forall l pid, clk l pid = now) -> mgr_ok (r_mgr st) ->
  Forall (cand_exact ρ now (r_mgr st)) cs -> NoDup (c_sessionID <$> cs) ->
  forall c s, c ∈ cs -> m_heap (r_mgr st) !! c_session c = Some s ->
  reaped now (r_mgr st) (r_mgr (foldl (reapOne now clk) st cs)) (c_sessionID c) (c_session c) s.
Proof.
  intros Hclk. revert st; induction cs as [|c0 cs IH]; intros st Hm Hall Hnd c s Hin Hs.
  { by apply elem_of_nil in Hin. }
  assert (Hok : Forall (cand_ok (r_mgr st)) (c0 :: cs)).
  { eapply Forall_impl; [done|]. by intros ? (? & [] & _). }
  apply Forall_cons in Hall as [(s0 & [Hr0 Hs0] & Hp0) Hall].
  apply Forall_cons in Hok as [Hc0 Hok]. apply NoDup_cons in Hnd as [Hni Hnd].
  destruct (reapOne_heap ρ now clk st c0 s0) as [Hh Hse]; [done..|].
  destruct (reapOne_ok now clk st c0 Hm Hc0) as [Hm1 Hkeep].
  pose proof (cand_locs_distinct _ _ _ Hm Hc0 Hok Hni) as Hld.
  assert (Hok1 : Forall (cand_ok (r_mgr (reapOne now clk st c0))) cs).
  { apply Forall_forall. intros c' Hin'. apply Hkeep; [|by eapply Forall_forall in Hok].
    intros E. apply Hni. rewrite <- E. by apply list_elem_of_fmap_2. }
  assert (Hheap : forall c', c' ∈ cs ->
    m_heap (r_mgr (reapOne now clk st c0)) !! c_session c' = m_heap (r_mgr st) !! c_session c').
  { intros c' Hin'. rewrite Hh. apply lookup_insert_ne. intros E. apply Hld. rewrite E.
    by apply list_elem_of_fmap_2. }
  simpl. apply elem_of_cons in Hin as [->|Hin].
  - replace s with s0 by congruence. split.
    + rewrite reapPhase2_others by (done || (eapply Forall_impl; [done|]; intros c' H;
        apply registered_lookup in H as [_ H]; [by eexists|done])).
      by rewrite Hh, lookup_insert_eq.
    + rewrite reapPhase2_sessions_others by done. rewrite Hse.
      destruct (empty_and_old _ _); [apply lookup_delete_eq|done].
  - apply IH; [done| |done|done|by rewrite Hheap].
    apply Forall_forall. intros c' Hin'.
    pose proof (proj1 (Forall_forall _ _) Hall c' Hin') as (s' & [_ Hs'] & Hp').
    exists s'. split; [|done]. split; [|by rewrite Hheap].
    by apply (proj1 (Forall_forall _ _) Hok1).
Qed.

Lemma stale_nil_prune ρ now s : StalePlayers ρ PlayerTimeout now s = [] -> prune now s = s.
Proof.
  intros H. rewrite <- (prune_list_stale ρ), H. apply session_ext; [done..|].
  intros k x. rewrite lookup_prune_list. split; [tauto|]. intros ?. split; [done|].
  intros [Hk _]. by apply elem_of_nil in Hk.
Qed.

(** A registered session that phase 1 does not select has nothing to reap. *)
Lemma not_selected ρ now m sid l s :
  registered m sid l s -> l ∉ c_session <$> reapPhase1 ρ now (fun _ => now) m ->
  prune now s = s /\ empty_and_old now s = false.
Proof.
  intros [Hse Hs] Hno.
  destruct (orb (0 <? len (StalePlayers ρ PlayerTimeout now s)) (empty_and_old now s)) eqn:G.
  - exfalso. apply Hno, list_elem_of_fmap.
    exists (MkCandidate sid l (StalePlayers ρ PlayerTimeout now s)). split; [done|].
    apply list_elem_of_omap. exists (sid, l). rewrite shuf_elem_of, elem_of_map_to_list.
    rewrite (deref_lookup l m s) by done. unfold empty_and_old in G. cbv zeta. by rewrite G.
  - bool_facts. split; [|done]. apply (stale_nil_prune ρ), nil_length_inv. lia.
Qed.

Lemma reapPhase1_exact ρ now m :
  mgr_ok m -> Forall (cand_exact ρ now m) (reapPhase1 ρ now (fun _ => now) m).
Proof.
  intros Hm. apply Forall_forall. intros c ([sid' l'] & Hin & H)%list_elem_of_omap.
  rewrite shuf_elem_of, elem_of_map_to_list in Hin. cbv zeta in H. split_guard_in H.
  exists (deref l' m). split; [by apply registered_lookup|done].
Qed.

Lemma reap_exact ρ now m sid l s :
  mgr_ok m -> registered m sid l s ->
  reaped now m (r_mgr (ReapStaleSessions ρ now (fun _ => now) now (fun _ _ => now) m)) sid l s.
Proof.
  intros Hm Hreg. pose proof Hreg as [Hse Hs]. unfold ReapStaleSessions.
  pose proof (reapPhase1_exact ρ now m Hm) as Hall.
  pose proof (not_selected ρ now m sid l s Hreg) as Hskip.
  destruct (reapPhase1_ok ρ now (fun _ => now) m) as [Hok Hnd].
  set (cs := reapPhase1 ρ now (fun _ => now) m) in *.
  destruct (decide (l ∈ c_session <$> cs)) as [(c & -> & Hin)%list_elem_of_fmap|Hno].
  - destruct (Z.eqb_spec (len cs) 0) as [E|_]; [by destruct cs; [apply elem_of_nil in Hin|]|].
    pose proof (proj1 (Forall_forall _ _) Hall c Hin) as (s' & [Hr' Hs'] & _).
    replace sid with (c_sessionID c)
      by (eapply (registered_inj m _ _ (c_session c)); [done|by split|done]).
    by apply (reapPhase2_reaped ρ now (fun _ _ => now) cs (MkReap m 0 0 [])).
  - destruct (Hskip Hno) as [Hp He]. unfold reaped. rewrite Hp, He.
    destruct (_ =? 0); [done|]. unfold reapPhase2. split.
    + rewrite reapPhase2_others; [done|done|done|].
      eapply Forall_impl; [exact Hall|]. intros c (s' & [_ H] & _). by eexists.
    + rewrite reapPhase2_sessions_others; [done| |done|done|done].
      intros (c & -> & Hin)%list_elem_of_fmap. apply Hno.
      pose proof (proj1 (Forall_forall _ _) Hok c Hin) as H. unfold cand_ok in H. simpl in *.
      apply list_elem_of_fmap. exists c. split; [congruence|done].
Qed.

(** The reaper registers nothing: a session registered afterwards was
    registered before, and holds its unstale players. *)
Lemma reapPhase2_sessions_sub now clk cs st sid l :
  m_sessions (r_mgr (foldl (reapOne now clk) st cs)) !! sid = Some l ->
  m_sessions (r_mgr st) !! sid = Some l.
Proof.
  revert st; induction cs as [|c cs IH]; intros st H; [done|]. simpl in H. apply IH in H.
  assert (Hf : forall pids st0,
    m_sessions (r_mgr (foldl (reapPlayer clk (c_session c)) st0 pids)) = m_sessions (r_mgr st0)).
  { induction pids as [|pid pids IHp]; intros st0; simpl; [done|]. rewrite IHp. unfold reapPlayer.
    by destruct (RemovePlayerIfStale _ _ _ _) as [s' [[] c']]. }
  unfold reapOne in H. destruct (_ && _); simpl in H; rewrite Hf in H; [|done].
  by apply lookup_delete_Some in H as [_ H].
Qed.

Lemma reaped_from ρ now m sid l s' :
  mgr_ok m ->
  let m' := r_mgr (ReapStaleSessions ρ now (fun _ => now) now (fun _ _ => now) m) in
  m_sessions m' !! sid = Some l -> m_heap m' !! l = Some s' ->
  exists s, registered m sid l s /\ s' = prune now s.
Proof.
  intros Hm m' Hs Hl. assert (H : m_sessions m !! sid = Some l).
  { unfold m', ReapStaleSessions in Hs. destruct (_ =? 0); [done|].
    by apply reapPhase2_sessions_sub in Hs. }
  apply registered_lookup in H; [|done]. exists (deref l m). split; [done|].
  destruct (reap_exact ρ now m sid l _ Hm H) as [Hh _]. fold m' in Hh. congruence.
Qed.

(** ** The reaper beside the other methods

    One goroutine runs the reaper.  [rs_pending] holds its candidates between
    the two phases, where the locks are free and any other method may run.
    With [race = false] no session is deleted in that window. *)

Record RState := MkR { rs_mgr : Manager; rs_pending : option (list reapCandidate) }.

Definition is_delete (c : mgr_call) : bool :=
  match c with CallDelete _ _ => true | _ => false end.

Inductive rstep (race : bool) : RState -> RState -> Prop :=
| r_call c m pend :
    (is_delete c = true -> race = true \/ pend = None) ->
    rstep race (MkR m pend) (MkR (run_call c m).1 pend)
| r_udp l pid addr now m pend :
    is_Some (m_heap m !! l) ->
    rstep race (MkR m pend) (MkR (udpUpdate l pid addr now m).1 pend)
| r_tcp l pid conn now m pend :
    is_Some (m_heap m !! l) ->
    rstep race (MkR m pend) (MkR (tcpUpdate l pid conn now m).1 pend)
| r_scan ρ now clk m :
    rstep race (MkR m None)
      (MkR m (if len (reapPhase1 ρ now clk m) =? 0 then None
              else Some (reapPhase1 ρ now clk m)))
| r_apply now clk cs m :
    rstep race (MkR m (Some cs)) (MkR (r_mgr (reapPhase2 now clk cs m)) None).

Definition r_init : RState := MkR (NewSessionManager zero_metrics) None.

(** The candidates the reaper holds are still the registered sessions. *)
Definition pending_ok (st : RState) : Prop :=
  mgr_ok (rs_mgr st) /\
  match rs_pending st with
  | None => True
  | Some cs => Forall (cand_ok (rs_mgr st)) cs /\ NoDup (c_sessionID <$> cs)
  end.

Lemma call_keeps_sessions c m sid l :
  mgr_ok m -> is_delete c = false -> m_sessions m !! sid = Some l ->
  m_sessions (run_call c m).1 !! sid = Some l.
Proof.
  intros Hm Hd Hs. destruct c as [id n now| |id pid login|id pid]; simpl; [|done|..].
  - unfold CreateSession. destruct (m_sessions m !! id) eqn:E; [done|].
    destruct (_ <=? _); [done|]. simpl. rewrite lookup_insert_ne by congruence. done.
  - unfold AddPlayerToSession. destruct (m_sessions m !! id) as [lid|] eqn:E; [|done].
    destruct (leaveOld_ok id lid pid m Hm E) as (_ & Hk & _).
    destruct (leaveOld id lid pid m) as [m' []]; simpl in *; [by rewrite Hk|].
    destruct (_ <=? _); [by rewrite <- Hk in Hs|].
    destruct (AddPlayer _ _ _); simpl; by rewrite Hk.
  - unfold RemovePlayerFromSession. destruct (m_sessions m !! id); [|done].
    unfold RemovePlayer. by destruct (players _ !! pid).
Qed.

Lemma pending_ok_step st st' : rstep false st st' -> pending_ok st -> pending_ok st'.
Proof.
  destruct 1 as [c m pend Hd|l pid addr now m pend Hl|l pid conn now m pend Hl|ρ now clk m|now clk cs m];
    intros [Hm Hp]; unfold pending_ok; simpl in *.
  - split; [by apply mgr_ok_call|]. destruct pend as [cs|]; [|done]. destruct Hp as [Hc Hnd].
    split; [|done]. eapply Forall_impl; [exact Hc|]. intros c' Hc'.
    apply call_keeps_sessions; [done| |done].
    destruct (is_delete c); [|done]. by destruct Hd as [?|?].
  - split; [by apply mgr_ok_udpUpdate|]. unfold udpUpdate.
    by destruct (UpdatePlayerAddr _ _ _ _).
  - split; [by apply mgr_ok_tcpUpdate|]. unfold tcpUpdate.
    by destruct (UpdatePlayerTCP _ _ _ _).
  - split; [done|]. destruct (_ =? 0); [done|]. apply reapPhase1_ok.
  - split; [|done]. destruct Hp. by apply reapPhase2_ok.
Qed.

Lemma pending_ok_init : pending_ok r_init.
Proof. split; [apply mgr_ok_new|done]. Qed.

Lemma FindSessionByPlayer_iff m pid l :
  mgr_ok m -> FindSessionByPlayer pid m = Some l <->
  exists sid s, registered m sid l s /\ pid ∈ dom (players s).
Proof.
  intros Hm. unfold FindSessionByPlayer. destruct (m_index m !! pid) as [sid|] eqn:E.
  - pose proof E as (l0 & s0 & Hreg & Hin)%(inv_index m Hm). pose proof Hreg as [H1 H2].
    rewrite H1. split; [intros [= <-]; eauto|].
    intros (sid' & s' & Hreg' & Hin').
    pose proof (player_unique m _ _ _ _ _ _ pid Hm Hreg Hreg' Hin Hin') as ->.
    by destruct (registered_fun _ _ _ _ _ _ Hreg Hreg') as [-> _].
  - split; [done|]. intros (sid & s & Hreg & Hin).
    assert (m_index m !! pid = Some sid) by (apply (inv_index m Hm); eauto). congruence.
Qed.

(** ** What holds in every interleaving *)

Record mgr_weak (m : Manager) : Prop := {
  weak_sessions : forall l, session_ok (deref l m);
  weak_max_sessions : Z.of_nat (size (m_sessions m)) <= MaxTotalSessions;
  weak_max_players : Z.of_nat (size (m_index m)) <= MaxTotalPlayers;
}.

Lemma size_delete_le {K A} `{Countable K} (k : K) (t : gmap K A) :
  (size (delete k t) <= size t)%nat.
Proof. rewrite map_size_delete. destruct (t !! k); cbn; lia. Qed.

Lemma deref_set_ok l s m : session_ok s -> (forall l', session_ok (deref l' m)) ->
  forall l', session_ok (deref l' (set_session l s m)).
Proof.
  intros Hs Hm l'. unfold deref; simpl. rewrite lookup_insert. case_decide; [done|]. apply Hm.
Qed.

Lemma size_delete_all_le ids idx : (size (delete_all ids idx) <= size idx)%nat.
Proof.
  revert idx; induction ids as [|i ids IH]; intros idx; [done|].
  cbn [delete_all foldl]. fold (delete_all ids (delete i idx)).
  etransitivity; [apply IH|apply size_delete_le].
Qed.

Lemma mgr_weak_leaveOld sid l pid m : mgr_weak m -> mgr_weak (leaveOld sid l pid m).1.
Proof.
  intros [Hs Hms Hmp]. unfold leaveOld. destruct (m_index m !! pid) as [old|]; [|done].
  destruct (bool_decide _); simpl.
  - split; simpl; [|done|done]. apply deref_set_ok; auto with relay.
  - pose proof (size_delete_le pid (m_index m)).
    destruct (m_sessions m !! old) as [lo|]; split; simpl; try lia;
      (apply deref_set_ok; [apply session_ok_delete, Hs|done]) || done.
Qed.

Lemma mgr_weak_call c m : mgr_weak m -> mgr_weak (run_call c m).1.
Proof.
  intros Hm. pose proof Hm as [Hs Hms Hmp].
  destruct c as [id n now|ρ id|id pid login|id pid]; simpl.
  - unfold CreateSession. destruct (m_sessions m !! id) eqn:E; [done|].
    destruct (Z.leb_spec MaxTotalSessions (Z.of_nat (size (m_sessions m)))); [done|]. simpl.
    split; simpl; [|rewrite map_size_insert_None by done; lia|done].
    intros l'. unfold deref; simpl. rewrite lookup_insert.
    case_decide; [apply session_ok_new|apply Hs].
  - unfold DeleteSession. destruct (m_sessions m !! id); [|done]. simpl.
    pose proof (size_delete_le id (m_sessions m)).
    split; simpl; [done|lia|]. etransitivity; [|exact Hmp]. apply inj_le, size_delete_all_le.
  - unfold AddPlayerToSession. destruct (m_sessions m !! id) as [l|]; [|done].
    pose proof (mgr_weak_leaveOld id l pid m Hm) as Hl.
    destruct (leaveOld id l pid m) as [m' []]; simpl in *; [done|].
    destruct (Z.leb_spec MaxTotalPlayers (Z.of_nat (size (m_index m')))); [done|].
    destruct Hl as [Hs' Hms' Hmp'].
    destruct (AddPlayer pid login (deref l m')) as [s|] eqn:Ea; [|done]. simpl.
    split; simpl; [|done|].
    + apply (deref_set_ok l s m'); [|done]. exact (session_ok_add _ _ _ _ (Hs' l) Ea).
    + rewrite map_size_insert. destruct (m_index m' !! pid); cbn; lia.
  - unfold RemovePlayerFromSession, RemovePlayer. destruct (m_sessions m !! id) as [l|]; [|done].
    pose proof (size_delete_le pid (m_index m)).
    assert (forall l', session_ok (deref l' (set_session l (set_players (delete pid) (deref l m)) m)))
      by (apply deref_set_ok; [apply session_ok_delete, Hs|done]).
    destruct (players _ !! pid); split; simpl; try done. lia.
Qed.

Lemma mgr_weak_reapPlayer clk l st pid :
  mgr_weak (r_mgr st) -> mgr_weak (r_mgr (reapPlayer clk l st pid)).
Proof.
  intros [Hs Hms Hmp]. unfold reapPlayer.
  pose proof (session_ok_step _ _ (step_reap pid PlayerTimeout (clk l pid) (deref l (r_mgr st)))
                (Hs l)) as Hok.
  pose proof (size_delete_le pid (m_index (r_mgr st))).
  destruct (RemovePlayerIfStale _ _ _ _) as [s [[] c]]; split; simpl in *;
    try done; try lia; by apply (deref_set_ok l s (r_mgr st)).
Qed.

Lemma mgr_weak_reapOne now clk st c :
  mgr_weak (r_mgr st) -> mgr_weak (r_mgr (reapOne now clk st c)).
Proof.
  intros Hm. unfold reapOne.
  assert (Hf : mgr_weak (r_mgr (foldl (reapPlayer clk (c_session c)) st (c_stalePIDs c)))).
  { revert st Hm. induction (c_stalePIDs c) as [|pid pids IH]; intros st Hm; simpl; [done|].
    by apply IH, mgr_weak_reapPlayer. }
  destruct (_ && _); [|done]. destruct Hf as [Hs Hms Hmp]. split; simpl; [done| |done].
  etransitivity; [|exact Hms]. apply inj_le, size_delete_le.
Qed.

Lemma mgr_weak_step race st st' :
  rstep race st st' -> mgr_weak (rs_mgr st) -> mgr_weak (rs_mgr st').
Proof.
  destruct 1 as [c m pend Hd|l pid addr now m pend Hl|l pid conn now m pend Hl|ρ now clk m|now clk cs m];
    simpl; intros Hm.
  - by apply mgr_weak_call.
  - unfold udpUpdate. pose proof (session_ok_udp pid addr now _ (weak_sessions m Hm l)).
    destruct (UpdatePlayerAddr _ _ _ _). destruct Hm. split; simpl in *; [|done..].
    by apply deref_set_ok.
  - unfold tcpUpdate. pose proof (session_ok_tcp pid conn now _ (weak_sessions m Hm l)).
    destruct (UpdatePlayerTCP _ _ _ _). destruct Hm. split; simpl in *; [|done..].
    by apply deref_set_ok.
  - done.
  - unfold reapPhase2. change m with (r_mgr (MkReap m 0 0 [])) in Hm. revert Hm.
    generalize (MkReap m 0 0 []). induction cs as [|c cs IH]; intros st0 Hm; simpl; [done|].
    by apply IH, mgr_weak_reapOne.
Qed.

Lemma mgr_weak_init : mgr_weak (rs_mgr r_init).
Proof. split; [|by vm_compute..]. intros l. apply session_ok_new. Qed.

(** ** Theorems *)

(** C2. The manager implements its contract: from a fresh manager, any
    sequence of create, delete, join and leave calls gives the answers of the
    abstract specification, error codes included, and ends in a state whose
    abstraction is the specification's. *)
Theorem manager_refines_spec (cs : list mgr_call) :
  spec_calls cs (MkA ∅ ∅) =
  (abs (run_calls cs (NewSessionManager zero_metrics)).1,
   (run_calls cs (NewSessionManager zero_metrics)).2).
Proof. apply (refine_calls cs _ mgr_ok_new). Qed.

(** The manager under the reaper and the packet path.  In every state
    reached by any interleaving of calls, packet updates and reaper phases in
    which no session is deleted between the two phases, the invariant holds;
    in particular the player index finds exactly the registered session a
    player is in, and the two gauges count the registered sessions and
    players. *)
Theorem reaper_interleaving_safe (st : RState) (pid : Z) (l : loc) :
  rtc (rstep false) r_init st ->
  (FindSessionByPlayer pid (rs_mgr st) = Some l <->
   exists sid s, registered (rs_mgr st) sid l s /\ pid ∈ dom (players s)) /\
  ActiveSessions (m_metrics (rs_mgr st)) = Z.of_nat (size (m_sessions (rs_mgr st))) /\
  ActivePlayers (m_metrics (rs_mgr st)) = Z.of_nat (size (m_index (rs_mgr st))).
Proof.
  intros Hr.
  destruct (rtc_invariant _ _ pending_ok_step _ _ Hr pending_ok_init) as [Hm _].
  split; [by apply FindSessionByPlayer_iff|]. split; apply Hm.
Qed.

(** Session ["g"] with player 1, and what the reaper selects two minutes
    later. *)
Definition t_old : Z := 121 * Time.Second.
Definition demo_mgr : Manager :=
  (run_calls [CallCreate "g" 2 0; CallJoin "g" 1 "a"] (NewSessionManager zero_metrics)).1.
Definition demo_cands : list reapCandidate := [MkCandidate "g" 0%nat [1]].

Lemma demo_pending race : rtc (rstep race) r_init (MkR demo_mgr (Some demo_cands)).
Proof.
  eapply rtc_l; [by apply (r_call race (CallCreate "g" 2 0))|].
  eapply rtc_l; [by apply (r_call race (CallJoin "g" 1 "a"))|].
  eapply rtc_l; [apply (r_scan race id_shuffle t_old (fun _ => t_old))|]. apply rtc_refl.
Qed.

Lemma reaper_interleaving_safe_witness :
  (FindSessionByPlayer 1 demo_mgr = Some 0%nat <->
   exists sid s, registered demo_mgr sid 0%nat s /\ 1 ∈ dom (players s)) /\
  ActiveSessions (m_metrics demo_mgr) = Z.of_nat (size (m_sessions demo_mgr)) /\
  ActivePlayers (m_metrics demo_mgr) = Z.of_nat (size (m_index demo_mgr)).
Proof.
  exact (reaper_interleaving_safe (MkR demo_mgr (Some demo_cands)) 1 0%nat (demo_pending false)).
Defined.

(** Whatever the interleaving, deletions inside the reaper's window
    included, the global limits and every session's capacity hold. *)
Theorem limits_hold (st : RState) (l : loc) (s : Session) :
  rtc (rstep true) r_init st -> m_heap (rs_mgr st) !! l = Some s ->
  Z.of_nat (size (m_sessions (rs_mgr st))) <= MaxTotalSessions /\
  Z.of_nat (size (m_index (rs_mgr st))) <= MaxTotalPlayers /\
  PlayerCount s <= Z.max 0 (MaxPlayers s).
Proof.
  intros Hr Hl.
  assert (Hw : mgr_weak (rs_mgr st)).
  { apply (rtc_invariant _ (fun st => mgr_weak (rs_mgr st)) (mgr_weak_step true) _ _ Hr).
    apply mgr_weak_init. }
  split; [apply Hw|]. split; [apply Hw|].
  pose proof (weak_sessions _ Hw l) as Hs. rewrite (deref_lookup l _ s Hl) in Hs. apply Hs.
Qed.

Lemma limits_hold_witness :
  Z.of_nat (size (m_sessions demo_mgr)) <= MaxTotalSessions /\
  Z.of_nat (size (m_index demo_mgr)) <= MaxTotalPlayers /\
  PlayerCount (deref 0%nat demo_mgr) <= Z.max 0 (MaxPlayers (deref 0%nat demo_mgr)).
Proof.
  exact (limits_hold (MkR demo_mgr (Some demo_cands)) 0%nat (deref 0%nat demo_mgr)
           (demo_pending true) eq_refl).
Defined.

(** C36. A session deleted between the reaper's phases corrupts the manager.
    Without further calls both gauges drop below zero.  If the session is
    created anew and a player joins it successfully in that window, the reaper
    unregisters the new session and the player's index entry: the player, who
    can be found before, is found nowhere after. *)
Theorem reaper_delete_race :
  (exists st, rtc (rstep true) r_init st /\ m_sessions (rs_mgr st) = ∅ /\
     ActiveSessions (m_metrics (rs_mgr st)) = -1 /\ ActivePlayers (m_metrics (rs_mgr st)) = -1) /\
  (exists m1 m2 m3 cs,
     rtc (rstep true) r_init (MkR m1 (Some cs)) /\
     run_call (CallJoin "g" 1 "a") m1 = (m2, None) /\
     rstep true (MkR m2 (Some cs)) (MkR m3 None) /\
     FindSessionByPlayer 1 m2 = Some 1%nat /\
     FindSessionByPlayer 1 m3 = None /\ GetSession "g" m3 = None /\
     is_Some (players (deref 1%nat m3) !! 1)).
Proof.
  split.
  - eexists. split; [eapply rtc_r; [eapply rtc_r; [apply demo_pending|]|]|].
    + by apply (r_call true (CallDelete id_shuffle "g")); left.
    + apply (r_apply true t_old (fun _ _ => t_old)).
    + by vm_compute.
  - do 4 eexists. split_and!.
    + eapply rtc_r; [eapply rtc_r; [apply demo_pending|]|].
      * by apply (r_call true (CallDelete id_shuffle "g")); left.
      * by apply (r_call true (CallCreate "g" 2 t_old)).
    + by apply surjective_pairing.
    + apply (r_apply true t_old (fun _ _ => t_old)).
    + by vm_compute.
    + by vm_compute.
    + by vm_compute.
    + eexists. by vm_compute.
Qed.

(** C15. What an uninterrupted run of the reaper at time [now] does.  A
    registered session keeps exactly the players that are not stale; it stays
    registered unless it is then empty and older than [SessionEmptyTimeout].
    The player index follows: a player is found after the run exactly when its
    session held it and it was not stale. *)
Theorem reaper_exact (ρ : Shuffle) (now : Z) (m : Manager) (sid : string) (l : loc)
    (s : Session) :
  mgr_ok m -> registered m sid l s ->
  let m' := r_mgr (ReapStaleSessions ρ now (fun _ => now) now (fun _ _ => now) m) in
  reaped now m m' sid l s /\
  forall pid p, players s !! pid = Some p ->
    FindSessionByPlayer pid m' =
      if is_stale s p now PlayerTimeout then None else Some l.
Proof.
  intros Hm Hreg m'. pose proof (reap_exact ρ now m sid l s Hm Hreg) as Hx.
  split; [done|]. intros pid p Hp. fold m' in Hx. destruct Hx as [Hh Hs].
  assert (Hm' : mgr_ok m') by by apply mgr_ok_ReapStaleSessions.
  destruct (is_stale s p now PlayerTimeout) eqn:Est.
  - destruct (FindSessionByPlayer pid m') as [l'|] eqn:Hf; [|done]. exfalso.
    apply FindSessionByPlayer_iff in Hf as (sid' & s' & [Hs' Hl'] & Hin); [|done].
    destruct (reaped_from ρ now m sid' l' s' Hm Hs' Hl') as (s0 & Hreg0 & ->).
    apply elem_of_dom in Hin as [p' Hp'].
    apply map_lookup_filter_Some in Hp' as [Hp0 Hns].
    assert (sid = sid') as <-
      by (eapply (player_unique m _ _ _ _ _ _ pid); [done..| |]; apply elem_of_dom; by eexists).
    destruct (registered_fun _ _ _ _ _ _ Hreg Hreg0) as [_ <-]. congruence.
  - apply FindSessionByPlayer_iff; [done|]. exists sid, (prune now s).
    assert (Hin : players (prune now s) !! pid = Some p)
      by (apply map_lookup_filter_Some; done).
    split; [|apply elem_of_dom; by eexists]. split; [|done]. rewrite Hs.
    unfold empty_and_old. replace (PlayerCount (prune now s) =? 0) with false; [done|].
    symmetry. apply Z.eqb_neq. unfold PlayerCount. intros E.
    assert (E0 : size (players (prune now s)) = 0%nat) by lia.
    apply map_size_empty_inv in E0. by rewrite E0, lookup_empty in Hin.
Qed.

Lemma demo_mgr_ok : mgr_ok demo_mgr.
Proof. apply (refine_calls _ _ mgr_ok_new). Qed.

Lemma reaper_exact_witness :
  let m' := r_mgr (ReapStaleSessions id_shuffle t_old (fun _ => t_old) t_old
                     (fun _ _ => t_old) demo_mgr) in
  reaped t_old demo_mgr m' "g" 0%nat (deref 0%nat demo_mgr) /\
  forall pid p, players (deref 0%nat demo_mgr) !! pid = Some p ->
    FindSessionByPlayer pid m' =
      if is_stale (deref 0%nat demo_mgr) p t_old PlayerTimeout then None else Some 0%nat.
Proof.
  apply (reaper_exact id_shuffle t_old demo_mgr "g" 0%nat (deref 0%nat demo_mgr)).
  - exact demo_mgr_ok.
  - split; by vm_compute.
Defined.

(** Joining another session is not atomic.  A player that is in session
    [old] and asks for a full session [sid] gets the error and has lost its
    place in [old]: it is registered nowhere.  This is the only way a move
    between two existing sessions fails. *)
Theorem failed_move_evicts (m m' : Manager) (sid old : string) (pid : Z) (login : string)
    (e : MgrErr) :
  mgr_ok m -> m_index m !! pid = Some old -> old <> sid -> e <> SessionNotFound ->
  AddPlayerToSession sid pid login m = (m', Some e) ->
  e = MgrSession SessionFull /\ FindSessionByPlayer pid m' = None.
Proof.
  intros Hm Hi Hne He Ha.
  pose proof (refine_call (CallJoin sid pid login) m Hm) as Hr. simpl in Hr. rewrite Ha in Hr.
  unfold spec_join in Hr. destruct (a_sessions (abs m) !! sid); [|by simplify_eq].
  simpl in Hr. rewrite bool_decide_eq_false_2 in Hr by congruence.
  assert (Hsz : Z.of_nat (size (delete pid (m_index m))) < MaxTotalPlayers).
  { pose proof (inv_max_players m Hm). rewrite map_size_delete_Some by by eexists.
    assert (size (m_index m) <> 0%nat); [|lia]. intros E%map_size_empty_inv.
    by rewrite E, lookup_empty in Hi. }
  destruct (Z.leb_spec MaxTotalPlayers (Z.of_nat (size (delete pid (m_index m))))); [lia|].
  destruct (_ <=? _); [|by simplify_eq].
  apply (f_equal (fun x => (a_where x.1, x.2))) in Hr. simpl in Hr.
  injection Hr as Hw He2. split; [done|].
  unfold FindSessionByPlayer. by rewrite <- Hw, lookup_delete_eq.
Qed.

Definition demo_full : Manager :=
  (run_calls [CallCreate "g" 2 0; CallCreate "h" 1 0; CallJoin "g" 1 "a"; CallJoin "h" 2 "b"]
     (NewSessionManager zero_metrics)).1.

Lemma failed_move_evicts_witness :
  MgrSession SessionFull = MgrSession SessionFull /\
  FindSessionByPlayer 1 (AddPlayerToSession "h" 1 "a" demo_full).1 = None.
Proof.
  apply (failed_move_evicts demo_full _ "h" "g" 1 "a"); try done.
  apply (refine_calls _ _ mgr_ok_new).
Defined.
