(* ===== verification/Router.v ===== *)
(** * The packet path of the relay server

    [internal/relay/router.go] (the UDP loop and the shared routing
    functions) and [internal/relay/tcphandler.go] (the TCP fallback).  A packet
    changes the session manager and makes the server write to the network.
    The writes are recorded in order as [Out] values; whether a write succeeds
    is decided by the network, an argument of the definitions. *)

From S2P Require Import Prelude GoLib RelayWire TcpFrame Metrics Session SessionManager.

(** Success of writes, and the buffer [tcpFramePool.Get] hands out. *)
Record Net := MkNet {
  udp_ok : AddrPort -> bytes -> bool;
  tcp_ok : Conn -> bytes -> bool;
  pool_buf : bytes;
}.
Definition net_wf (net : Net) : Prop := len (pool_buf net) = Server.poolBufSize.

Definition sendToTarget (net : Net) (t : PlayerSendTarget) (data : bytes)
    : outcome (list Out * bool) :=
  match t_TCPConn t with
  | Some c =>
      fr ← Server.writeTCPFrame (pool_buf net) data;
      Ret ([SendTCP c fr], tcp_ok net c fr)
  | None =>
      if IsValid (t_UDPAddr t)
      then Ret ([SendUDP (t_UDPAddr t) data], udp_ok net (t_UDPAddr t) data)
      else Ret ([], false)
  end.

(** The counters after an attempt to send [data] to one target. *)
Definition count_send (ok : bool) (data : bytes) (m : Manager) : Manager :=
  if ok then with_metrics (fun x => add_bytes (u64 (len data)) (add_routed 1 x)) m
  else with_metrics (add_dropped 1) m.

Definition unicast (net : Net) (session : loc) (destID : Z) (data : bytes) (m : Manager)
    : outcome (Manager * list Out) :=
  let '(target, ok) := GetPlayerTarget destID (deref session m) in
  if negb ok then Ret (with_metrics (add_dropped 1) m, [])
  else
    '(outs, sent) ← sendToTarget net target data;
    Ret (count_send sent data m, outs).

(** The callback of [broadcast] over the targets in iteration order. *)
Fixpoint sendAll (net : Net) (ts : list PlayerSendTarget) (data : bytes) (m : Manager)
    : outcome (Manager * list Out) :=
  match ts with
  | [] => Ret (m, [])
  | t :: ts' =>
      '(outs, sent) ← sendToTarget net t data;
      '(m, outs') ← sendAll net ts' data (count_send sent data m);
      Ret (m, outs ++ outs')
  end.

Definition broadcast (net : Net) (ρ : Shuffle) (session : loc) (senderID : Z) (data : bytes)
    (m : Manager) : outcome (Manager * list Out) :=
  sendAll net (ForEachOtherPlayerTarget ρ senderID (deref session m)) data m.

(** The body of [Router.Run] for one datagram: [buf] is [buf[:n]]. *)
Definition udpPacket (net : Net) (ρ : Shuffle) (buf : bytes) (remoteAddr : AddrPort)
    (now : Z) (m : Manager) : outcome (Manager * list Out) :=
  if len buf <? RelayHeaderSize then Ret (with_metrics (add_dropped 1) m, [])
  else match DecodeRelayHeader buf with
  | Err _ => Ret (with_metrics (add_dropped 1) m, [])
  | Ok (senderID, destID) =>
      match FindSessionByPlayer senderID m with
      | None => Ret (with_metrics (add_dropped 1) m, [])
      | Some session =>
          let '(m, verdict) := udpUpdate session senderID remoteAddr now m in
          match verdict with
          | VerdictSpoofed => Ret (with_metrics (add_spoofed 1) m, [])
          | VerdictRateLimited => Ret (with_metrics (add_limited 1) m, [])
          | VerdictUnknown => Ret (with_metrics (add_dropped 1) m, [])
          | VerdictOK | VerdictFirstAddr =>
              if destID =? senderID then
                Ret (with_metrics (add_routed 1) m, [SendUDP remoteAddr buf])
              else if destID =? BroadcastDest then broadcast net ρ session senderID buf m
              else unicast net session destID buf m
          end
      end
  end.

(** What one call of [ReadFromUDPAddrPort] gives. *)
Inductive UdpEvent :=
| UdpData (datagram : bytes) (remote : AddrPort) (now : Z)
| UdpErr (ctxDone : bool).

Definition readBufSize : Z := 1500.

(** [Router.Run] on a sequence of reads.  A datagram longer than the read
    buffer is cut off. *)
Fixpoint Run (net : Net) (ρ : Shuffle) (evs : list UdpEvent) (m : Manager)
    : outcome (Manager * list Out) :=
  match evs with
  | [] => Ret (m, [])
  | UdpErr true :: _ => Ret (m, [])
  | UdpErr false :: evs' => Run net ρ evs' m
  | UdpData d a now :: evs' =>
      '(m, outs) ← udpPacket net ρ (take (Z.to_nat readBufSize) d) a now m;
      '(m, outs') ← Run net ρ evs' m;
      Ret (m, outs ++ outs')
  end.

(** The body of [handleConn]'s loop for one frame: [buf] is [buf[:n]].  The
    boolean says whether the loop continues. *)
Definition tcpPacket (net : Net) (ρ : Shuffle) (conn : Conn) (buf : bytes) (now : Z)
    (m : Manager) : outcome (Manager * list Out * bool) :=
  if len buf <? RelayHeaderSize then Ret (with_metrics (add_dropped 1) m, [], true)
  else match DecodeRelayHeader buf with
  | Err _ => Ret (with_metrics (add_dropped 1) m, [], true)
  | Ok (senderID, destID) =>
      match FindSessionByPlayer senderID m with
      | None => Ret (with_metrics (add_dropped 1) m, [], true)
      | Some session =>
          let '(m, (verdict, oldConn)) := tcpUpdate session senderID conn now m in
          let closed := match oldConn with
                        | Some c => if bool_decide (c = conn) then [] else [CloseTCP c]
                        | None => []
                        end in
          match verdict with
          | VerdictSpoofed => Ret (with_metrics (add_spoofed 1) m, closed, false)
          | VerdictRateLimited => Ret (with_metrics (add_limited 1) m, closed, true)
          | VerdictUnknown => Ret (with_metrics (add_dropped 1) m, closed, true)
          | VerdictOK | VerdictFirstAddr =>
              if destID =? senderID then
                fr ← Server.writeTCPFrame (pool_buf net) buf;
                if tcp_ok net conn fr
                then Ret (with_metrics (add_routed 1) m, closed ++ [SendTCP conn fr], true)
                else Ret (m, closed ++ [SendTCP conn fr], false)
              else
                '(m, outs) ← (if destID =? BroadcastDest
                              then broadcast net ρ session senderID buf m
                              else unicast net session destID buf m);
                Ret (m, closed ++ outs, true)
          end
      end
  end.

(** [handleConn] on the bytes a client sends before it closes the connection;
    [clk i] is the clock value read for frame [i].  Every frame takes at least
    three bytes, so [length stream] rounds are enough. *)
Fixpoint handleLoop (fuel : nat) (net : Net) (ρ : Shuffle) (conn : Conn) (stream : bytes)
    (clk : nat -> Z) (i : nat) (m : Manager) : outcome (Manager * list Out) :=
  match fuel with
  | O => Ret (m, [])
  | S fuel' =>
      match Server.readTCPFrame readBufSize stream with
      | Err _ => Ret (m, [])
      | Ok (buf, stream) =>
          '(m, outs, cont) ← tcpPacket net ρ conn buf (clk i) m;
          if (cont : bool) then
            '(m, outs') ← handleLoop fuel' net ρ conn stream clk (S i) m;
            Ret (m, outs ++ outs')
          else Ret (m, outs)
      end
  end.

Definition handleConn (net : Net) (ρ : Shuffle) (conn : Conn) (stream : bytes)
    (clk : nat -> Z) (m : Manager) : outcome (Manager * list Out) :=
  '(m, outs) ← handleLoop (S (length stream)) net ρ conn stream clk 0 m;
  Ret (m, outs ++ [CloseTCP conn]).

(** ** The accept loop of [TCPHandler.Run] *)

Definition maxTCPConns : Z := 1000.

Record Handler := MkHandler { activeConns : Z; h_open : list Conn; h_rejected : list Conn }.

(** A connection arrives. *)
Definition accept (conn : Conn) (h : Handler) : Handler :=
  if maxTCPConns <=? activeConns h
  then MkHandler (activeConns h) (h_open h) (conn :: h_rejected h)
  else MkHandler (i32 (activeConns h + 1)) (conn :: h_open h) (h_rejected h).

Inductive handler_step : Handler -> Handler -> Prop :=
| h_accept conn h : handler_step h (accept conn h)
| h_done conn l1 l2 h :
    h_open h = l1 ++ conn :: l2 ->
    handler_step h (MkHandler (i32 (activeConns h - 1)) (l1 ++ l2) (h_rejected h)).

(** ** Sending to one target *)

(** The write a target gets, and whether it succeeds. *)
Definition send_out (t : PlayerSendTarget) (data : bytes) : list Out :=
  match t_TCPConn t with
  | Some c => [SendTCP c (frame data)]
  | None => if IsValid (t_UDPAddr t) then [SendUDP (t_UDPAddr t) data] else []
  end.
Definition send_ok (net : Net) (t : PlayerSendTarget) (data : bytes) : bool :=
  match t_TCPConn t with
  | Some c => tcp_ok net c (frame data)
  | None => if IsValid (t_UDPAddr t) then udp_ok net (t_UDPAddr t) data else false
  end.

Lemma sendToTarget_spec net t data :
  net_wf net ->
  sendToTarget net t data =
  if bool_decide (is_Some (t_TCPConn t)) && (Server.maxTCPFramePayload <? len data)
  then Panic else Ret (send_out t data, send_ok net t data).
Proof.
  intros Hw. unfold sendToTarget, send_out, send_ok.
  destruct (t_TCPConn t) as [c|] eqn:E.
  - rewrite bool_decide_eq_true_2 by by eexists. rewrite server_write_spec by done. simpl.
    by destruct (_ <? _).
  - rewrite bool_decide_eq_false_2 by by intros [? ?]. simpl. by destruct (IsValid _).
Qed.

Definition count_all (net : Net) (ts : list PlayerSendTarget) (data : bytes) (m : Manager)
    : Manager :=
  foldl (fun m t => count_send (send_ok net t data) data m) m ts.

Definition any_tcp (ts : list PlayerSendTarget) : Prop :=
  exists t, t ∈ ts /\ is_Some (t_TCPConn t).

Lemma sendAll_Ret net ts data m m' outs :
  net_wf net -> sendAll net ts data m = Ret (m', outs) ->
  m' = count_all net ts data m /\ outs = concat ((fun t => send_out t data) <$> ts).
Proof.
  intros Hw. revert m m' outs; induction ts as [|t ts IH]; intros m m' outs; simpl; [by intros [= <- <-]|].
  rewrite sendToTarget_spec by done. destruct (_ && _); [done|]. simpl.
  destruct (sendAll net ts data _) as [[m1 o1]|] eqn:E; [|done]. simpl. intros [= <- <-].
  by apply IH in E as [-> ->].
Qed.

Lemma sendAll_Panic net ts data m :
  net_wf net -> sendAll net ts data m = Panic <->
  Server.maxTCPFramePayload < len data /\ any_tcp ts.
Proof.
  intros Hw. unfold any_tcp. revert m; induction ts as [|t ts IH]; intros m; cbn [sendAll].
  { split; [done|]. intros [_ (t & Hin & _)]. by apply elem_of_nil in Hin. }
  rewrite sendToTarget_spec by done. setoid_rewrite elem_of_cons.
  specialize (IH (count_send (send_ok net t data) data m)).
  destruct (bool_decide_reflect (is_Some (t_TCPConn t))) as [Ht|Ht];
    destruct (Z.ltb_spec Server.maxTCPFramePayload (len data)) as [Hl|Hl]; cbn [andb mbind outcome_bind].
  - naive_solver.
  - destruct (sendAll net ts data _) as [[m1 o1]|]; simpl; split; try done; [lia|].
    destruct (proj1 IH eq_refl). lia.
  - destruct (sendAll net ts data _) as [[m1 o1]|]; simpl; split; try done; [|naive_solver].
    intros [_ (t' & [->|Hin] & Ht')]; [done|]. exfalso. by assert (Ret (m1, o1) = Panic) by naive_solver.
  - destruct (sendAll net ts data _) as [[m1 o1]|]; simpl; split; try done; [lia|].
    destruct (proj1 IH eq_refl). lia.
Qed.

(** Equal up to the counters of packets and bytes. *)
Record same_sessions (m m' : Manager) : Prop := {
  same_heap : m_heap m' = m_heap m;
  same_next : m_next m' = m_next m;
  same_map : m_sessions m' = m_sessions m;
  same_index : m_index m' = m_index m;
  same_gauge_s : ActiveSessions (m_metrics m') = ActiveSessions (m_metrics m);
  same_gauge_p : ActivePlayers (m_metrics m') = ActivePlayers (m_metrics m);
}.

#[export] Instance same_sessions_refl : Reflexive same_sessions.
Proof. by split. Qed.
#[export] Instance same_sessions_trans : Transitive same_sessions.
Proof. intros x y z [] []. split; congruence. Qed.

Lemma same_dropped n m : same_sessions m (with_metrics (add_dropped n) m).
Proof. by split. Qed.
Lemma same_spoofed n m : same_sessions m (with_metrics (add_spoofed n) m).
Proof. by split. Qed.
Lemma same_limited n m : same_sessions m (with_metrics (add_limited n) m).
Proof. by split. Qed.
Lemma same_routed n m : same_sessions m (with_metrics (add_routed n) m).
Proof. by split. Qed.
Lemma same_count_send ok data m : same_sessions m (count_send ok data m).
Proof. unfold count_send. destruct ok; by split. Qed.
#[export] Hint Resolve same_dropped same_spoofed same_limited same_routed same_count_send : relay.

Lemma same_count_all net ts data m : same_sessions m (count_all net ts data m).
Proof.
  unfold count_all. revert m; induction ts as [|t ts IH]; intros m; simpl; [done|].
  etransitivity; [apply (same_count_send (send_ok net t data) data)|apply IH].
Qed.
#[export] Hint Resolve same_count_all : relay.

Lemma mgr_ok_same m m' : same_sessions m m' -> mgr_ok m -> mgr_ok m'.
Proof.
  intros [Hh Hn Hse Hix Hgs Hgp] [Hf Hr Hhp Hi Has Hap Hms Hmp].
  split; unfold registered in *; rewrite ?Hh, ?Hn, ?Hse, ?Hix, ?Hgs, ?Hgp; done.
Qed.

Lemma same_deref m m' l : same_sessions m m' -> deref l m' = deref l m.
Proof. intros H. unfold deref. by rewrite (same_heap _ _ H). Qed.

(** ** Routing one packet *)

(** Who a packet from [sender] to [dest] is for. *)
Definition receiver (sender dest pid : Z) : Prop :=
  pid <> sender /\ (dest = pid \/ dest = BroadcastDest).

(** The write that reaches player [p]. *)
Definition route_of (p : PlayerInfo) (data : bytes) (o : Out) : Prop :=
  match p_TCPConn p with
  | Some c => o = SendTCP c (frame data)
  | None => IsValid (p_Addr p) = true /\ o = SendUDP (p_Addr p) data
  end.

(** The last branch of both packet loops. *)
Definition route (net : Net) (ρ : Shuffle) (session : loc) (sender dest : Z) (data : bytes)
    (m : Manager) : outcome (Manager * list Out) :=
  if dest =? BroadcastDest then broadcast net ρ session sender data m
  else unicast net session dest data m.

Lemma elem_of_send_out t p data o :
  t_UDPAddr t = p_Addr p -> t_TCPConn t = p_TCPConn p ->
  o ∈ send_out t data <-> route_of p data o.
Proof.
  intros Hu Ht. unfold send_out, route_of. rewrite Hu, Ht.
  destruct (p_TCPConn p); [set_solver|]. destruct (IsValid (p_Addr p)); set_solver.
Qed.

Lemma unicast_Ret net session dest data m m' outs :
  net_wf net -> unicast net session dest data m = Ret (m', outs) ->
  match players (deref session m) !! dest with
  | None => m' = with_metrics (add_dropped 1) m /\ outs = []
  | Some p =>
      let t := MkTarget dest (p_Addr p) (p_TCPConn p) in
      m' = count_send (send_ok net t data) data m /\ outs = send_out t data
  end.
Proof.
  intros Hw. unfold unicast, GetPlayerTarget.
  destruct (players (deref session m) !! dest) as [p|]; simpl; [|by intros [= <- <-]].
  rewrite sendToTarget_spec by done. destruct (_ && _); [done|]. simpl. by intros [= <- <-].
Qed.

Lemma route_same net ρ session sender dest data m m' outs :
  net_wf net -> route net ρ session sender dest data m = Ret (m', outs) -> same_sessions m m'.
Proof.
  intros Hw. unfold route, broadcast. destruct (_ =? _).
  - intros [-> _]%sendAll_Ret; auto with relay.
  - intros H%unicast_Ret; [|done].
    destruct (players (deref session m) !! dest); destruct H as [-> _]; auto with relay.
Qed.

(** Exactly the receivers' routes are written to. *)
Lemma route_outs net ρ session sender dest data m m' outs :
  net_wf net -> dest <> sender -> route net ρ session sender dest data m = Ret (m', outs) ->
  forall o, o ∈ outs <->
    exists pid p, receiver sender dest pid /\ players (deref session m) !! pid = Some p /\
      route_of p data o.
Proof.
  intros Hw Hne H o. unfold route in H. destruct (Z.eqb_spec dest BroadcastDest) as [->|Hb].
  - unfold broadcast in H. apply sendAll_Ret in H as [_ ->]; [|done].
    rewrite list_elem_of_In, in_concat. split.
    + intros (l & Hl%list_elem_of_In & Hin%list_elem_of_In).
      apply list_elem_of_fmap in Hl as (t & -> & Ht).
      apply elem_of_targets in Ht as (p & Hp & Hts & Hu & Htc & _).
      exists (t_PlayerID t), p. split; [split; auto|]. split; [done|].
      by apply (elem_of_send_out t p).
    + intros (pid & p & [Hpid _] & Hp & Ho).
      exists (send_out (MkTarget pid (p_Addr p) (p_TCPConn p)) data). split.
      * apply list_elem_of_In, list_elem_of_fmap. eexists. split; [done|].
        apply elem_of_targets. exists p. split_and!; try done.
        unfold route_of in Ho. destruct (p_TCPConn p); [by left|right; by destruct Ho].
      * apply list_elem_of_In. by apply (elem_of_send_out _ p).
  - apply unicast_Ret in H; [|done]. unfold receiver.
    destruct (players (deref session m) !! dest) as [p|] eqn:Hp.
    + destruct H as [_ ->]. rewrite (elem_of_send_out _ p) by done. naive_solver.
    + destruct H as [_ ->]. rewrite elem_of_nil. naive_solver.
Qed.

Lemma route_Panic net ρ session sender dest data m :
  net_wf net -> dest <> sender ->
  route net ρ session sender dest data m = Panic <->
  Server.maxTCPFramePayload < len data /\
  exists pid p, receiver sender dest pid /\ players (deref session m) !! pid = Some p /\
    is_Some (p_TCPConn p).
Proof.
  intros Hw Hne. unfold route. destruct (Z.eqb_spec dest BroadcastDest) as [->|Hb].
  - unfold broadcast. rewrite sendAll_Panic by done. unfold any_tcp.
    apply and_iff_compat_l. split.
    + intros (t & Ht & Hs). apply elem_of_targets in Ht as (p & Hp & Hts & Hu & Htc & _).
      exists (t_PlayerID t), p. rewrite <- Htc. split; [split; auto|done].
    + intros (pid & p & [Hpid _] & Hp & Hs).
      exists (MkTarget pid (p_Addr p) (p_TCPConn p)). split; [|done].
      apply elem_of_targets. exists p. split_and!; try done. left. by apply not_eq_None_Some.
  - unfold unicast, GetPlayerTarget, receiver.
    destruct (players (deref session m) !! dest) as [p|] eqn:Hp; cbn [negb].
    + rewrite sendToTarget_spec by done. cbn [t_TCPConn].
      destruct (bool_decide_reflect (is_Some (p_TCPConn p)));
        destruct (Z.ltb_spec Server.maxTCPFramePayload (len data)); simpl; naive_solver lia.
    + naive_solver.
Qed.

(** ** The whole packet step *)

(** The two loops accept the packet: its sender is known, and the packet
    passes the pin and the rate limit. *)
Definition accepts (v : PacketVerdict) : bool :=
  match v with VerdictOK | VerdictFirstAddr => true | _ => false end.

(** The rejections, by verdict. *)
Definition count_reject (v : PacketVerdict) (m : Manager) : Manager :=
  match v with
  | VerdictSpoofed => with_metrics (add_spoofed 1) m
  | VerdictRateLimited => with_metrics (add_limited 1) m
  | _ => with_metrics (add_dropped 1) m
  end.

(** [udpPacket] with its branches collected. *)
Lemma udpPacket_unfold net ρ buf remote now m :
  udpPacket net ρ buf remote now m =
  match DecodeRelayHeader buf with
  | Err _ => Ret (with_metrics (add_dropped 1) m, [])
  | Ok (sender, dest) =>
      match FindSessionByPlayer sender m with
      | None => Ret (with_metrics (add_dropped 1) m, [])
      | Some l =>
          let '(m1, v) := udpUpdate l sender remote now m in
          if accepts v then
            if dest =? sender then Ret (with_metrics (add_routed 1) m1, [SendUDP remote buf])
            else route net ρ l sender dest buf m1
          else Ret (count_reject v m1, [])
      end
  end.
Proof.
  unfold udpPacket, DecodeRelayHeader, route. destruct (_ <? _); [done|].
  destruct (FindSessionByPlayer _ _) as [l|]; [|done].
  destruct (udpUpdate _ _ _ _ _) as [m1 []]; done.
Qed.

Lemma FindSession_alloc pid m l :
  mgr_ok m -> FindSessionByPlayer pid m = Some l -> is_Some (m_heap m !! l).
Proof.
  intros Hm. unfold FindSessionByPlayer. destruct (m_index m !! pid); [|done].
  intros (s' & Hs & _)%(inv_reg m Hm). by eexists.
Qed.

Lemma mgr_ok_udpPacket net ρ buf remote now m m' outs :
  mgr_ok m -> net_wf net -> udpPacket net ρ buf remote now m = Ret (m', outs) -> mgr_ok m'.
Proof.
  intros Hm Hw. rewrite udpPacket_unfold.
  destruct (DecodeRelayHeader buf) as [[sender dest]|];
    [|intros [= <- <-]; eapply mgr_ok_same; [apply same_dropped|done]].
  destruct (FindSessionByPlayer sender m) as [l|] eqn:Ef;
    [|intros [= <- <-]; eapply mgr_ok_same; [apply same_dropped|done]].
  pose proof (mgr_ok_udpUpdate l sender remote now m Hm (FindSession_alloc _ _ _ Hm Ef)) as Hm1.
  destruct (udpUpdate l sender remote now m) as [m1 v]. simpl in Hm1.
  destruct (accepts v); [destruct (dest =? sender)|].
  - intros [= <- <-]. eapply mgr_ok_same; [apply same_routed|done].
  - intros H%route_same; [|done]. by eapply mgr_ok_same.
  - intros [= <- <-]. unfold count_reject.
    destruct v; (eapply mgr_ok_same; [auto with relay|done]).
Qed.

(** [tcpPacket] with its branches collected. *)
Definition closed_old (old : option Conn) (conn : Conn) : list Out :=
  match old with
  | Some c => if bool_decide (c = conn) then [] else [CloseTCP c]
  | None => []
  end.

Lemma tcpPacket_unfold net ρ conn buf now m :
  tcpPacket net ρ conn buf now m =
  match DecodeRelayHeader buf with
  | Err _ => Ret (with_metrics (add_dropped 1) m, [], true)
  | Ok (sender, dest) =>
      match FindSessionByPlayer sender m with
      | None => Ret (with_metrics (add_dropped 1) m, [], true)
      | Some l =>
          let '(m1, (v, old)) := tcpUpdate l sender conn now m in
          let closed := closed_old old conn in
          if accepts v then
            if dest =? sender then
              fr ← Server.writeTCPFrame (pool_buf net) buf;
              if tcp_ok net conn fr
              then Ret (with_metrics (add_routed 1) m1, closed ++ [SendTCP conn fr], true)
              else Ret (m1, closed ++ [SendTCP conn fr], false)
            else '(m2, outs) ← route net ρ l sender dest buf m1; Ret (m2, closed ++ outs, true)
          else Ret (count_reject v m1, closed, negb (bool_decide (v = VerdictSpoofed)))
      end
  end.
Proof.
  unfold tcpPacket, DecodeRelayHeader, route. destruct (_ <? _); [done|].
  destruct (FindSessionByPlayer _ _) as [l|]; [|done].
  destruct (tcpUpdate _ _ _ _ _) as [m1 [[] old]]; done.
Qed.

Lemma tcpPacket_no_panic net ρ conn buf now m :
  net_wf net -> len buf <= Server.maxTCPFramePayload -> tcpPacket net ρ conn buf now m <> Panic.
Proof.
  intros Hw Hlen. rewrite tcpPacket_unfold.
  destruct (DecodeRelayHeader buf) as [[sender dest]|]; [|done].
  destruct (FindSessionByPlayer sender m) as [l|]; [|done].
  destruct (tcpUpdate l sender conn now m) as [m1 [v old]]. cbv zeta.
  destruct (accepts v); [|done]. destruct (Z.eqb_spec dest sender) as [->|Hne].
  - rewrite server_write_spec by done. rewrite (proj2 (Z.ltb_ge _ _)) by done. simpl.
    by destruct (tcp_ok net conn _).
  - destruct (route net ρ l sender dest buf m1) as [[m2 o]|] eqn:E; [done|].
    apply route_Panic in E as [? _]; [lia|done|done].
Qed.

Lemma mgr_ok_tcpPacket net ρ conn buf now m m' outs cont :
  mgr_ok m -> net_wf net -> tcpPacket net ρ conn buf now m = Ret (m', outs, cont) -> mgr_ok m'.
Proof.
  intros Hm Hw. rewrite tcpPacket_unfold.
  destruct (DecodeRelayHeader buf) as [[sender dest]|];
    [|intros [= <- <- <-]; eapply mgr_ok_same; [apply same_dropped|done]].
  destruct (FindSessionByPlayer sender m) as [l|] eqn:Ef;
    [|intros [= <- <- <-]; eapply mgr_ok_same; [apply same_dropped|done]].
  pose proof (mgr_ok_tcpUpdate l sender conn now m Hm (FindSession_alloc _ _ _ Hm Ef)) as Hm1.
  destruct (tcpUpdate l sender conn now m) as [m1 [v old]]. simpl in Hm1. cbv zeta.
  destruct (accepts v); [destruct (dest =? sender)|].
  - destruct (Server.writeTCPFrame _ _); [|done]. simpl.
    destruct (tcp_ok _ _ _); intros [= <- <- <-]; [|done].
    eapply mgr_ok_same; [apply same_routed|done].
  - destruct (route net ρ l sender dest buf m1) as [[m2 o]|] eqn:E; [|done].
    apply route_same in E; [|done]. simpl. intros [= <- <- <-]. by eapply mgr_ok_same.
  - intros [= <- <- <-]. unfold count_reject.
    destruct v; (eapply mgr_ok_same; [auto with relay|done]).
Qed.

(** ** Counting *)

(** All packets the server has counted, routed or not. *)
Definition total (m : Manager) : Z :=
  PacketsRouted (m_metrics m) + PacketsDropped (m_metrics m) +
  PacketsSpoofed (m_metrics m) + PacketsRateLimited (m_metrics m).

Lemma u64_ex x : exists k, u64 x = x + k * 2 ^ 64.
Proof. exists (- (x / 2 ^ 64)). unfold u64. rewrite Z.mod_eq by lia. lia. Qed.

Lemma u64_eq a b k : a = b + k * 2 ^ 64 -> u64 a = u64 b.
Proof. intros ->. unfold u64. apply Z_mod_plus_full. Qed.

(** One counter has been increased by one. *)
Ltac count_one :=
  unfold total; simpl;
  match goal with
  | |- context [u64 (?x + 1)] => destruct (u64_ex (x + 1)) as [k ->]; apply (u64_eq _ _ k); lia
  end.

Lemma total_reject v m : u64 (total (count_reject v m)) = u64 (total m + 1).
Proof. unfold count_reject. destruct v; count_one. Qed.

Lemma total_send ok data m : u64 (total (count_send ok data m)) = u64 (total m + 1).
Proof. unfold count_send. destruct ok; count_one. Qed.

Lemma total_send_all net ts data m :
  u64 (total (count_all net ts data m)) = u64 (total m + len ts).
Proof.
  unfold count_all. revert m; induction ts as [|t ts IH]; intros m; simpl.
  - f_equal. lia.
  - rewrite IH. destruct (u64_ex (total m + 1)) as [k1 Hk1].
    pose proof (total_send (send_ok net t data) data m) as H. rewrite Hk1 in H.
    destruct (u64_ex (total (count_send (send_ok net t data) data m))) as [k2 Hk2].
    rewrite Hk2 in H. apply (u64_eq _ _ (k1 - k2)). lia.
Qed.

(** Each target of a broadcast gets one write. *)
Lemma broadcast_writes ρ sender s data :
  length (concat ((fun t => send_out t data) <$> ForEachOtherPlayerTarget ρ sender s)) =
  length (ForEachOtherPlayerTarget ρ sender s).
Proof.
  assert (H : forall t, t ∈ ForEachOtherPlayerTarget ρ sender s -> length (send_out t data) = 1%nat).
  { intros t Ht. apply elem_of_targets in Ht as (p & _ & _ & Hu & Htc & Hor).
    unfold send_out. rewrite Htc, Hu. destruct (p_TCPConn p); [done|].
    destruct Hor as [?|Hv]; [done|]. by rewrite Hv. }
  induction (ForEachOtherPlayerTarget ρ sender s) as [|t ts IH]; [done|].
  rewrite fmap_cons. cbn [concat length]. rewrite length_app, H by left. rewrite IH; [done|]. intros t' Ht'. apply H. by right.
Qed.

Lemma route_total net ρ l sender dest data m m' outs :
  net_wf net -> route net ρ l sender dest data m = Ret (m', outs) ->
  u64 (total m') = u64 (total m + if dest =? BroadcastDest then len outs else 1).
Proof.
  intros Hw. unfold route, broadcast. destruct (_ =? _).
  - intros [-> ->]%sendAll_Ret; [|done]. by rewrite total_send_all, broadcast_writes.
  - intros H%unicast_Ret; [|done].
    destruct (players (deref l m) !! dest) as [p|]; destruct H as [-> _].
    + apply total_send.
    + count_one.
Qed.

(** ** Theorems *)

(** A network on which every write succeeds. *)
Definition good_net : Net :=
  MkNet (fun _ _ => true) (fun _ _ => true) (replicate 1402 Byte.x00).

(** Two players, 1 and 2, in session ["g"]; player 1 has been seen over UDP,
    player 2 over TCP. *)
Definition addr1 : AddrPort := MkAddrPort (Addr4 1) 5001.
Definition addr2 : AddrPort := MkAddrPort (Addr4 2) 5002.
Definition conn2 : Conn := MkConn 2 (Some "10.0.0.2:5002").
Definition pkt (sender dest : Z) (n : nat) : bytes := header sender dest ++ replicate n Byte.x2a.
Definition two_players : Manager :=
  (AddPlayerToSession "g" 2 "b" (AddPlayerToSession "g" 1 "a"
     (CreateSession "g" 4 0 (NewSessionManager zero_metrics)).1).1).1.
Definition two_seen : Manager :=
  (tcpUpdate 0%nat 2 conn2 20 (udpUpdate 0%nat 1 addr1 10 two_players).1).1.

Lemma two_players_ok : mgr_ok two_players.
Proof.
  apply mgr_ok_AddPlayerToSession, mgr_ok_AddPlayerToSession, mgr_ok_CreateSession, mgr_ok_new.
Qed.
Lemma two_seen_ok : mgr_ok two_seen.
Proof.
  unfold two_seen.
  apply mgr_ok_tcpUpdate; [apply mgr_ok_udpUpdate; [apply two_players_ok|]|]; by eexists.
Qed.

(** C5. Session isolation and completeness of routing.  When the UDP loop
    handles a packet that is not a hello, it writes to exactly the routes of
    the receivers (the named player, or every other player for a broadcast)
    that are in the sender's own session, and only if the packet passes the
    address pin and the rate limit. *)
Theorem udp_routing_exact (net : Net) (ρ : Shuffle) (buf : bytes) (remote : AddrPort) (now : Z)
    (m m' : Manager) (outs : list Out) (sender dest : Z) :
  net_wf net -> DecodeRelayHeader buf = Ok (sender, dest) -> dest <> sender ->
  udpPacket net ρ buf remote now m = Ret (m', outs) ->
  forall o, o ∈ outs <->
    exists l pid p, FindSessionByPlayer sender m = Some l /\
      accepts (udpUpdate l sender remote now m).2 = true /\
      receiver sender dest pid /\ players (deref l m') !! pid = Some p /\ route_of p buf o.
Proof.
  intros Hw Hd Hne. rewrite udpPacket_unfold, Hd. intros H o.
  destruct (FindSessionByPlayer sender m) as [l|]; [|simplify_eq; set_solver].
  destruct (udpUpdate l sender remote now m) as [m1 v] eqn:Hu.
  destruct (accepts v) eqn:Hv.
  - rewrite (proj2 (Z.eqb_neq _ _)) in H by done.
    rewrite (route_outs net ρ l sender dest buf m1 m' outs) by done.
    pose proof (same_deref _ _ l (route_same _ _ _ _ _ _ _ _ _ Hw H)) as Hdr.
    rewrite <- Hdr. split.
    + intros (pid & p & ?). exists l, pid, p. by rewrite Hu.
    + intros (l' & pid & p & [= <-] & _ & ?). by exists pid, p.
  - simplify_eq. rewrite elem_of_nil. split; [done|].
    intros (l' & pid & p & [= <-] & Hv' & _). rewrite Hu in Hv'. simpl in Hv'. congruence.
Qed.

Lemma udp_routing_exact_witness :
  SendTCP conn2 (frame (pkt 1 2 3)) ∈ [SendTCP conn2 (frame (pkt 1 2 3))] <->
    exists l pid p, FindSessionByPlayer 1 two_seen = Some l /\
      accepts (udpUpdate l 1 addr1 30 two_seen).2 = true /\
      receiver 1 2 pid /\
      players (deref l (count_send true (pkt 1 2 3) (udpUpdate 0%nat 1 addr1 30 two_seen).1)) !! pid
        = Some p /\
      route_of p (pkt 1 2 3) (SendTCP conn2 (frame (pkt 1 2 3))).
Proof.
  apply (udp_routing_exact good_net id_shuffle (pkt 1 2 3) addr1 30 two_seen);
    [done|by vm_compute|done|by vm_compute].
Defined.

(** Accounting.  Handling one datagram increases the four packet counters
    together by one, or, for an accepted broadcast, by the number of writes. *)
Theorem udp_accounting (net : Net) (ρ : Shuffle) (buf : bytes) (remote : AddrPort) (now : Z)
    (m m' : Manager) (outs : list Out) :
  net_wf net -> udpPacket net ρ buf remote now m = Ret (m', outs) ->
  (u64 (total m') = u64 (total m + 1) /\ len outs <= 1) \/
  (exists sender, DecodeRelayHeader buf = Ok (sender, BroadcastDest) /\
     u64 (total m') = u64 (total m + len outs)).
Proof.
  intros Hw. rewrite udpPacket_unfold.
  destruct (DecodeRelayHeader buf) as [[sender dest]|] eqn:Hd;
    [|intros [= <- <-]; left; split; [apply (total_reject VerdictUnknown)|simpl; lia]].
  destruct (FindSessionByPlayer sender m) as [l|];
    [|intros [= <- <-]; left; split; [apply (total_reject VerdictUnknown)|simpl; lia]].
  assert (Hm : total (udpUpdate l sender remote now m).1 = total m).
  { unfold udpUpdate. by destruct (UpdatePlayerAddr _ _ _ _). }
  destruct (udpUpdate l sender remote now m) as [m1 v]. simpl in Hm. rewrite <- Hm.
  destruct (accepts v).
  - destruct (Z.eqb_spec dest sender) as [->|Hne].
    + intros [= <- <-]. left. split; [count_one|simpl; lia].
    + intros H. pose proof (route_total _ _ _ _ _ _ _ _ _ Hw H) as Ht.
      unfold route in H. destruct (Z.eqb_spec dest BroadcastDest) as [->|Hb]; [by right; eauto|].
      left. split; [done|]. apply unicast_Ret in H; [|done].
      destruct (players (deref l m1) !! dest) as [p|]; destruct H as [_ ->]; [|simpl; lia].
      unfold send_out; simpl. destruct (p_TCPConn p); [simpl; lia|].
      destruct (IsValid _); simpl; lia.
  - intros [= <- <-]. left. split; [apply total_reject|simpl; lia].
Qed.

Lemma udp_accounting_witness :
  (u64 (total (with_metrics (add_dropped 1) two_seen)) = u64 (total two_seen + 1) /\
   len ([] : list Out) <= 1) \/
  (exists sender, DecodeRelayHeader (pkt 9 9 0) = Ok (sender, BroadcastDest) /\
     u64 (total (with_metrics (add_dropped 1) two_seen)) = u64 (total two_seen + len ([] : list Out))).
Proof.
  apply (udp_accounting good_net id_shuffle (pkt 9 9 0) addr1 30 two_seen);
    [done|by vm_compute].
Defined.

Lemma udpPacket_Panic (net : Net) (ρ : Shuffle) (buf : bytes) (remote : AddrPort) (now : Z)
    (m : Manager) :
  net_wf net ->
  udpPacket net ρ buf remote now m = Panic <->
  1400 < len buf /\
  exists sender dest l pid p,
    DecodeRelayHeader buf = Ok (sender, dest) /\ FindSessionByPlayer sender m = Some l /\
    accepts (udpUpdate l sender remote now m).2 = true /\
    dest <> sender /\ receiver sender dest pid /\
    players (deref l (udpUpdate l sender remote now m).1) !! pid = Some p /\
    is_Some (p_TCPConn p).
Proof.
  intros Hw. rewrite udpPacket_unfold. change 1400 with Server.maxTCPFramePayload.
  destruct (DecodeRelayHeader buf) as [[sender dest]|]; [|naive_solver].
  destruct (FindSessionByPlayer sender m) as [l|] eqn:Ef; [|naive_solver].
  destruct (udpUpdate l sender remote now m) as [m1 v] eqn:Eu.
  destruct (accepts v) eqn:Ev.
  - destruct (Z.eqb_spec dest sender) as [->|Hne]; [naive_solver|].
    rewrite route_Panic by done. split.
    + intros [? (pid & p & Hr & Hp & Ht)]. split; [done|].
      exists sender, dest, l, pid, p. by rewrite Eu.
    + intros [? (s & d & l' & pid & p & [= <- <-] & Hf & _ & _ & Hr & Hp & Ht)].
      simplify_eq. rewrite Eu in Hp. split; [done|]. by exists pid, p.
  - split; [done|].
    intros [? (s & d & l' & pid & p & [= <- <-] & Hf & Ha & _)]. simplify_eq.
    rewrite Eu in Ha. simpl in Ha. congruence.
Qed.

(** C39. When the UDP loop panics.  It does so exactly for an accepted packet
    of more than 1400 bytes with a receiver that is connected over TCP; the
    read buffer holds up to 1500 bytes. *)
Theorem udp_panics_iff (net : Net) (ρ : Shuffle) (buf : bytes) (remote : AddrPort) (now : Z)
    (m : Manager) :
  net_wf net ->
  udpPacket net ρ buf remote now m = Panic <->
  1400 < len buf /\
  exists sender dest l pid p,
    DecodeRelayHeader buf = Ok (sender, dest) /\ FindSessionByPlayer sender m = Some l /\
    accepts (udpUpdate l sender remote now m).2 = true /\
    dest <> sender /\ receiver sender dest pid /\
    players (deref l (udpUpdate l sender remote now m).1) !! pid = Some p /\
    is_Some (p_TCPConn p).
Proof. apply udpPacket_Panic. Qed.

Lemma udp_panics_iff_witness :
  udpPacket good_net id_shuffle (pkt 1 2 1400) addr1 30 two_seen = Panic <->
  1400 < len (pkt 1 2 1400) /\
  exists sender dest l pid p,
    DecodeRelayHeader (pkt 1 2 1400) = Ok (sender, dest) /\
    FindSessionByPlayer sender two_seen = Some l /\
    accepts (udpUpdate l sender addr1 30 two_seen).2 = true /\
    dest <> sender /\ receiver sender dest pid /\
    players (deref l (udpUpdate l sender addr1 30 two_seen).1) !! pid = Some p /\
    is_Some (p_TCPConn p).
Proof. by apply udp_panics_iff. Defined.

(** A datagram of 1408 bytes from player 1 to player 2 stops the server. *)
Example oversized_datagram_stops_server :
  Run good_net id_shuffle [UdpData (pkt 1 2 1400) addr1 30] two_seen = Panic.
Proof. by vm_compute. Qed.

(** A frame leaves less to read. *)
Lemma frame_consumes bufLen stream p rest :
  Server.readTCPFrame bufLen stream = Ok (p, rest) ->
  len p <= Server.maxTCPFramePayload /\ (length rest < length stream)%nat.
Proof.
  intros H%server_read_Ok. destruct H as (Hp & _ & ->). split; [lia|].
  rewrite length_app, length_frame. lia.
Qed.

Lemma handleLoop_fuel net ρ conn clk f1 f2 stream i m :
  (length stream < f1)%nat -> (length stream < f2)%nat ->
  handleLoop f1 net ρ conn stream clk i m = handleLoop f2 net ρ conn stream clk i m.
Proof.
  revert f2 stream i m; induction f1 as [|f1 IH]; intros [|f2] stream i m H1 H2; try lia. simpl.
  destruct (Server.readTCPFrame readBufSize stream) as [[buf rest]|] eqn:E; [|done].
  apply frame_consumes in E as [_ Hr].
  destruct (tcpPacket net ρ conn buf (clk i) m) as [[[m1 o1] []]|]; simpl; [|done..].
  by rewrite (IH f2) by lia.
Qed.

Lemma handleLoop_no_panic net ρ conn clk fuel stream i m :
  net_wf net -> handleLoop fuel net ρ conn stream clk i m <> Panic.
Proof.
  intros Hw. revert stream i m; induction fuel as [|fuel IH]; intros stream i m; simpl; [done|].
  destruct (Server.readTCPFrame readBufSize stream) as [[buf rest]|] eqn:E; [|done].
  apply frame_consumes in E as [Hb _].
  pose proof (tcpPacket_no_panic net ρ conn buf (clk i) m Hw Hb).
  destruct (tcpPacket net ρ conn buf (clk i) m) as [[[m1 o1] []]|]; simpl; [|done..].
  pose proof (IH rest (S i) m1). by destruct (handleLoop fuel net ρ conn rest clk (S i) m1) as [[]|].
Qed.

Lemma handleLoop_ok net ρ conn clk fuel stream i m m' outs :
  net_wf net -> mgr_ok m -> handleLoop fuel net ρ conn stream clk i m = Ret (m', outs) -> mgr_ok m'.
Proof.
  intros Hw. revert stream i m outs.
  induction fuel as [|fuel IH]; intros stream i m outs Hm; simpl; [by intros [= <- <-]|].
  destruct (Server.readTCPFrame readBufSize stream) as [[buf rest]|] eqn:E; [|by intros [= <- <-]].
  destruct (tcpPacket net ρ conn buf (clk i) m) as [[[m1 o1] c]|] eqn:Ep; [|done].
  apply mgr_ok_tcpPacket in Ep; [|done..]. simpl. destruct c; [|by intros [= <- <-]].
  destruct (handleLoop fuel net ρ conn rest clk (S i) m1) as [[m2 o2]|] eqn:El; [|done].
  simpl. intros [= <- <-]. by eapply IH.
Qed.

(** C23. The TCP handler is total and safe: on every byte stream [handleConn]
    runs to the end without a panic, preserves the manager's invariant and
    closes the connection last; its answer does not depend on the bound of the
    loop. *)
Theorem tcp_handler_total (net : Net) (ρ : Shuffle) (conn : Conn) (stream : bytes)
    (clk : nat -> Z) (m : Manager) :
  net_wf net -> mgr_ok m ->
  exists m' outs,
    handleConn net ρ conn stream clk m = Ret (m', outs ++ [CloseTCP conn]) /\ mgr_ok m' /\
    forall fuel, (length stream < fuel)%nat ->
      handleLoop fuel net ρ conn stream clk 0 m = Ret (m', outs).
Proof.
  intros Hw Hm. unfold handleConn.
  destruct (handleLoop (S (length stream)) net ρ conn stream clk 0 m) as [[m' outs]|] eqn:E;
    [|by apply handleLoop_no_panic in E].
  exists m', outs. split; [done|]. split; [by eapply handleLoop_ok|].
  intros fuel Hf. rewrite <- E. apply handleLoop_fuel; lia.
Qed.

Lemma tcp_handler_total_witness :
  exists m' outs,
    handleConn good_net id_shuffle conn2 (frame (pkt 2 1 3)) (fun _ => 30) two_seen =
      Ret (m', outs ++ [CloseTCP conn2]) /\ mgr_ok m' /\
    forall fuel, (length (frame (pkt 2 1 3)) < fuel)%nat ->
      handleLoop fuel good_net id_shuffle conn2 (frame (pkt 2 1 3)) (fun _ => 30) 0 two_seen =
      Ret (m', outs).
Proof. apply tcp_handler_total; [done|exact two_seen_ok]. Defined.

(** An accepted UDP packet makes its source the sender's route. *)
Lemma UpdatePlayerAddr_learns id addr now s :
  accepts (UpdatePlayerAddr id addr now s).2 = true ->
  exists p, players (UpdatePlayerAddr id addr now s).1 !! id = Some p /\
    p_Addr p = addr /\ p_TCPConn p = None.
Proof.
  unfold UpdatePlayerAddr. destruct (players s !! id) as [p|] eqn:E; [|done].
  destruct (_ && _); [done|]. destruct (CheckRate p (Time.Unix now)) as [p1 []]; simpl; [|done].
  intros _. rewrite lookup_insert_eq. eexists. done.
Qed.

Lemma deref_udpUpdate l id addr now m :
  deref l (udpUpdate l id addr now m).1 = (UpdatePlayerAddr id addr now (deref l m)).1 /\
  (udpUpdate l id addr now m).2 = (UpdatePlayerAddr id addr now (deref l m)).2.
Proof.
  unfold udpUpdate. destruct (UpdatePlayerAddr id addr now (deref l m)) as [s v].
  split; [|done]. unfold deref; simpl. by rewrite lookup_insert_eq.
Qed.

(** A hello opens the way back.  If player [a]'s hello is accepted, it is
    echoed unchanged to its source, and from then on a UDP packet that another
    member of the session sends to [a] goes to that source, unchanged and
    nowhere else. *)
Theorem hello_establishes_route (net : Net) (ρ : Shuffle) (hello buf : bytes)
    (srcA srcB : AddrPort) (now1 now2 : Z) (m : Manager) (l : loc) (a b : Z) :
  net_wf net -> a <> b -> a <> BroadcastDest ->
  DecodeRelayHeader hello = Ok (a, a) -> DecodeRelayHeader buf = Ok (b, a) ->
  FindSessionByPlayer a m = Some l -> FindSessionByPlayer b m = Some l ->
  IsValid srcA = true ->
  accepts (udpUpdate l a srcA now1 m).2 = true ->
  accepts (udpUpdate l b srcB now2 (udpUpdate l a srcA now1 m).1).2 = true ->
  exists m1 m2,
    udpPacket net ρ hello srcA now1 m = Ret (m1, [SendUDP srcA hello]) /\
    udpPacket net ρ buf srcB now2 m1 = Ret (m2, [SendUDP srcA buf]).
Proof.
  intros Hw Hab Hbc Hha Hbuf Hfa Hfb Hv Ha Hb.
  destruct (deref_udpUpdate l a srcA now1 m) as [Hd1 Hv1].
  exists (with_metrics (add_routed 1) (udpUpdate l a srcA now1 m).1).
  rewrite !udpPacket_unfold, Hha, Hfa, Hbuf.
  assert (Hix : forall x, FindSessionByPlayer x (with_metrics (add_routed 1)
      (udpUpdate l a srcA now1 m).1) = FindSessionByPlayer x m).
  { intros x. unfold udpUpdate, FindSessionByPlayer. by destruct (UpdatePlayerAddr _ _ _ _). }
  rewrite Hix, Hfb. destruct (udpUpdate l a srcA now1 m) as [m1 v1]. simpl in *.
  rewrite Ha, Z.eqb_refl.
  destruct (deref_udpUpdate l b srcB now2 (with_metrics (add_routed 1) m1)) as [Hd2 Hv2].
  destruct (deref_udpUpdate l b srcB now2 m1) as [_ Hv3].
  change (deref l (with_metrics (add_routed 1) m1)) with (deref l m1) in *.
  rewrite Hd1 in *. rewrite Hv3 in Hb.
  destruct (udpUpdate l b srcB now2 (with_metrics (add_routed 1) m1)) as [m2 v2]. simpl in *.
  rewrite Hv2, Hb, (proj2 (Z.eqb_neq a b)) by done. unfold route.
  rewrite (proj2 (Z.eqb_neq _ _)) by done. unfold unicast, GetPlayerTarget. rewrite Hd2.
  rewrite UpdatePlayerAddr_other by congruence. subst v1.
  destruct (UpdatePlayerAddr_learns a srcA now1 (deref l m) Ha) as (p & Hp & Hpa & Hpt).
  rewrite Hp, Hpa, Hpt. unfold sendToTarget. simpl. rewrite Hv. simpl. eauto.
Qed.

Lemma hello_establishes_route_witness :
  exists m1 m2,
    udpPacket good_net id_shuffle (pkt 1 1 0) addr1 10 two_players =
      Ret (m1, [SendUDP addr1 (pkt 1 1 0)]) /\
    udpPacket good_net id_shuffle (pkt 2 1 5) addr2 20 m1 =
      Ret (m2, [SendUDP addr1 (pkt 2 1 5)]).
Proof.
  by apply (hello_establishes_route good_net id_shuffle (pkt 1 1 0) (pkt 2 1 5) addr1 addr2 10 20
              two_players 0%nat 1 2).
Defined.

(** Rejected traffic has no effect.  A datagram from an address that is
    not the pinned one, or from a player that is not registered, writes
    nothing, and the sessions, the index and the gauges are as before; only
    the counter of its kind has moved. *)
Theorem rejected_udp_inert (net : Net) (ρ : Shuffle) (buf : bytes) (remote : AddrPort) (now : Z)
    (m : Manager) (sender dest : Z) :
  mgr_ok m -> DecodeRelayHeader buf = Ok (sender, dest) ->
  (FindSessionByPlayer sender m = None ->
   udpPacket net ρ buf remote now m = Ret (with_metrics (add_dropped 1) m, [])) /\
  (forall l p, FindSessionByPlayer sender m = Some l -> players (deref l m) !! sender = Some p ->
   IsValid (p_Addr p) = true -> ap_addr (p_Addr p) <> ap_addr remote ->
   udpPacket net ρ buf remote now m = Ret (with_metrics (add_spoofed 1) m, [])).
Proof.
  intros Hm Hd. rewrite udpPacket_unfold, Hd. split; [by intros ->|].
  intros l p Hf Hp Hv Hne. rewrite Hf.
  unfold udpUpdate, UpdatePlayerAddr. rewrite Hp, Hv.
  rewrite bool_decide_eq_false_2 by done. cbn [negb andb accepts].
  destruct (FindSession_alloc sender m l Hm Hf) as [s Hs].
  rewrite set_session_same; [done|]. by rewrite (deref_lookup l m s).
Qed.

Lemma rejected_udp_inert_witness :
  (FindSessionByPlayer 1 two_seen = None ->
   udpPacket good_net id_shuffle (pkt 1 2 3) addr2 40 two_seen =
     Ret (with_metrics (add_dropped 1) two_seen, [])) /\
  (forall l p, FindSessionByPlayer 1 two_seen = Some l -> players (deref l two_seen) !! 1 = Some p ->
   IsValid (p_Addr p) = true -> ap_addr (p_Addr p) <> ap_addr addr2 ->
   udpPacket good_net id_shuffle (pkt 1 2 3) addr2 40 two_seen =
     Ret (with_metrics (add_spoofed 1) two_seen, [])).
Proof.
  apply (rejected_udp_inert good_net id_shuffle (pkt 1 2 3) addr2 40 two_seen 1 2);
    [exact two_seen_ok|by vm_compute].
Defined.

(** The TCP loop's writes besides closing the sender's previous connection. *)
Lemma tcpPacket_outs net ρ conn buf now m m' outs cont sender dest :
  net_wf net -> DecodeRelayHeader buf = Ok (sender, dest) -> dest <> sender ->
  tcpPacket net ρ conn buf now m = Ret (m', outs, cont) ->
  match FindSessionByPlayer sender m with
  | None => outs = []
  | Some l =>
      let '(m1, (v, old)) := tcpUpdate l sender conn now m in
      exists routed, outs = closed_old old conn ++ routed /\
        forall o, o ∈ routed <-> accepts v = true /\
          exists pid p, receiver sender dest pid /\ players (deref l m') !! pid = Some p /\
            route_of p buf o
  end.
Proof.
  intros Hw Hd Hne. rewrite tcpPacket_unfold, Hd.
  destruct (FindSessionByPlayer sender m) as [l|]; [|by intros [= <- <- <-]].
  destruct (tcpUpdate l sender conn now m) as [m1 [v old]]. cbv zeta.
  destruct (accepts v) eqn:Ev.
  - rewrite (proj2 (Z.eqb_neq _ _)) by done.
    destruct (route net ρ l sender dest buf m1) as [[m2 routed]|] eqn:E; [|done]. simpl.
    intros [= <- <- <-]. exists routed. split; [done|]. intros o.
    rewrite (same_deref m1 m2 l) by by eapply route_same.
    rewrite (route_outs _ _ _ _ _ _ _ _ _ Hw Hne E o). tauto.
  - intros [= <- <- <-]. exists []. rewrite app_nil_r. split; [done|].
    intros o. rewrite elem_of_nil. naive_solver.
Qed.

(** ** The connection limit *)

Record handler_ok (h : Handler) : Prop := {
  h_count : activeConns h = len (h_open h);
  h_limit : activeConns h <= maxTCPConns;
}.

Lemma handler_ok_step h h' : handler_step h h' -> handler_ok h -> handler_ok h'.
Proof.
  unfold maxTCPConns. destruct 1 as [conn h|conn l1 l2 h Ho]; intros [Hc Hl]; unfold maxTCPConns in *.
  - unfold accept, maxTCPConns. destruct (Z.leb_spec 1000 (activeConns h)); [by split|].
    split; simpl; unfold maxTCPConns; rewrite i32_small; lia.
  - rewrite Ho, length_app in Hc. simpl in Hc.
    split; simpl; unfold maxTCPConns; rewrite i32_small; rewrite ?length_app; lia.
Qed.

(** The TCP connection limit holds: after any sequence of accepted and
    finished connections, the counter is the number of connections being
    served and is at most 1000. *)
Theorem tcp_conns_bounded (h : Handler) :
  rtc handler_step (MkHandler 0 [] []) h ->
  activeConns h = len (h_open h) /\ len (h_open h) <= maxTCPConns.
Proof.
  intros Hr. assert (handler_ok h) as [Hc Hl].
  { apply (rtc_invariant _ _ handler_ok_step _ _ Hr). by split. }
  split; [done|]. by rewrite <- Hc.
Qed.

Lemma tcp_conns_bounded_witness :
  activeConns (accept conn2 (MkHandler 0 [] [])) = len (h_open (accept conn2 (MkHandler 0 [] []))) /\
  len (h_open (accept conn2 (MkHandler 0 [] []))) <= maxTCPConns.
Proof. apply tcp_conns_bounded. eapply rtc_once. apply h_accept. Defined.
