(* ===== verification/HttpApi.v ===== *)
(** * [internal/relay/httpapi.go]: the HTTP API of the relay server

    Requests reach the session manager through [ServeHTTP]: the API key and
    the rate limits first, then the request multiplexer and the handlers.  A
    request is modelled after HTTP parsing; its body is the first JSON value
    [encoding/json] reads from it and the bytes that follow. *)

From S2P Require Import Prelude GoLib Metrics Session SessionManager ManagerSpec.
From Stdlib Require Import Ascii Sorted.
Import Chars.

(** ** Standard library: JSON values and how they fill a struct *)

(** A number literal keeps what integer conversion looks at: the sign, and
    the magnitude when the literal has no fraction and no exponent. *)
Inductive JSON :=
| JNull
| JBool (b : bool)
| JNum (neg : bool) (mag : option Z)
| JStr (s : string)
| JArr (l : list JSON)
| JObj (l : list (string * JSON)).

(** [encoding/json]'s name folding: ASCII letters and the two other
    characters that fold to ASCII letters (U+017F and U+212A in UTF-8). *)
Definition upper (c : ascii) : ascii :=
  let n := N_of_ascii c in
  if ((97 <=? n) && (n <=? 122))%N then ascii_of_N (n - 32) else c.
Fixpoint foldName (l : list ascii) : list ascii :=
  match l with
  | "197"%char :: "191"%char :: l' => "S"%char :: foldName l'
  | "226"%char :: "132"%char :: "170"%char :: l' => "K"%char :: foldName l'
  | c :: l' => upper c :: foldName l'
  | [] => []
  end.
Definition field_eq (name key : string) : bool :=
  bool_decide (key = name) || bool_decide (foldName (chars key) = foldName (chars name)).

(** Storing a value into a field: [None] is a decoding error; [null] leaves
    the field as it is. *)
Definition into_string (v : JSON) (old : string) : option string :=
  match v with JNull => Some old | JStr s => Some s | _ => None end.
(** Go's [int] has 64 bits. *)
Definition into_int (v : JSON) (old : Z) : option Z :=
  match v with
  | JNull => Some old
  | JNum neg (Some n) =>
      let z := if (neg : bool) then - n else n in
      if (- 2 ^ 63 <=? z) && (z <? 2 ^ 63) then Some z else None
  | _ => None
  end.
Definition into_uint32 (v : JSON) (old : Z) : option Z :=
  match v with
  | JNull => Some old
  | JNum false (Some n) => if n <? 2 ^ 32 then Some n else None
  | _ => None
  end.

(** The members of an object, in order; an unknown name is an error. *)
Fixpoint decode_members {R} (set : string -> option (JSON -> R -> option R))
    (l : list (string * JSON)) (r : R) : option R :=
  match l with
  | [] => Some r
  | (k, v) :: l' => f ← set k; r' ← f v r; decode_members set l' r'
  end.

Record Body := MkBody { b_value : option JSON; b_rest : bytes }.

(** [dec.More()] outside an object: another value seems to follow. *)
Fixpoint More (rest : bytes) : bool :=
  match rest with
  | [] => false
  | c :: rest' =>
      let n := byteZ c in
      if (n =? 32) || (n =? 9) || (n =? 10) || (n =? 13) then More rest'
      else negb (n =? 93) && negb (n =? 125)
  end.

(** ** The code *)

Definition maxSessionPlayers : Z := 32.

Definition decodeJSONBody {R} (set : string -> option (JSON -> R -> option R)) (zero : R)
    (body : Body) : option R :=
  r ← match b_value body with
      | None => None
      | Some JNull => Some zero
      | Some (JObj l) => decode_members set l zero
      | Some _ => None
      end;
  if More (b_rest body) then None else Some r.

(** [^[a-zA-Z0-9_-]{1,64}$] *)
Definition id_char (c : ascii) : bool :=
  let n := Z.of_N (N_of_ascii c) in
  ((97 <=? n) && (n <=? 122)) || ((65 <=? n) && (n <=? 90)) || is_digit c ||
  (n =? 95) || (n =? 45).
Definition sessionIDPattern (s : string) : bool :=
  forallb id_char (chars s) && (1 <=? len (chars s)) && (len (chars s) <=? 64).

Record httpRateLimit := MkLimit { rl_count : Z; rl_second : Z; maxRate : Z }.

Definition rl_Allow (now : Z) (rl : httpRateLimit) : httpRateLimit * bool :=
  let sec := Time.Unix now in
  let count := if negb (rl_second rl =? sec) then 0 else rl_count rl in
  let count := u64 (count + 1) in
  (MkLimit count sec (maxRate rl), count <=? maxRate rl).

Record ipBucket := MkBucket { ib_count : Z; ib_second : Z }.
Abbreviation perIPLimit := (gmap string ipBucket).

Definition ip_Allow (ip : string) (rate now : Z) (l : perIPLimit) : perIPLimit * bool :=
  let sec := Time.Unix now in
  let l := if 10000 <? Z.of_nat (size l)
           then filter (fun '(_, b) => (ib_second b <? sec - 1) = false) l else l in
  let b := default (MkBucket 0 0) (l !! ip) in
  let count := if negb (ib_second b =? sec) then 0 else ib_count b in
  let count := u64 (count + 1) in
  (<[ip := MkBucket count sec]> l, count <=? rate).

Arguments rl_Allow : simpl never.
Arguments ip_Allow : simpl never.

Inductive Method := GET | POST | DELETE | OtherMethod (name : string).
#[export] Instance Method_eq_dec : EqDecision Method.
Proof. solve_decision. Defined.

Record Request := MkRequest {
  rq_method : Method;
  rq_path : string;
  rq_remote : string;
  rq_auth : string;
  rq_body : Body;
}.

Inductive RespBody :=
| RText (s : string)
| RMgrErr (e : MgrErr)
| RHealth (sessions players : Z)
| RCreated (id : string) (maxPlayers : Z)
| RSession (id : string) (maxPlayers count : Z) (ids : list Z)
| RJoined (id : string) (player : Z)
| REmpty.
Record Response := MkResp { status : Z; r_body : RespBody }.

Definition extractClientIP (r : Request) : string :=
  match SplitHostPort (rq_remote r) with
  | None => rq_remote r
  | Some (host, _) => host
  end.

Record HTTPAPI := MkAPI {
  a_sm : Manager;
  a_rateLimit : httpRateLimit;
  a_readRateLimit : httpRateLimit;
  a_perIP : perIPLimit;
  a_perIPRate : Z;
  a_apiKey : string;
}.
Definition with_sm (m : Manager) (a : HTTPAPI) : HTTPAPI :=
  MkAPI m (a_rateLimit a) (a_readRateLimit a) (a_perIP a) (a_perIPRate a) (a_apiKey a).
Definition with_limits (rl : httpRateLimit) (ip : perIPLimit) (a : HTTPAPI) : HTTPAPI :=
  MkAPI (a_sm a) rl (a_readRateLimit a) ip (a_perIPRate a) (a_apiKey a).
Definition with_read_limit (rl : httpRateLimit) (a : HTTPAPI) : HTTPAPI :=
  MkAPI (a_sm a) (a_rateLimit a) rl (a_perIP a) (a_perIPRate a) (a_apiKey a).

Definition NewHTTPAPI (sm : Manager) (apiKey : string) (globalRate perIPRate : Z) : HTTPAPI :=
  let globalRate := if globalRate =? 0 then 200 else globalRate in
  let perIPRate := if perIPRate =? 0 then 20 else perIPRate in
  MkAPI sm (MkLimit 0 0 globalRate) (MkLimit 0 0 2000) ∅ perIPRate apiKey.

Definition checkAPIKey (r : Request) (a : HTTPAPI) : bool :=
  if bool_decide (a_apiKey a = "") then true
  else bool_decide (rq_auth r = String.append "Bearer " (a_apiKey a)).

(** ** The handlers *)

Definition error (st : Z) (msg : string) : Response := MkResp st (RText msg).
Definition methodNotAllowed : Response := error 405 "method not allowed".
Definition badBody : Response := error 400 "invalid request body".

Definition handleHealth (r : Request) (m : Manager) : Response :=
  if negb (bool_decide (rq_method r = GET)) then methodNotAllowed
  else
    let s := snap (Snapshot 0 (m_metrics m)) in
    MkResp 200 (RHealth (ActiveSessions s) (ActivePlayers s)).

(** The request structs of the three POST handlers. *)
Definition create_fields (k : string) : option (JSON -> string * Z -> option (string * Z)) :=
  if field_eq "session_id" k then
    Some (fun v '(id, n) => id' ← into_string v id; Some (id', n))
  else if field_eq "max_players" k then
    Some (fun v '(id, n) => n' ← into_int v n; Some (id, n'))
  else None.
Definition join_fields (k : string) : option (JSON -> Z * string -> option (Z * string)) :=
  if field_eq "player_id" k then
    Some (fun v '(pid, lg) => pid' ← into_uint32 v pid; Some (pid', lg))
  else if field_eq "login" k then
    Some (fun v '(pid, lg) => lg' ← into_string v lg; Some (pid, lg'))
  else None.
Definition leave_fields (k : string) : option (JSON -> Z -> option Z) :=
  if field_eq "player_id" k then Some into_uint32 else None.

Definition handleSessions (r : Request) (now : Z) (m : Manager) : Manager * Response :=
  if negb (bool_decide (rq_method r = POST)) then (m, methodNotAllowed)
  else match decodeJSONBody create_fields ("", 0) (rq_body r) with
  | None => (m, badBody)
  | Some (sessionID, maxPlayers) =>
      if bool_decide (sessionID = "") then (m, error 400 "session_id required")
      else if negb (sessionIDPattern sessionID) then
        (m, error 400 "session_id must be alphanumeric/hyphens/underscores, max 64 chars")
      else
        let maxPlayers := if maxPlayers <=? 0 then 12 else maxPlayers in
        let maxPlayers := if maxSessionPlayers <? maxPlayers then maxSessionPlayers
                          else maxPlayers in
        let '(m, res) := CreateSession sessionID maxPlayers now m in
        match res with
        | Err e => (m, MkResp 409 (RMgrErr e))
        | Ok l => (m, MkResp 201 (RCreated (s_ID (deref l m)) (MaxPlayers (deref l m))))
        end
  end.

Definition handleSessionRoot (ρ : Shuffle) (r : Request) (sessionID : string) (m : Manager)
    : Manager * Response :=
  match rq_method r with
  | GET =>
      match GetSession sessionID m with
      | None => (m, error 404 "session not found")
      | Some l =>
          let s := deref l m in
          (m, MkResp 200 (RSession (s_ID s) (MaxPlayers s) (PlayerCount s) (PlayerIDs ρ s)))
      end
  | DELETE =>
      match DeleteSession ρ sessionID m with
      | (m, Some e) => (m, MkResp 404 (RMgrErr e))
      | (m, None) => (m, MkResp 204 REmpty)
      end
  | _ => (m, methodNotAllowed)
  end.

(** The lookup of the old session before joining only serves the log line. *)
Definition handleSessionJoin (r : Request) (sessionID : string) (m : Manager)
    : Manager * Response :=
  if negb (bool_decide (rq_method r = POST)) then (m, methodNotAllowed)
  else match decodeJSONBody join_fields (0, "") (rq_body r) with
  | None => (m, badBody)
  | Some (playerID, login) =>
      if playerID =? 0 then (m, error 400 "player_id required")
      else match AddPlayerToSession sessionID playerID login m with
           | (m, Some e) => (m, MkResp 409 (RMgrErr e))
           | (m, None) => (m, MkResp 200 (RJoined sessionID playerID))
           end
  end.

Definition handleSessionLeave (r : Request) (sessionID : string) (m : Manager)
    : Manager * Response :=
  if negb (bool_decide (rq_method r = POST)) then (m, methodNotAllowed)
  else match decodeJSONBody leave_fields 0 (rq_body r) with
  | None => (m, badBody)
  | Some playerID =>
      if playerID =? 0 then (m, error 400 "player_id required")
      else match RemovePlayerFromSession sessionID playerID m with
           | (m, Some e) => (m, MkResp 404 (RMgrErr e))
           | (m, None) => (m, MkResp 204 REmpty)
           end
  end.

Definition prefix_of (p l : list ascii) : bool := bool_decide (take (length p) l = p).

(** [strings.TrimPrefix(path, "/sessions/")] and [strings.SplitN(path, "/", 2)]. *)
Definition splitPath (path : string) : string * string :=
  let p := chars "/sessions/" in
  let l := chars path in
  let l := if prefix_of p l then drop (length p) l else l in
  match index "/" l with
  | None => (of_chars l, "")
  | Some i => (of_chars (take i l), of_chars (drop (S i) l))
  end.

Definition handleSessionByID (ρ : Shuffle) (r : Request) (m : Manager) : Manager * Response :=
  let '(sessionID, action) := splitPath (rq_path r) in
  if bool_decide (sessionID = "") then (m, error 400 "session_id required in path")
  else if negb (sessionIDPattern sessionID) then (m, error 400 "invalid session_id")
  else if bool_decide (action = "") then handleSessionRoot ρ r sessionID m
  else if bool_decide (action = "join") then handleSessionJoin r sessionID m
  else if bool_decide (action = "leave") then handleSessionLeave r sessionID m
  else (m, error 404 "unknown action").

(** [http.ServeMux] redirects a path that is not in canonical form, with
    empty, [.] or [..] segments, before a handler runs. *)
Fixpoint segments (l cur : list ascii) : list (list ascii) :=
  match l with
  | [] => [rev cur]
  | c :: l' => if bool_decide (c = "/"%char) then rev cur :: segments l' [] else segments l' (c :: cur)
  end.
Definition canonical (path : string) : bool :=
  match segments (chars path) [] with
  | [] :: (_ :: _) as segs =>
      forallb (fun s => negb (bool_decide (s = []))) (removelast (tail segs)) &&
      forallb (fun s => negb (bool_decide (s = chars ".")) && negb (bool_decide (s = chars "..")))
        segs
  | _ => false
  end.

(** [http.ServeMux] with the three patterns [NewHTTPAPI] registers, for a
    request path without percent escapes. *)
Definition mux (ρ : Shuffle) (r : Request) (now : Z) (m : Manager) : Manager * Response :=
  if negb (bool_decide (rq_method r = OtherMethod "CONNECT")) && negb (canonical (rq_path r))
  then (m, MkResp 301 REmpty)
  else if bool_decide (rq_path r = "/health") then (m, handleHealth r m)
  else if bool_decide (rq_path r = "/sessions") then handleSessions r now m
  else if prefix_of (chars "/sessions/") (chars (rq_path r)) then handleSessionByID ρ r m
  else (m, error 404 "404 page not found").

(** [nowL], [nowI] and [nowC] are the clock values the two limiters and
    [NewSession] read. *)
Definition ServeHTTP (ρ : Shuffle) (r : Request) (nowL nowI nowC : Z) (a : HTTPAPI)
    : HTTPAPI * Response :=
  let dispatch a :=
    let '(m, resp) := mux ρ r nowC (a_sm a) in (with_sm m a, resp) in
  if negb (bool_decide (rq_method r = GET)) then
    if negb (checkAPIKey r a) then (a, error 401 "unauthorized")
    else
      let '(rl, ok) := rl_Allow nowL (a_rateLimit a) in
      let a := with_limits rl (a_perIP a) a in
      if negb ok then (a, error 429 "rate limit exceeded")
      else
        let '(ip, ok) := ip_Allow (extractClientIP r) (a_perIPRate a) nowI (a_perIP a) in
        let a := with_limits (a_rateLimit a) ip a in
        if negb ok then (a, error 429 "rate limit exceeded")
        else dispatch a
  else
    let '(rl, ok) := rl_Allow nowL (a_readRateLimit a) in
    let a := with_read_limit rl a in
    if negb ok then (a, error 429 "rate limit exceeded") else dispatch a.

Example canonical_ok : canonical "/sessions/a-b/join" = true /\ canonical "/sessions/a/" = true.
Proof. by vm_compute. Qed.
Example canonical_no : canonical "/sessions//join" = false /\ canonical "/sessions/../x" = false.
Proof. by vm_compute. Qed.

(** ** What a request asks of the manager *)

(** The manager call a request stands for, [None] when the request is
    malformed or only reads. *)
Definition request_call (ρ : Shuffle) (r : Request) (now : Z) : option mgr_call :=
  if negb (bool_decide (rq_method r = OtherMethod "CONNECT")) && negb (canonical (rq_path r))
  then None
  else if bool_decide (rq_path r = "/sessions") then
    match rq_method r, decodeJSONBody create_fields ("", 0) (rq_body r) with
    | POST, Some (id, n) =>
        if sessionIDPattern id
        then Some (CallCreate id (if n <=? 0 then 12 else Z.min n maxSessionPlayers) now)
        else None
    | _, _ => None
    end
  else if prefix_of (chars "/sessions/") (chars (rq_path r)) then
    let '(id, action) := splitPath (rq_path r) in
    if negb (sessionIDPattern id) then None
    else if bool_decide (action = "") then
      match rq_method r with DELETE => Some (CallDelete ρ id) | _ => None end
    else if bool_decide (action = "join") then
      match rq_method r, decodeJSONBody join_fields (0, "") (rq_body r) with
      | POST, Some (pid, login) => if pid =? 0 then None else Some (CallJoin id pid login)
      | _, _ => None
      end
    else if bool_decide (action = "leave") then
      match rq_method r, decodeJSONBody leave_fields 0 (rq_body r) with
      | POST, Some pid => if pid =? 0 then None else Some (CallLeave id pid)
      | _, _ => None
      end
    else None
  else None.

(** The status code of a call's answer. *)
Definition call_status (c : mgr_call) (e : option MgrErr) : Z :=
  match c, e with
  | CallCreate _ _ _, None => 201 | CallCreate _ _ _, Some _ => 409
  | CallDelete _ _, None => 204 | CallDelete _ _, Some _ => 404
  | CallJoin _ _ _, None => 200 | CallJoin _ _ _, Some _ => 409
  | CallLeave _ _, None => 204 | CallLeave _ _, Some _ => 404
  end.

Lemma pattern_nonempty id : sessionIDPattern id = true -> id <> "".
Proof. by intros H ->. Qed.

Lemma handleSessions_call ρ r now m :
  negb (bool_decide (rq_method r = OtherMethod "CONNECT")) && negb (canonical (rq_path r)) = false ->
  rq_path r = "/sessions" ->
  match request_call ρ r now with
  | None => (handleSessions r now m).1 = m /\ 400 <= status (handleSessions r now m).2 < 500
  | Some c => (handleSessions r now m).1 = (run_call c m).1 /\
              status (handleSessions r now m).2 = call_status c (run_call c m).2
  end.
Proof.
  intros Hc Hp. unfold request_call, handleSessions. rewrite Hc, Hp. cbn [bool_decide].
  rewrite bool_decide_eq_true_2 by done.
  destruct (rq_method r); simpl; try (split; [done|lia]).
  destruct (decodeJSONBody _ _ _) as [[id n]|]; [|split; [done|simpl; lia]].
  destruct (sessionIDPattern id) eqn:Hid.
  - rewrite (bool_decide_eq_false_2 (id = "")) by by apply pattern_nonempty. cbn [negb]. cbv zeta.
    replace (if maxSessionPlayers <? (if n <=? 0 then 12 else n) then maxSessionPlayers
             else if n <=? 0 then 12 else n)
      with (if n <=? 0 then 12 else Z.min n maxSessionPlayers).
    + simpl. by destruct (CreateSession id _ now m) as [m' []].
    + unfold maxSessionPlayers. destruct (n <=? 0); [done|].
      destruct (Z.ltb_spec 32 n); lia.
  - destruct (bool_decide (id = "")); (split; [done|simpl; lia]).
Qed.

Lemma handleSessionByID_call ρ r now m :
  negb (bool_decide (rq_method r = OtherMethod "CONNECT")) && negb (canonical (rq_path r)) = false ->
  rq_path r <> "/sessions" -> prefix_of (chars "/sessions/") (chars (rq_path r)) = true ->
  match request_call ρ r now with
  | None => (handleSessionByID ρ r m).1 = m
  | Some c => (handleSessionByID ρ r m).1 = (run_call c m).1 /\
              status (handleSessionByID ρ r m).2 = call_status c (run_call c m).2
  end.
Proof.
  intros Hc Hp Hpre. unfold request_call, handleSessionByID. rewrite Hc, Hpre.
  rewrite bool_decide_eq_false_2 by done.
  destruct (splitPath (rq_path r)) as [id action].
  destruct (sessionIDPattern id) eqn:Hid; cbn [negb]; [|by destruct (bool_decide (id = ""))].
  rewrite (bool_decide_eq_false_2 (id = "")) by by apply pattern_nonempty.
  destruct (bool_decide (action = "")); [|destruct (bool_decide (action = "join"));
    [|destruct (bool_decide (action = "leave")); [|done]]].
  - unfold handleSessionRoot. destruct (rq_method r); try done; simpl.
    + by destruct (GetSession id m).
    + by destruct (DeleteSession ρ id m) as [m' []].
  - unfold handleSessionJoin. destruct (rq_method r); try done. simpl.
    destruct (decodeJSONBody _ _ _) as [[pid lg]|]; [|done]. destruct (pid =? 0); [done|].
    simpl. by destruct (AddPlayerToSession id pid lg m) as [m' []].
  - unfold handleSessionLeave. destruct (rq_method r); try done. simpl.
    destruct (decodeJSONBody _ _ _) as [pid|]; [|done]. destruct (pid =? 0); [done|].
    simpl. by destruct (RemovePlayerFromSession id pid m) as [m' []].
Qed.

(** The multiplexer and the handlers together: a request changes the manager
    by the call it stands for and reports that call's outcome. *)
Lemma mux_call ρ r now m :
  match request_call ρ r now with
  | None => (mux ρ r now m).1 = m
  | Some c => (mux ρ r now m).1 = (run_call c m).1 /\
              status (mux ρ r now m).2 = call_status c (run_call c m).2
  end.
Proof.
  pose proof (handleSessions_call ρ r now m) as H1.
  pose proof (handleSessionByID_call ρ r now m) as H2.
  unfold mux. destruct (_ && _) eqn:Hc.
  { unfold request_call. by rewrite Hc. }
  destruct (bool_decide_reflect (rq_path r = "/health")) as [Eh|_].
  { unfold request_call. rewrite Hc, Eh. by vm_compute. }
  destruct (bool_decide_reflect (rq_path r = "/sessions")) as [Es|Es].
  { specialize (H1 eq_refl Es). destruct (request_call ρ r now); tauto. }
  destruct (prefix_of _ _) eqn:Hp; [by apply H2|].
  unfold request_call. rewrite Hc, Hp, bool_decide_eq_false_2 by done. done.
Qed.

(** ** The per-address limiter *)

(** One call: the address and the clock value. *)
Abbreviation IpCall := (string * Z)%type.

Fixpoint ip_run (rate : Z) (calls : list IpCall) (l : perIPLimit) : list bool :=
  match calls with
  | [] => []
  | (ip, now) :: calls' =>
      let '(l', ok) := ip_Allow ip rate now l in ok :: ip_run rate calls' l'
  end.

(** Requests from [ip] in second [sec] among those seen so far. *)
Definition seen (ip : string) (sec : Z) (h : list IpCall) : Z :=
  len (filter (fun c : IpCall => c.1 = ip /\ Time.Unix c.2 = sec) h).

(** The specification: a request is allowed when at most [rate] requests of
    its address, itself included, have come in its second. *)
Fixpoint ip_spec (rate : Z) (h calls : list IpCall) : list bool :=
  match calls with
  | [] => []
  | (ip, now) :: calls' =>
      (seen ip (Time.Unix now) h + 1 <=? rate) :: ip_spec rate (h ++ [(ip, now)]) calls'
  end.

(** What the limiter has counted for [ip] in second [sec]. *)
Definition counted (l : perIPLimit) (ip : string) (sec : Z) : Z :=
  let b := default (MkBucket 0 0) (l !! ip) in if ib_second b =? sec then ib_count b else 0.

Record ip_inv (h : list IpCall) (last : Z) (l : perIPLimit) : Prop := {
  ip_hist : Forall (fun c : IpCall => Time.Unix c.2 <= last) h;
  ip_buckets : map_Forall (fun _ b => ib_second b <= last) l;
  ip_counts : forall ip, counted l ip last = seen ip last h;
}.

Lemma seen_app ip sec h c :
  seen ip sec (h ++ [c]) =
  seen ip sec h + if bool_decide (c.1 = ip /\ Time.Unix c.2 = sec) then 1 else 0.
Proof.
  unfold seen. rewrite filter_app, length_app, Nat2Z.inj_add. f_equal.
  case_bool_decide as H.
  - by rewrite filter_cons_True.
  - by rewrite filter_cons_False.
Qed.

Lemma seen_future ip sec last h :
  Forall (fun c : IpCall => Time.Unix c.2 <= last) h -> last < sec -> seen ip sec h = 0.
Proof.
  intros Hh Hs. unfold seen. replace (filter _ h) with ([] : list IpCall); [done|].
  symmetry. induction Hh as [|c h Hc _ IH]; [done|].
  rewrite filter_cons_False; [done|]. intros [_ ?]. lia.
Qed.

(** Before the call, seen from its own second. *)
Lemma ip_counted_now h last l ip sec :
  ip_inv h last l -> last <= sec -> counted l ip sec = seen ip sec h.
Proof.
  intros [Hh Hb Hc] Hs. destruct (decide (sec = last)) as [->|Hne]; [apply Hc|].
  rewrite (seen_future ip sec last) by (exact Hh || lia). unfold counted.
  destruct (l !! ip) as [b|] eqn:E; simpl; [|by repeat case_match].
  rewrite (proj2 (Z.eqb_neq _ _)); [done|]. pose proof (Hb _ _ E). simpl in *. lia.
Qed.

(** The clean-up never removes a bucket that still counts. *)
Lemma counted_cleanup l ip sec :
  counted (filter (fun '(_, b) => (ib_second b <? sec - 1) = false) l) ip sec = counted l ip sec.
Proof.
  unfold counted. destruct (l !! ip) as [b|] eqn:E.
  - destruct (decide ((ib_second b <? sec - 1) = false)) as [Hk|Hk].
    + rewrite (map_lookup_filter_Some_2 _ _ _ b) by done. done.
    + rewrite map_lookup_filter_None_2 by (right; intros x Hx ?; simplify_eq; done).
      simpl. apply not_false_is_true, Z.ltb_lt in Hk.
      rewrite (proj2 (Z.eqb_neq (ib_second b) sec)) by lia. by repeat case_match.
  - by rewrite map_lookup_filter_None_2 by auto.
Qed.

Lemma ip_Allow_step h last l ip rate now :
  ip_inv h last l -> last <= Time.Unix now -> len h < 2 ^ 64 - 1 ->
  (ip_Allow ip rate now l).2 = (seen ip (Time.Unix now) h + 1 <=? rate) /\
  ip_inv (h ++ [(ip, now)]) (Time.Unix now) (ip_Allow ip rate now l).1.
Proof.
  intros Hi Hs Hlen. unfold ip_Allow. set (sec := Time.Unix now) in *.
  set (l1 := if 10000 <? Z.of_nat (size l) then _ else l).
  assert (Hl1 : forall ip', counted l1 ip' sec = seen ip' sec h).
  { intros ip'. rewrite <- (ip_counted_now h last l) by done.
    unfold l1. destruct (_ <? _); [apply counted_cleanup|done]. }
  assert (Hb1 : map_Forall (fun _ b => ib_second b <= sec) l1).
  { intros k b Hk. apply Z.le_trans with last; [|done]. apply (ip_buckets _ _ _ Hi k).
    unfold l1 in Hk. destruct (_ <? _); [|done]. by apply map_lookup_filter_Some in Hk as [? _]. }
  assert (Hcnt : (if negb (ib_second (default (MkBucket 0 0) (l1 !! ip)) =? sec) then 0
                  else ib_count (default (MkBucket 0 0) (l1 !! ip))) = seen ip sec h).
  { rewrite <- Hl1. unfold counted. by destruct (_ =? sec). }
  rewrite Hcnt.
  assert (Hseen : 0 <= seen ip sec h <= len h).
  { unfold seen. split; [lia|]. apply inj_le. apply length_filter. }
  rewrite u64_small by lia. split; [done|]. split.
  - apply Forall_app. split; [|by repeat constructor].
    eapply Forall_impl; [apply Hi|]. simpl. intros; lia.
  - apply map_Forall_insert_2; [simpl; lia|done].
  - intros ip'. rewrite seen_app. simpl. unfold counted. rewrite lookup_insert.
    case_decide as Hip.
    + subst. simpl. rewrite Z.eqb_refl. by rewrite bool_decide_eq_true_2.
    + rewrite bool_decide_eq_false_2 by naive_solver. rewrite Z.add_0_r, <- Hl1. done.
Qed.

Lemma ip_run_spec rate calls h last l :
  ip_inv h last l -> StronglySorted Z.le (last :: (Time.Unix ∘ snd <$> calls)) ->
  len h + len calls < 2 ^ 64 -> ip_run rate calls l = ip_spec rate h calls.
Proof.
  revert h last l; induction calls as [|[ip now] calls IH]; intros h last l Hi Hs Hlen; [done|].
  cbn [ip_run ip_spec length] in *. apply StronglySorted_inv in Hs as [Hs Hl]. apply Forall_cons in Hl as [Hl _].
  destruct (ip_Allow_step h last l ip rate now Hi Hl) as [Hok Hi']; [lia|].
  destruct (ip_Allow ip rate now l) as [l' ok]. cbn [fst snd] in *. rewrite Hok.
  rewrite (IH (h ++ [(ip, now)]) (Time.Unix now) l'); [done|done|done|]. rewrite length_app. simpl. lia.
Qed.

(** Whether a request gets past the key and the limits. *)
Definition admitted (r : Request) (nowL nowI : Z) (a : HTTPAPI) : bool :=
  if negb (bool_decide (rq_method r = GET)) then
    checkAPIKey r a && (rl_Allow nowL (a_rateLimit a)).2 &&
    (ip_Allow (extractClientIP r) (a_perIPRate a) nowI (a_perIP a)).2
  else (rl_Allow nowL (a_readRateLimit a)).2.

(** Evaluate the projections of an updated API record. *)
Ltac api_cbn :=
  cbn [negb andb fst snd a_sm a_perIP a_perIPRate a_rateLimit with_limits with_read_limit with_sm].

Lemma ServeHTTP_unfold ρ r nowL nowI nowC a :
  let '(a', resp) := ServeHTTP ρ r nowL nowI nowC a in
  if admitted r nowL nowI a
  then a_sm a' = (mux ρ r nowC (a_sm a)).1 /\ resp = (mux ρ r nowC (a_sm a)).2
  else a_sm a' = a_sm a /\ (status resp = 401 \/ status resp = 429).
Proof.
  unfold ServeHTTP, admitted. cbv zeta. destruct (bool_decide (rq_method r = GET)); cbn [negb].
  - destruct (rl_Allow nowL (a_readRateLimit a)) as [rl []]; api_cbn; [|by split; [done|auto]].
    by destruct (mux ρ r nowC (a_sm a)).
  - destruct (checkAPIKey r a); api_cbn; [|by split; [done|auto]].
    destruct (rl_Allow nowL (a_rateLimit a)) as [rl []]; api_cbn; [|by split; [done|auto]].
    destruct (ip_Allow _ _ nowI (a_perIP a)) as [ip []]; api_cbn; [|by split; [done|auto]].
    by destruct (mux ρ r nowC (a_sm a)).
Qed.

Lemma request_call_mutating ρ r now c : request_call ρ r now = Some c -> rq_method r <> GET.
Proof.
  unfold request_call. intros H Hg. rewrite Hg in H. repeat split_guard_in H; done.
Qed.

(** ** What the API lets into the manager *)

Definition session_valid (id : string) (maxPlayers : Z) : Prop :=
  sessionIDPattern id = true /\ 1 <= maxPlayers <= maxSessionPlayers.

Section Service.
(** Any implementation of the session service. *)
Context {M : Type} `{SessionService M}.

Definition service_ok (m : M) : Prop :=
  svc_ok m /\ map_Forall session_valid (a_sessions (svc_abs m)).

Lemma request_call_create ρ r now id n t :
  request_call ρ r now = Some (CallCreate id n t) -> session_valid id n.
Proof using Type.
  unfold request_call, session_valid, maxSessionPlayers. intros Hc.
  repeat split_guard_in Hc; try done; (split; [done|]); split_guard; bool_facts; lia.
Qed.

Lemma spec_call_valid c a :
  (forall id n t, c = CallCreate id n t -> session_valid id n) ->
  map_Forall session_valid (a_sessions a) ->
  map_Forall session_valid (a_sessions (spec_call c a).1).
Proof using Type.
  intros Hc Ha. destruct c as [id n t|ρ id|id pid lg|id pid]; simpl.
  - unfold spec_create. repeat split_guard; try done. apply map_Forall_insert_2; [|done].
    by apply (Hc id n t).
  - unfold spec_delete. split_guard; [|done]. by apply map_Forall_delete.
  - unfold spec_join. by repeat split_guard.
  - unfold spec_leave. by repeat split_guard.
Qed.

(** A request that stands for a call keeps the service's sessions valid. *)
Lemma service_ok_request ρ r now c m :
  request_call ρ r now = Some c -> service_ok m -> service_ok (svc_call c m).1.
Proof using Type.
  intros Hc [Hok Hv]. split; [by apply svc_keeps|].
  pose proof (svc_refines c m Hok) as Hr. apply (f_equal fst) in Hr. cbn [fst] in Hr.
  rewrite <- Hr. apply spec_call_valid; [|done].
  intros id n t ->. by eapply request_call_create.
Qed.
End Service.

Lemma api_ok_step ρ r nowL nowI nowC a :
  service_ok (a_sm a) -> service_ok (a_sm (ServeHTTP ρ r nowL nowI nowC a).1).
Proof.
  intros Hs. pose proof (ServeHTTP_unfold ρ r nowL nowI nowC a) as H.
  destruct (ServeHTTP ρ r nowL nowI nowC a) as [a' resp]. simpl.
  destruct (admitted r nowL nowI a); destruct H as [-> _]; [|done].
  pose proof (mux_call ρ r nowC (a_sm a)) as Hmux.
  destruct (request_call ρ r nowC) as [c|] eqn:Hc; [|by rewrite Hmux].
  destruct Hmux as [-> _]. change (run_call c (a_sm a)) with (svc_call c (a_sm a)).
  by apply (service_ok_request ρ r nowC c (a_sm a)).
Qed.

(** A served sequence of requests with their clock values. *)
Record HttpEvent := MkHttpEvent { he_req : Request; he_L : Z; he_I : Z; he_C : Z }.
Fixpoint serve (ρ : Shuffle) (es : list HttpEvent) (a : HTTPAPI) : HTTPAPI :=
  match es with
  | [] => a
  | e :: es' => serve ρ es' (ServeHTTP ρ (he_req e) (he_L e) (he_I e) (he_C e) a).1
  end.

Lemma serve_ok ρ es a : service_ok (a_sm a) -> service_ok (a_sm (serve ρ es a)).
Proof.
  revert a; induction es as [|e es IH]; intros a Ha; simpl; [done|].
  by apply IH, api_ok_step.
Qed.

(** ** Theorems *)

(** C14. Access control and effect of a request.  The manager changes only for
    a non-GET request that carries the configured key and passes both rate
    limits, and then by exactly the call the request stands for; the status
    code reports that call's outcome.  Every other request leaves the manager
    as it is. *)
Theorem http_request_effect (ρ : Shuffle) (r : Request) (nowL nowI nowC : Z) (a a' : HTTPAPI)
    (resp : Response) :
  ServeHTTP ρ r nowL nowI nowC a = (a', resp) ->
  match request_call ρ r nowC with
  | Some c =>
      if checkAPIKey r a && (rl_Allow nowL (a_rateLimit a)).2 &&
         (ip_Allow (extractClientIP r) (a_perIPRate a) nowI (a_perIP a)).2
      then a_sm a' = (run_call c (a_sm a)).1 /\
           status resp = call_status c (run_call c (a_sm a)).2
      else a_sm a' = a_sm a /\ (status resp = 401 \/ status resp = 429)
  | None => a_sm a' = a_sm a
  end.
Proof.
  intros E. pose proof (ServeHTTP_unfold ρ r nowL nowI nowC a) as H. rewrite E in H.
  pose proof (mux_call ρ r nowC (a_sm a)) as Hm.
  destruct (request_call ρ r nowC) as [c|] eqn:Hc.
  - apply request_call_mutating in Hc. unfold admitted in H.
    rewrite bool_decide_eq_false_2 in H by done. cbn [negb] in H.
    destruct (_ && _); destruct H as [H1 H2]; [|done].
    destruct Hm as [Hm1 Hm2]. subst. by rewrite H1.
  - destruct (admitted r nowL nowI a); destruct H as [-> _]; done.
Qed.

Definition demo_body : Body :=
  MkBody (Some (JObj [("session_id", JStr "g"); ("max_players", JNum false (Some 99))])) [].
Definition demo_request : Request :=
  MkRequest POST "/sessions" "10.0.0.1:999" "Bearer k" demo_body.
Definition demo_api : HTTPAPI := NewHTTPAPI (NewSessionManager zero_metrics) "k" 0 0.

Lemma http_request_effect_witness :
  a_sm (ServeHTTP id_shuffle demo_request 1 2 3 demo_api).1 =
    (run_call (CallCreate "g" 32 3) (a_sm demo_api)).1 /\
  status (ServeHTTP id_shuffle demo_request 1 2 3 demo_api).2 =
    call_status (CallCreate "g" 32 3) (run_call (CallCreate "g" 32 3) (a_sm demo_api)).2.
Proof.
  exact (http_request_effect id_shuffle demo_request 1 2 3 demo_api
           (ServeHTTP id_shuffle demo_request 1 2 3 demo_api).1
           (ServeHTTP id_shuffle demo_request 1 2 3 demo_api).2 (surjective_pairing _)).
Defined.

(** C35. What any sequence of HTTP requests can do to a fresh server: every
    session that exists has a well-formed identifier of 1 to 64 characters and
    a capacity of 1 to 32, and holds no more players than that. *)
Theorem http_sessions_valid (ρ : Shuffle) (es : list HttpEvent) (key : string) (g i : Z)
    (sid : string) (l : loc) (s : Session) :
  registered (a_sm (serve ρ es (NewHTTPAPI (NewSessionManager zero_metrics) key g i))) sid l s ->
  sessionIDPattern sid = true /\ 1 <= MaxPlayers s <= maxSessionPlayers /\
  PlayerCount s <= MaxPlayers s.
Proof.
  intros [Hse Hl].
  destruct (serve_ok ρ es (NewHTTPAPI (NewSessionManager zero_metrics) key g i)) as [Hm Hv].
  { split; [apply mgr_ok_new|]. intros k x Hk. rewrite abs_lookup in Hk. done. }
  set (m := a_sm (serve _ _ _)) in *.
  assert (Hlk : a_sessions (abs m) !! sid = Some (MaxPlayers s)).
  { rewrite abs_lookup, Hse. simpl. by rewrite (deref_lookup l m s). }
  destruct (Hv _ _ Hlk) as [Hp Hmx]. split; [done|]. split; [done|].
  pose proof (ok_capacity s (inv_heap m Hm l s Hl)). lia.
Qed.

Lemma http_sessions_valid_witness :
  sessionIDPattern "g" = true /\ 1 <= MaxPlayers (NewSession "g" 32 3) <= maxSessionPlayers /\
  PlayerCount (NewSession "g" 32 3) <= MaxPlayers (NewSession "g" 32 3).
Proof.
  apply (http_sessions_valid id_shuffle [MkHttpEvent demo_request 1 2 3] "k" 0 0 "g" 0%nat).
  split; by vm_compute.
Defined.

(** C38. The per-address limiter counts exactly.  As long as the clock does not
    go back, each request is allowed if and only if at most [rate] requests of
    the same address have come in the same second, although the limiter
    forgets old buckets when it holds more than 10000. *)
Theorem per_ip_limit_exact (rate : Z) (calls : list IpCall) :
  StronglySorted Z.le (Time.Unix ∘ snd <$> calls) -> len calls < 2 ^ 64 ->
  ip_run rate calls ∅ = ip_spec rate [] calls.
Proof.
  intros Hs Hlen. destruct calls as [|[ip now] calls]; [done|].
  apply (ip_run_spec rate _ [] (Time.Unix now) ∅).
  - split; [constructor|apply map_Forall_empty|]. intros ip'. unfold counted, seen; simpl.
    rewrite lookup_empty. by repeat case_match.
  - constructor; [done|]. simpl in *. apply StronglySorted_inv in Hs as [_ Hs].
    constructor; [lia|done].
  - simpl in *. lia.
Qed.

Lemma per_ip_limit_exact_witness :
  ip_run 1 [("x", 0); ("x", 1); ("y", 2); ("x", Time.Second)] ∅ =
  ip_spec 1 [] [("x", 0); ("x", 1); ("y", 2); ("x", Time.Second)].
Proof.
  apply per_ip_limit_exact; [|by vm_compute].
  repeat constructor; vm_compute; congruence.
Defined.

(** The request decoder means to refuse anything after the first JSON value,
    but a closing bracket or brace followed by arbitrary bytes passes. *)
Lemma trailing_bracket_accepted {R} (set : string -> option (JSON -> R -> option R)) (zero r : R)
    (v : JSON) (garbage : bytes) :
  decodeJSONBody set zero (MkBody (Some v) []) = Some r ->
  decodeJSONBody set zero (MkBody (Some v) (Byte.x5d :: garbage)) = Some r /\
  decodeJSONBody set zero (MkBody (Some v) (Byte.x7d :: garbage)) = Some r.
Proof. by unfold decodeJSONBody. Qed.
