(* ===== verification/ServerLoop.v ===== *)
(** * The running relay server

    The goroutines that [Server.Run] starts share one session manager: the UDP
    loop, a handler per TCP connection, the HTTP API and the reaper.  [srvStep]
    is one atomic step of one of them, on the state they share; the reaper
    takes two, between which the others run. *)

From S2P Require Import Prelude GoLib RelayWire TcpFrame Metrics Session SessionManager.
From S2P Require Import ManagerSpec Router HttpApi.

Record Running := MkRunning {
  v_api : HTTPAPI;                          (* the API with the shared manager *)
  v_pending : option (list reapCandidate)   (* the reaper between its phases *)
}.
Definition v_sm (st : Running) : Manager := a_sm (v_api st).
Definition with_mgr (m : Manager) (st : Running) : Running :=
  MkRunning (with_sm m (v_api st)) (v_pending st).

Inductive SrvEvent :=
| SvUdp (datagram : bytes) (remote : AddrPort) (now : Z)
| SvTcp (conn : Conn) (stream : bytes) (now : Z)
| SvHttp (r : Request) (nowL nowI nowC : Z)
| SvScan (now : Z) (clk : loc -> Z)
| SvApply (now : Z) (clk : loc -> Z -> Z).

Definition srvStep (net : Net) (ρ : Shuffle) (e : SrvEvent) (st : Running) : outcome Running :=
  match e with
  | SvUdp d remote now =>
      '(m, _) ← udpPacket net ρ (take (Z.to_nat readBufSize) d) remote now (v_sm st);
      Ret (with_mgr m st)
  | SvTcp conn stream now =>
      match Server.readTCPFrame readBufSize stream with
      | Err _ => Ret st
      | Ok (buf, _) =>
          '(m, _, _) ← tcpPacket net ρ conn buf now (v_sm st); Ret (with_mgr m st)
      end
  | SvHttp r nowL nowI nowC =>
      Ret (MkRunning (ServeHTTP ρ r nowL nowI nowC (v_api st)).1 (v_pending st))
  | SvScan now clk =>
      match v_pending st with
      | Some _ => Ret st
      | None =>
          let cs := reapPhase1 ρ now clk (v_sm st) in
          Ret (MkRunning (v_api st) (if len cs =? 0 then None else Some cs))
      end
  | SvApply now clk =>
      match v_pending st with
      | None => Ret st
      | Some cs =>
          Ret (MkRunning (with_sm (r_mgr (reapPhase2 now clk cs (v_sm st))) (v_api st)) None)
      end
  end.

Fixpoint srvRun (net : Net) (ρ : Shuffle) (es : list SrvEvent) (st : Running) : outcome Running :=
  match es with [] => Ret st | e :: es' => st' ← srvStep net ρ e st; srvRun net ρ es' st' end.

(** ** What one step does to the manager *)

(** The packet loops change one player's record at most. *)
Lemma udpPacket_effect net ρ buf remote now m m' outs :
  net_wf net -> udpPacket net ρ buf remote now m = Ret (m', outs) ->
  same_sessions m m' /\
    (forall s d, DecodeRelayHeader buf = Ok (s, d) -> FindSessionByPlayer s m = None) \/
  exists sender dest l, DecodeRelayHeader buf = Ok (sender, dest) /\
    FindSessionByPlayer sender m = Some l /\ same_sessions (udpUpdate l sender remote now m).1 m'.
Proof.
  intros Hw. rewrite udpPacket_unfold.
  destruct (DecodeRelayHeader buf) as [[sender dest]|];
    [|intros [= <- <-]; left; split; [auto with relay|done]].
  destruct (FindSessionByPlayer sender m) as [l|] eqn:Ef;
    [|intros [= <- <-]; left; split; [auto with relay|by intros ?? [= <- <-]]].
  intros H. right. exists sender, dest, l. split; [done|]. split; [done|].
  destruct (udpUpdate l sender remote now m) as [m1 v]. simpl.
  destruct (accepts v); [destruct (dest =? sender)|].
  - simplify_eq. auto with relay.
  - by apply route_same in H.
  - simplify_eq. unfold count_reject. destruct v; auto with relay.
Qed.

Lemma tcpPacket_effect net ρ conn buf now m m' outs cont :
  net_wf net -> tcpPacket net ρ conn buf now m = Ret (m', outs, cont) ->
  same_sessions m m' \/
  exists sender dest l, DecodeRelayHeader buf = Ok (sender, dest) /\
    FindSessionByPlayer sender m = Some l /\ same_sessions (tcpUpdate l sender conn now m).1 m'.
Proof.
  intros Hw. rewrite tcpPacket_unfold.
  destruct (DecodeRelayHeader buf) as [[sender dest]|]; [|intros [= <- <- <-]; left; auto with relay].
  destruct (FindSessionByPlayer sender m) as [l|] eqn:Ef; [|intros [= <- <- <-]; left; auto with relay].
  intros H. right. exists sender, dest, l. split; [done|]. split; [done|].
  destruct (tcpUpdate l sender conn now m) as [m1 [v old]]. cbv zeta in H. simpl.
  destruct (accepts v); [destruct (dest =? sender)|].
  - destruct (Server.writeTCPFrame _ _); [|done]. simpl in H.
    destruct (tcp_ok _ _ _); simplify_eq; [auto with relay|done].
  - destruct (route net ρ l sender dest buf m1) as [[m2 o]|] eqn:E; [|done]. simplify_eq/=.
    by apply route_same in E.
  - simplify_eq. unfold count_reject. destruct v; auto with relay.
Qed.

(** The manager after a request. *)
Lemma ServeHTTP_effect ρ r nowL nowI nowC a :
  a_sm (ServeHTTP ρ r nowL nowI nowC a).1 = a_sm a \/
  exists c, request_call ρ r nowC = Some c /\
    a_sm (ServeHTTP ρ r nowL nowI nowC a).1 = (run_call c (a_sm a)).1.
Proof.
  pose proof (ServeHTTP_unfold ρ r nowL nowI nowC a) as H.
  destruct (ServeHTTP ρ r nowL nowI nowC a) as [a' resp]. simpl.
  destruct (admitted r nowL nowI a); destruct H as [-> _]; [|by left].
  pose proof (mux_call ρ r nowC (a_sm a)) as Hm.
  destruct (request_call ρ r nowC) as [c|]; [right|left; done]. exists c. by destruct Hm.
Qed.

(** ** The invariant *)

(** A [DELETE] between the two phases of the reaper is the one interleaving
    the manager does not survive ([reaper_delete_race]).  [pend] says that the
    reaper may be between its phases. *)
Definition deletes (ρ : Shuffle) (e : SrvEvent) : bool :=
  match e with
  | SvHttp r _ _ nowC => match request_call ρ r nowC with Some c => is_delete c | None => false end
  | _ => false
  end.
Definition pend_after (e : SrvEvent) (pend : bool) : bool :=
  match e with SvScan _ _ => true | SvApply _ _ => false | _ => pend end.
Fixpoint calm (ρ : Shuffle) (pend : bool) (es : list SrvEvent) : Prop :=
  match es with
  | [] => True
  | e :: es' => (pend = true -> deletes ρ e = false) /\ calm ρ (pend_after e pend) es'
  end.
(** Datagrams of at most 1400 bytes: longer ones can stop the server
    ([udp_panics_iff]). *)
Definition sized (e : SrvEvent) : Prop :=
  match e with SvUdp d _ _ => len d <= 1400 | _ => True end.

Record run_ok (pend : bool) (st : Running) : Prop := {
  ro_service : service_ok (v_sm st);
  ro_cands : pending_ok (MkR (v_sm st) (v_pending st));
  ro_pend : is_Some (v_pending st) -> pend = true }.

Lemma valid_abs m m' :
  a_sessions (abs m') = a_sessions (abs m) -> mgr_ok m' -> service_ok m -> service_ok m'.
Proof. intros E Hm [_ Hv]. split; [done|]. simpl in *. by rewrite E. Qed.

(** What keeps the registered sessions and their capacities keeps the
    invariant. *)
Lemma run_ok_mgr pend m st :
  run_ok pend st -> mgr_ok m -> m_sessions m = m_sessions (v_sm st) ->
  a_sessions (abs m) = a_sessions (abs (v_sm st)) -> run_ok pend (with_mgr m st).
Proof.
  intros [Hs [Hm Hc] Hp] Hm' E Ea. split; [by eapply valid_abs| |done].
  split; [done|]. cbn [rs_pending rs_mgr v_pending with_mgr] in *.
  destruct (v_pending st) as [cs|]; [|done]. destruct Hc as [Hc Hn]. split; [|done].
  eapply Forall_impl; [exact Hc|]. intros c. unfold cand_ok. cbn [v_sm v_api with_mgr a_sm with_sm].
  by rewrite E.
Qed.

Lemma same_abs m m' : same_sessions m m' -> a_sessions (abs m') = a_sessions (abs m).
Proof.
  intros [Hh _ Hs _ _ _]. simpl. rewrite Hs. apply map_fmap_ext. intros sid l _.
  unfold deref. by rewrite Hh.
Qed.

Lemma udpUpdate_abs l pid remote now m :
  a_sessions (abs (udpUpdate l pid remote now m).1) = a_sessions (abs m) /\
  m_sessions (udpUpdate l pid remote now m).1 = m_sessions m /\
  m_index (udpUpdate l pid remote now m).1 = m_index m.
Proof.
  unfold udpUpdate. destruct (UpdatePlayerAddr pid remote now (deref l m)) as [s v] eqn:E.
  split; [|done]. apply abs_sessions_set. revert E. unfold UpdatePlayerAddr.
  repeat split_guard; intros; by simplify_eq.
Qed.

Lemma tcpUpdate_abs l pid conn now m :
  a_sessions (abs (tcpUpdate l pid conn now m).1) = a_sessions (abs m) /\
  m_sessions (tcpUpdate l pid conn now m).1 = m_sessions m /\
  m_index (tcpUpdate l pid conn now m).1 = m_index m.
Proof.
  unfold tcpUpdate. destruct (UpdatePlayerTCP pid conn now (deref l m)) as [s v] eqn:E.
  split; [|done]. apply abs_sessions_set. revert E. unfold UpdatePlayerTCP.
  repeat split_guard; intros; by simplify_eq.
Qed.

(** The reaper removes sessions and players; capacities stay. *)
Lemma reapPlayer_capacity clk l st pid l' :
  MaxPlayers (deref l' (r_mgr (reapPlayer clk l st pid))) = MaxPlayers (deref l' (r_mgr st)).
Proof.
  unfold reapPlayer, RemovePlayerIfStale.
  destruct (players _ !! pid) as [p|]; [destruct (negb _)|]; unfold deref; simpl;
    rewrite lookup_insert; case_decide; by subst.
Qed.

Lemma reapPhase2_capacity now clk cs m l :
  MaxPlayers (deref l (r_mgr (reapPhase2 now clk cs m))) = MaxPlayers (deref l m).
Proof.
  unfold reapPhase2. change m with (r_mgr (MkReap m 0 0 [])) at 2. generalize (MkReap m 0 0 []) as st.
  induction cs as [|c cs IH]; intros st; [done|]. cbn [foldl]. rewrite IH. unfold reapOne.
  assert (Hf : forall pids st', MaxPlayers (deref l (r_mgr (foldl (reapPlayer clk (c_session c)) st' pids))) =
                                MaxPlayers (deref l (r_mgr st'))).
  { intros pids. induction pids as [|pid pids IHp]; intros st'; [done|].
    cbn [foldl]. rewrite IHp. apply reapPlayer_capacity. }
  by destruct (_ && _); rewrite <- (Hf (c_stalePIDs c) st).
Qed.

Lemma service_ok_reap now clk cs m :
  service_ok m -> mgr_ok (r_mgr (reapPhase2 now clk cs m)) -> service_ok (r_mgr (reapPhase2 now clk cs m)).
Proof.
  intros [_ Hv] Hm. split; [done|]. intros sid n Hn. simpl in *.
  apply lookup_fmap_Some in Hn as (l & <- & Hl). rewrite reapPhase2_capacity. apply Hv.
  unfold reapPhase2 in Hl. apply reapPhase2_sessions_sub in Hl. simpl in Hl. by rewrite lookup_fmap, Hl.
Qed.

(** One datagram. *)
Lemma run_ok_udp_ret net ρ d remote now pend st st' :
  net_wf net -> run_ok pend st -> srvStep net ρ (SvUdp d remote now) st = Ret st' -> run_ok pend st'.
Proof.
  intros Hw Hok H. pose proof Hok as [Hs [Hm Hc] Hp]. cbn [rs_mgr rs_pending srvStep] in *.
  destruct (udpPacket net ρ _ remote now (v_sm st)) as [[m outs]|] eqn:E; [|done]. injection H as <-.
  pose proof (mgr_ok_udpPacket _ _ _ _ _ _ _ _ Hm Hw E) as Hm'.
  apply run_ok_mgr; [done|done|..];
    apply udpPacket_effect in E as [[E _]|(s & dd & l & _ & _ & E)]; try done.
  - apply E.
  - rewrite (same_map _ _ E). apply udpUpdate_abs.
  - by apply same_abs.
  - rewrite (same_abs _ _ E). apply udpUpdate_abs.
Qed.

Lemma run_ok_udp net ρ d remote now pend st :
  net_wf net -> len d <= 1400 -> run_ok pend st ->
  exists st', srvStep net ρ (SvUdp d remote now) st = Ret st' /\ run_ok pend st'.
Proof.
  intros Hw Hsz Hok. destruct (srvStep net ρ (SvUdp d remote now) st) as [st'|] eqn:E.
  - exists st'. split; [done|]. by eapply run_ok_udp_ret.
  - exfalso. cbn [srvStep] in E. destruct (udpPacket net ρ _ remote now (v_sm st)) as [[m outs]|] eqn:Ep; [done|].
    apply udpPacket_Panic in Ep as [Ep _]; [|done]. rewrite length_take in Ep. lia.
Qed.

(** One TCP frame. *)
Lemma run_ok_tcp net ρ conn stream now pend st :
  net_wf net -> run_ok pend st ->
  exists st', srvStep net ρ (SvTcp conn stream now) st = Ret st' /\ run_ok pend st'.
Proof.
  intros Hw Hok. pose proof Hok as [Hs [Hm Hc] Hp]. cbn [rs_mgr rs_pending srvStep] in *.
  destruct (Server.readTCPFrame readBufSize stream) as [[buf rest]|] eqn:Er; [|by eauto].
  destruct (tcpPacket net ρ conn buf now (v_sm st)) as [[[m outs] cont]|] eqn:E.
  - eexists. split; [done|]. pose proof (mgr_ok_tcpPacket _ _ _ _ _ _ _ _ _ Hm Hw E) as Hm'.
    apply run_ok_mgr; [done|done|..];
      apply tcpPacket_effect in E as [E|(s & dd & l & _ & _ & E)]; try done.
    + apply E.
    + rewrite (same_map _ _ E). apply tcpUpdate_abs.
    + by apply same_abs.
    + rewrite (same_abs _ _ E). apply tcpUpdate_abs.
  - exfalso. apply server_read_Ok in Er as (Hl & _ & _).
    by apply (tcpPacket_no_panic net ρ conn buf now (v_sm st)) in E; [|done|lia].
Qed.

Lemma run_ok_step net ρ e pend st :
  net_wf net -> sized e -> (pend = true -> deletes ρ e = false) -> run_ok pend st ->
  exists st', srvStep net ρ e st = Ret st' /\ run_ok (pend_after e pend) st'.
Proof.
  intros Hw Hsz Hd Hok. pose proof Hok as [Hs [Hm Hc] Hp]. cbn [rs_mgr rs_pending] in *.
  destruct e as [d remote now|conn stream now|r nowL nowI nowC|now clk|now clk];
    [by apply run_ok_udp|by apply run_ok_tcp|cbn [srvStep pend_after]..].
  - eexists. split; [done|]. split; [|split|]; cbn [rs_mgr rs_pending v_pending v_sm v_api].
    + by apply api_ok_step.
    + apply (api_ok_step ρ r nowL nowI nowC (v_api st) Hs).
    + destruct (v_pending st) as [cs|]; [|done]. destruct Hc as [Hc Hn]. split; [|done].
      specialize (Hd (Hp (mk_is_Some _ _ eq_refl))). cbn [deletes] in Hd.
      destruct (ServeHTTP_effect ρ r nowL nowI nowC (v_api st)) as [E|(c & Ec & E)]; unfold v_sm in *;
        cbn [v_api] in *; rewrite E; [done|].
      rewrite Ec in Hd. eapply Forall_impl; [exact Hc|]. intros cc. by apply call_keeps_sessions.
    + done.
  - destruct (v_pending st) as [cs|] eqn:Ep; [eexists; split; [done|]; split; [done|split; [done|]|done]; by rewrite Ep|].
    eexists. split; [done|]. split; [done| |done]. split; [done|]. cbn [rs_pending v_pending].
    destruct (_ =? 0); [done|]. apply reapPhase1_ok.
  - destruct (v_pending st) as [cs|] eqn:Ep; [|eexists; split; [done|]; split; [done| |]].
    + destruct Hc as [Hc Hn]. pose proof (reapPhase2_ok now clk cs _ Hm Hc Hn) as Hm'.
      eexists. split; [done|]. split; [|done|by intros []]. by apply service_ok_reap.
    + by rewrite Ep.
    + by rewrite Ep; intros [].
Qed.

Lemma run_ok_run net ρ es pend st :
  net_wf net -> Forall sized es -> calm ρ pend es -> run_ok pend st ->
  exists st', srvRun net ρ es st = Ret st' /\ run_ok (foldl (fun b e => pend_after e b) pend es) st'.
Proof.
  intros Hw. revert pend st; induction es as [|e es IH]; intros pend st Hs Hc Hok; [by eauto|].
  apply Forall_cons in Hs as [He Hs]. destruct Hc as [Hd Hc].
  destruct (run_ok_step net ρ e pend st Hw He Hd Hok) as (st1 & E & Hok1).
  cbn [srvRun foldl]. rewrite E. by apply IH.
Qed.

Lemma run_ok_step_any net ρ e pend st :
  net_wf net -> (pend = true -> deletes ρ e = false) -> run_ok pend st ->
  match srvStep net ρ e st with
  | Ret st' => run_ok (pend_after e pend) st'
  | Panic => exists d remote now, e = SvUdp d remote now /\ 1400 < len d /\
      udpPacket net ρ (take (Z.to_nat readBufSize) d) remote now (v_sm st) = Panic
  end.
Proof.
  intros Hw Hd Hok.
  assert (Hsz : sized e -> exists st', srvStep net ρ e st = Ret st' /\ run_ok (pend_after e pend) st')
    by (intros; by apply run_ok_step).
  destruct e as [d remote now| | | |]; try (destruct (Hsz I) as (st' & -> & H); exact H).
  destruct (srvStep net ρ (SvUdp d remote now) st) as [st'|] eqn:E; [by eapply run_ok_udp_ret|].
  exists d, remote, now. split; [done|]. cbn [srvStep] in E.
  destruct (udpPacket net ρ _ remote now (v_sm st)) as [[m outs]|] eqn:Ep; [done|]. split; [|done].
  apply udpPacket_Panic in Ep as [Ep _]; [|done]. rewrite length_take in Ep. lia.
Qed.

(** The same without a bound on the datagrams: the first one that panics is too
    long. *)
Lemma run_ok_any net ρ es pend st :
  net_wf net -> calm ρ pend es -> run_ok pend st ->
  match srvRun net ρ es st with
  | Ret st' => run_ok (foldl (fun b e => pend_after e b) pend es) st'
  | Panic =>
      exists es1 d remote now es2 st1 b,
        es = es1 ++ SvUdp d remote now :: es2 /\ srvRun net ρ es1 st = Ret st1 /\ run_ok b st1 /\
        1400 < len d /\ udpPacket net ρ (take (Z.to_nat readBufSize) d) remote now (v_sm st1) = Panic
  end.
Proof.
  intros Hw. revert pend st; induction es as [|e es IH]; intros pend st Hc Hok; [done|].
  destruct Hc as [Hd Hc]. cbn [srvRun foldl].
  pose proof (run_ok_step_any net ρ e pend st Hw Hd Hok) as Hstep.
  destruct (srvStep net ρ e st) as [st1|] eqn:E1; cbn [mbind outcome_bind].
  - specialize (IH (pend_after e pend) st1 Hc Hstep). destruct (srvRun net ρ es st1) as [st2|]; [done|].
    destruct IH as (es1 & d & remote & now & es2 & st2 & b & -> & E & H). exists (e :: es1), d, remote, now, es2, st2, b.
    split; [done|]. split; [|done]. cbn [srvRun]. by rewrite E1.
  - destruct Hstep as (d & remote & now & -> & Hl & E). by exists [], d, remote, now, es, st, pend.
Qed.

Lemma calm_app ρ b es1 es2 :
  calm ρ b (es1 ++ es2) -> calm ρ b es1 /\ calm ρ (foldl (fun b e => pend_after e b) b es1) es2.
Proof.
  revert b; induction es1 as [|e es1 IH]; intros b H; [done|]. destruct H as [H1 H2].
  destruct (IH _ H2). done.
Qed.

(** [NewServer] and the start of [Run]: an empty manager. *)
Definition startRunning (apiKey : string) (globalRate perIPRate : Z) : Running :=
  MkRunning (NewHTTPAPI (NewSessionManager zero_metrics) apiKey globalRate perIPRate) None.

Lemma run_ok_start key g p : run_ok false (startRunning key g p).
Proof. split; [|split; [apply mgr_ok_new|done]|by intros []]. split; [apply mgr_ok_new|done]. Qed.

(** ** A player that keeps sending *)

Section live.
Context (net : Net) (ρ : Shuffle) (pid : Z) (sid : string) (l : loc) (a : Addr).

(** The player is registered, bound to address [a], and was heard of at most a
    second before [t]: a packet over the rate limit is not recorded, but then
    another packet of the same second was. *)
Record live (t : Z) (m : Manager) (p : PlayerInfo) : Prop := {
  lv_index : m_index m !! pid = Some sid;
  lv_session : m_sessions m !! sid = Some l;
  lv_player : players (deref l m) !! pid = Some p;
  lv_addr : ap_addr (p_Addr p) = a;
  lv_valid : Addr_IsValid a = true;
  lv_rate : Time.Unix (LastSeen p) = rateSecond p;
  lv_seen : t < LastSeen p + Time.Second;
  lv_time : 0 < t;
  lv_pos : 0 < LastSeen p }.

(** A packet of the player itself. *)
Definition own (d : bytes) (remote : AddrPort) : bool :=
  match DecodeRelayHeader (take (Z.to_nat readBufSize) d) with
  | Ok (sender, _) => (sender =? pid) && bool_decide (ap_addr remote = a)
  | Err _ => false
  end.

(** The requests of the player's own client and of the lobby that end its
    membership. *)
Definition spares (c : mgr_call) : Prop :=
  match c with
  | CallDelete _ id => id <> sid
  | CallJoin _ p _ | CallLeave _ p => p <> pid
  | CallCreate _ _ _ => True
  end.

(** [t] is the time of the player's last packet: clocks do not run backwards,
    the reaper removes players only while that is at most 89 seconds ago, and
    nobody takes the player out of its session. *)
Fixpoint attended (t : Z) (es : list SrvEvent) : Prop :=
  match es with
  | [] => True
  | SvUdp d remote now :: es' => t <= now /\ attended (if own d remote then now else t) es'
  | SvTcp _ _ now :: es' => t <= now /\ attended t es'
  | SvHttp r _ _ nowC :: es' =>
      match request_call ρ r nowC with Some c => spares c | None => True end /\ attended t es'
  | SvScan _ _ :: es' => attended t es'
  | SvApply _ clk :: es' => clk l pid - t <= PlayerTimeout - Time.Second /\ attended t es'
  end.

Lemma live_same t m m' p : same_sessions m m' -> live t m p -> live t m' p.
Proof.
  intros Hs []. split; try done.
  - by rewrite (same_index _ _ Hs).
  - by rewrite (same_map _ _ Hs).
  - by rewrite (same_deref _ _ _ Hs).
Qed.

(** Two times of the same second. *)
Lemma same_second x y : Time.Unix x = Time.Unix y -> x < y + Time.Second.
Proof.
  unfold Time.Unix, Time.Second. intros H.
  pose proof (Z.div_mod x 1000000000). pose proof (Z.div_mod y 1000000000).
  pose proof (Z.mod_pos_bound x 1000000000). pose proof (Z.mod_pos_bound y 1000000000). lia.
Qed.

(** What [CheckRate] leaves of the rate invariant: either the packet is
    counted, or another one of its second was recorded. *)
Lemma CheckRate_second p now p1 ok :
  Time.Unix (LastSeen p) = rateSecond p -> CheckRate p (Time.Unix now) = (p1, ok) ->
  rateSecond p1 = Time.Unix now /\ LastSeen p1 = LastSeen p /\ p_Addr p1 = p_Addr p /\
  p_TCPConn p1 = p_TCPConn p /\ (ok = false -> Time.Unix (LastSeen p) = Time.Unix now).
Proof.
  intros Hr H. unfold CheckRate in H. simplify_eq/=. split_and!; try done.
  intros Hok. destruct (Z.eqb_spec (rateSecond p) (Time.Unix now)); [congruence|]. done.
Qed.

(** The player's record after an update of the session at [l']. *)
Lemma live_set t0 t m p l' s' p' :
  live t0 m p -> (l' = l -> players s' !! pid = Some p') -> (l' <> l -> p' = p) ->
  ap_addr (p_Addr p') = a -> Time.Unix (LastSeen p') = rateSecond p' -> t < LastSeen p' + Time.Second ->
  0 < LastSeen p' -> t0 <= t -> live t (set_session l' s' m) p'.
Proof.
  intros [] H1 H2 Ha Hr Hs Hp Ht. split; try done; [|lia]. unfold deref. simpl. rewrite lookup_insert.
  case_decide as E; [by apply H1|]. rewrite H2 by done. done.
Qed.

(** The packet path through a session pointer: [upd] is [UpdatePlayerAddr] or
    [UpdatePlayerTCP] of [sender]. *)
Lemma live_other t m p l' s' sender :
  live t m p -> sender <> pid ->
  players s' !! pid = players (deref l' m) !! pid -> live t (set_session l' s' m) p.
Proof.
  intros Hl Hne E. pose proof Hl as []. eapply live_set; try done.
  intros ->. by rewrite E.
Qed.

Lemma live_udp t m p sender remote now l' :
  live t m p -> t <= now -> (sender = pid -> l' = l) ->
  exists p', live (if (sender =? pid) && bool_decide (ap_addr remote = a) then now else t)
               (udpUpdate l' sender remote now m).1 p' /\
             (p_TCPConn p' = p_TCPConn p \/ p_TCPConn p' = None).
Proof.
  intros Hl Ht Hs. unfold udpUpdate.
  destruct (Z.eqb_spec sender pid) as [->|Hne]; cbn [andb].
  - rewrite (Hs eq_refl). pose proof Hl as [_ _ Hp Ha Hv Hr Hseen Htime Hpos]. unfold UpdatePlayerAddr. rewrite Hp.
    unfold IsValid. rewrite Ha, Hv. cbn [andb].
    destruct (bool_decide_reflect (ap_addr remote = a)) as [E|E].
    + rewrite bool_decide_eq_true_2 by done. cbn [negb].
      destruct (CheckRate p (Time.Unix now)) as [p1 ok] eqn:Ec.
      apply CheckRate_second in Ec as (H1 & H2 & H3 & H5 & H4); [|done].
      destruct ok; cbn [negb fst]; eexists;
        (split; [eapply live_set; [exact Hl|intros _; apply lookup_put_eq|done|..]|]).
      * done.
      * simpl. congruence.
      * simpl. unfold Time.Second. lia.
      * simpl. lia.
      * done.
      * by right.
      * congruence.
      * rewrite H2, H1. by apply H4.
      * rewrite H2. apply same_second. symmetry. by apply H4.
      * by rewrite H2.
      * done.
      * by left.
    + rewrite bool_decide_eq_false_2 by congruence. cbn [negb fst]. exists p.
      split; [by eapply (live_set t)|by left].
  - exists p. pose proof (UpdatePlayerAddr_other sender pid remote now (deref l' m) Hne) as E.
    destruct (UpdatePlayerAddr sender remote now (deref l' m)) as [s' v]. split; [by eapply live_other|by left].
Qed.

Lemma live_tcp t m p sender conn now l' :
  live t m p -> t <= now -> (sender = pid -> l' = l) ->
  exists p', live t (tcpUpdate l' sender conn now m).1 p' /\
             (p_TCPConn p' = p_TCPConn p \/ sender = pid /\ p_TCPConn p' = Some conn).
Proof.
  intros Hl Ht Hs. unfold tcpUpdate. destruct (decide (sender = pid)) as [->|Hne].
  - rewrite (Hs eq_refl). pose proof Hl as [_ _ Hp Ha Hv Hr Hseen Htime Hpos]. unfold UpdatePlayerTCP. rewrite Hp.
    destruct (_ && _); [exists p; split; [by eapply (live_set t)|by left]|].
    destruct (CheckRate p (Time.Unix now)) as [p1 ok] eqn:Ec.
    apply CheckRate_second in Ec as (H1 & H2 & H3 & H5 & H4); [|done].
    destruct ok; cbn [negb fst]; eexists;
      (split; [eapply live_set; [exact Hl|intros _; apply lookup_put_eq|done|..]|]).
    + simpl. congruence.
    + simpl. congruence.
    + simpl. unfold Time.Second. lia.
    + simpl. lia.
    + done.
    + by right.
    + congruence.
    + rewrite H2, H1. by apply H4.
    + by rewrite H2.
    + by rewrite H2.
    + done.
    + by left.
  - exists p. pose proof (UpdatePlayerTCP_other sender pid conn now (deref l' m) Hne) as E.
    destruct (UpdatePlayerTCP sender conn now (deref l' m)) as [s' v]. split; [by eapply live_other|by left].
Qed.

Lemma live_keep t m m' p :
  live t m p -> m_index m' !! pid = m_index m !! pid -> m_sessions m' !! sid = m_sessions m !! sid ->
  players (deref l m') !! pid = players (deref l m) !! pid -> live t m' p.
Proof. intros [] E1 E2 E3. split; congruence. Qed.

(** Changing the session at [l'] without touching the player. *)
Lemma deref_other l' s' m :
  players s' !! pid = players (deref l' m) !! pid ->
  players (deref l (set_session l' s' m)) !! pid = players (deref l m) !! pid.
Proof.
  intros E. unfold deref at 1. simpl. rewrite lookup_insert. case_decide; [by subst|done].
Qed.

Lemma live_leaveOld t m p id l' q :
  live t m p -> q <> pid -> live t (leaveOld id l' q m).1 p.
Proof.
  intros Hl Hne. unfold leaveOld. destruct (m_index m !! q) as [old|]; [|done].
  destruct (bool_decide (old = id)); cbn [fst].
  - eapply live_keep; [done|done|done|]. apply deref_other. unfold ResetPlayerTransport.
    destruct (players (deref l' m) !! q); [|done]. by rewrite lookup_put_ne.
  - eapply live_keep; [done|simpl|by destruct (m_sessions m !! old)|].
    + rewrite lookup_delete_ne by done. by destruct (m_sessions m !! old).
    + destruct (m_sessions m !! old) as [lo|]; [|done].
      apply (deref_other lo (RemovePlayer q (deref lo m)).1 m). simpl. by rewrite lookup_delete_ne.
Qed.

Lemma live_call t m p c :
  mgr_ok m -> spares c -> live t m p -> live t (run_call c m).1 p.
Proof.
  intros Hm Hc Hl. destruct c as [id n now|ρ' id|id q login|id q]; cbn [run_call spares] in *.
  - unfold CreateSession. destruct (m_sessions m !! id) eqn:E; [done|].
    destruct (_ <=? _); [done|]. simpl. pose proof Hl as []. eapply live_keep; [done|done|..]; simpl.
    + rewrite lookup_insert_ne; [done|]. intros ->. congruence.
    + unfold deref. simpl. rewrite lookup_insert_ne; [done|].
      destruct (inv_reg m Hm _ _ lv_session0) as (s & Hs & _).
      assert (l < m_next m)%nat by (apply (inv_fresh m Hm); by eexists). lia.
  - unfold DeleteSession. destruct (m_sessions m !! id) as [l'|] eqn:E; [|done]. simpl.
    eapply live_keep; [done|simpl..|done].
    + rewrite lookup_delete_all, decide_False; [done|].
      rewrite elem_of_PlayerIDs, elem_of_dom, <- (in_session_iff m id l' pid Hm E).
      pose proof Hl as []. congruence.
    + by rewrite lookup_delete_ne.
  - unfold AddPlayerToSession. destruct (m_sessions m !! id) as [l'|] eqn:E; [|done].
    pose proof (live_leaveOld t m p id l' q Hl Hc) as Hl1.
    destruct (leaveOld id l' q m) as [m1 []]; [done|]. simpl in Hl1. destruct (_ <=? _); [done|].
    unfold AddPlayer. destruct (players (deref l' m1) !! q); [done|]. destruct (_ <=? _); [done|]. simpl.
    eapply live_keep; [done|simpl; by rewrite lookup_insert_ne|done|].
    apply (deref_other l' (put_player q (new_player q login) (deref l' m1)) m1). by rewrite lookup_put_ne.
  - unfold RemovePlayerFromSession. destruct (m_sessions m !! id) as [l'|]; [|done]. simpl.
    assert (Hl1 : live t (set_session l' (set_players (delete q) (deref l' m)) m) p).
    { eapply live_keep; [done..|]. apply deref_other. simpl. by rewrite lookup_delete_ne. }
    destruct (negb _); [done|]. cbn [fst].
    eapply live_keep; [exact Hl1|simpl; by rewrite lookup_delete_ne|done|done].
Qed.

(** A player seen less than 90 seconds ago survives the reaper. *)
Lemma live_not_stale t m p s now :
  live t m p -> now - t <= PlayerTimeout - Time.Second -> is_stale s p now PlayerTimeout = false.
Proof.
  intros [] Hn. unfold is_stale, Time.IsZero, Time.zero.
  rewrite (proj2 (Z.eqb_neq _ _)) by lia.
  rewrite Sub_gt by (unfold PlayerTimeout, Time.Second, Time.maxDuration; lia).
  apply Z.ltb_ge. unfold PlayerTimeout, Time.Second in *. lia.
Qed.

Lemma live_reapPlayer t clk l' sid' q st p :
  clk l pid - t <= PlayerTimeout - Time.Second -> mgr_ok (r_mgr st) ->
  m_sessions (r_mgr st) !! sid' = Some l' -> live t (r_mgr st) p ->
  live t (r_mgr (reapPlayer clk l' st q)) p.
Proof.
  intros Hclk Hm Hs Hl. unfold reapPlayer, RemovePlayerIfStale.
  destruct (players (deref l' (r_mgr st)) !! q) as [p0|] eqn:Ep.
  2: { simpl. eapply live_keep; [done..|]. by apply deref_other. }
  destruct (is_stale _ p0 _ _) eqn:Est; cbn [negb].
  2: { simpl. eapply live_keep; [done..|]. by apply deref_other. }
  assert (Hne : q <> pid).
  { intros ->. pose proof Hl as [].
    assert (sid' = sid) as ->.
    { assert (H : is_Some (players (deref l' (r_mgr st)) !! pid)) by by eexists.
      apply (in_session_iff _ _ _ _ Hm Hs) in H. congruence. }
    assert (l' = l) as -> by congruence. assert (p0 = p) as -> by congruence.
    by rewrite (live_not_stale t (r_mgr st)) in Est. }
  simpl. eapply live_keep; [done|simpl; by rewrite lookup_delete_ne|done|].
  apply (deref_other l' (set_players (delete q) (deref l' (r_mgr st))) (r_mgr st)).
  simpl. by rewrite lookup_delete_ne.
Qed.

Lemma live_reapPlayers t clk l' sid' qs st p :
  clk l pid - t <= PlayerTimeout - Time.Second -> mgr_ok (r_mgr st) ->
  m_sessions (r_mgr st) !! sid' = Some l' -> live t (r_mgr st) p ->
  live t (r_mgr (foldl (reapPlayer clk l') st qs)) p.
Proof.
  intros Hclk. revert st; induction qs as [|q qs IH]; intros st Hm Hs Hl; [done|]. cbn [foldl].
  destruct (reapPlayer_ok clk sid' l' st q Hm Hs) as [Hm' Hs'].
  apply IH; [done|congruence|]. by eapply live_reapPlayer.
Qed.

Lemma live_reapOne t now clk st c p :
  clk l pid - t <= PlayerTimeout - Time.Second -> mgr_ok (r_mgr st) -> cand_ok (r_mgr st) c ->
  live t (r_mgr st) p -> live t (r_mgr (reapOne now clk st c)) p.
Proof.
  intros Hclk Hm Hc Hl. unfold reapOne.
  pose proof (live_reapPlayers t clk _ _ (c_stalePIDs c) st p Hclk Hm Hc Hl) as Hl1.
  destruct (reapPlayers_ok clk _ _ (c_stalePIDs c) st Hm Hc) as [_ Hs].
  destruct (foldl _ st _) as [m1 np ns cl]. simpl in *.
  destruct (_ && _) eqn:G; [|done]. bool_facts. simpl.
  eapply live_keep; [exact Hl1|done| |done]. simpl. rewrite lookup_delete_ne; [done|].
  intros E. pose proof Hl1 as []. unfold cand_ok in Hc. rewrite <- Hs, E in Hc.
  assert (c_session c = l) as Hcl by congruence. rewrite Hcl in *.
  assert (E0 : size (players (deref l m1)) = 0%nat) by (unfold PlayerCount in *; lia).
  apply map_size_empty_inv in E0. by rewrite E0, lookup_empty in lv_player0.
Qed.

Lemma live_reapPhase2 t now clk cs m p :
  clk l pid - t <= PlayerTimeout - Time.Second -> mgr_ok m -> Forall (cand_ok m) cs ->
  NoDup (c_sessionID <$> cs) -> live t m p -> live t (r_mgr (reapPhase2 now clk cs m)) p.
Proof.
  unfold reapPhase2. intros Hclk Hm. change m with (r_mgr (MkReap m 0 0 [])) in Hm |- * at 1 2.
  generalize (MkReap m 0 0 []) as st, Hm. clear Hm.
  induction cs as [|c cs IH]; intros st Hm Hall Hnd Hl; [done|]. simpl.
  apply Forall_cons in Hall as [Hc Hall]. apply NoDup_cons in Hnd as [Hni Hnd].
  destruct (reapOne_ok now clk st c Hm Hc) as [Hm' Hs'].
  apply IH; [done| |done|by apply live_reapOne]. apply Forall_forall. intros c' Hin.
  apply Hs'; [|by eapply Forall_forall in Hall].
  intros E. apply Hni. rewrite <- E. by apply list_elem_of_fmap_2.
Qed.

(** The time of the player's last packet after an event. *)
Definition heard (e : SrvEvent) (t : Z) : Z :=
  match e with SvUdp d remote now => if own d remote then now else t | _ => t end.
(** The condition [attended] puts on an event. *)
Definition attends (e : SrvEvent) (t : Z) : Prop :=
  match e with
  | SvUdp _ _ now | SvTcp _ _ now => t <= now
  | SvHttp r _ _ nowC => match request_call ρ r nowC with Some c => spares c | None => True end
  | SvScan _ _ => True
  | SvApply _ clk => clk l pid - t <= PlayerTimeout - Time.Second
  end.
Lemma attended_cons t e es : attended t (e :: es) -> attends e t /\ attended (heard e t) es.
Proof. destruct e; simpl; tauto. Qed.

Lemma live_find t m p : live t m p -> FindSessionByPlayer pid m = Some l.
Proof. intros []. unfold FindSessionByPlayer. by rewrite lv_index0. Qed.

(** A frame that came over [conn] in the player's name. *)
Definition speaks (conn : Conn) (e : SrvEvent) : Prop :=
  match e with
  | SvTcp c stream _ =>
      c = conn /\ exists buf rest d,
        Server.readTCPFrame readBufSize stream = Ok (buf, rest) /\ DecodeRelayHeader buf = Ok (pid, d)
  | _ => False
  end.

Lemma live_step e t pend st st' p :
  net_wf net -> run_ok pend st -> attends e t -> live t (v_sm st) p ->
  srvStep net ρ e st = Ret st' ->
  exists p', live (heard e t) (v_sm st') p' /\
    forall c, p_TCPConn p' = Some c -> p_TCPConn p = Some c \/ speaks c e.
Proof.
  intros Hw Hok Ha Hl H. pose proof Hok as [_ [Hm Hc] _]. cbn [rs_mgr rs_pending] in *.
  destruct e as [d remote now|conn stream now|r nowL nowI nowC|now clk|now clk];
    cbn [srvStep attends heard] in *.
  - destruct (udpPacket net ρ _ remote now (v_sm st)) as [[m outs]|] eqn:E; [|done]. simplify_eq/=.
    unfold own. apply udpPacket_effect in E as [[E Hn]|(s & dd & l' & Hd & Hf & E)]; [| |done].
    + exists p. split; [|by left]. eapply live_same; [exact E|].
      destruct (DecodeRelayHeader _) as [[s d']|]; [|done]. destruct (Z.eqb_spec s pid) as [->|]; [|done].
      specialize (Hn pid d' eq_refl). by rewrite (live_find _ _ _ Hl) in Hn.
    + rewrite Hd. destruct (live_udp t (v_sm st) p s remote now l' Hl Ha) as [p' [Hp' Hr]].
      { intros ->. rewrite (live_find _ _ _ Hl) in Hf. congruence. }
      exists p'. split; [by eapply live_same|]. intros c Hx. left. destruct Hr; congruence.
  - destruct (Server.readTCPFrame readBufSize stream) as [[buf rest]|] eqn:Er; [|simplify_eq; by eauto].
    destruct (tcpPacket net ρ conn buf now (v_sm st)) as [[[m outs] cont]|] eqn:E; [|done]. simplify_eq/=.
    apply tcpPacket_effect in E as [E|(s & dd & l' & Hd & Hf & E)]; [| |done].
    + exists p. split; [by eapply live_same|by left].
    + destruct (live_tcp t (v_sm st) p s conn now l' Hl Ha) as [p' [Hp' Hr]].
      { intros ->. rewrite (live_find _ _ _ Hl) in Hf. congruence. }
      exists p'. split; [by eapply live_same|]. intros c Hx. destruct Hr as [Hr|[-> Hr]]; [left; congruence|right].
      split; [congruence|]. by exists buf, rest, dd.
  - simplify_eq. exists p. split; [|by left]. unfold v_sm in *. cbn [v_api].
    destruct (ServeHTTP_effect ρ r nowL nowI nowC (v_api st)) as [E|(c & Ec & E)]; rewrite E; [done|].
    rewrite Ec in Ha. by apply live_call.
  - exists p. split; [|by left]. by destruct (v_pending st); simplify_eq.
  - exists p. split; [|by left]. destruct (v_pending st) as [cs|]; simplify_eq; [|done].
    destruct Hc as [Hc Hn]. by apply (live_reapPhase2 t now clk cs (v_sm st) p).
Qed.

Lemma live_run es t pend st st' p :
  net_wf net -> Forall sized es -> calm ρ pend es -> attended t es -> run_ok pend st ->
  live t (v_sm st) p -> srvRun net ρ es st = Ret st' ->
  exists t' p', live t' (v_sm st') p' /\
    forall c, p_TCPConn p' = Some c -> p_TCPConn p = Some c \/ exists e, e ∈ es /\ speaks c e.
Proof.
  intros Hw. revert t pend st p; induction es as [|e es IH]; intros t pend st p Hs Hc Ha Hok Hl H.
  { simpl in H. simplify_eq. exists t, p. split; [done|by left]. }
  apply Forall_cons in Hs as [He Hs]. destruct Hc as [Hd Hc]. apply attended_cons in Ha as [Ha1 Ha2].
  destruct (run_ok_step net ρ e pend st Hw He Hd Hok) as (st1 & E & Hok1).
  cbn [srvRun] in H. rewrite E in H. simpl in H.
  destruct (live_step e t pend st st1 p Hw Hok Ha1 Hl E) as (p1 & Hl1 & Hr1).
  destruct (IH _ _ _ _ Hs Hc Ha2 Hok1 Hl1 H) as (t' & p' & Hl' & Hr'). exists t', p'. split; [done|].
  intros c [Hx|(e' & He' & Hx)]%Hr'.
  - destruct (Hr1 c Hx) as [|Hx']; [by left|]. right. exists e. split; [by left|done].
  - right. exists e'. split; [by right|done].
Qed.
End live.

(** ** Theorems *)

(** What the theorem says of a manager: the index finds exactly the session a
    player is in, the gauges count the sessions and the players, the global
    limits hold, and every session has an identifier of the allowed form, a
    capacity of 1 to 32 and at most that many players. *)
Definition consistent (m : Manager) : Prop :=
  (forall pid l, FindSessionByPlayer pid m = Some l <->
     exists sid s, registered m sid l s /\ pid ∈ dom (players s)) /\
  (ActiveSessions (m_metrics m) = Z.of_nat (size (m_sessions m)) /\
   Z.of_nat (size (m_sessions m)) <= MaxTotalSessions) /\
  (ActivePlayers (m_metrics m) = Z.of_nat (size (m_index m)) /\
   Z.of_nat (size (m_index m)) <= MaxTotalPlayers) /\
  (forall sid l s, registered m sid l s ->
     sessionIDPattern sid = true /\ PlayerCount s <= MaxPlayers s /\ 1 <= MaxPlayers s <= 32).

Lemma run_ok_consistent pend st : run_ok pend st -> consistent (v_sm st).
Proof.
  intros [[Hm Hv] _ _]. simpl in Hm.
  split; [intros; by apply FindSessionByPlayer_iff|].
  split; [split; apply Hm|]. split; [split; apply Hm|].
  intros sid l s [H1 H2]. specialize (Hv sid (MaxPlayers s)). simpl in Hv.
  rewrite lookup_fmap, H1 in Hv. simpl in Hv. rewrite (deref_lookup _ _ s H2) in Hv.
  destruct (Hv eq_refl) as [Hid Hcap]. split; [done|].
  pose proof (ok_capacity s (inv_heap _ Hm l s H2)). unfold maxSessionPlayers in Hcap. lia.
Qed.

(** C3. The server's state stays consistent.  From the start of the server,
    whatever the interleaving of datagrams of any length, TCP frames, HTTP
    requests and the two phases of the reaper, provided no session is deleted
    between those phases: either all of it is processed and the state is
    consistent, or the process has panicked at a datagram, which then is longer
    than 1400 bytes and makes [udpPacket] panic in the state before it, which is
    consistent too.  Nothing else panics. *)
Theorem server_consistent (net : Net) (ρ : Shuffle) (key : string) (g p : Z) (es : list SrvEvent) :
  net_wf net -> calm ρ false es ->
  match srvRun net ρ es (startRunning key g p) with
  | Ret st => consistent (v_sm st)
  | Panic =>
      exists es1 d remote now es2 st1,
        es = es1 ++ SvUdp d remote now :: es2 /\
        srvRun net ρ es1 (startRunning key g p) = Ret st1 /\ consistent (v_sm st1) /\
        1400 < len d /\ udpPacket net ρ (take (Z.to_nat readBufSize) d) remote now (v_sm st1) = Panic
  end.
Proof.
  intros Hw Hc. pose proof (run_ok_any net ρ es false _ Hw Hc (run_ok_start key g p)) as H.
  destruct (srvRun net ρ es (startRunning key g p)) as [st|]; [by eapply run_ok_consistent|].
  destruct H as (es1 & d & remote & now & es2 & st1 & b & -> & H1 & H2 & H3 & H4).
  exists es1, d, remote, now, es2, st1. split_and!; try done. by eapply run_ok_consistent.
Qed.

(** The first packet of a player makes it live. *)
Lemma live_start pid sid l remote now m :
  m_index m !! pid = Some sid -> m_sessions m !! sid = Some l ->
  accepts (udpUpdate l pid remote now m).2 = true -> IsValid remote = true -> 0 < now ->
  exists p, live pid sid l (ap_addr remote) now (udpUpdate l pid remote now m).1 p /\ p_TCPConn p = None.
Proof.
  intros Hi Hs Ha Hv Hn. destruct (deref_udpUpdate l pid remote now m) as [Hd Hver].
  destruct (udpUpdate_abs l pid remote now m) as (_ & E1 & E2). rewrite Hver in Ha.
  assert (H : exists p, players (UpdatePlayerAddr pid remote now (deref l m)).1 !! pid = Some p /\
    ap_addr (p_Addr p) = ap_addr remote /\ LastSeen p = now /\ rateSecond p = Time.Unix now /\ p_TCPConn p = None).
  { revert Ha. unfold UpdatePlayerAddr. destruct (players (deref l m) !! pid) as [p|]; [|done].
    destruct (_ && _); [done|]. unfold CheckRate. destruct (_ <=? MaxPacketsPerSecond); [|done].
    simpl. intros _. rewrite lookup_insert_eq. by eexists. }
  destruct H as (p & Hp & Hpa & Hl & Hr & Htc). exists p. split; [|done]. split; try done.
  - by rewrite E2.
  - by rewrite E1.
  - by rewrite Hd.
  - congruence.
  - rewrite Hl. unfold Time.Second. lia.
  - by rewrite Hl.
Qed.

(** An accepted packet does so in the running server. *)
Lemma live_hello net ρ pend st pid d sid l hello remote t :
  net_wf net -> len hello <= 1400 -> run_ok pend st ->
  DecodeRelayHeader hello = Ok (pid, d) -> IsValid remote = true -> 0 < t ->
  m_index (v_sm st) !! pid = Some sid -> m_sessions (v_sm st) !! sid = Some l ->
  accepts (udpUpdate l pid remote t (v_sm st)).2 = true ->
  exists st' p, srvStep net ρ (SvUdp hello remote t) st = Ret st' /\ run_ok pend st' /\
    live pid sid l (ap_addr remote) t (v_sm st') p /\ p_TCPConn p = None /\
    same_sessions (udpUpdate l pid remote t (v_sm st)).1 (v_sm st').
Proof.
  intros Hw Hsz Hok Hd Hv Ht Hi Hs Hacc.
  destruct (run_ok_udp net ρ hello remote t pend st Hw Hsz Hok) as (st1 & E1 & Hok1).
  destruct (live_start pid sid l remote t (v_sm st) Hi Hs Hacc Hv Ht) as (p & Hp & Htc).
  assert (Hsame : same_sessions (udpUpdate l pid remote t (v_sm st)).1 (v_sm st1)).
  { cbn [srvStep] in E1. rewrite take_ge in E1 by (unfold readBufSize; lia).
    destruct (udpPacket net ρ hello remote t (v_sm st)) as [[m outs]|] eqn:E; [|done]. simplify_eq/=.
    apply udpPacket_effect in E as [[_ Hn]|(s & dd & l' & Hd' & Hf & E)]; [| |done].
    - specialize (Hn pid d Hd). unfold FindSessionByPlayer in Hn. rewrite Hi in Hn. congruence.
    - rewrite Hd in Hd'. simplify_eq. unfold FindSessionByPlayer in Hf. rewrite Hi in Hf.
      by assert (l' = l) as -> by congruence. }
  exists st1, p. split; [done|]. split; [done|]. split; [by eapply live_same|]. done.
Qed.

(** C17. A player whose adapter keeps sending is not reaped.  Once a packet of
    the player has been accepted, the player stays registered in its session
    over every further sequence of events such that: each removal phase of the
    reaper comes at most 89 seconds after its last packet (the adapter's
    keepalive sends one every 15 seconds); no request deletes its session and
    none lets it leave or join again; no datagram is longer than 1400 bytes; no
    session is deleted between the phases of the reaper.  The events can be
    packets and frames of other players or forged in its name, packets over its
    rate limit, other requests, other players and sessions being reaped. *)
Theorem keepalive_never_reaped (net : Net) (ρ : Shuffle) (key : string) (g pr : Z)
    (es0 es : list SrvEvent) (st : Running) (pid d : Z) (sid : string) (l : loc)
    (hello : bytes) (remote : AddrPort) (t : Z) :
  net_wf net -> Forall sized (es0 ++ SvUdp hello remote t :: es) ->
  calm ρ false (es0 ++ SvUdp hello remote t :: es) ->
  srvRun net ρ es0 (startRunning key g pr) = Ret st ->
  DecodeRelayHeader hello = Ok (pid, d) -> IsValid remote = true -> 0 < t ->
  m_index (v_sm st) !! pid = Some sid -> m_sessions (v_sm st) !! sid = Some l ->
  accepts (udpUpdate l pid remote t (v_sm st)).2 = true ->
  attended ρ pid sid l (ap_addr remote) t es ->
  exists st', srvRun net ρ (SvUdp hello remote t :: es) st = Ret st' /\
    FindSessionByPlayer pid (v_sm st') = Some l /\ is_Some (players (deref l (v_sm st')) !! pid).
Proof.
  intros Hw Hsz Hcm Hrun Hd Hv Ht Hi Hs Hacc Hatt.
  apply Forall_app in Hsz as [Hsz0 [Hsz1 Hsz2]%Forall_cons].
  apply calm_app in Hcm as [Hc0 [_ Hc1]].
  destruct (run_ok_run net ρ es0 false _ Hw Hsz0 Hc0 (run_ok_start key g pr)) as (st0 & E0 & Hok0).
  rewrite E0 in Hrun. simplify_eq. cbn [pend_after] in Hc1.
  destruct (live_hello net ρ _ st pid d sid l hello remote t Hw Hsz1 Hok0 Hd Hv Ht Hi Hs Hacc)
    as (st1 & p & E1 & Hok1 & Hl & _ & _).
  destruct (run_ok_run net ρ es _ st1 Hw Hsz2 Hc1 Hok1) as (st2 & E2 & Hok2).
  destruct (live_run net ρ pid sid l (ap_addr remote) es t _ st1 st2 p Hw Hsz2 Hc1 Hatt Hok1 Hl E2)
    as (t' & p' & Hl' & _).
  exists st2. cbn [srvRun]. rewrite E1. split; [done|]. split; [by eapply live_find|].
  destruct Hl'. by eexists.
Qed.

(** The verdict on a packet depends on the player's own record only. *)
Lemma verdict_local pid addr now s s' :
  players s !! pid = players s' !! pid ->
  (UpdatePlayerAddr pid addr now s).2 = (UpdatePlayerAddr pid addr now s').2.
Proof.
  intros E. unfold UpdatePlayerAddr. rewrite E. destruct (players s' !! pid) as [p|]; [|done].
  destruct (_ && _); [done|]. destruct (CheckRate p _) as [p1 ok]. by destruct ok.
Qed.

(** Forwarding between two live players. *)
Lemma live_forward net ρ a b sid l ipA ipB tA tB m pA pB buf src now :
  net_wf net -> a <> b -> b <> BroadcastDest -> len buf <= 1400 ->
  live a sid l ipA tA m pA -> live b sid l ipB tB m pB ->
  DecodeRelayHeader buf = Ok (a, b) -> ap_addr src = ipA ->
  exists m' outs, udpPacket net ρ buf src now m = Ret (m', outs) /\
    if accepts (udpUpdate l a src now m).2
    then exists addr, ap_addr addr = ipB /\
           outs = [match p_TCPConn pB with Some c => SendTCP c (frame buf) | None => SendUDP addr buf end]
    else (udpUpdate l a src now m).2 = VerdictRateLimited /\ outs = [].
Proof.
  intros Hw Hab Hb Hlen HA HB Hd Hsrc. rewrite udpPacket_unfold, Hd, (live_find _ _ _ _ _ _ _ HA).
  pose proof (UpdatePlayerAddr_other a b src now (deref l m) Hab) as Hother.
  destruct (deref_udpUpdate l a src now m) as [Hdr Hver].
  destruct (udpUpdate l a src now m) as [m1 v]. simpl in *. destruct (accepts v) eqn:Ev.
  - rewrite (proj2 (Z.eqb_neq b a)) by congruence. unfold route, unicast, GetPlayerTarget.
    rewrite (proj2 (Z.eqb_neq _ _)) by done. rewrite Hdr, Hother.
    destruct HB as [_ _ -> Haddr Hval _ _ _ _]. cbn [fmap option_fmap option_map].
    rewrite sendToTarget_spec by done. unfold send_out, send_ok. cbn [t_TCPConn t_UDPAddr].
    unfold Server.maxTCPFramePayload. rewrite (proj2 (Z.ltb_ge _ _)) by lia. rewrite andb_false_r.
    assert (Hvalid : IsValid (p_Addr pB) = true) by (unfold IsValid; by rewrite Haddr).
    do 2 eexists. split; [done|]. exists (p_Addr pB). split; [done|]. by rewrite Hvalid; destruct (p_TCPConn pB).
  - do 2 eexists. split; [done|]. split; [|done]. subst v. revert Ev. clear -HA Hsrc.
    destruct HA as [_ _ Hp Haddr Hval _ _ _ _]. unfold UpdatePlayerAddr. rewrite Hp.
    unfold IsValid. rewrite Haddr, Hval, bool_decide_eq_true_2 by congruence. cbn [negb andb].
    destruct (CheckRate pA _) as [p1 ok]. destruct ok; [|done]. simpl. by destruct (_ && _).
Qed.

(** C4. Two players stay connected.  Two players of a session have said hello.
    Then over every sequence of events such that the reaper's removal phases
    come at most 89 seconds after the last packet of each, no request deletes
    the session or lets one of them leave or join again, no datagram is longer
    than 1400 bytes and no session is deleted between the phases of the reaper,
    the server does not panic, and a packet of the one for the other, from the
    one's address, is forwarded: it is written once, unchanged, to an address of
    the other's host; or in a frame to a TCP connection, but only to one over
    which, since the other's hello, a frame came with the other as its sender.
    Only a packet over the limit of the current second is dropped.  (The server
    does not compare the host of such a connection with that of the hello.) *)
Theorem players_stay_connected (net : Net) (ρ : Shuffle) (key : string) (g pr : Z)
    (es0 es : list SrvEvent) (st : Running) (a b da db : Z) (sid : string) (l : loc)
    (helloA helloB : bytes) (ra rb : AddrPort) (ta tb : Z) :
  net_wf net -> a <> b -> b <> BroadcastDest ->
  let hellos := [SvUdp helloA ra ta; SvUdp helloB rb tb] in
  Forall sized (es0 ++ hellos ++ es) -> calm ρ false (es0 ++ hellos ++ es) ->
  srvRun net ρ es0 (startRunning key g pr) = Ret st ->
  DecodeRelayHeader helloA = Ok (a, da) -> DecodeRelayHeader helloB = Ok (b, db) ->
  IsValid ra = true -> IsValid rb = true -> 0 < ta -> 0 < tb ->
  m_index (v_sm st) !! a = Some sid -> m_index (v_sm st) !! b = Some sid ->
  m_sessions (v_sm st) !! sid = Some l ->
  accepts (udpUpdate l a ra ta (v_sm st)).2 = true -> accepts (udpUpdate l b rb tb (v_sm st)).2 = true ->
  attended ρ a sid l (ap_addr ra) ta (SvUdp helloB rb tb :: es) -> attended ρ b sid l (ap_addr rb) tb es ->
  exists st', srvRun net ρ (hellos ++ es) st = Ret st' /\
    forall buf src now,
      len buf <= 1400 -> DecodeRelayHeader buf = Ok (a, b) -> ap_addr src = ap_addr ra ->
      exists m' outs, udpPacket net ρ buf src now (v_sm st') = Ret (m', outs) /\
        if accepts (udpUpdate l a src now (v_sm st')).2
        then exists p addr, players (deref l (v_sm st')) !! b = Some p /\ ap_addr addr = ap_addr rb /\
               outs = [match p_TCPConn p with Some c => SendTCP c (frame buf) | None => SendUDP addr buf end] /\
               forall c, p_TCPConn p = Some c -> exists e, e ∈ es /\ speaks b c e
        else (udpUpdate l a src now (v_sm st')).2 = VerdictRateLimited /\ outs = [].
Proof.
  intros Hw Hab Hb hellos Hsz Hcm Hrun HdA HdB HvA HvB HtA HtB HiA HiB Hs HaA HaB HattA HattB.
  apply Forall_app in Hsz as [Hsz0 [HszA [HszB Hsz]%Forall_cons]%Forall_cons].
  apply calm_app in Hcm as [Hc0 [_ [_ Hc]]]. cbn [pend_after] in Hc.
  destruct (run_ok_run net ρ es0 false _ Hw Hsz0 Hc0 (run_ok_start key g pr)) as (st0 & E0 & Hok0).
  rewrite E0 in Hrun. simplify_eq.
  destruct (live_hello net ρ _ st a da sid l helloA ra ta Hw HszA Hok0 HdA HvA HtA HiA Hs HaA)
    as (st1 & pA & E1 & Hok1 & HlA & _ & Hsame).
  destruct (udpUpdate_abs l a ra ta (v_sm st)) as (_ & Es & Ei).
  destruct (live_hello net ρ _ st1 b db sid l helloB rb tb Hw HszB Hok1 HdB HvB HtB)
    as (st2 & pB & E2 & Hok2 & HlB & HnB & _).
  { by rewrite (same_index _ _ Hsame), Ei. }
  { by rewrite (same_map _ _ Hsame), Es. }
  { rewrite (proj2 (deref_udpUpdate _ _ _ _ _)). rewrite (proj2 (deref_udpUpdate _ _ _ _ _)) in HaB.
    rewrite (verdict_local b rb tb _ (deref l (v_sm st))); [done|].
    rewrite (same_deref _ _ l Hsame), (proj1 (deref_udpUpdate _ _ _ _ _)).
    by apply UpdatePlayerAddr_other. }
  apply attended_cons in HattA as [Ha1 Ha2].
  destruct (live_step net ρ a sid l (ap_addr ra) (SvUdp helloB rb tb) ta _ st1 st2 pA Hw Hok1 Ha1 HlA E2)
    as (pA' & HlA' & _).
  destruct (run_ok_run net ρ es _ st2 Hw Hsz Hc Hok2) as (st3 & E3 & Hok3).
  destruct (live_run net ρ a sid l (ap_addr ra) es _ _ st2 st3 pA' Hw Hsz Hc Ha2 Hok2 HlA' E3)
    as (tA' & qA & HA & _).
  destruct (live_run net ρ b sid l (ap_addr rb) es _ _ st2 st3 pB Hw Hsz Hc HattB Hok2 HlB E3)
    as (tB' & qB & HB & HrB).
  exists st3. split; [unfold hellos; cbn [app srvRun]; rewrite E1; cbn [mbind outcome_bind]; by rewrite E2|].
  intros buf src now Hlen Hdec Hsrc.
  destruct (live_forward net ρ a b sid l _ _ _ _ _ qA qB buf src now Hw Hab Hb Hlen HA HB Hdec Hsrc)
    as (m' & outs & E & H). exists m', outs. split; [done|].
  destruct (accepts (udpUpdate l a src now (v_sm st3)).2); [|done]. destruct H as (addr & H1 & H2).
  exists qB, addr. split; [by destruct HB|]. split; [done|]. split; [done|].
  intros c [Hx|Hx]%HrB; [congruence|done].
Qed.

(** A lobby of one player: created and joined over HTTP, then a hello, the
    reaper, a second hello 15 seconds later and the reaper again. *)
Definition at_sec (n : Z) : Z := (Time.unixToInternal + n) * Time.Second.
Definition post (path : string) (fields : list (string * JSON)) : Request :=
  MkRequest POST path "10.0.0.1:999" "Bearer k" (MkBody (Some (JObj fields)) []).
Definition demo_setup : list SrvEvent :=
  [SvHttp (post "/sessions" [("session_id", JStr "g")]) (at_sec 1) (at_sec 1) (at_sec 1);
   SvHttp (post "/sessions/g/join" [("player_id", JNum false (Some 7))]) (at_sec 2) (at_sec 2) (at_sec 2)].
Definition demo_reap (n : Z) : list SrvEvent :=
  [SvScan (at_sec n) (fun _ => at_sec n); SvApply (at_sec n) (fun _ _ => at_sec n)].
Definition demo_life : list SrvEvent :=
  demo_reap 60 ++ [SvUdp (header 7 7) addr1 (at_sec 65)] ++ demo_reap 150.
Definition demo_running : Running :=
  match srvRun good_net id_shuffle demo_setup (startRunning "k" 0 0) with
  | Ret st => st
  | Panic => startRunning "k" 0 0
  end.

Lemma server_consistent_witness :
  match srvRun good_net id_shuffle (demo_setup ++ demo_life) (startRunning "k" 0 0) with
  | Ret st => consistent (v_sm st)
  | Panic =>
      exists es1 d remote now es2 st1,
        demo_setup ++ demo_life = es1 ++ SvUdp d remote now :: es2 /\
        srvRun good_net id_shuffle es1 (startRunning "k" 0 0) = Ret st1 /\ consistent (v_sm st1) /\
        1400 < len d /\ udpPacket good_net id_shuffle (take (Z.to_nat readBufSize) d) remote now (v_sm st1) = Panic
  end.
Proof.
  apply (server_consistent good_net id_shuffle "k" 0 0 (demo_setup ++ demo_life)); [by vm_compute|].
  repeat split; done.
Defined.

Lemma keepalive_never_reaped_witness :
  exists st', srvRun good_net id_shuffle (SvUdp (header 7 7) addr1 (at_sec 50) :: demo_life) demo_running
      = Ret st' /\
    FindSessionByPlayer 7 (v_sm st') = Some 0%nat /\
    is_Some (players (deref 0%nat (v_sm st')) !! 7).
Proof.
  apply (keepalive_never_reaped good_net id_shuffle "k" 0 0 demo_setup demo_life demo_running 7 7 "g" 0%nat
           (header 7 7) addr1 (at_sec 50)).
  - by vm_compute.
  - repeat (apply Forall_cons_2 || apply Forall_nil_2); simpl; done || lia.
  - repeat split; done.
  - by vm_compute.
  - by vm_compute.
  - done.
  - by vm_compute.
  - by vm_compute.
  - by vm_compute.
  - by vm_compute.
  - repeat split; vm_compute; congruence.
Defined.

(** Two players of a lobby. *)
Definition demo_pair : list SrvEvent :=
  demo_setup ++
  [SvHttp (post "/sessions/g/join" [("player_id", JNum false (Some 8))]) (at_sec 3) (at_sec 3) (at_sec 3)].
Definition demo_both : list SrvEvent :=
  demo_reap 60 ++ [SvUdp (header 7 7) addr1 (at_sec 65); SvUdp (header 8 8) addr2 (at_sec 66)] ++ demo_reap 150.
Definition demo_paired : Running :=
  match srvRun good_net id_shuffle demo_pair (startRunning "k" 0 0) with
  | Ret st => st
  | Panic => startRunning "k" 0 0
  end.

Lemma players_stay_connected_witness :
  exists st', srvRun good_net id_shuffle
      ([SvUdp (header 7 7) addr1 (at_sec 50); SvUdp (header 8 8) addr2 (at_sec 51)] ++ demo_both) demo_paired
      = Ret st' /\
    exists m' outs, udpPacket good_net id_shuffle (header 7 8 ++ [Byte.x2a]) addr1 (at_sec 151) (v_sm st') =
        Ret (m', outs) /\
      if accepts (udpUpdate 0%nat 7 addr1 (at_sec 151) (v_sm st')).2
      then exists p addr, players (deref 0%nat (v_sm st')) !! 8 = Some p /\ ap_addr addr = ap_addr addr2 /\
             outs = [match p_TCPConn p with
                     | Some c => SendTCP c (frame (header 7 8 ++ [Byte.x2a]))
                     | None => SendUDP addr (header 7 8 ++ [Byte.x2a])
                     end] /\
             forall c, p_TCPConn p = Some c -> exists e, e ∈ demo_both /\ speaks 8 c e
      else (udpUpdate 0%nat 7 addr1 (at_sec 151) (v_sm st')).2 = VerdictRateLimited /\ outs = [].
Proof.
  destruct (players_stay_connected good_net id_shuffle "k" 0 0 demo_pair demo_both demo_paired 7 8 7 8 "g" 0%nat
           (header 7 7) (header 8 8) addr1 addr2 (at_sec 50) (at_sec 51)) as (st' & E & H).
  - by vm_compute.
  - done.
  - done.
  - repeat (apply Forall_cons_2 || apply Forall_nil_2); simpl; done || lia.
  - repeat split; done.
  - by vm_compute.
  - by vm_compute.
  - by vm_compute.
  - done.
  - done.
  - by vm_compute.
  - by vm_compute.
  - by vm_compute.
  - by vm_compute.
  - by vm_compute.
  - by vm_compute.
  - by vm_compute.
  - repeat split; vm_compute; congruence.
  - repeat split; vm_compute; congruence.
  - exists st'. split; [exact E|]. apply H; [vm_compute; congruence|by vm_compute|done].
Defined.
