(* ===== verification/RelayServer.v ===== *)
(** * [internal/relay/server.go]: starting and stopping the relay server

    [NewServer] and [Server.Run] with the goroutines they start, the reaper's
    loop with its log lines ([RunReaper] of [session.go]) and the CPU time it
    reports ([cputime_windows.go], [cputime_other.go]).  [Run] is executed
    statement by statement, so that the failures of the operating system, the
    cancellation and the other goroutines can come at any point. *)

From Stdlib Require Import QArith Qabs Lqa.
From S2P Require Import Prelude GoLib Float Metrics Session SessionManager ManagerSpec HttpApi ServerLoop.
Open Scope Z_scope.

Record ServerConfig := MkServerConfig {
  UDPAddr : string; TCPAddr : string; HTTPAddr : string; APIKey : string;
  TLSCert : string; TLSKey : string; RateLimitGlobal : Z; RateLimitPerIP : Z }.

Inductive Resource := LogFile | UDPConn | HTTPListener | TCPListener.
#[export] Instance Resource_eq_dec : EqDecision Resource.
Proof. solve_decision. Defined.

Inductive RunErr := ErrResolveUDP | ErrListenUDP | ErrListenTCP | ErrHTTP.

(** The next statement of [Run]. *)
Inductive Pc :=
| PcResolve               (* resolve the UDP address *)
| PcListenUDP
| PcServeHTTP             (* start the HTTP goroutine *)
| PcListenTCP             (* the optional TCP listener *)
| PcSpawn                 (* start the router and the reaper *)
| PcWait                  (* the select *)
| PcShutdown              (* [httpServer.Shutdown] *)
| PcCloseUDP
| PcJoin                  (* [<-routerDone] *)
| PcReturned (err : option RunErr).

Inductive Goroutine := GNone | GRunning | GExited.
(** [HttpStarting]: the goroutine has been started and [ListenAndServe] has not
    got its listener yet. *)
Inductive HttpState := HttpOff | HttpStarting | HttpServing | HttpDown.

Record Server := MkServer {
  sv_cfg : ServerConfig;
  sv_run : Running;             (* the manager and the API *)
  sv_pc : Pc;
  sv_open : list Resource;      (* what is open *)
  sv_defer : list Resource;     (* deferred closes, last one first *)
  sv_http : HttpState;
  sv_httpErr : bool;            (* an error is in [httpErrCh] *)
  sv_router : Goroutine;
  sv_tcp : Goroutine;
  sv_conns : Router.Handler;    (* the accepted TCP connections *)
  sv_reaper : Goroutine;
  sv_done : bool                (* the context is cancelled *)
}.

(** [logOk]: the log file could be created. *)
Definition NewServer (cfg : ServerConfig) (logOk : bool) : Server :=
  MkServer cfg (startRunning (APIKey cfg) (RateLimitGlobal cfg) (RateLimitPerIP cfg)) PcResolve
    (if logOk then [LogFile] else []) (if logOk then [LogFile] else [])
    HttpOff false GNone GNone (Router.MkHandler 0 [] []) GNone false.

Definition goto (pc : Pc) (s : Server) : Server :=
  MkServer (sv_cfg s) (sv_run s) pc (sv_open s) (sv_defer s) (sv_http s) (sv_httpErr s) (sv_router s)
    (sv_tcp s) (sv_conns s) (sv_reaper s) (sv_done s).
(** Opening a resource with its deferred close. *)
Definition acquire (r : Resource) (s : Server) : Server :=
  MkServer (sv_cfg s) (sv_run s) (sv_pc s) (r :: sv_open s) (r :: sv_defer s) (sv_http s) (sv_httpErr s)
    (sv_router s) (sv_tcp s) (sv_conns s) (sv_reaper s) (sv_done s).
(** Opening without one: the listener of [ListenAndServe]. *)
Definition opens (r : Resource) (s : Server) : Server :=
  MkServer (sv_cfg s) (sv_run s) (sv_pc s) (r :: sv_open s) (sv_defer s) (sv_http s) (sv_httpErr s)
    (sv_router s) (sv_tcp s) (sv_conns s) (sv_reaper s) (sv_done s).
Definition set_conns (h : Router.Handler) (s : Server) : Server :=
  MkServer (sv_cfg s) (sv_run s) (sv_pc s) (sv_open s) (sv_defer s) (sv_http s) (sv_httpErr s)
    (sv_router s) (sv_tcp s) h (sv_reaper s) (sv_done s).
(** Closing; a second close is an error that nobody looks at. *)
Definition closes (rs : list Resource) (s : Server) : Server :=
  MkServer (sv_cfg s) (sv_run s) (sv_pc s) (filter (fun r => r ∉ rs) (sv_open s)) (sv_defer s) (sv_http s)
    (sv_httpErr s) (sv_router s) (sv_tcp s) (sv_conns s) (sv_reaper s) (sv_done s).
Definition set_http (h : HttpState) (e : bool) (s : Server) : Server :=
  MkServer (sv_cfg s) (sv_run s) (sv_pc s) (sv_open s) (sv_defer s) h e (sv_router s)
    (sv_tcp s) (sv_conns s) (sv_reaper s) (sv_done s).
Definition set_go (router tcp reaper : Goroutine) (s : Server) : Server :=
  MkServer (sv_cfg s) (sv_run s) (sv_pc s) (sv_open s) (sv_defer s) (sv_http s) (sv_httpErr s) router
    tcp (sv_conns s) reaper (sv_done s).
Definition set_run (st : Running) (s : Server) : Server :=
  MkServer (sv_cfg s) st (sv_pc s) (sv_open s) (sv_defer s) (sv_http s) (sv_httpErr s) (sv_router s)
    (sv_tcp s) (sv_conns s) (sv_reaper s) (sv_done s).
Definition cancelled (s : Server) : Server :=
  MkServer (sv_cfg s) (sv_run s) (sv_pc s) (sv_open s) (sv_defer s) (sv_http s) (sv_httpErr s) (sv_router s)
    (sv_tcp s) (sv_conns s) (sv_reaper s) true.

(** [return err]: the deferred closes run. *)
Definition ret (err : option RunErr) (s : Server) : Server :=
  goto (PcReturned err) (closes (sv_defer s) s).

(** The next statement of [Run]; [ok] is the answer of the operating system.
    In the select [ok] picks the branch when both are ready. *)
Definition runStep (ok : bool) (s : Server) : Server :=
  match sv_pc s with
  | PcResolve => if ok then goto PcListenUDP s else ret (Some ErrResolveUDP) s
  | PcListenUDP => if ok then goto PcServeHTTP (acquire UDPConn s) else ret (Some ErrListenUDP) s
  | PcServeHTTP => goto PcListenTCP (set_http HttpStarting false s)
  | PcListenTCP =>
      if bool_decide (TCPAddr (sv_cfg s) = "") then goto PcSpawn s
      else if ok then goto PcSpawn (set_go (sv_router s) GRunning (sv_reaper s) (acquire TCPListener s))
      else ret (Some ErrListenTCP) s
  | PcSpawn => goto PcWait (set_go GRunning (sv_tcp s) GRunning s)
  | PcWait =>
      if sv_done s && (ok || negb (sv_httpErr s)) then goto PcShutdown s
      else if sv_httpErr s then ret (Some ErrHTTP) s
      else s
  | PcShutdown => goto PcCloseUDP (set_http HttpDown (sv_httpErr s) (closes [HTTPListener] s))
  | PcCloseUDP => goto PcJoin (closes [UDPConn] s)
  | PcJoin => match sv_router s with GExited => ret None s | _ => s end
  | PcReturned _ => s
  end.

(** The HTTP goroutine: [ListenAndServe] opens its listener or fails; later
    [Serve] can fail, which closes the listener.  After [Shutdown] it returns
    [ErrServerClosed], which is not reported. *)
Definition httpListens (ok : bool) (s : Server) : Server :=
  match sv_http s with
  | HttpStarting => if ok then set_http HttpServing (sv_httpErr s) (opens HTTPListener s) else set_http HttpDown true s
  | _ => s
  end.
Definition httpFails (s : Server) : Server :=
  match sv_http s with HttpServing => set_http HttpDown true (closes [HTTPListener] s) | _ => s end.

(** A read of the router that fails: the loop ends only when the context is
    done.  A read can fail for a reason of the network at any time; it has no
    deadline, so it is sure to fail only once the socket is closed. *)
Definition routerError (s : Server) : Server :=
  match sv_router s with
  | GRunning => if sv_done s then set_go GExited (sv_tcp s) (sv_reaper s) s else s
  | _ => s
  end.
Definition routerClosed (s : Server) : Server :=
  if bool_decide (UDPConn ∈ sv_open s) then s else routerError s.

(** [TCPHandler.Run]: the context closes the listener, and a failing accept
    ends the loop only when the context is done. *)
Definition tcpCloser (s : Server) : Server :=
  match sv_tcp s with GRunning => if sv_done s then closes [TCPListener] s else s | _ => s end.
Definition acceptError (s : Server) : Server :=
  match sv_tcp s with
  | GRunning => if sv_done s then set_go (sv_router s) GExited (sv_reaper s) s else s
  | _ => s
  end.
(** A connection is accepted, or refused at the limit; its goroutine closes it
    when it ends. *)
Definition tcpAccept (conn : Conn) (s : Server) : Server :=
  match sv_tcp s with
  | GRunning =>
      if bool_decide (TCPListener ∈ sv_open s) && bool_decide (conn ∉ Router.h_open (sv_conns s))
      then set_conns (Router.accept conn (sv_conns s)) s else s
  | _ => s
  end.
Definition connEnds (conn : Conn) (s : Server) : Server :=
  let h := sv_conns s in
  if bool_decide (conn ∈ Router.h_open h)
  then set_conns (Router.MkHandler (i32 (Router.activeConns h - 1)) (filter (fun c => c <> conn) (Router.h_open h))
                    (Router.h_rejected h)) s
  else s.
Definition reaperStops (s : Server) : Server :=
  match sv_reaper s with
  | GRunning => if sv_done s then set_go (sv_router s) (sv_tcp s) GExited s else s
  | _ => s
  end.

(** Which goroutine does the work of an event of the running server. *)
Definition works (e : SrvEvent) (s : Server) : bool :=
  match e with
  | SvUdp _ _ _ =>
      match sv_router s with GRunning => bool_decide (UDPConn ∈ sv_open s) | _ => false end
  | SvTcp conn _ _ => bool_decide (conn ∈ Router.h_open (sv_conns s))
  | SvHttp _ _ _ _ => match sv_http s with HttpServing => true | _ => false end
  | SvScan _ _ | SvApply _ _ => match sv_reaper s with GRunning => true | _ => false end
  end.

Inductive LifeEvent :=
| LRun (ok : bool)
| LCancel
| LHttp (ok : bool)
| LHttpFails
| LRouterError
| LRouterClosed
| LTcpCloser
| LAccept (conn : Conn)
| LConnEnds (conn : Conn)
| LAcceptError
| LReaperStops
| LWork (e : SrvEvent).

Definition lifeStep (net : Router.Net) (ρ : Shuffle) (e : LifeEvent) (s : Server) : outcome Server :=
  match e with
  | LRun ok => Ret (runStep ok s)
  | LCancel => Ret (cancelled s)
  | LHttp ok => Ret (httpListens ok s)
  | LHttpFails => Ret (httpFails s)
  | LRouterError => Ret (routerError s)
  | LRouterClosed => Ret (routerClosed s)
  | LAccept conn => Ret (tcpAccept conn s)
  | LConnEnds conn => Ret (connEnds conn s)
  | LTcpCloser => Ret (tcpCloser s)
  | LAcceptError => Ret (acceptError s)
  | LReaperStops => Ret (reaperStops s)
  | LWork e => if works e s then st ← srvStep net ρ e (sv_run s); Ret (set_run st s) else Ret s
  end.

Fixpoint lifeRun (net : Router.Net) (ρ : Shuffle) (es : list LifeEvent) (s : Server) : outcome Server :=
  match es with [] => Ret s | e :: es' => s' ← lifeStep net ρ e s; lifeRun net ρ es' s' end.

Lemma lifeRun_app net ρ es1 es2 s :
  lifeRun net ρ (es1 ++ es2) s = s' ← lifeRun net ρ es1 s; lifeRun net ρ es2 s'.
Proof.
  revert s; induction es1 as [|e es1 IH]; intros s; simpl; [done|].
  destruct (lifeStep net ρ e s); simpl; [apply IH|done].
Qed.

(** ** The invariant *)

(** How far [Run] is. *)
Definition stage (pc : Pc) : nat :=
  match pc with
  | PcResolve => 0 | PcListenUDP => 1 | PcServeHTTP => 2 | PcListenTCP => 3 | PcSpawn => 4
  | PcWait => 5 | PcShutdown => 6 | PcCloseUDP => 7 | PcJoin => 8 | PcReturned _ => 9
  end%nat.

Record sv_ok (s : Server) : Prop := {
  (** what is open will be closed; the listener of the HTTP server apart *)
  so_defer : forall r, r ∈ sv_open s -> r ∈ sv_defer s \/ r = HTTPListener;
  so_closed : stage (sv_pc s) = 9%nat -> forall r, r ∈ sv_open s -> r = HTTPListener;
  (** the sockets of the working server *)
  so_udp : (2 <= stage (sv_pc s) <= 7)%nat -> UDPConn ∈ sv_open s;
  so_udpClosed : stage (sv_pc s) = 8%nat -> UDPConn ∉ sv_open s;
  so_tcp : (4 <= stage (sv_pc s) <= 8)%nat -> sv_done s = false ->
           TCPAddr (sv_cfg s) <> "" -> TCPListener ∈ sv_open s /\ sv_tcp s = GRunning;
  (** the goroutines *)
  so_workers : (5 <= stage (sv_pc s) <= 8)%nat -> sv_done s = false ->
               sv_router s = GRunning /\ sv_reaper s = GRunning;
  so_router : (5 <= stage (sv_pc s) <= 8)%nat -> sv_router s <> GNone;
  so_exits : sv_router s = GExited \/ sv_tcp s = GExited \/ sv_reaper s = GExited -> sv_done s = true;
  so_stops : (6 <= stage (sv_pc s) <= 8)%nat \/ sv_pc s = PcReturned None -> sv_done s = true;
  so_joined : sv_pc s = PcReturned None -> sv_router s = GExited;
  (** the HTTP server *)
  so_listener : HTTPListener ∈ sv_open s -> sv_http s = HttpServing;
  so_httpOff : (stage (sv_pc s) <= 2)%nat -> sv_http s = HttpOff;
  so_httpErr : sv_httpErr s = true -> sv_http s = HttpDown;
  so_down : (7 <= stage (sv_pc s) <= 8)%nat -> sv_http s = HttpDown;
  so_left : forall err, sv_pc s = PcReturned err ->
            match err with
            | None | Some ErrHTTP => sv_http s = HttpDown
            | Some ErrListenTCP => True
            | _ => sv_http s = HttpOff
            end;
  (** the TCP connections *)
  so_conns : sv_tcp s = GNone -> Router.h_open (sv_conns s) = [];
  so_noTcp : (stage (sv_pc s) <= 3)%nat -> sv_tcp s = GNone;
  so_leftTcp : forall err, sv_pc s = PcReturned err -> err <> None -> err <> Some ErrHTTP -> sv_tcp s = GNone }.

(** The clauses of the invariant after one statement: they hold at once, or
    by the arithmetic of the stages, or they held before. *)
Ltac life_solve :=
  split; simpl; intros; rewrite ?elem_of_cons, ?list_elem_of_filter in *;
  repeat (destruct_or?; destruct_and?); split_and?; simplify_eq/=;
  first [ done | lia | congruence | by left | by right
        | match goal with H : _ -> _ |- _ => solve [apply H; (done || lia || auto with lia)] end
        | match goal with H : _ -> _ |- _ => solve [right; apply H; (done || lia)] end
        | match goal with H : _ -> _ |- _ => solve [eapply H; (done || lia)] end
        | match goal with |- (_ \/ _) \/ _ => naive_solver end
        | match goal with H : ?r ∉ [?r] |- _ => by destruct H; left end
        | match goal with |- _ ∉ _ => set_solver | |- ~ (_ /\ _) => set_solver end ].
Ltac life_step Hs Hpc := destruct Hs; rewrite Hpc in *; simpl in *; life_solve.

Lemma sv_ok_new cfg logOk : sv_ok (NewServer cfg logOk).
Proof.
  split; simpl; intros; try done; try lia; try naive_solver lia.
  exfalso. destruct logOk; set_solver.
Qed.

(** [return] closes what has a deferred close. *)
Lemma ret_closes err s r : sv_ok s -> r ∈ sv_open (ret err s) -> r ∈ sv_open s /\ r = HTTPListener.
Proof.
  intros Hs [Hn Ho]%list_elem_of_filter. simpl in *. split; [done|].
  by destruct (so_defer s Hs r Ho).
Qed.

(** Where [Run] can return, and what then is known of the HTTP server. *)
Definition may_return (err : option RunErr) (s : Server) : Prop :=
  match err with
  | None => sv_router s = GExited /\ sv_http s = HttpDown
  | Some ErrHTTP => sv_http s = HttpDown
  | Some ErrListenTCP => sv_tcp s = GNone
  | _ => sv_http s = HttpOff /\ sv_tcp s = GNone
  end.

Lemma sv_ok_ret err s : sv_ok s -> may_return err s -> sv_ok (ret err s).
Proof.
  intros Hs He. pose proof (ret_closes err s) as Hc. destruct Hs.
  split; simpl in *; try lia; try done.
  - intros r Hr. right. by apply Hc.
  - intros _ r Hr. by apply Hc.
  - intros [?|[= ->]]; [lia|]. apply so_exits0. left. by apply He.
  - intros [= ->]. by apply He.
  - intros Hr. apply so_listener0. by apply Hc.
  - intros e [= <-]. destruct err as [[]|]; naive_solver.
  - intros e [= <-] H1 H2. destruct err as [[]|]; naive_solver.
Qed.

Lemma sv_ok_runStep ok s : sv_ok s -> sv_ok (runStep ok s).
Proof.
  intros Hs. unfold runStep. destruct (sv_pc s) eqn:Hpc.
  - destruct ok; [life_step Hs Hpc|]. apply sv_ok_ret; [done|].
    split; [apply (so_httpOff s Hs)|apply (so_noTcp s Hs)]; rewrite Hpc; simpl; lia.
  - destruct ok; [life_step Hs Hpc|]. apply sv_ok_ret; [done|].
    split; [apply (so_httpOff s Hs)|apply (so_noTcp s Hs)]; rewrite Hpc; simpl; lia.
  - assert (Hn : HTTPListener ∉ sv_open s).
    { intros H%(so_listener s Hs). rewrite (so_httpOff s Hs) in H; [done|]. rewrite Hpc. simpl. lia. }
    life_step Hs Hpc.
  - case_bool_decide; [life_step Hs Hpc|]. destruct ok; [life_step Hs Hpc|]. apply sv_ok_ret; [done|].
    apply (so_noTcp s Hs). rewrite Hpc. simpl. lia.
  - life_step Hs Hpc.
  - destruct (_ && _) eqn:G.
    + apply andb_true_iff in G as [G _]. life_step Hs Hpc.
    + destruct (sv_httpErr s) eqn:Ee; [|done]. apply sv_ok_ret; [done|]. by apply (so_httpErr s Hs).
  - life_step Hs Hpc.
  - life_step Hs Hpc.
  - destruct (sv_router s) eqn:Hr; [done|done|]. apply sv_ok_ret; [done|]. split; [done|].
    apply (so_down s Hs). rewrite Hpc. simpl. lia.
  - done.
Qed.

Lemma sv_ok_router s : sv_ok s -> sv_ok (routerError s).
Proof.
  intros Hs. unfold routerError. destruct (sv_router s) eqn:E, (sv_done s) eqn:Ed; try done. destruct Hs. life_solve.
Qed.

(** The HTTP server at work, and [Run] then. *)
Lemma http_busy s : sv_ok s -> sv_http s = HttpStarting \/ sv_http s = HttpServing ->
  (3 <= stage (sv_pc s) <= 6)%nat \/ sv_pc s = PcReturned (Some ErrListenTCP).
Proof.
  intros Hs Hh. pose proof (so_httpOff s Hs) as H1. pose proof (so_down s Hs) as H2. pose proof (so_left s Hs) as H3.
  destruct (sv_pc s) as [| | | | | | | | |err]; simpl in *; try lia;
    try (rewrite H1 in Hh by lia; by destruct Hh); try (rewrite H2 in Hh by lia; by destruct Hh).
  specialize (H3 err eq_refl). right. destruct err as [[]|]; try done; rewrite H3 in Hh; by destruct Hh.
Qed.

(** Its goroutine opens or closes the listener. *)
Lemma sv_ok_http h err os s :
  sv_ok s -> sv_http s = HttpStarting \/ sv_http s = HttpServing ->
  (forall r, r ∈ os -> r ∈ sv_open s \/ r = HTTPListener) ->
  (forall r, r <> HTTPListener -> r ∈ sv_open s -> r ∈ os) ->
  (HTTPListener ∈ os -> h = HttpServing) -> (err = true -> h = HttpDown) ->
  sv_ok (MkServer (sv_cfg s) (sv_run s) (sv_pc s) os (sv_defer s) h err (sv_router s) (sv_tcp s) (sv_conns s)
           (sv_reaper s) (sv_done s)).
Proof.
  intros Hs Hb H1 H2 H3 H4. pose proof (http_busy s Hs Hb) as Hp. destruct Hs.
  split; simpl; try done.
  - intros r [Hr | ->]%H1; [by apply so_defer0|by right].
  - intros H9 r [Hr | ->]%H1; [by apply so_closed0|done].
  - intros Hr. apply H2; [done|]. by apply so_udp0.
  - intros H8. destruct Hp as [|Hp]; [lia|]. by rewrite Hp in H8.
  - intros Hr Hd Ht. destruct (so_tcp0 Hr Hd Ht). split; [by apply H2|done].
  - intros H8. destruct Hp as [|Hp]; [lia|]. rewrite Hp in H8. simpl in H8. lia.
  - intros H8. destruct Hp as [|Hp]; [lia|]. rewrite Hp in H8. simpl in H8. lia.
  - intros e He. destruct Hp as [Hp|Hp]; rewrite He in Hp; [simpl in Hp; lia|]. by injection Hp as ->.
Qed.

Lemma sv_ok_step net ρ e s s' : sv_ok s -> lifeStep net ρ e s = Ret s' -> sv_ok s'.
Proof.
  intros Hs H. destruct e as [ok| |ok| | | | |conn|conn| | |e]; simpl in H; simplify_eq.
  - by apply sv_ok_runStep.
  - destruct Hs. life_solve.
  - unfold httpListens. destruct (sv_http s) eqn:E; try done.
    destruct ok; apply (sv_ok_http _ _ _ s Hs); try done; try (by left); simpl.
    + set_solver.
    + set_solver.
    + intros H%(so_httpErr s Hs). congruence.
    + intros H%(so_listener s Hs). congruence.
  - unfold httpFails. destruct (sv_http s) eqn:E; try done.
    apply (sv_ok_http _ _ _ s Hs); try done; [by right|..]; simpl.
    + intros r [_ Hr]%list_elem_of_filter. by left.
    + intros r Hr Ho. apply list_elem_of_filter. split; [|done]. by intros ->%list_elem_of_singleton.
    + intros [Hn _]%list_elem_of_filter. destruct Hn. by left.
  - by apply sv_ok_router.
  - unfold routerClosed. case_bool_decide; [done|by apply sv_ok_router].
  - unfold tcpCloser. destruct (sv_tcp s) eqn:E, (sv_done s) eqn:Ed; try done. destruct Hs. life_solve.
  - unfold tcpAccept. destruct (sv_tcp s) eqn:E; try done. destruct (_ && _); [|done].
    destruct Hs. split; try done. simpl. congruence.
  - unfold connEnds. case_bool_decide as Hc; [|done]. destruct Hs. split; try done. simpl. intros H.
    by rewrite so_conns0.
  - unfold acceptError. destruct (sv_tcp s) eqn:E, (sv_done s) eqn:Ed; try done. destruct Hs.
    split; simpl; rewrite ?E in *; try done; try (by intros);
      [intros _ H; congruence|intros H; by specialize (so_noTcp0 H)|].
    intros err H1 H2 H3. by specialize (so_leftTcp0 err H1 H2 H3).
  - unfold reaperStops. destruct (sv_reaper s) eqn:E, (sv_done s) eqn:Ed; try done. destruct Hs. life_solve.
  - destruct (works e s); [|by simplify_eq].
    destruct (srvStep net ρ e (sv_run s)) as [st|]; simplify_eq/=. by destruct Hs.
Qed.

Lemma sv_ok_run net ρ es s s' : sv_ok s -> lifeRun net ρ es s = Ret s' -> sv_ok s'.
Proof.
  revert s; induction es as [|e es IH]; intros s Hs H; simpl in H; [by simplify_eq|].
  destruct (lifeStep net ρ e s) as [s1|] eqn:E; [|done]. by eapply IH, H; eapply sv_ok_step.
Qed.

(** ** Progress *)

(** [Run] has not failed. *)
Definition sound (s : Server) : Prop := forall e, sv_pc s <> PcReturned (Some e).

(** Statements of [Run] in a schedule, and those the system refuses. *)
Definition isRun (e : LifeEvent) : bool := match e with LRun _ => true | _ => false end.
Definition runs (es : list LifeEvent) : nat := length (filter (fun e => isRun e = true) es).

(** Once the context is cancelled no event takes [Run] back, a statement takes
    it on, and what has ended stays so. *)
Lemma step_progress net ρ e s s' :
  sv_done s = true -> lifeStep net ρ e s = Ret s' ->
  sv_done s' = true /\ (stage (sv_pc s) <= stage (sv_pc s'))%nat /\
  (isRun e = true -> Nat.min 8 (S (stage (sv_pc s))) <= stage (sv_pc s'))%nat /\
  (sv_router s = GExited -> (5 <= stage (sv_pc s))%nat -> sv_router s' = GExited) /\
  (e <> LRun false -> sound s -> sound s').
Proof.
  intros Hd H. destruct e as [ok| |ok| | | | |conn|conn| | |e]; simpl in H; simplify_eq.
  - assert (Hso : LRun ok <> LRun false -> sound s -> sound (runStep ok s)).
    { destruct ok; [intros _|done]. unfold runStep, sound. rewrite Hd. cbn [andb orb].
      destruct (sv_pc s) eqn:Hpc; simpl; repeat case_match; simpl; rewrite ?Hpc; naive_solver. }
    split_and!; [..|exact Hso]; unfold runStep; rewrite Hd; cbn [andb isRun];
      destruct (sv_pc s) eqn:Hpc; simpl; repeat case_match; simpl; rewrite ?Hpc; simpl; try done; lia.
  - split_and!; done.
  - unfold httpListens. destruct (sv_http s), ok; split_and!; done.
  - unfold httpFails. destruct (sv_http s); split_and!; done.
  - unfold routerError. rewrite Hd. destruct (sv_router s) eqn:Hr; split_and!; simpl; (done || congruence).
  - unfold routerClosed, routerError. rewrite Hd.
    case_bool_decide; [split_and!; done|]. destruct (sv_router s) eqn:Hr; split_and!; simpl; (done || congruence).
  - unfold tcpCloser. rewrite Hd. destruct (sv_tcp s); split_and!; done.
  - unfold tcpAccept. destruct (sv_tcp s); [split_and!; done| |split_and!; done].
    destruct (_ && _); split_and!; done.
  - unfold connEnds. case_bool_decide; split_and!; done.
  - unfold acceptError. rewrite Hd. destruct (sv_tcp s); split_and!; done.
  - unfold reaperStops. rewrite Hd. destruct (sv_reaper s); split_and!; done.
  - destruct (works e s); [|simplify_eq; split_and!; done].
    destruct (srvStep net ρ e (sv_run s)) as [st|]; simplify_eq/=. split_and!; done.
Qed.

Lemma run_progress net ρ es s s' :
  sv_done s = true -> lifeRun net ρ es s = Ret s' ->
  sv_done s' = true /\ (Nat.min 8 (runs es + stage (sv_pc s)) <= stage (sv_pc s'))%nat /\
  (stage (sv_pc s) <= stage (sv_pc s'))%nat /\
  (sv_router s = GExited -> (5 <= stage (sv_pc s))%nat -> sv_router s' = GExited) /\
  (LRun false ∉ es -> sound s -> sound s').
Proof.
  revert s; induction es as [|e es IH]; intros s Hd H; cbn [lifeRun] in H.
  { simplify_eq. split_and!; [done|unfold runs; cbn [filter list_filter length]; lia|done|done|done]. }
  destruct (lifeStep net ρ e s) as [s1|] eqn:E; [|done]. cbn [mbind outcome_bind] in H.
  destruct (step_progress net ρ e s s1 Hd E) as (Hd1 & H1 & H2 & H3 & H4).
  destruct (IH s1 Hd1 H) as (Hd2 & I1 & I2 & I3 & I4). split_and!; [done| |lia| |].
  - unfold runs in *. rewrite filter_cons. case_decide as Hr; cbn [length]; [specialize (H2 Hr)|]; lia.
  - intros Hr Hs. apply I3; [auto|lia].
  - intros [Hne Hn]%not_elem_of_cons Hs. apply I4; [done|]. apply H4; [congruence|done].
Qed.

Lemma stage_max pc : (stage pc <= 9)%nat.
Proof. destruct pc; simpl; lia. Qed.

(** [Run] has returned, or waits for the router, which has ended. *)
Definition joinable (s : Server) : Prop :=
  stage (sv_pc s) = 9%nat \/ (stage (sv_pc s) = 8%nat /\ sv_router s = GExited).

Lemma joinable_kept s s' : joinable s -> (stage (sv_pc s) <= stage (sv_pc s'))%nat ->
  (sv_router s = GExited -> (5 <= stage (sv_pc s))%nat -> sv_router s' = GExited) -> joinable s'.
Proof.
  intros Hs Hle Hr. pose proof (stage_max (sv_pc s')). unfold joinable.
  destruct Hs as [|[Hs Hx]]; [left; lia|]. destruct (decide (stage (sv_pc s') = 9%nat)); [by left|right].
  split; [lia|]. apply Hr; [done|lia].
Qed.

(** The router that meets its closed socket ends, once [Run] has got to the
    join. *)
Lemma router_ends net ρ es s s' :
  sv_ok s -> sv_done s = true -> (8 <= stage (sv_pc s))%nat -> LRouterClosed ∈ es -> lifeRun net ρ es s = Ret s' ->
  joinable s'.
Proof.
  intros Hs Hd Hst (l1 & l2 & ->)%list_elem_of_split E. rewrite lifeRun_app in E.
  destruct (lifeRun net ρ l1 s) as [s1|] eqn:E1; [|done]. cbn [mbind outcome_bind lifeRun lifeStep] in E.
  destruct (run_progress net ρ l1 s s1 Hd E1) as (Hd1 & _ & Hp1 & _).
  assert (Hok1 : sv_ok s1) by (by eapply sv_ok_run).
  destruct (step_progress net ρ LRouterClosed s1 _ Hd1 eq_refl) as (Hd2 & Hp2 & _).
  assert (Hj : joinable (routerClosed s1)).
  { pose proof (stage_max (sv_pc s1)). destruct (decide (stage (sv_pc s1) = 9%nat)).
    { left. pose proof (stage_max (sv_pc (routerClosed s1))). lia. }
    assert (H8 : stage (sv_pc s1) = 8%nat) by lia. right. unfold routerClosed, routerError.
    rewrite bool_decide_false by (by apply (so_udpClosed s1 Hok1)). rewrite Hd1.
    pose proof (so_router s1 Hok1 ltac:(lia)). by destruct (sv_router s1) eqn:Er. }
  destruct (run_progress net ρ l2 _ s' Hd2 E) as (_ & _ & Hp3 & Hx3 & _). by eapply joinable_kept.
Qed.

(** One statement of [Run] then ends it. *)
Lemma run_joins net ρ es s s' :
  sv_done s = true -> joinable s -> (1 <= runs es)%nat -> lifeRun net ρ es s = Ret s' -> stage (sv_pc s') = 9%nat.
Proof.
  revert s. induction es as [|e es IH]; intros s Hd Hj Hr E; [unfold runs in Hr; cbn [filter list_filter length] in Hr; lia|].
  cbn [lifeRun] in E. destruct (lifeStep net ρ e s) as [s1|] eqn:E1; [|done]. cbn [mbind outcome_bind] in E.
  destruct (step_progress net ρ e s s1 Hd E1) as (Hd1 & P1 & _ & P3 & _).
  destruct (isRun e) eqn:Hre.
  - assert (H9 : stage (sv_pc s1) = 9%nat).
    { pose proof (stage_max (sv_pc s1)). destruct Hj as [|[Hs Hx]]; [lia|].
      destruct e as [ok| | | | | | | | | | |]; try done.
      simpl in E1. injection E1 as <-. unfold runStep. destruct (sv_pc s); try done. by rewrite Hx. }
    destruct (run_progress net ρ es s1 s' Hd1 E) as (_ & _ & Hle & _). pose proof (stage_max (sv_pc s')). lia.
  - apply (IH s1); try done; [by eapply joinable_kept|].
    unfold runs in *. rewrite filter_cons_False in Hr by congruence. done.
Qed.

(** Without packets and requests nothing panics. *)
Lemma run_total net ρ es s : (forall e, LWork e ∉ es) -> exists s', lifeRun net ρ es s = Ret s'.
Proof.
  revert s; induction es as [|e es IH]; intros s Hn; [by eexists|]. cbn [lifeRun].
  destruct e as [| | | | | | | | | | |e]; cbn [lifeStep mbind outcome_bind];
    [apply IH; intros e' He; apply (Hn e'); by right..|]. exfalso. apply (Hn e). by left.
Qed.

(** ** Theorems *)

(** C18. The life of the server.  Whatever fails and whenever the context is
    cancelled: while [Run] waits and is not cancelled, its UDP socket and, if
    configured, its TCP listener are open and the loops that serve them run.
    When it has returned, with or without an error, the UDP socket, the TCP
    listener and the log file are closed.  Two things can be open then: the
    listener of the HTTP server, only when [Run] failed to open its TCP listener,
    and TCP connections that were accepted before, each of which its own
    goroutine closes, only when [Run] got to wait.  When it returns without an
    error, it was cancelled, the router has ended and the HTTP server is down. *)
Theorem server_lifecycle (cfg : ServerConfig) (logOk : bool) (net : Router.Net) (ρ : Shuffle)
    (es : list LifeEvent) (s : Server) :
  lifeRun net ρ es (NewServer cfg logOk) = Ret s ->
  match sv_pc s with
  | PcWait =>
      sv_done s = false ->
      UDPConn ∈ sv_open s /\ sv_router s = GRunning /\ sv_reaper s = GRunning /\
      (TCPAddr (sv_cfg s) <> "" -> TCPListener ∈ sv_open s /\ sv_tcp s = GRunning)
  | PcReturned err =>
      (forall r, r ∈ sv_open s -> r = HTTPListener /\ err = Some ErrListenTCP) /\
      (Router.h_open (sv_conns s) <> [] -> err = None \/ err = Some ErrHTTP) /\
      (err = None -> sv_done s = true /\ sv_router s = GExited /\ sv_http s = HttpDown)
  | _ => True
  end.
Proof.
  intros H%sv_ok_run; [|apply sv_ok_new]. destruct (sv_pc s) as [| | | | | | | | |err] eqn:Hpc; try done.
  - intros Hd. destruct H. rewrite Hpc in *. simpl in *. destruct so_workers0 as [Hr Hp]; [lia|done|].
    split_and!; [apply so_udp0; lia|done|done|intros; apply so_tcp0; (done || lia)].
  - pose proof (so_left s H err Hpc) as Hl. split_and!.
    + intros r Hr. assert (r = HTTPListener) as -> by (eapply so_closed; [done| |done]; by rewrite Hpc).
      split; [done|]. rewrite (so_listener s H Hr) in Hl. by destruct err as [[]|].
    + intros Hc. destruct err as [[]|]; auto; destruct Hc; by apply (so_conns s H), (so_leftTcp s H _ Hpc).
    + intros ->. split_and!; [apply (so_stops s H); by right|by apply (so_joined s H)|done].
Qed.

(** C19. The server can always be stopped.  From any state it can get into, the
    cancellation followed by any schedule in which [Run] gets to execute eight
    statements, then the router meets its closed socket, then [Run] executes one
    more, ends the server, whatever the operating system answers and whatever
    else happens in between, with its UDP socket, TCP listener and log file
    closed.  If [Run] had not failed before and no statement fails on the way, it
    returns no error.  Such a schedule never gets stuck: without packets and
    requests, which could make the process panic, every schedule runs to its
    end.  (The read of the router has no deadline: it ends because [Run] has
    closed the socket.) *)
Theorem server_stops (cfg : ServerConfig) (logOk : bool) (net : Router.Net) (ρ : Shuffle)
    (es es1 es2 es3 : list LifeEvent) (s : Server) :
  lifeRun net ρ es (NewServer cfg logOk) = Ret s ->
  (8 <= runs es1)%nat -> LRouterClosed ∈ es2 -> (1 <= runs es3)%nat ->
  let after := LCancel :: es1 ++ es2 ++ es3 in
  ((forall e, LWork e ∉ after) -> exists s', lifeRun net ρ after s = Ret s') /\
  forall s', lifeRun net ρ after s = Ret s' ->
    exists err, sv_pc s' = PcReturned err /\ (forall r, r ∈ sv_open s' -> r = HTTPListener) /\
      (LRun false ∉ after -> (forall e, sv_pc s <> PcReturned (Some e)) -> err = None).
Proof.
  intros H%sv_ok_run Hr1 Hr2 Hr3 after; [|apply sv_ok_new]. split; [intros; by apply run_total|]. intros s' E.
  assert (Hend : sv_ok s') by (eapply sv_ok_run; [exact H|exact E]).
  assert (Hc : sv_ok (cancelled s)) by (by apply (sv_ok_step net ρ LCancel s)).
  subst after. cbn [lifeRun lifeStep mbind outcome_bind] in E.
  destruct (run_progress net ρ (es1 ++ es2 ++ es3) (cancelled s) s' eq_refl E) as (_ & _ & _ & _ & Hsound).
  rewrite lifeRun_app in E.
  destruct (lifeRun net ρ es1 (cancelled s)) as [s1|] eqn:E1; [|done]. cbn [mbind outcome_bind] in E.
  destruct (run_progress net ρ es1 (cancelled s) s1 eq_refl E1) as (Hd1 & Hp1 & _).
  assert (Hok1 : sv_ok s1) by (by eapply sv_ok_run).
  rewrite lifeRun_app in E. destruct (lifeRun net ρ es2 s1) as [s2|] eqn:E2; [|done]. cbn [mbind outcome_bind] in E.
  assert (Hd2 : sv_done s2 = true) by apply (run_progress net ρ es2 s1 s2 Hd1 E2).
  assert (H9 : stage (sv_pc s') = 9%nat).
  { eapply run_joins; [exact Hd2| |exact Hr3|exact E]. eapply router_ends; [done|done| |done|done]. lia. }
  destruct (sv_pc s') as [| | | | | | | | |err] eqn:Hpc; simpl in H9; try lia. exists err. split; [done|]. split.
  - apply (so_closed s' Hend). by rewrite Hpc.
  - intros Hn Hs. apply not_elem_of_cons in Hn as [_ Hn]. specialize (Hsound Hn Hs).
    destruct err as [e|]; [|done]. by destruct (Hsound e).
Qed.

Definition demo_scfg : ServerConfig := MkServerConfig ":10000" ":443" ":8080" "k" "" "" 0 0.
(** The start-up without failures, up to the select. *)
Definition startup : list LifeEvent := LRun <$> replicate 5 true.
Definition demo_waiting : Server :=
  match lifeRun Router.good_net id_shuffle (startup ++ [LHttp true]) (NewServer demo_scfg true) with
  | Ret s => s
  | Panic => NewServer demo_scfg true
  end.

Lemma server_lifecycle_witness :
  UDPConn ∈ sv_open demo_waiting /\ sv_router demo_waiting = GRunning /\
  sv_reaper demo_waiting = GRunning /\
  (TCPAddr (sv_cfg demo_waiting) <> "" ->
   TCPListener ∈ sv_open demo_waiting /\ sv_tcp demo_waiting = GRunning).
Proof.
  exact (server_lifecycle demo_scfg true Router.good_net id_shuffle (startup ++ [LHttp true]) demo_waiting
           ltac:(by vm_compute) ltac:(by vm_compute)).
Defined.

Lemma server_stops_witness :
  let after := LCancel :: (LRun <$> replicate 8 true) ++ [LTcpCloser; LRouterClosed] ++ [LRun true] in
  exists s' err, lifeRun Router.good_net id_shuffle after demo_waiting = Ret s' /\
    sv_pc s' = PcReturned err /\ (forall r, r ∈ sv_open s' -> r = HTTPListener) /\ err = None.
Proof.
  intros after.
  destruct (server_stops demo_scfg true Router.good_net id_shuffle (startup ++ [LHttp true]) (LRun <$> replicate 8 true)
    [LTcpCloser; LRouterClosed] [LRun true] demo_waiting) as [H1 H2].
  - by vm_compute.
  - vm_compute. lia.
  - right. by left.
  - vm_compute. lia.
  - destruct H1 as [s' E].
    { intros e He. repeat (apply elem_of_cons in He as [He|He]; [discriminate|]). by apply elem_of_nil in He. }
    destruct (H2 s' E) as (err & P1 & P2 & P3). exists s', err. split_and!; [done..|]. apply P3; [|by vm_compute].
    intros He. repeat (apply elem_of_cons in He as [He|He]; [discriminate|]). by apply elem_of_nil in He.
Defined.

(** After [Run] has returned an error and the HTTP server is down, no goroutine
    stops unless the context is cancelled. *)
Lemma leaked_step net ρ e s s' err :
  e <> LCancel -> sv_pc s = PcReturned err -> sv_done s = false -> sv_http s = HttpDown -> sv_open s = [] ->
  lifeStep net ρ e s = Ret s' ->
  sv_pc s' = PcReturned err /\ sv_done s' = false /\ sv_http s' = HttpDown /\ sv_open s' = [] /\
  sv_router s' = sv_router s /\ sv_tcp s' = sv_tcp s.
Proof.
  intros He Hp Hd Hh Ho H. destruct e as [ok| |ok| | | | |conn|conn| | |e]; simpl in H; try done; simplify_eq.
  11: { destruct (works e s); [|by simplify_eq]. destruct (srvStep net ρ e (sv_run s)) as [st|]; by simplify_eq/=. }
  all: unfold runStep, httpListens, httpFails, routerClosed, routerError, tcpCloser, acceptError, reaperStops, tcpAccept, connEnds;
    rewrite ?Hp, ?Hd, ?Hh; repeat case_match; done.
Qed.

(** What an error leaves behind.  If the HTTP server fails while [Run]
    waits, [Run] returns the error with its sockets closed, but the router and
    the TCP accept loop go on, each read and each accept failing at once,
    whatever happens, until the context is cancelled.  If the TCP listener
    cannot be opened, [Run] returns the error while the HTTP server it started
    keeps serving requests. *)
Theorem failed_run_leaks :
  (exists es s,
     lifeRun Router.good_net id_shuffle es (NewServer demo_scfg true) = Ret s /\
     sv_pc s = PcReturned (Some ErrHTTP) /\ sv_open s = [] /\
     forall es' s', LCancel ∉ es' -> lifeRun Router.good_net id_shuffle es' s = Ret s' ->
       sv_router s' = GRunning /\ sv_tcp s' = GRunning /\ sv_open s' = []) /\
  (exists es s,
     lifeRun Router.good_net id_shuffle es (NewServer demo_scfg true) = Ret s /\
     sv_pc s = PcReturned (Some ErrListenTCP) /\
     forall r nowL nowI nowC, works (SvHttp r nowL nowI nowC) s = true).
Proof.
  split.
  - exists (startup ++ [LHttp true; LHttpFails; LRun true]). eexists. split; [by vm_compute|].
    split; [done|]. split; [done|]. intros es'.
    match goal with |- forall s', _ -> lifeRun _ _ _ ?s = _ -> _ =>
      assert (Hp : sv_pc s = PcReturned (Some ErrHTTP)) by done;
      assert (Hd : sv_done s = false) by done; assert (Hh : sv_http s = HttpDown) by done; assert (Hr : sv_router s = GRunning) by done;
      assert (Ht : sv_tcp s = GRunning) by done; assert (Ho : sv_open s = []) by done;
      generalize dependent s
    end.
    induction es' as [|e es' IH]; intros s Hp Hd Hh Hr Ht Ho s' Hn H; simpl in H; [by simplify_eq|].
    apply not_elem_of_cons in Hn as [He Hn].
    destruct (lifeStep Router.good_net id_shuffle e s) as [s1|] eqn:E; [|done]. simpl in H.
    apply (leaked_step _ _ _ _ _ (Some ErrHTTP)) in E as (H1 & H2 & H3 & H4 & H5 & H6); [|done..].
    eapply IH; [exact H1|exact H2|exact H3|congruence..|exact Hn|exact H].
  - exists ((LRun <$> [true; true; true; false]) ++ [LHttp true]). eexists. split; [by vm_compute|].
    split; [done|]. done.
Qed.

(** ** The reaper's loop *)

(** A [Filetime]: two 32-bit halves of a number of 100-nanosecond units. *)
Record Filetime := MkFiletime { HighDateTime : Z; LowDateTime : Z }.
Definition filetimeNano (f : Filetime) : Z :=
  i64 (Z.lor (i64 (Z.shiftl (HighDateTime f) 32)) (LowDateTime f) * 100).

(** [processCPUTime]: on Windows with the kernel and user times the system
    reports ([None] when a call fails); elsewhere zero. *)
Definition processCPUTime_windows (times : option (Filetime * Filetime)) : Z :=
  match times with
  | None => 0
  | Some (kernel, user) => i64 (filetimeNano kernel + filetimeNano user)
  end.
Definition processCPUTime_other : Z := 0.

(** What one cycle of [RunReaper] logs: the removals, when there are any, and
    the statistics; [cy_cpu] is the text of the CPU percentage. *)
Record CycleLog := MkCycle {
  cy_removed : option (Z * Z);
  cy_sessions : Z; cy_players : Z; cy_routed : Z; cy_routed_mb : Z; cy_dropped : Z;
  cy_cpu : bytes }.

(** The clock values the loop keeps. *)
Record ReaperClock := MkRClock { lastWall : Z; lastCPU : Z }.

(** The CPU percentage of a cycle; [numCPU] is [runtime.NumCPU()]. *)
Definition cpuPct (cpuDelta wallDelta numCPU : Z) : float64 :=
  if 0 <? wallDelta then
    fmul (fdiv (fdiv (float_of cpuDelta) (float_of wallDelta)) (float_of numCPU)) (float_of 100)
  else MkFloat 0 0.

(** One iteration of [RunReaper], nothing running between the phases;
    [nowWall] and [nowCPU] are read after the cycle. *)
Definition RunReaper (ρ : Shuffle) (now1 : Z) (clk1 : loc -> Z) (now2 : Z) (clk2 : loc -> Z -> Z)
    (nowWall nowCPU goroutines numCPU : Z) (m : Manager) (c : ReaperClock)
    : Manager * ReaperClock * CycleLog :=
  let r := ReapStaleSessions ρ now1 clk1 now2 clk2 m in
  let players := removedPlayers r in
  let sessions := removedSessions r in
  let wallDelta := Time.Sub nowWall (lastWall c) in
  let cpuDelta := i64 (nowCPU - lastCPU c) in
  let snap := snap (Snapshot goroutines (m_metrics (r_mgr r))) in
  (r_mgr r, MkRClock nowWall nowCPU,
   MkCycle (if (0 <? players) || (0 <? sessions) then Some (players, sessions) else None)
     (ActiveSessions snap) (ActivePlayers snap) (PacketsRouted snap)
     (BytesRouted snap / 1024 / 1024) (PacketsDropped snap)
     (fmtF 1 (cpuPct cpuDelta wallDelta numCPU))).

(** Every removal takes one player out of the index, and one session out of
    the table. *)
Lemma reapPlayer_count clk sid l st pid :
  mgr_ok (r_mgr st) -> m_sessions (r_mgr st) !! sid = Some l ->
  let st' := reapPlayer clk l st pid in
  removedPlayers st' + Z.of_nat (size (m_index (r_mgr st'))) =
    removedPlayers st + Z.of_nat (size (m_index (r_mgr st))) /\
  removedPlayers st <= removedPlayers st' /\ removedSessions st' = removedSessions st.
Proof.
  intros Hm Hs. unfold reapPlayer, RemovePlayerIfStale.
  destruct (players (deref l (r_mgr st)) !! pid) as [p|] eqn:Ep; [destruct (negb _)|]; simpl; [lia| |lia].
  assert (Hi : m_index (r_mgr st) !! pid = Some sid) by (apply (in_session_iff _ _ _ _ Hm Hs); by eexists).
  rewrite map_size_delete_Some by by eexists.
  assert (size (m_index (r_mgr st)) <> 0%nat); [|lia].
  intros E%map_size_empty_inv. by rewrite E, lookup_empty in Hi.
Qed.

Lemma reapPlayers_count clk sid l pids st :
  mgr_ok (r_mgr st) -> m_sessions (r_mgr st) !! sid = Some l ->
  let st' := foldl (reapPlayer clk l) st pids in
  removedPlayers st' + Z.of_nat (size (m_index (r_mgr st'))) =
    removedPlayers st + Z.of_nat (size (m_index (r_mgr st))) /\
  removedPlayers st <= removedPlayers st' /\ removedSessions st' = removedSessions st.
Proof.
  revert st; induction pids as [|pid pids IH]; intros st Hm Hs; cbn [foldl]; [cbv zeta; lia|].
  destruct (reapPlayer_ok clk sid l st pid Hm Hs) as [Hm' Hs'].
  destruct (reapPlayer_count clk sid l st pid Hm Hs) as (H1 & H2 & H3).
  destruct (IH (reapPlayer clk l st pid)) as (H4 & H5 & H6); [done|congruence|].
  cbv zeta in *. lia.
Qed.

Lemma reapPhase2_count now clk cs st :
  mgr_ok (r_mgr st) -> Forall (cand_ok (r_mgr st)) cs -> NoDup (c_sessionID <$> cs) ->
  let st' := foldl (reapOne now clk) st cs in
  removedPlayers st' + Z.of_nat (size (m_index (r_mgr st'))) =
    removedPlayers st + Z.of_nat (size (m_index (r_mgr st))) /\
  removedSessions st' + Z.of_nat (size (m_sessions (r_mgr st'))) =
    removedSessions st + Z.of_nat (size (m_sessions (r_mgr st))) /\
  removedPlayers st <= removedPlayers st' /\ removedSessions st <= removedSessions st'.
Proof.
  revert st; induction cs as [|c cs IH]; intros st Hm Hall Hnd; cbn [foldl]; [cbv zeta; lia|].
  apply Forall_cons in Hall as [Hc Hall]. apply NoDup_cons in Hnd as [Hni Hnd].
  destruct (reapOne_ok now clk st c Hm Hc) as [Hm' Hs'].
  destruct (IH (reapOne now clk st c)) as (H1 & H2 & H3 & H4); [done| |done|].
  { apply Forall_forall. intros c' Hin. apply Hs'; [|by eapply Forall_forall in Hall].
    intros E. apply Hni. rewrite <- E. by apply list_elem_of_fmap_2. }
  destruct (reapPlayers_count clk _ _ (c_stalePIDs c) st Hm Hc) as (P1 & P2 & P3).
  destruct (reapPlayers_ok clk _ _ (c_stalePIDs c) st Hm Hc) as [_ Hs]. cbv zeta in *.
  assert (Hone : removedPlayers (reapOne now clk st c) + Z.of_nat (size (m_index (r_mgr (reapOne now clk st c)))) =
            removedPlayers st + Z.of_nat (size (m_index (r_mgr st))) /\
          removedSessions (reapOne now clk st c) + Z.of_nat (size (m_sessions (r_mgr (reapOne now clk st c)))) =
            removedSessions st + Z.of_nat (size (m_sessions (r_mgr st))) /\
          removedPlayers st <= removedPlayers (reapOne now clk st c) /\
          removedSessions st <= removedSessions (reapOne now clk st c)); [|lia].
  unfold reapOne. destruct (foldl _ st _) as [m1 np ns cl]. simpl in *. subst.
  destruct (_ && _); simpl; [|rewrite Hs; lia].
  rewrite map_size_delete_Some; [|rewrite Hs; by eexists]. rewrite Hs.
  assert (size (m_sessions (r_mgr st)) <> 0%nat); [|lia].
  intros E%map_size_empty_inv. unfold cand_ok in Hc. by rewrite E, lookup_empty in Hc.
Qed.

(** The reaper's log is true.  In a consistent state, whatever the clock
    shows, the removals a cycle logs are the players and sessions that
    disappeared from the manager; it logs none exactly when none did; and the
    active sessions and players it logs are the ones left. *)
Theorem reaper_log_true (ρ : Shuffle) (now1 : Z) (clk1 : loc -> Z) (now2 : Z) (clk2 : loc -> Z -> Z)
    (nowWall nowCPU goroutines numCPU : Z) (m m' : Manager) (c c' : ReaperClock) (log : CycleLog) :
  mgr_ok m -> RunReaper ρ now1 clk1 now2 clk2 nowWall nowCPU goroutines numCPU m c = (m', c', log) ->
  let goneP := Z.of_nat (size (m_index m)) - Z.of_nat (size (m_index m')) in
  let goneS := Z.of_nat (size (m_sessions m)) - Z.of_nat (size (m_sessions m')) in
  cy_removed log = (if (goneP =? 0) && (goneS =? 0) then None else Some (goneP, goneS)) /\
  cy_sessions log = Z.of_nat (size (m_sessions m')) /\ cy_players log = Z.of_nat (size (m_index m')).
Proof.
  intros Hm H. unfold RunReaper in H. cbv zeta in *.
  pose proof (mgr_ok_ReapStaleSessions ρ now1 clk1 now2 clk2 m Hm) as Hm'.
  set (r := ReapStaleSessions ρ now1 clk1 now2 clk2 m) in *.
  assert (Hr : removedPlayers r + Z.of_nat (size (m_index (r_mgr r))) = Z.of_nat (size (m_index m)) /\
    removedSessions r + Z.of_nat (size (m_sessions (r_mgr r))) = Z.of_nat (size (m_sessions m)) /\
    0 <= removedPlayers r /\ 0 <= removedSessions r).
  { unfold r, ReapStaleSessions. destruct (_ =? 0); [simpl; lia|].
    destruct (reapPhase1_ok ρ now1 clk1 m) as [Hc Hn].
    exact (reapPhase2_count now2 clk2 _ (MkReap m 0 0 []) Hm Hc Hn). }
  destruct Hr as (H1 & H2 & H3 & H4). simplify_eq. simpl.
  split; [|split; apply Hm'].
  destruct (Z.ltb_spec 0 (removedPlayers r)), (Z.ltb_spec 0 (removedSessions r)); cbn [orb];
    destruct (Z.eqb_spec (Z.of_nat (size (m_index m)) - Z.of_nat (size (m_index (r_mgr r)))) 0),
      (Z.eqb_spec (Z.of_nat (size (m_sessions m)) - Z.of_nat (size (m_sessions (r_mgr r)))) 0);
    cbn [andb]; try lia; try done; f_equal; f_equal; lia.
Qed.

Definition demo_cycle : Manager * ReaperClock * CycleLog :=
  RunReaper id_shuffle t_old (fun _ => t_old) t_old (fun _ _ => t_old) t_old 0 9 4 demo_mgr (MkRClock 0 0).
Lemma reaper_log_true_witness :
  cy_removed demo_cycle.2 = (if ((1 - 0 =? 0) && (1 - 0 =? 0)) then None else Some (1 - 0, 1 - 0)) /\
  cy_sessions demo_cycle.2 = Z.of_nat (size (m_sessions demo_cycle.1.1)) /\
  cy_players demo_cycle.2 = Z.of_nat (size (m_index demo_cycle.1.1)).
Proof.
  exact (reaper_log_true id_shuffle t_old (fun _ => t_old) t_old (fun _ _ => t_old) t_old 0 9 4 demo_mgr
           demo_cycle.1.1 (MkRClock 0 0) demo_cycle.1.2 demo_cycle.2 demo_mgr_ok eq_refl).
Defined.

(** The percentage up to rounding. *)
Lemma cpuPct_near cpu wall n : 0 <= cpu < 2 ^ 53 -> 0 < wall < 2 ^ 53 -> 0 < n < 2 ^ 20 ->
  near (f_val (cpuPct cpu wall n)) (frac (100 * cpu) (wall * n)) 6 /\ 0 <= f_mant (cpuPct cpu wall n).
Proof.
  intros Hc Hw Hn. unfold cpuPct. rewrite (proj2 (Z.ltb_lt 0 wall)) by lia.
  destruct (float_of_pos wall ltac:(lia)) as [Hwm _]. destruct (float_of_pos n ltac:(lia)) as [Hnm _].
  destruct (float_of_pos 100 ltac:(lia)) as [H1m H1].
  assert (H0 : near (f_val (float_of cpu)) (inject_Z cpu) 0) by (apply near_exact, float_of_exact; lia).
  apply (fdiv_int_near _ _ wall) in H0; [|lia..]. apply (fdiv_int_near _ _ n) in H0; [|lia..]. split.
  - pose proof (fmul_near (fdiv (fdiv (float_of cpu) (float_of wall)) (float_of n)) (float_of 100)) as Hm.
    rewrite H1 in Hm. pose proof (near_step _ _ (inject_Z 100) _ 4 ltac:(lia) Hm H0) as H.
    assert ((frac (100 * cpu) (wall * n) == frac cpu wall / inject_Z n * inject_Z 100)%Q) as ->; [|done].
    rewrite !inject_Z_mult. pose proof (inject_pos wall ltac:(lia)). pose proof (inject_pos n ltac:(lia)).
    field. split; intros ?; lra.
  - apply fmul_sign; [|lia]. apply fdiv_sign; [|done]. apply fdiv_sign; [|done]. apply round64_sign; lia.
Qed.

(** C34. The CPU percentage is right.  The text logged is that of a number of
    tenths, half a tenth from the exact percentage [100 * cpu / (wall * numCPU)]
    at most, up to a relative error of 10^-15 of the percentage: for every CPU
    time, measured time and number of processors in range, also when the process
    is charged more time than the processors had (the clocks are read one after
    the other).  It is 0.0 when the clock has not moved on or went back, and at
    most 100.0 if the process was not charged more than the processors had. *)
Theorem reaper_cpu_percentage (ρ : Shuffle) (now1 : Z) (clk1 : loc -> Z) (now2 : Z) (clk2 : loc -> Z -> Z)
    (nowWall nowCPU goroutines numCPU : Z) (m : Manager) (c : ReaperClock) :
  let wall := nowWall - lastWall c in
  let cpu := nowCPU - lastCPU c in
  let text := cy_cpu (RunReaper ρ now1 clk1 now2 clk2 nowWall nowCPU goroutines numCPU m c).2 in
  let exact := (inject_Z (100 * cpu) / inject_Z (wall * numCPU))%Q in
  (wall <= 0 -> text = fixed_text 1 false 0) /\
  (0 < wall < 2 ^ 53 -> 0 <= cpu < 2 ^ 53 -> 0 < numCPU < 2 ^ 20 ->
   exists z, text = fixed_text 1 false z /\ 0 <= z /\
     (Qabs (inject_Z z / 10 - exact) <= (1 # 20) + exact * (1 # 1000000000000000))%Q /\
     (cpu <= wall * numCPU -> z <= 1000)).
Proof.
  intros wall cpu text exact. split.
  { intros Hw. subst text. unfold RunReaper. cbn [snd cy_cpu]. unfold cpuPct.
    rewrite (proj2 (Z.ltb_ge 0 (Time.Sub nowWall (lastWall c)))); [by vm_compute|].
    unfold Time.Sub, Time.minDuration, Time.maxDuration. lia. }
  intros Hw Hc Hn. subst text. unfold RunReaper. cbn [snd cy_cpu]. fold cpu.
  replace (Time.Sub nowWall (lastWall c)) with wall
    by (unfold Time.Sub, Time.minDuration, Time.maxDuration; subst wall; lia).
  rewrite (i64_small cpu) by lia. destruct (cpuPct_near cpu wall numCPU Hc Hw Hn) as [Hnear Hs].
  exists (fixed 1 (cpuPct cpu wall numCPU)). split; [by apply fmtF_nonneg|]. split; [by apply fixed_sign|].
  assert (HW : 0 < wall * numCPU) by nia. pose proof (inject_pos _ HW) as HW'.
  assert (Hy : (0 <= exact <= exact)%Q).
  { split; [|apply Qle_refl]. apply Qle_shift_div_l; [done|]. rewrite Qmult_0_l. apply (inject_le 0). lia. }
  pose proof (printed_error 1 _ _ _ 6 ltac:(lia) Hnear Hy) as He. change (10 ^ Z.of_nat 1) with 10 in He.
  assert (He' : (Qabs (inject_Z (fixed 1 (cpuPct cpu wall numCPU)) / 10 - exact) <=
    (1 # 20) + exact * (1 # 1000000000000000))%Q).
  { eapply Qle_trans; [exact He|]. apply Qplus_le_compat; [discriminate|].
    rewrite !(Qmult_comm exact). apply Qmult_le_compat_r; [unfold ulp; discriminate|apply Hy]. }
  split; [exact He'|]. intros Hle.
  assert (H1 : (exact <= 100 # 1)%Q).
  { apply Qle_shift_div_r; [done|]. change (100 # 1)%Q with (inject_Z 100). rewrite <- inject_Z_mult.
    apply inject_le. lia. }
  apply Qabs_Qle_condition in He' as [_ He'].
  assert (Hz : (inject_Z (fixed 1 (cpuPct cpu wall numCPU)) < inject_Z 1001)%Q).
  { assert (E : (inject_Z (fixed 1 (cpuPct cpu wall numCPU)) ==
      inject_Z (fixed 1 (cpuPct cpu wall numCPU)) / 10 * 10)%Q) by field. rewrite E.
    revert He' H1. generalize (inject_Z (fixed 1 (cpuPct cpu wall numCPU)) / 10)%Q exact.
    change (inject_Z 1001) with (1001 # 1). intros p y He' H1. lra. }
  rewrite <- Zlt_Qlt in Hz. lia.
Qed.

(** The clock and the processors of a cycle in which the process was charged
    more than they had. *)
Lemma reaper_cpu_percentage_witness :
  exists z, cy_cpu (RunReaper id_shuffle 0 (fun _ => 0) 0 (fun _ _ => 0) 30000000000 30000000001 9 1 demo_mgr
      (MkRClock 0 0)).2 = fixed_text 1 false z /\ 0 <= z /\
    (Qabs (inject_Z z / 10 - inject_Z (100 * 30000000001) / inject_Z (30000000000 * 1)) <=
     (1 # 20) + inject_Z (100 * 30000000001) / inject_Z (30000000000 * 1) * (1 # 1000000000000000))%Q.
Proof.
  destruct (reaper_cpu_percentage id_shuffle 0 (fun _ => 0) 0 (fun _ _ => 0) 30000000000 30000000001 9 1 demo_mgr
           (MkRClock 0 0)) as [_ H]. simpl in H. destruct H as (z & H1 & H2 & H3 & _); [lia..|].
  exists z. split; [exact H1|]. split; [exact H2|exact H3].
Defined.

(** The number of 100-nanosecond units of a [Filetime]. *)
Definition filetime (f : Filetime) : Z := HighDateTime f * 2 ^ 32 + LowDateTime f.

Lemma lor_halves h lo : 0 <= lo < 2 ^ 32 -> Z.lor (Z.shiftl h 32) lo = h * 2 ^ 32 + lo.
Proof.
  intros H. assert (Hl : Z.land (Z.shiftl h 32) lo = 0).
  { apply Z.bits_inj'. intros n Hn. rewrite Z.land_spec, Z.bits_0. destruct (Z.ltb_spec n 32).
    - by rewrite Z.shiftl_spec_low.
    - replace (Z.testbit lo n) with false; [by rewrite andb_false_r|]. symmetry.
      destruct (decide (lo = 0)) as [->|Hne]; [apply Z.bits_0|].
      apply Z.bits_above_log2; [lia|]. assert (Z.log2 lo < 32); [|lia].
      apply Z.log2_lt_pow2; lia. }
  rewrite <- Z.lxor_lor, <- Z.add_nocarry_lxor by done. by rewrite Z.shiftl_mul_pow2 by lia.
Qed.

(** The CPU time is exact.  As long as the process has used less than 292
    years of kernel and user time, the arithmetic on the two halves does not
    overflow and gives their sum in nanoseconds. *)
Theorem cpu_time_exact (kernel user : Filetime) :
  0 <= HighDateTime kernel -> 0 <= LowDateTime kernel < 2 ^ 32 ->
  0 <= HighDateTime user -> 0 <= LowDateTime user < 2 ^ 32 ->
  (filetime kernel + filetime user) * 100 < 2 ^ 63 ->
  processCPUTime_windows (Some (kernel, user)) = (filetime kernel + filetime user) * 100.
Proof.
  intros Hk Hk' Hu Hu' Hs. unfold processCPUTime_windows, filetimeNano, filetime in *.
  rewrite (i64_small (Z.shiftl (HighDateTime kernel) 32)) by (rewrite Z.shiftl_mul_pow2 by lia; lia).
  rewrite (i64_small (Z.shiftl (HighDateTime user) 32)) by (rewrite Z.shiftl_mul_pow2 by lia; lia).
  rewrite !lor_halves by done.
  rewrite (i64_small ((HighDateTime kernel * 2 ^ 32 + LowDateTime kernel) * 100)) by lia.
  rewrite (i64_small ((HighDateTime user * 2 ^ 32 + LowDateTime user) * 100)) by lia.
  rewrite i64_small; lia.
Qed.

Lemma cpu_time_exact_witness :
  processCPUTime_windows (Some (MkFiletime 1 5, MkFiletime 0 7)) =
  (filetime (MkFiletime 1 5) + filetime (MkFiletime 0 7)) * 100.
Proof. apply (cpu_time_exact (MkFiletime 1 5) (MkFiletime 0 7)); unfold filetime; simpl; lia. Defined.
