(* ===== verification/RelayConn.v ===== *)
(** * [internal/adapter/relayconn.go]: the adapter's connection to the relay

    One [RelayConnection] carries the traffic of all relay peers, over UDP or,
    after [SwitchToTCP], over TCP.  Fields guarded by [rc.mu] and the atomic
    counters are one record; each method is one atomic step.  Whether a socket
    write succeeds is an argument ([ok]), as are clock values. *)

From S2P Require Import Prelude GoLib RelayWire TcpFrame.

Definition HealthTimeout : Z := 30 * Time.Second.
Definition ProbeTimeout : Z := 5 * Time.Second.

(** A [chan struct{}] that is only ever closed: [None] is nil, [Some b] says
    whether it is closed. *)
Abbreviation Signal := (option bool).

Record RelayConnection := MkRC {
  relayAddr : AddrPort;
  rc_tcpConn : option Conn;
  rc_tcpAddr : string;
  tcpFrameBuf : bytes;
  useTCP : bool;
  localID : Z;
  sendBuf : bytes;
  pktsSent : Z;
  pktsRecv : Z;
  bytesSent : Z;
  bytesRecv : Z;
  lastRecv : Z;
  helloSentAt : Z;
  relayRttNs : Z;
  transportReady : Signal;
  transportReadyOnce : bool;
  relayConfirmed : Signal;
  relayConfirmedOnce : bool;
}.

(** [raddr] is the resolved relay address. *)
Definition NewRelayConnection (raddr : AddrPort) (id : Z) : RelayConnection :=
  MkRC raddr None "" (replicate (Z.to_nat (2 + MaxRelayPacket)) Byte.x00) false id
    (replicate 1500 Byte.x00) 0 0 0 0 0 0 0 (Some false) false (Some false) false.

(** Field updates. *)
Definition set_bufs (sb fb : bytes) (rc : RelayConnection) : RelayConnection :=
  MkRC (relayAddr rc) (rc_tcpConn rc) (rc_tcpAddr rc) fb (useTCP rc) (localID rc) sb
    (pktsSent rc) (pktsRecv rc) (bytesSent rc) (bytesRecv rc) (lastRecv rc) (helloSentAt rc)
    (relayRttNs rc) (transportReady rc) (transportReadyOnce rc) (relayConfirmed rc)
    (relayConfirmedOnce rc).
Definition set_tcp (c : option Conn) (addr : string) (use : bool) (rc : RelayConnection)
    : RelayConnection :=
  MkRC (relayAddr rc) c addr (tcpFrameBuf rc) use (localID rc) (sendBuf rc)
    (pktsSent rc) (pktsRecv rc) (bytesSent rc) (bytesRecv rc) (lastRecv rc) (helloSentAt rc)
    (relayRttNs rc) (transportReady rc) (transportReadyOnce rc) (relayConfirmed rc)
    (relayConfirmedOnce rc).
Definition count_sent (n : Z) (rc : RelayConnection) : RelayConnection :=
  MkRC (relayAddr rc) (rc_tcpConn rc) (rc_tcpAddr rc) (tcpFrameBuf rc) (useTCP rc) (localID rc)
    (sendBuf rc) (u64 (pktsSent rc + 1)) (pktsRecv rc) (u64 (bytesSent rc + n)) (bytesRecv rc)
    (lastRecv rc) (helloSentAt rc) (relayRttNs rc) (transportReady rc) (transportReadyOnce rc)
    (relayConfirmed rc) (relayConfirmedOnce rc).
Definition count_recv (n : Z) (rc : RelayConnection) : RelayConnection :=
  MkRC (relayAddr rc) (rc_tcpConn rc) (rc_tcpAddr rc) (tcpFrameBuf rc) (useTCP rc) (localID rc)
    (sendBuf rc) (pktsSent rc) (u64 (pktsRecv rc + 1)) (bytesSent rc) (u64 (bytesRecv rc + n))
    (lastRecv rc) (helloSentAt rc) (relayRttNs rc) (transportReady rc) (transportReadyOnce rc)
    (relayConfirmed rc) (relayConfirmedOnce rc).
Definition set_times (last hello rtt : Z) (rc : RelayConnection) : RelayConnection :=
  MkRC (relayAddr rc) (rc_tcpConn rc) (rc_tcpAddr rc) (tcpFrameBuf rc) (useTCP rc) (localID rc)
    (sendBuf rc) (pktsSent rc) (pktsRecv rc) (bytesSent rc) (bytesRecv rc) last hello rtt
    (transportReady rc) (transportReadyOnce rc) (relayConfirmed rc) (relayConfirmedOnce rc).
Definition set_ready (ch : Signal) (once : bool) (rc : RelayConnection) : RelayConnection :=
  MkRC (relayAddr rc) (rc_tcpConn rc) (rc_tcpAddr rc) (tcpFrameBuf rc) (useTCP rc) (localID rc)
    (sendBuf rc) (pktsSent rc) (pktsRecv rc) (bytesSent rc) (bytesRecv rc) (lastRecv rc)
    (helloSentAt rc) (relayRttNs rc) ch once (relayConfirmed rc) (relayConfirmedOnce rc).
Definition set_confirmed (ch : Signal) (once : bool) (rc : RelayConnection) : RelayConnection :=
  MkRC (relayAddr rc) (rc_tcpConn rc) (rc_tcpAddr rc) (tcpFrameBuf rc) (useTCP rc) (localID rc)
    (sendBuf rc) (pktsSent rc) (pktsRecv rc) (bytesSent rc) (bytesRecv rc) (lastRecv rc)
    (helloSentAt rc) (relayRttNs rc) (transportReady rc) (transportReadyOnce rc) ch once.

(** [close(ch)] panics on nil and on a closed channel. *)
Definition close (ch : Signal) : outcome Signal :=
  match ch with Some false => Ret (Some true) | _ => Panic end.

Definition MarkTransportReady (rc : RelayConnection) : outcome RelayConnection :=
  match transportReady rc with
  | None => Ret rc
  | Some _ =>
      if transportReadyOnce rc then Ret rc
      else ch ← close (transportReady rc); Ret (set_ready ch true rc)
  end.

Definition confirmRelay (rc : RelayConnection) : outcome RelayConnection :=
  match relayConfirmed rc with
  | None => Ret rc
  | Some _ =>
      if relayConfirmedOnce rc then Ret rc
      else ch ← close (relayConfirmed rc); Ret (set_confirmed ch true rc)
  end.

(** What [WaitRelayConfirmed] returns when it returns: [None] while neither
    the signal nor the context is done. *)
Definition WaitRelayConfirmed (ctxDone : bool) (rc : RelayConnection) : option bool :=
  match relayConfirmed rc with
  | None => Some true
  | Some true => Some true
  | Some false => if ctxDone then Some false else None
  end.

(** [dialed] is what the dial gives. *)
Definition SwitchToTCP (tcpAddr : string) (dialed : option Conn) (rc : RelayConnection)
    : RelayConnection * bool :=
  match dialed with
  | None => (rc, false)
  | Some conn => (set_tcp (Some conn) tcpAddr true rc, true)
  end.

Definition Transport (rc : RelayConnection) : string := if useTCP rc then "tcp" else "udp".

(** The frame [writeTCPFrame] writes on the current connection. *)
Definition rcWriteTCPFrame (data : bytes) (rc : RelayConnection)
    : outcome (RelayConnection * list Out) :=
  '(fr, fb) ← Adapter.writeTCPFrame (tcpFrameBuf rc) data;
  match rc_tcpConn rc with
  | None => Panic
  | Some c => Ret (set_bufs (sendBuf rc) fb rc, [SendTCP c fr])
  end.

Inductive SendErr := PayloadTooLarge | WriteFailed.

(** [sendBuf[:total]] with the header and the payload written into it. *)
Definition buildPacket (destID : Z) (payload : bytes) (rc : RelayConnection)
    : outcome (bytes * RelayConnection) :=
  let total := RelayHeaderSize + len payload in
  if len (sendBuf rc) <? total then Panic
  else
    h ← EncodeRelayHeader (take (Z.to_nat total) (sendBuf rc)) (localID rc) destID;
    let buf := copy_at 8 payload h in
    Ret (buf, set_bufs (buf ++ drop (Z.to_nat total) (sendBuf rc)) (tcpFrameBuf rc) rc).

Definition Send (ok : bool) (destID : Z) (payload : bytes) (rc : RelayConnection)
    : outcome (RelayConnection * list Out * result SendErr unit) :=
  let total := RelayHeaderSize + len payload in
  if MaxRelayPacket <? total then Ret (rc, [], Err PayloadTooLarge)
  else
    '(buf, rc) ← buildPacket destID payload rc;
    '(rc, outs) ← (if useTCP rc then rcWriteTCPFrame buf rc
                   else Ret (rc, [SendUDP (relayAddr rc) buf]));
    if ok then Ret (count_sent total rc, outs, Ok tt) else Ret (rc, outs, Err WriteFailed).

Definition SendHello (ok : bool) (now : Z) (rc : RelayConnection)
    : outcome (RelayConnection * list Out * bool) :=
  let rc := set_times (lastRecv rc) (Time.UnixNano now) (relayRttNs rc) rc in
  '(buf, rc) ← buildPacket (localID rc) [] rc;
  '(rc, outs) ← (if useTCP rc then rcWriteTCPFrame buf rc
                 else Ret (rc, [SendUDP (relayAddr rc) buf]));
  Ret (rc, outs, ok).

(** ** Receiving *)

(** The body both receive loops share once a packet [buf[:n]] is there: the
    arguments of [dispatchTopeer], if it is called.  [now1] and [now2] are the
    clock values for the health stamp and the round-trip time. *)
Definition handleRelayPacket (buf : bytes) (now1 now2 : Z) (rc : RelayConnection)
    : outcome (RelayConnection * option (Z * bytes * Z)) :=
  if len buf <? RelayHeaderSize then Ret (rc, None)
  else match DecodeRelayHeader buf with
  | Err _ => Ret (rc, None)
  | Ok (senderID, _) =>
      let rc := set_times (Time.UnixNano now1) (helloSentAt rc) (relayRttNs rc) rc in
      rc ← confirmRelay rc;
      if senderID =? localID rc then
        let sent := helloSentAt rc in
        let rc := if 0 <? sent
                  then set_times (lastRecv rc) sent (i64 (Time.UnixNano now2 - sent)) rc
                  else rc in
        Ret (rc, None)
      else Ret (rc, Some (senderID, drop (Z.to_nat RelayHeaderSize) buf, len buf))
  end.

(** One datagram in [receiveUDP]. *)
Definition receiveUDPPacket (datagram : bytes) (remote : AddrPort) (now1 now2 : Z)
    (rc : RelayConnection) : outcome (RelayConnection * option (Z * bytes * Z)) :=
  if negb (bool_decide (ap_addr remote = ap_addr (relayAddr rc))) then Ret (rc, None)
  else handleRelayPacket (take 1500 datagram) now1 now2 rc.

(** [IsHealthy] and the test of the health monitor. *)
Definition IsHealthy (now : Z) (rc : RelayConnection) : bool :=
  if lastRecv rc =? 0 then false
  else Time.Sub now (lastRecv rc + Time.unixToInternal * Time.Second) <? HealthTimeout.

(** One tick of [RunHealthMonitor]: the new [wasReachable] and the argument of
    [onStateChange], if it is called. *)
Definition healthTick (now : Z) (rc : RelayConnection) (wasReachable : bool)
    : bool * option bool :=
  let reachable := IsHealthy now rc in
  if negb (Bool.eqb reachable wasReachable) then (reachable, Some reachable)
  else (wasReachable, None).

Definition RelayRttMs (rc : RelayConnection) : Z :=
  if relayRttNs rc <=? 0 then 0 else Z.quot (relayRttNs rc) Time.Millisecond.

(** [Close]: the operations on the sockets; the UDP socket is closed last. *)
Definition Close (rc : RelayConnection) : list Out :=
  match rc_tcpConn rc with Some c => [CloseTCP c] | None => [] end.

(** [receiveTCP]'s inner loop on the bytes of one connection; [clk i] gives
    the clock values for frame [i].  A frame takes at least two bytes. *)
Fixpoint receiveFrames (fuel : nat) (stream : bytes) (clk : nat -> Z * Z) (i : nat)
    (rc : RelayConnection) : outcome (RelayConnection * list (Z * bytes * Z)) :=
  match fuel with
  | O => Ret (rc, [])
  | S fuel' =>
      match Adapter.readTCPFrame 1500 stream with
      | Err _ => Ret (rc, [])
      | Ok (buf, stream) =>
          '(rc, d) ← handleRelayPacket buf (clk i).1 (clk i).2 rc;
          '(rc, ds) ← receiveFrames fuel' stream clk (S i) rc;
          Ret (rc, option_list d ++ ds)
      end
  end.

(** ** Probing *)

(** One iteration of the outer loop of [ProbeRelayUDP]: the hello, the
    datagrams read before the deadline with the clock value at each, and the
    clock at the end. *)
Record ProbeRound := MkRound {
  pr_hello : Z; pr_ok : bool; pr_recv : list (bytes * AddrPort * Z); pr_end : Z }.

Inductive ProbeResult := ProbeOk | ProbeSendFailed | ProbeNoResponse.

(** The datagram is a pong: from the relay's address, with our identifier as
    its sender. *)
Definition is_pong (d : bytes) (remote : AddrPort) (rc : RelayConnection) : bool :=
  bool_decide (ap_addr remote = ap_addr (relayAddr rc)) &&
  negb (len (take 1500 d) <? RelayHeaderSize) &&
  match DecodeRelayHeader (take 1500 d) with
  | Err _ => false
  | Ok (senderID, _) => senderID =? localID rc
  end.

(** The inner loop: the connection after the pong that ends it. *)
Fixpoint probeScan (ds : list (bytes * AddrPort * Z)) (rc : RelayConnection)
    : outcome (option RelayConnection) :=
  match ds with
  | [] => Ret None
  | (d, remote, now) :: ds' =>
      if is_pong d remote rc then
        rc ← confirmRelay (set_times (Time.UnixNano now) (helloSentAt rc) (relayRttNs rc) rc);
        Ret (Some rc)
      else probeScan ds' rc
  end.

(** [None] as result: the loop is still running after the given rounds. *)
Fixpoint probeLoop (rounds : list ProbeRound) (deadline : Z) (rc : RelayConnection)
    : outcome (RelayConnection * list Out * option ProbeResult) :=
  match rounds with
  | [] => Ret (rc, [], None)
  | r :: rounds' =>
      '(rc, outs, ok) ← SendHello (pr_ok r) (pr_hello r) rc;
      if negb ok then Ret (rc, outs, Some ProbeSendFailed)
      else
        found ← probeScan (pr_recv r) rc;
        match found with
        | Some rc => Ret (rc, outs, Some ProbeOk)
        | None =>
            if negb (pr_end r <? deadline) then Ret (rc, outs, Some ProbeNoResponse)
            else
              '(rc, outs', res) ← probeLoop rounds' deadline rc;
              Ret (rc, outs ++ outs', res)
        end
  end.

Definition ProbeRelayUDP (start : Z) (rounds : list ProbeRound) (rc : RelayConnection)
    : outcome (RelayConnection * list Out * option ProbeResult) :=
  probeLoop rounds (Time.Add start ProbeTimeout) rc.

(** ** Reconnecting *)

Inductive Attempt :=
| DialOk (conn : Conn) (helloOk : bool) (now : Z)
| DialFailed
| CtxDone.

Definition maxBackoff : Z := 30 * Time.Second.

(** The retry loop of [reconnectTCP]: the waits between attempts, and whether
    it connected ([None] while it is still trying). *)
Fixpoint reconnectLoop (attempts : list Attempt) (backoff : Z) (rc : RelayConnection)
    : outcome (RelayConnection * list Out * list Z * option bool) :=
  match attempts with
  | [] => Ret (rc, [], [], None)
  | DialOk conn helloOk now :: _ =>
      let rc := set_tcp (Some conn) (rc_tcpAddr rc) (useTCP rc) rc in
      '(rc, outs, _) ← SendHello helloOk now rc;
      Ret (rc, outs, [], Some true)
  | CtxDone :: _ => Ret (rc, [], [], Some false)
  | DialFailed :: attempts' =>
      let next := i64 (backoff * 2) in
      let next := if maxBackoff <? next then maxBackoff else next in
      '(rc, outs, waits, res) ← reconnectLoop attempts' next rc;
      Ret (rc, outs, backoff :: waits, res)
  end.

Definition reconnectTCP (attempts : list Attempt) (rc : RelayConnection)
    : outcome (RelayConnection * list Out * list Z * option bool) :=
  let closed := match rc_tcpConn rc with Some c => [CloseTCP c] | None => [] end in
  '(rc, outs, waits, res) ← reconnectLoop attempts (2 * Time.Second) rc;
  Ret (rc, closed ++ outs, waits, res).

(** ** Invariant *)

(** A signal and its [sync.Once] agree. *)
Definition signal_ok (ch : Signal) (once : bool) : Prop :=
  match ch with None => True | Some closed => closed = once end.

Record rc_ok (rc : RelayConnection) : Prop := {
  rc_send : length (sendBuf rc) = 1500%nat;
  rc_frame : len (tcpFrameBuf rc) = Adapter.tcpFrameBufSize;
  rc_conn : useTCP rc = true -> is_Some (rc_tcpConn rc);
  rc_ready : signal_ok (transportReady rc) (transportReadyOnce rc);
  rc_confirmed : signal_ok (relayConfirmed rc) (relayConfirmedOnce rc);
}.

Lemma rc_ok_new raddr id : rc_ok (NewRelayConnection raddr id).
Proof. split; [by vm_compute..|done|done|done]. Qed.

Lemma rc_ok_times l h r rc : rc_ok rc -> rc_ok (set_times l h r rc).
Proof. intros []. by split. Qed.
Lemma rc_ok_count n rc : rc_ok rc -> rc_ok (count_sent n rc).
Proof. intros []. by split. Qed.
Lemma rc_ok_recv n rc : rc_ok rc -> rc_ok (count_recv n rc).
Proof. intros []. by split. Qed.
Lemma rc_ok_dial c rc addr use : rc_ok rc -> rc_ok (set_tcp (Some c) addr use rc).
Proof. intros []. split; simpl; eauto. Qed.
#[export] Hint Resolve rc_ok_new rc_ok_times rc_ok_count rc_ok_recv rc_ok_dial : relay.

Lemma buildPacket_spec dest payload rc :
  rc_ok rc -> len payload <= MaxRelayPayload ->
  exists rc', buildPacket dest payload rc = Ret (header (localID rc) dest ++ payload, rc') /\
    rc_ok rc' /\ rc' = set_bufs (sendBuf rc') (tcpFrameBuf rc) rc.
Proof.
  intros Hok Hp. pose proof (rc_send rc Hok) as Hlen. unfold buildPacket.
  unfold MaxRelayPayload, MaxRelayPacket, RelayHeaderSize in *.
  rewrite (proj2 (Z.ltb_ge _ _)) by lia. unfold EncodeRelayHeader.
  replace (Z.to_nat (8 + len payload)) with (8 + length payload)%nat by lia.
  rewrite (proj2 (Z.ltb_ge _ _)) by (rewrite length_take; lia).
  cbn [mbind outcome_bind]. rewrite <- (take_drop 8 (take (8 + length payload) (sendBuf rc))).
  rewrite put_header by (rewrite !length_take; lia).
  assert (Hbuf : copy_at 8 payload (header (localID rc) dest ++
                    drop 8 (take (8 + length payload) (sendBuf rc))) =
                 header (localID rc) dest ++ payload).
  { apply copy_at_tail; [by rewrite length_header|]. rewrite length_drop, length_take. lia. }
  rewrite Hbuf. eexists. split; [done|]. split; [|done].
  destruct Hok. split; simpl; try done.
  rewrite !length_app, length_header, length_drop. lia.
Qed.

Lemma rcWrite_spec data rc :
  rc_ok rc -> useTCP rc = true -> len data <= MaxRelayPacket ->
  exists c rc', rc_tcpConn rc = Some c /\
    rcWriteTCPFrame data rc = Ret (rc', [SendTCP c (frame data)]) /\
    rc_ok rc' /\ rc' = set_bufs (sendBuf rc) (tcpFrameBuf rc') rc.
Proof.
  intros Hok Hu Hd. destruct (rc_conn rc Hok Hu) as [c Hc]. unfold rcWriteTCPFrame.
  destruct (adapter_write_spec (tcpFrameBuf rc) data (rc_frame rc Hok) Hd) as (fb & -> & Hfb).
  rewrite Hc. simpl. exists c. eexists. split; [done|]. split; [done|]. split; [|done].
  destruct Hok. split; simpl; try done. by rewrite Hfb.
Qed.

(** The write that carries a packet to the relay. *)
Definition wire_out (rc : RelayConnection) (data : bytes) : Out :=
  if useTCP rc
  then match rc_tcpConn rc with Some c => SendTCP c (frame data) | None => CloseTCP (MkConn 0 None) end
  else SendUDP (relayAddr rc) data.

Lemma transmit_spec data sb rc :
  rc_ok (set_bufs sb (tcpFrameBuf rc) rc) -> len data <= MaxRelayPacket ->
  exists fb,
    (if useTCP rc then rcWriteTCPFrame data (set_bufs sb (tcpFrameBuf rc) rc)
     else Ret (set_bufs sb (tcpFrameBuf rc) rc, [SendUDP (relayAddr rc) data])) =
    Ret (set_bufs sb fb rc, [wire_out rc data]) /\ rc_ok (set_bufs sb fb rc).
Proof.
  intros Hok Hd. unfold wire_out. destruct (useTCP rc) eqn:Hu.
  - destruct (rcWrite_spec data _ Hok Hu Hd) as (c & rc' & Hc & Hw & Hok' & He).
    rewrite Hw. simpl in Hc. rewrite Hc. rewrite He in Hok' |- *. by exists (tcpFrameBuf rc').
  - by exists (tcpFrameBuf rc).
Qed.

Lemma Send_spec ok dest payload rc :
  rc_ok rc -> len payload <= MaxRelayPayload ->
  exists sb fb, rc_ok (set_bufs sb fb rc) /\
    Send ok dest payload rc =
    Ret (if ok then count_sent (RelayHeaderSize + len payload) (set_bufs sb fb rc)
         else set_bufs sb fb rc,
         [wire_out rc (header (localID rc) dest ++ payload)],
         if ok then Ok tt else Err WriteFailed).
Proof.
  intros Hok Hp. unfold Send.
  destruct (buildPacket_spec dest payload rc Hok Hp) as (rc1 & Hb & Hok1 & He).
  unfold MaxRelayPayload in Hp. rewrite (proj2 (Z.ltb_ge _ _)) by (unfold RelayHeaderSize in *; lia).
  rewrite Hb. cbn [mbind outcome_bind]. rewrite He in Hok1 |- *.
  destruct (transmit_spec (header (localID rc) dest ++ payload) (sendBuf rc1) rc Hok1)
    as (fb & Hw & Hok2).
  { rewrite length_app, length_header. unfold MaxRelayPayload, MaxRelayPacket, RelayHeaderSize in *.
    lia. }
  cbn [useTCP set_bufs relayAddr tcpFrameBuf] in Hw |- *. rewrite Hw. cbn [mbind outcome_bind].
  exists (sendBuf rc1), fb. split; [done|]. by destruct ok.
Qed.

Lemma SendHello_spec ok now rc :
  rc_ok rc ->
  exists sb fb,
    let rc1 := set_times (lastRecv rc) (Time.UnixNano now) (relayRttNs rc) (set_bufs sb fb rc) in
    rc_ok rc1 /\
    SendHello ok now rc = Ret (rc1, [wire_out rc (header (localID rc) (localID rc))], ok).
Proof.
  intros Hok. unfold SendHello.
  set (rc0 := set_times (lastRecv rc) (Time.UnixNano now) (relayRttNs rc) rc).
  assert (Hok0 : rc_ok rc0) by by apply rc_ok_times.
  destruct (buildPacket_spec (localID rc0) [] rc0 Hok0) as (rc1 & Hb & Hok1 & He); [by vm_compute|].
  rewrite Hb. cbn [mbind outcome_bind]. rewrite He in Hok1 |- *. rewrite app_nil_r.
  destruct (transmit_spec (header (localID rc0) (localID rc0)) (sendBuf rc1) rc0 Hok1)
    as (fb & Hw & Hok2); [by rewrite length_header; vm_compute|].
  cbn [useTCP set_bufs relayAddr tcpFrameBuf] in Hw |- *. rewrite Hw. cbn [mbind outcome_bind].
  exists (sendBuf rc1), fb. split; done.
Qed.

Lemma confirmRelay_spec rc :
  rc_ok rc -> exists ch once, confirmRelay rc = Ret (set_confirmed ch once rc) /\
    rc_ok (set_confirmed ch once rc) /\ ch <> Some false.
Proof.
  intros Hok. pose proof (rc_confirmed rc Hok) as Hs. unfold confirmRelay.
  assert (Hid : rc = set_confirmed (relayConfirmed rc) (relayConfirmedOnce rc) rc) by by destruct rc.
  destruct (relayConfirmed rc) as [b|] eqn:Hc; simpl in Hs.
  - subst b. destruct (relayConfirmedOnce rc) eqn:Ho.
    + exists (Some true), true. by rewrite <- Hid.
    + simpl. exists (Some true), true. split; [done|]. destruct Hok. by split.
  - exists None, (relayConfirmedOnce rc). by rewrite <- Hid.
Qed.

Lemma MarkTransportReady_spec rc :
  rc_ok rc -> exists ch, MarkTransportReady rc = Ret ch /\ rc_ok ch /\ transportReady ch <> Some false.
Proof.
  intros Hok. pose proof (rc_ready rc Hok) as Hs. unfold MarkTransportReady.
  destruct (transportReady rc) as [b|] eqn:Hc; simpl in Hs.
  - subst b. destruct (transportReadyOnce rc) eqn:Ho.
    + exists rc. by rewrite Hc.
    + simpl. eexists. split; [done|]. split; [|done]. destruct Hok. by split.
  - exists rc. by rewrite Hc.
Qed.

(** ** Handling packets *)

(** What a packet from the relay does to the timestamps. *)
Definition stamped (now1 now2 sender : Z) (rc : RelayConnection) : RelayConnection :=
  set_times (Time.UnixNano now1) (helloSentAt rc)
    (if (sender =? localID rc) && (0 <? helloSentAt rc)
     then i64 (Time.UnixNano now2 - helloSentAt rc) else relayRttNs rc) rc.

Lemma handleRelayPacket_spec buf now1 now2 rc sender dest :
  rc_ok rc -> DecodeRelayHeader buf = Ok (sender, dest) ->
  exists ch once, ch <> Some false /\
    rc_ok (set_confirmed ch once (stamped now1 now2 sender rc)) /\
    handleRelayPacket buf now1 now2 rc =
    Ret (set_confirmed ch once (stamped now1 now2 sender rc),
         if sender =? localID rc then None else Some (sender, drop 8 buf, len buf)).
Proof.
  intros Hok Hd. unfold handleRelayPacket. rewrite Hd.
  assert (Hlen : (len buf <? RelayHeaderSize) = false).
  { unfold DecodeRelayHeader in Hd. by destruct (len buf <? RelayHeaderSize). }
  rewrite Hlen.
  set (rc0 := set_times (Time.UnixNano now1) (helloSentAt rc) (relayRttNs rc) rc).
  destruct (confirmRelay_spec rc0) as (ch & once & Hc & Hok1 & Hch); [by apply rc_ok_times|].
  rewrite Hc. cbn [mbind outcome_bind]. exists ch, once. split; [done|].
  unfold stamped. cbn [localID set_confirmed rc0 set_times helloSentAt].
  destruct (sender =? localID rc); cbn [andb]; [|done].
  destruct (0 <? helloSentAt rc); [|done]. split; [|done]. destruct Hok1. by split.
Qed.

Lemma handleRelayPacket_ok buf now1 now2 rc :
  rc_ok rc -> exists rc' d, handleRelayPacket buf now1 now2 rc = Ret (rc', d) /\ rc_ok rc'.
Proof.
  intros Hok. destruct (DecodeRelayHeader buf) as [[s d]|] eqn:E.
  - destruct (handleRelayPacket_spec buf now1 now2 rc s d Hok E) as (ch & once & _ & Hok' & ->).
    by do 2 eexists.
  - unfold handleRelayPacket. rewrite E. destruct (_ <? _); by do 2 eexists.
Qed.

Lemma receiveFrames_ok fuel stream clk i rc :
  rc_ok rc -> exists rc' ds, receiveFrames fuel stream clk i rc = Ret (rc', ds) /\ rc_ok rc'.
Proof.
  revert stream i rc; induction fuel as [|fuel IH]; intros stream i rc Hok; simpl; [by eauto|].
  destruct (Adapter.readTCPFrame 1500 stream) as [[buf rest]|]; [|by eauto].
  destruct (handleRelayPacket_ok buf (clk i).1 (clk i).2 rc Hok) as (rc1 & d & -> & Hok1).
  destruct (IH rest (S i) rc1 Hok1) as (rc2 & ds & E & Hok2). simpl. rewrite E. simpl. eauto.
Qed.

Lemma probeScan_spec ds rc :
  rc_ok rc ->
  exists found, probeScan ds rc = Ret found /\
    (is_Some found <-> Exists (fun '(d, remote, _) => is_pong d remote rc = true) ds) /\
    (forall rc', found = Some rc' -> rc_ok rc' /\ relayConfirmed rc' <> Some false).
Proof.
  intros Hok. induction ds as [|[[d remote] now] ds IH]; simpl.
  - exists None. split; [done|]. split; [|done]. split; [by intros []|]. by intros H%Exists_nil.
  - destruct (is_pong d remote rc) eqn:Hp.
    + destruct (confirmRelay_spec (set_times (Time.UnixNano now) (helloSentAt rc) (relayRttNs rc) rc))
        as (ch & once & -> & Hok1 & Hch); [by apply rc_ok_times|]. simpl.
      eexists. split; [done|]. split; [|by intros ? [= <-]].
      split; [|by eexists]. intros _. by left.
    + destruct IH as (found & -> & Hiff & Hf). exists found. split; [done|]. split; [|done].
      rewrite Hiff, Exists_cons. split; [by right|]. intros [?|?]; [congruence|done].
Qed.

Lemma probeLoop_ok rounds deadline rc :
  rc_ok rc -> exists rc' outs res, probeLoop rounds deadline rc = Ret (rc', outs, res) /\ rc_ok rc'.
Proof.
  revert rc; induction rounds as [|r rounds IH]; intros rc Hok; cbn [probeLoop]; [by eauto|].
  destruct (SendHello_spec (pr_ok r) (pr_hello r) rc Hok) as (sb & fb & Hok1 & ->).
  cbn [mbind outcome_bind]. destruct (pr_ok r); cbn [negb]; [|by eauto].
  destruct (probeScan_spec (pr_recv r) _ Hok1) as (found & -> & _ & Hf). cbn [mbind outcome_bind].
  destruct found as [rc'|]; [destruct (Hf rc' eq_refl); by eauto|].
  destruct (negb _); [by eauto|].
  destruct (IH _ Hok1) as (rc2 & outs & res & -> & Hok2). simpl. by eauto.
Qed.

Lemma reconnectLoop_ok attempts b rc :
  rc_ok rc ->
  exists rc' outs waits res, reconnectLoop attempts b rc = Ret (rc', outs, waits, res) /\ rc_ok rc'.
Proof.
  revert b rc; induction attempts as [|[conn h now| |] atts IH]; intros b rc Hok;
    cbn [reconnectLoop]; [by eauto 6|..|by eauto 6].
  - destruct (SendHello_spec h now (set_tcp (Some conn) (rc_tcpAddr rc) (useTCP rc) rc))
      as (sb & fb & Hok1 & ->); [by apply rc_ok_dial|]. simpl. by eauto 6.
  - set (next := if maxBackoff <? i64 (b * 2) then _ else _).
    destruct (IH next rc Hok) as (rc' & outs & waits & res & -> & Hok'). simpl. by eauto 6.
Qed.

(** Every method that changes the connection, as a step; the value is
    [Panic] when the method panics. *)
Inductive rc_step (rc : RelayConnection) : outcome RelayConnection -> Prop :=
| rs_ready : rc_step rc (MarkTransportReady rc)
| rs_confirm : rc_step rc (confirmRelay rc)
| rs_switch addr dialed : rc_step rc (Ret (SwitchToTCP addr dialed rc).1)
| rs_send ok dest payload : rc_step rc (fst ∘ fst <$> Send ok dest payload rc)
| rs_hello ok now : rc_step rc (fst ∘ fst <$> SendHello ok now rc)
| rs_udp d remote now1 now2 : rc_step rc (fst <$> receiveUDPPacket d remote now1 now2 rc)
| rs_tcp fuel stream clk : rc_step rc (fst <$> receiveFrames fuel stream clk 0 rc)
| rs_recv n : rc_step rc (Ret (count_recv n rc))
| rs_probe start rounds : rc_step rc (fst ∘ fst <$> ProbeRelayUDP start rounds rc)
| rs_reconnect atts : rc_step rc (fst ∘ fst ∘ fst <$> reconnectTCP atts rc).

Lemma rc_ok_step rc o : rc_step rc o -> rc_ok rc -> exists rc', o = Ret rc' /\ rc_ok rc'.
Proof.
  destruct 1 as [| |addr dialed|ok dest payload|ok now|d remote now1 now2|fuel stream clk|n
                |start rounds|atts]; intros Hok.
  - destruct (MarkTransportReady_spec rc Hok) as (rc' & -> & ? & _). eauto.
  - destruct (confirmRelay_spec rc Hok) as (ch & once & -> & ? & _). eauto.
  - eexists. split; [done|]. destruct dialed; [by apply rc_ok_dial|done].
  - destruct (Z.leb_spec (len payload) MaxRelayPayload) as [Hp|Hp].
    + destruct (Send_spec ok dest payload rc Hok Hp) as (sb & fb & Hok' & ->). simpl.
      eexists. split; [done|]. destruct ok; auto with relay.
    + unfold Send, MaxRelayPayload, RelayHeaderSize in *.
      rewrite (proj2 (Z.ltb_lt _ _)) by lia. simpl. eauto.
  - destruct (SendHello_spec ok now rc Hok) as (sb & fb & Hok' & ->). simpl. eauto.
  - unfold receiveUDPPacket. destruct (negb _); [simpl; by eauto|].
    destruct (handleRelayPacket_ok (take 1500 d) now1 now2 rc Hok) as (rc' & d' & -> & ?). simpl. eauto.
  - destruct (receiveFrames_ok fuel stream clk 0 rc Hok) as (rc' & ds & -> & ?). simpl. eauto.
  - eexists. split; [done|]. auto with relay.
  - destruct (probeLoop_ok rounds (Time.Add start ProbeTimeout) rc Hok) as (rc' & o & r & E & ?).
    unfold ProbeRelayUDP. rewrite E. simpl. eauto.
  - destruct (reconnectLoop_ok atts (2 * Time.Second) rc Hok) as (rc' & o & w & r & E & ?).
    unfold reconnectTCP. rewrite E. simpl. eauto.
Qed.

(** Reachable connections. *)
Inductive rc_reach (raddr : AddrPort) (id : Z) : RelayConnection -> Prop :=
| rcr_new : rc_reach raddr id (NewRelayConnection raddr id)
| rcr_step rc rc' : rc_reach raddr id rc -> rc_step rc (Ret rc') -> rc_reach raddr id rc'.

Lemma rc_reach_ok raddr id rc : rc_reach raddr id rc -> rc_ok rc.
Proof.
  induction 1 as [|rc rc' _ IH Hs]; [apply rc_ok_new|].
  destruct (rc_ok_step rc _ Hs IH) as (rc2 & [= <-] & ?). done.
Qed.

(** ** The health monitor *)

(** The calls of [onStateChange] over a sequence of ticks, each with its clock
    value and the connection it sees. *)
Fixpoint healthRun (ticks : list (Z * RelayConnection)) (was : bool) : list bool :=
  match ticks with
  | [] => []
  | (now, rc) :: ticks' =>
      let '(was', call) := healthTick now rc was in option_list call ++ healthRun ticks' was'
  end.

(** [b, negb b, b, ...] *)
Fixpoint alternates (b : bool) (l : list bool) : Prop :=
  match l with [] => True | x :: l' => x = b /\ alternates (negb b) l' end.

Lemma healthTick_spec now rc was :
  healthTick now rc was =
  (IsHealthy now rc, if Bool.eqb (IsHealthy now rc) was then None else Some (IsHealthy now rc)).
Proof.
  unfold healthTick. destruct (IsHealthy now rc), was; done.
Qed.

Lemma healthRun_alternates ticks was : alternates (negb was) (healthRun ticks was).
Proof.
  revert was; induction ticks as [|[now rc] ticks IH]; intros was; simpl; [done|].
  rewrite healthTick_spec. specialize (IH (IsHealthy now rc)).
  by destruct (IsHealthy now rc), was.
Qed.

Lemma healthRun_last ticks was now rc :
  last (was :: healthRun (ticks ++ [(now, rc)]) was) = Some (IsHealthy now rc).
Proof.
  revert was; induction ticks as [|[t r] ticks IH]; intros was; cbn [app healthRun].
  - rewrite healthTick_spec. by destruct (IsHealthy now rc), was.
  - rewrite healthTick_spec. specialize (IH (IsHealthy t r)).
    destruct (IsHealthy t r), was; cbn [Bool.eqb option_list app]; try done;
      rewrite last_cons_cons; done.
Qed.

(** ** The reconnect waits *)

(** The wait after the [n]-th failure: two seconds, doubled each time, at
    most thirty. *)
Definition backoff_at (n : nat) : Z := Z.min (2 ^ (Z.of_nat n + 1)) 30 * Time.Second.

Lemma backoff_next n :
  (let next := i64 (backoff_at n * 2) in if maxBackoff <? next then maxBackoff else next) =
  backoff_at (S n).
Proof.
  unfold backoff_at, maxBackoff, Time.Second.
  replace (Z.of_nat (S n) + 1) with (Z.succ (Z.of_nat n + 1)) by lia.
  rewrite Z.pow_succ_r by lia. assert (0 < 2 ^ (Z.of_nat n + 1)) by (apply Z.pow_pos_nonneg; lia).
  set (x := 2 ^ (Z.of_nat n + 1)) in *. rewrite i64_small by lia. cbv zeta.
  destruct (Z.ltb_spec (30 * 1000000000) (Z.min x 30 * 1000000000 * 2)); lia.
Qed.

Lemma reconnect_waits n k tl rc :
  match reconnectLoop (replicate n DialFailed ++ tl) (backoff_at k) rc with
  | Ret (_, _, waits, _) => take n waits = backoff_at <$> seq k n
  | Panic => True
  end.
Proof.
  revert k rc; induction n as [|n IH]; intros k rc.
  - cbn [replicate app]. destruct (reconnectLoop tl (backoff_at k) rc) as [[[[? ?] w] ?]|]; [|done].
    by rewrite take_0.
  - cbn [replicate app reconnectLoop]. pose proof (backoff_next k) as Hn. cbv zeta in Hn |- *.
    rewrite Hn. specialize (IH (S k) rc).
    destruct (reconnectLoop (replicate n DialFailed ++ tl) (backoff_at (S k)) rc)
      as [[[[rc' o] w] r]|]; [|done]. simpl. by rewrite IH.
Qed.

(** ** Theorems *)

(** What [Send] puts on the wire.  On a connection in any reachable state
    [Send] does not panic; a payload of at most 1392 bytes gives exactly one
    write, the header with our identifier and the destination followed by the
    payload, as a datagram to the relay or as one frame on the TCP connection;
    a longer payload gives an error and no write. *)
Theorem send_writes_packet (raddr : AddrPort) (id : Z) (rc : RelayConnection) (ok : bool)
    (dest : Z) (payload : bytes) :
  rc_reach raddr id rc ->
  (len payload <= MaxRelayPayload ->
   exists rc' c, Send ok dest payload rc =
     Ret (rc', [if useTCP rc then SendTCP c (frame (header (localID rc) dest ++ payload))
                else SendUDP (relayAddr rc) (header (localID rc) dest ++ payload)],
          if ok then Ok tt else Err WriteFailed) /\
     (useTCP rc = true -> rc_tcpConn rc = Some c)) /\
  (MaxRelayPayload < len payload -> Send ok dest payload rc = Ret (rc, [], Err PayloadTooLarge)).
Proof.
  intros Hr%rc_reach_ok. split; intros Hp.
  - destruct (Send_spec ok dest payload rc Hr Hp) as (sb & fb & _ & ->). unfold wire_out.
    destruct (useTCP rc) eqn:Hu.
    + destruct (rc_conn rc Hr Hu) as [c Hc]. rewrite Hc. eexists. exists c. done.
    + eexists. exists (MkConn 0 None). done.
  - unfold Send, MaxRelayPayload, RelayHeaderSize in *. by rewrite (proj2 (Z.ltb_lt _ _)) by lia.
Qed.

Definition relay_addr : AddrPort := MkAddrPort (Addr4 9) 10000.
Definition demo_rc : RelayConnection := NewRelayConnection relay_addr 7.

Lemma send_writes_packet_witness :
  (len [Byte.x2a] <= MaxRelayPayload ->
   exists rc' c, Send true 8 [Byte.x2a] demo_rc =
     Ret (rc', [if useTCP demo_rc then SendTCP c (frame (header (localID demo_rc) 8 ++ [Byte.x2a]))
                else SendUDP (relayAddr demo_rc) (header (localID demo_rc) 8 ++ [Byte.x2a])],
          if true then Ok tt else Err WriteFailed) /\
     (useTCP demo_rc = true -> rc_tcpConn demo_rc = Some c)) /\
  (MaxRelayPayload < len [Byte.x2a] ->
   Send true 8 [Byte.x2a] demo_rc = Ret (demo_rc, [], Err PayloadTooLarge)).
Proof. apply (send_writes_packet relay_addr 7 demo_rc). apply rcr_new. Defined.

(** C25. No method of the relay connection panics.  In every state reachable
    by any sequence of its methods, every further method returns; in
    particular neither signal channel is closed twice and the reused buffers
    keep their sizes. *)
Theorem relayconn_never_panics (raddr : AddrPort) (id : Z) (rc : RelayConnection)
    (o : outcome RelayConnection) :
  rc_reach raddr id rc -> rc_step rc o -> exists rc', o = Ret rc' /\ rc_reach raddr id rc'.
Proof.
  intros Hr Hs. destruct (rc_ok_step rc o Hs (rc_reach_ok _ _ _ Hr)) as (rc' & -> & _).
  exists rc'. split; [done|]. by eapply rcr_step.
Qed.

Lemma relayconn_never_panics_witness :
  exists rc', confirmRelay demo_rc = Ret rc' /\ rc_reach relay_addr 7 rc'.
Proof.
  apply (relayconn_never_panics relay_addr 7 demo_rc); [apply rcr_new|apply rs_confirm].
Defined.

(** The health monitor reports transitions only.  Whatever it observes,
    the reports alternate, starting with reachable, and the last report is
    what the last tick saw (unreachable if there was no report). *)
Theorem health_reports_alternate (ticks : list (Z * RelayConnection)) (now : Z)
    (rc : RelayConnection) :
  alternates true (healthRun (ticks ++ [(now, rc)]) false) /\
  last (false :: healthRun (ticks ++ [(now, rc)]) false) = Some (IsHealthy now rc).
Proof. split; [apply (healthRun_alternates _ false)|apply healthRun_last]. Qed.

(** Round-trip time.  After a hello sent at [t1], the relay's echo handled
    at [t2] confirms the relay, makes the connection healthy and sets the
    measured time to [t2 - t1]. *)
Theorem hello_echo_rtt (raddr : AddrPort) (id : Z) (rc : RelayConnection) (t1 t2 : Z)
    (rc1 : RelayConnection) (outs : list Out) (ok : bool) :
  rc_reach raddr id rc -> 0 <= localID rc < 2 ^ 32 ->
  Time.unixToInternal * Time.Second < t1 <= t2 -> t2 < Time.unixToInternal * Time.Second + 2 ^ 63 ->
  SendHello ok t1 rc = Ret (rc1, outs, ok) ->
  exists rc2,
    receiveUDPPacket (header (localID rc) (localID rc)) (relayAddr rc) t2 t2 rc1 = Ret (rc2, None) /\
    RelayRttMs rc2 = (t2 - t1) / Time.Millisecond /\ IsHealthy t2 rc2 = true /\
    WaitRelayConfirmed false rc2 = Some true.
Proof.
  intros Hr%rc_reach_ok Hid Ht1 Ht2 Hh.
  destruct (SendHello_spec ok t1 rc Hr) as (sb & fb & Hok & E). rewrite E in Hh. simplify_eq.
  unfold receiveUDPPacket. cbn [relayAddr set_times set_bufs].
  rewrite bool_decide_eq_true_2 by done. cbn [negb].
  rewrite take_ge by (rewrite length_header; lia).
  destruct (handleRelayPacket_spec (header (localID rc) (localID rc)) t2 t2 _ (localID rc) (localID rc) Hok)
    as (ch & once & Hch & Hok2 & ->).
  { rewrite <- (app_nil_r (header _ _)). by apply DecodeRelayHeader_app. }
  eexists. cbn [localID set_times set_bufs]. rewrite Z.eqb_refl. split; [done|].
  assert (Hn1 : Time.UnixNano t1 = t1 - Time.unixToInternal * Time.Second)
    by (apply i64_small; lia).
  assert (Hn2 : Time.UnixNano t2 = t2 - Time.unixToInternal * Time.Second)
    by (apply i64_small; lia).
  split; [|split].
  - unfold RelayRttMs, stamped. cbn [relayRttNs set_confirmed set_times set_bufs helloSentAt localID].
    rewrite Z.eqb_refl, Hn1, Hn2, (proj2 (Z.ltb_lt _ _)) by lia. cbn [andb].
    rewrite i64_small by lia. unfold Time.Millisecond.
    destruct (Z.leb_spec (t2 - Time.unixToInternal * Time.Second - (t1 - Time.unixToInternal * Time.Second)) 0).
    + by replace (t2 - t1) with 0 by lia.
    + rewrite Z.quot_div_nonneg by lia. f_equal. lia.
  - unfold IsHealthy, stamped. cbn [lastRecv set_confirmed set_times].
    rewrite Hn2, (proj2 (Z.eqb_neq _ _)) by lia. unfold Time.Sub, Time.minDuration, Time.maxDuration.
    apply Z.ltb_lt. unfold HealthTimeout, Time.Second. lia.
  - unfold WaitRelayConfirmed. cbn [relayConfirmed set_confirmed]. by destruct ch as [[]|].
Qed.

Definition t_now : Z := Time.unixToInternal * Time.Second + 1000.

Lemma hello_echo_rtt_witness :
  exists rc2,
    receiveUDPPacket (header (localID demo_rc) (localID demo_rc)) (relayAddr demo_rc)
      (t_now + 5) (t_now + 5)
      (match SendHello true t_now demo_rc with Ret (r, _, _) => r | Panic => demo_rc end)
      = Ret (rc2, None) /\
    RelayRttMs rc2 = (t_now + 5 - t_now) / Time.Millisecond /\ IsHealthy (t_now + 5) rc2 = true /\
    WaitRelayConfirmed false rc2 = Some true.
Proof.
  eapply (hello_echo_rtt relay_addr 7 demo_rc t_now (t_now + 5)
            (match SendHello true t_now demo_rc with Ret (r, _, _) => r | Panic => demo_rc end)
            [SendUDP relay_addr (header 7 7)] true).
  - apply rcr_new.
  - simpl; lia.
  - unfold t_now; lia.
  - unfold t_now; lia.
  - by vm_compute.
Defined.

(** The waits of the reconnect loop: after [n] failed dials it has waited
    2, 4, 8, 16 and then 30 seconds between attempts. *)
Theorem reconnect_backoff (raddr : AddrPort) (id : Z) (rc : RelayConnection) (n : nat)
    (tl : list Attempt) :
  rc_reach raddr id rc ->
  exists rc' outs waits res,
    reconnectTCP (replicate n DialFailed ++ tl) rc = Ret (rc', outs, waits, res) /\
    take n waits = (fun k => Z.min (2 ^ (Z.of_nat k + 1)) 30 * Time.Second) <$> seq 0 n.
Proof.
  intros Hr%rc_reach_ok. unfold reconnectTCP.
  destruct (reconnectLoop_ok (replicate n DialFailed ++ tl) (2 * Time.Second) rc Hr)
    as (rc' & outs & waits & res & E & _).
  pose proof (reconnect_waits n 0 tl rc) as Hw.
  change (backoff_at 0) with (2 * Time.Second) in Hw. rewrite E in Hw |- *. simpl.
  do 4 eexists. split; [done|]. exact Hw.
Qed.

Lemma reconnect_backoff_witness :
  exists rc' outs waits res,
    reconnectTCP (replicate 6 DialFailed ++ [DialOk (MkConn 3 None) true t_now]) demo_rc =
      Ret (rc', outs, waits, res) /\
    take 6 waits = (fun k => Z.min (2 ^ (Z.of_nat k + 1)) 30 * Time.Second) <$> seq 0 6.
Proof. apply (reconnect_backoff relay_addr 7 demo_rc). apply rcr_new. Defined.
