(* ===== verification/Transport.v ===== *)
(** * Choosing the transport, and the background loops of the relay connection

    [probeAndSetupTransport] of [internal/adapter/adapter.go] together with
    the goroutines that share the relay connection with it: the UDP probe, the
    receive loop, the keepalive, the health monitor and the statistics of
    [internal/adapter/relayconn.go].  A [World] holds the connection and the
    program counter of each goroutine; an [Event] is one atomic step of one of
    them, with what the network and the clock answer; [exec] runs it.  An event
    whose goroutine is not at that point leaves the world unchanged. *)

From S2P Require Import Prelude GoLib RelayWire TcpFrame RelayConn.

(** The part of [Config] that [probeAndSetupTransport] and [Run] look at. *)
Record TransportConfig := MkTC {
  RelayServer : string; RelayTCPServer : string; TCPFallback : bool; ForceTCP : bool;
  UseOfficialFAF : bool }.

Definition tcpTarget (cfg : TransportConfig) : string :=
  if bool_decide (RelayTCPServer cfg = "") then RelayServer cfg else RelayTCPServer cfg.

Definition retryInterval : Z := 500 * Time.Millisecond.

(** Where [probeAndSetupTransport] is. *)
Inductive Setup :=
| SBegin          (* at the first test of the configuration *)
| SWait           (* in the select on [probeCh] and the context *)
| SDial           (* before [SwitchToTCP] *)
| SHello          (* before [SendHello] *)
| SReturn         (* before the deferred [MarkTransportReady] *)
| SDone.

(** The goroutine that runs [ProbeRelayUDP]. *)
Inductive Probe :=
| PIdle
| PRunning (probeDeadline : Z)
| PDone (res : ProbeResult).

(** [ReceiveLoop]; [RTCP] holds the connection [receiveTCP] captured. *)
Inductive Recv :=
| RWaiting
| RUDP
| RTCP (c : Conn)
| RStopped.

Record World := MkW {
  w_rc : RelayConnection;
  w_setup : Setup;
  w_probe : Probe;
  w_recv : Recv;
  w_deadline : option Z;      (* the read deadline of the UDP socket *)
  w_cancelled : bool;         (* the context *)
  w_was : bool;               (* [wasReachable] of the health monitor *)
  w_notes : list string;      (* the arguments of [NotifyRelayStateChanged] *)
  w_out : list Out            (* what has been asked of the sockets *)
}.

(** The state when [Run] starts the goroutines.  In official mode there is no
    setup: [Run] calls [MarkTransportReady] itself. *)
Definition startWorld (cfg : TransportConfig) (raddr : AddrPort) (id : Z) : World :=
  MkW (NewRelayConnection raddr id) (if UseOfficialFAF cfg then SReturn else SBegin) PIdle RWaiting
    None false false [] [].

Definition with_rc (rc : RelayConnection) (outs : list Out) (w : World) : World :=
  MkW rc (w_setup w) (w_probe w) (w_recv w) (w_deadline w) (w_cancelled w) (w_was w) (w_notes w)
    (w_out w ++ outs).
Definition with_setup (s : Setup) (w : World) : World :=
  MkW (w_rc w) s (w_probe w) (w_recv w) (w_deadline w) (w_cancelled w) (w_was w) (w_notes w) (w_out w).
Definition with_probe (p : Probe) (d : option Z) (w : World) : World :=
  MkW (w_rc w) (w_setup w) p (w_recv w) d (w_cancelled w) (w_was w) (w_notes w) (w_out w).
Definition with_recv (r : Recv) (w : World) : World :=
  MkW (w_rc w) (w_setup w) (w_probe w) r (w_deadline w) (w_cancelled w) (w_was w) (w_notes w) (w_out w).
Definition with_health (b : bool) (ns : list string) (w : World) : World :=
  MkW (w_rc w) (w_setup w) (w_probe w) (w_recv w) (w_deadline w) (w_cancelled w) b (w_notes w ++ ns)
    (w_out w).
Definition cancel (w : World) : World :=
  MkW (w_rc w) (w_setup w) (w_probe w) (w_recv w) (w_deadline w) true (w_was w) (w_notes w) (w_out w).

(** One step of [probeAndSetupTransport]; [dialed] is what a dial gives,
    [helloOk] whether the write of a hello succeeds. *)
Definition setupStep (cfg : TransportConfig) (dialed : option Conn) (helloOk : bool) (now : Z)
    (w : World) : outcome World :=
  match w_setup w with
  | SBegin =>
      if ForceTCP cfg then Ret (with_setup SDial w)
      else if TCPFallback cfg then
        Ret (with_probe (PRunning (Time.Add now ProbeTimeout)) (w_deadline w) (with_setup SWait w))
      else Ret (with_setup SHello w)
  | SWait =>
      match w_probe w with
      | PDone ProbeOk => Ret (with_setup SReturn w)
      | PDone _ => Ret (with_setup SDial w)
      | _ => Ret w
      end
  | SDial =>
      match SwitchToTCP (tcpTarget cfg) dialed (w_rc w) with
      | (rc, true) => Ret (with_setup SHello (with_rc rc [] w))
      | (rc, false) => Ret (with_setup SReturn (with_rc rc [] w))
      end
  | SHello =>
      '(rc, outs, _) ← SendHello helloOk now (w_rc w);
      Ret (with_setup SReturn (with_rc rc outs w))
  | SReturn => rc ← MarkTransportReady (w_rc w); Ret (with_setup SDone (with_rc rc [] w))
  | SDone => Ret w
  end.

(** The other branch of the select. *)
Definition setupAborts (w : World) : World :=
  match w_setup w with
  | SWait => if w_cancelled w then with_setup SReturn w else w
  | _ => w
  end.

(** One iteration of the outer loop of [ProbeRelayUDP]; [now] is the clock
    value the read deadline is computed from.  The deadline is cleared when a
    pong arrives and when the time is up, not when a hello cannot be sent. *)
Definition probeStep (r : ProbeRound) (now : Z) (w : World) : outcome World :=
  match w_probe w with
  | PRunning d =>
      '(rc, outs, res) ← probeLoop [r] d (w_rc w);
      let w := with_rc rc outs w in
      match res with
      | None => Ret (with_probe (PRunning d) (Some (Z.min (Time.Add now retryInterval) d)) w)
      | Some ProbeSendFailed => Ret (with_probe (PDone ProbeSendFailed) (w_deadline w) w)
      | Some res => Ret (with_probe (PDone res) None w)
      end
  | _ => Ret w
  end.

(** The start of [ReceiveLoop]. *)
Definition ReceiveLoop (w : World) : outcome World :=
  match w_recv w with
  | RWaiting =>
      match transportReady (w_rc w) with
      | Some false => if w_cancelled w then Ret (with_recv RStopped w) else Ret w
      | _ =>
          if useTCP (w_rc w) then
            match rc_tcpConn (w_rc w) with
            | Some c => Ret (with_recv (RTCP c) w)
            | None => Panic   (* [SetReadDeadline] on a nil connection *)
            end
          else Ret (with_recv RUDP w)
      end
  | _ => Ret w
  end.

(** The context ends the wait, and both receive paths. *)
Definition recvStops (w : World) : World :=
  if w_cancelled w then with_recv RStopped w else w.

(** A read on the UDP socket returns data only before its deadline. *)
Definition readable (now : Z) (w : World) : bool :=
  match w_deadline w with None => true | Some d => now <? d end.

(** One iteration of [receiveUDP] with the datagram the read returns;
    [dispatchTopeer] counts a packet for a known peer. *)
Definition recvUDP (datagram : bytes) (remote : AddrPort) (known : Z -> bool) (now : Z)
    (w : World) : outcome World :=
  match w_recv w with
  | RUDP =>
      if readable now w then
        '(rc, d) ← receiveUDPPacket datagram remote now now (w_rc w);
        Ret (with_rc (match d with
                      | Some (sender, _, n) => if known sender then count_recv n rc else rc
                      | None => rc
                      end) [] w)
      else Ret w
  | _ => Ret w
  end.

(** One iteration of the inner loop of [receiveTCP] that reads a frame off
    the bytes [stream] of the connection. *)
Definition recvTCPFrame (stream : bytes) (known : Z -> bool) (now : Z) (w : World)
    : outcome World :=
  match w_recv w, Adapter.readTCPFrame 1500 stream with
  | RTCP _, Ok (buf, _) =>
      '(rc, d) ← handleRelayPacket buf now now (w_rc w);
      Ret (with_rc (match d with
                    | Some (sender, _, n) => if known sender then count_recv n rc else rc
                    | None => rc
                    end) [] w)
  | _, _ => Ret w
  end.

(** A hard error of the inner loop: [reconnectTCP], and the new connection is
    captured. *)
Definition recvTCPLost (atts : list Attempt) (w : World) : outcome World :=
  match w_recv w with
  | RTCP _ =>
      '(rc, outs, _, res) ← reconnectTCP atts (w_rc w);
      let w := with_rc rc outs w in
      match res, rc_tcpConn rc with
      | Some true, Some c => Ret (with_recv (RTCP c) w)
      | Some true, None => Panic
      | Some false, _ => Ret (with_recv RStopped w)
      | None, _ => Ret w
      end
  | _ => Ret w
  end.

(** One tick of [RunKeepalive]; an error is only logged. *)
Definition RunKeepalive (helloOk : bool) (now : Z) (w : World) : outcome World :=
  '(rc, outs, _) ← SendHello helloOk now (w_rc w); Ret (with_rc rc outs w).

Definition onRelayHealthChanged (reachable : bool) : string :=
  if reachable then "Connected" else "Disconnected".

(** One tick of [RunHealthMonitor] with [onRelayHealthChanged] as its
    callback. *)
Definition RunHealthMonitor (now : Z) (w : World) : World :=
  let '(was, call) := healthTick now (w_rc w) (w_was w) in
  with_health was (onRelayHealthChanged <$> option_list call) w.

Definition send (ok : bool) (dest : Z) (payload : bytes) (w : World) : outcome World :=
  '(rc, outs, _) ← Send ok dest payload (w_rc w); Ret (with_rc rc outs w).

Inductive Event :=
| ESetup (dialed : option Conn) (helloOk : bool) (now : Z)
| EAbort
| EProbe (r : ProbeRound) (now : Z)
| EReceive
| EStop
| EUDP (datagram : bytes) (remote : AddrPort) (known : Z -> bool) (now : Z)
| ETCP (stream : bytes) (known : Z -> bool) (now : Z)
| ELost (atts : list Attempt)
| EKeepalive (helloOk : bool) (now : Z)
| EHealth (now : Z)
| ESend (ok : bool) (dest : Z) (payload : bytes)
| ECancel.

Definition exec (cfg : TransportConfig) (e : Event) (w : World) : outcome World :=
  match e with
  | ESetup dialed ok now => setupStep cfg dialed ok now w
  | EAbort => Ret (setupAborts w)
  | EProbe r now => probeStep r now w
  | EReceive => ReceiveLoop w
  | EStop => Ret (recvStops w)
  | EUDP d remote known now => recvUDP d remote known now w
  | ETCP stream known now => recvTCPFrame stream known now w
  | ELost atts => recvTCPLost atts w
  | EKeepalive ok now => RunKeepalive ok now w
  | EHealth now => Ret (RunHealthMonitor now w)
  | ESend ok dest payload => send ok dest payload w
  | ECancel => Ret (cancel w)
  end.

Fixpoint run (cfg : TransportConfig) (es : list Event) (w : World) : outcome World :=
  match es with [] => Ret w | e :: es' => w' ← exec cfg e w; run cfg es' w' end.

Lemma run_app cfg es1 es2 w : run cfg (es1 ++ es2) w = w' ← run cfg es1 w; run cfg es2 w'.
Proof.
  revert w; induction es1 as [|e es1 IH]; intros w; simpl; [done|].
  destruct (exec cfg e w); simpl; [apply IH|done].
Qed.

(** ** Statistics *)

(** The counters [RunStats] remembers between ticks. *)
Record Prev := MkPrev { prevSent : Z; prevRecv : Z; prevBytesSent : Z; prevBytesRecv : Z }.
Definition noPrev : Prev := MkPrev 0 0 0 0.
Record StatsLine := MkLine {
  sent_pps : Z; recv_pps : Z; sent_kbps : Z; recv_kbps : Z; total_sent : Z; total_recv : Z }.

Definition statsInterval : Z := 10 * Time.Second.
Definition pps (d : Z) : Z := u64 (d * Time.Second) / statsInterval.
Definition kbps (d : Z) : Z := u64 (u64 (d * 8) * Time.Second) / statsInterval / 1000.

(** One tick of [RunStats]: the line it logs, if there was traffic. *)
Definition RunStats (rc : RelayConnection) (p : Prev) : Prev * option StatsLine :=
  let dSent := u64 (pktsSent rc - prevSent p) in
  let dRecv := u64 (pktsRecv rc - prevRecv p) in
  let dBS := u64 (bytesSent rc - prevBytesSent p) in
  let dBR := u64 (bytesRecv rc - prevBytesRecv p) in
  (MkPrev (pktsSent rc) (pktsRecv rc) (bytesSent rc) (bytesRecv rc),
   if (0 <? dSent) || (0 <? dRecv)
   then Some (MkLine (pps dSent) (pps dRecv) (kbps dBS) (kbps dBR) (pktsSent rc) (pktsRecv rc))
   else None).

(** ** What the methods of the connection leave alone *)

Definition confirmed (rc : RelayConnection) : Prop := relayConfirmed rc <> Some false.

(** [rc'] has the transport of [rc]; nothing that was confirmed is lost and
    the time of the last packet is set only with the confirmation. *)
Record same (rc rc' : RelayConnection) : Prop := {
  sm_ok : rc_ok rc';
  sm_use : useTCP rc' = useTCP rc;
  sm_conn : rc_tcpConn rc' = rc_tcpConn rc;
  sm_ready : transportReady rc' = transportReady rc;
  sm_addr : relayAddr rc' = relayAddr rc;
  sm_id : localID rc' = localID rc;
  sm_conf : confirmed rc -> confirmed rc';
  sm_last : lastRecv rc' = lastRecv rc \/ confirmed rc' }.

Lemma same_refl rc : rc_ok rc -> same rc rc.
Proof. intros ?. by split; auto. Qed.

Lemma same_trans rc1 rc2 rc3 : same rc1 rc2 -> same rc2 rc3 -> same rc1 rc3.
Proof.
  intros [] []. split; try congruence; auto.
  destruct sm_last0; [|by auto]. destruct sm_last1; [left; congruence|by auto].
Qed.

Lemma same_count n rc rc' : same rc rc' -> same rc (count_recv n rc').
Proof. intros []. split; try done. by apply rc_ok_recv. Qed.

Lemma same_hello ok now rc :
  rc_ok rc -> exists rc' out, SendHello ok now rc = Ret (rc', [out], ok) /\ same rc rc' /\
    out = wire_out rc (header (localID rc) (localID rc)).
Proof.
  intros Hok. destruct (SendHello_spec ok now rc Hok) as (sb & fb & Hok' & E).
  do 2 eexists. split; [exact E|]. split; [|done]. split; auto; done.
Qed.

Lemma same_send ok dest payload rc :
  rc_ok rc -> exists rc' outs res, Send ok dest payload rc = Ret (rc', outs, res) /\ same rc rc' /\
    Forall (eq (wire_out rc (header (localID rc) dest ++ payload))) outs.
Proof.
  intros Hok. destruct (Z.leb_spec (len payload) MaxRelayPayload) as [Hp|Hp].
  - destruct (Send_spec ok dest payload rc Hok Hp) as (sb & fb & Hok' & E).
    do 3 eexists. split; [exact E|]. split; [|by repeat constructor].
    destruct ok; (split; auto with relay; done).
  - unfold Send, MaxRelayPayload, RelayHeaderSize in *.
    rewrite (proj2 (Z.ltb_lt _ _)) by lia. do 3 eexists. split; [done|].
    split; [by apply same_refl|constructor].
Qed.

Lemma same_packet buf now1 now2 rc :
  rc_ok rc -> exists rc' d, handleRelayPacket buf now1 now2 rc = Ret (rc', d) /\ same rc rc'.
Proof.
  intros Hok. destruct (DecodeRelayHeader buf) as [[s d]|] eqn:E.
  - destruct (handleRelayPacket_spec buf now1 now2 rc s d Hok E) as (ch & once & Hch & Hok' & ->).
    do 2 eexists. split; [done|]. split; try done; intros; auto.
  - unfold handleRelayPacket. rewrite E.
    destruct (_ <? _); do 2 eexists; (split; [done|by apply same_refl]).
Qed.

Lemma same_udp d remote now1 now2 rc :
  rc_ok rc -> exists rc' x, receiveUDPPacket d remote now1 now2 rc = Ret (rc', x) /\ same rc rc'.
Proof.
  intros Hok. unfold receiveUDPPacket.
  destruct (negb _); [do 2 eexists; split; [done|by apply same_refl]|by apply same_packet].
Qed.

Lemma same_scan ds rc :
  rc_ok rc -> exists found, probeScan ds rc = Ret found /\ forall rc', found = Some rc' -> same rc rc'.
Proof.
  intros Hok. induction ds as [|[[d remote] now] ds IH]; simpl; [by exists None|].
  destruct (is_pong d remote rc); [|done].
  destruct (confirmRelay_spec (set_times (Time.UnixNano now) (helloSentAt rc) (relayRttNs rc) rc))
    as (ch & once & -> & Hok1 & Hch); [by apply rc_ok_times|]. simpl.
  eexists. split; [done|]. intros ? [= <-]. split; try done; intros; auto.
Qed.

Lemma same_probe r d rc :
  rc_ok rc -> exists rc' out res, probeLoop [r] d rc = Ret (rc', [out], res) /\ same rc rc' /\
    out = wire_out rc (header (localID rc) (localID rc)) /\
    (pr_ok r = true -> res <> Some ProbeSendFailed).
Proof.
  intros Hok. cbn [probeLoop].
  destruct (same_hello (pr_ok r) (pr_hello r) rc Hok) as (rc1 & out & -> & Hs & Ho).
  cbn [mbind outcome_bind]. destruct (pr_ok r); cbn [negb]; [|by eauto 8].
  destruct (same_scan (pr_recv r) rc1 (sm_ok _ _ Hs)) as (found & -> & Hf). cbn [mbind outcome_bind].
  destruct found as [rc2|]; [specialize (Hf rc2 eq_refl); eauto 8 using same_trans|].
  destruct (negb _); [by eauto 8|]. simpl. by eauto 8.
Qed.

(** [reconnectTCP] changes the connection but not the transport. *)
Lemma reconnect_spec atts rc :
  rc_ok rc -> exists rc' outs waits res, reconnectTCP atts rc = Ret (rc', outs, waits, res) /\
    same (set_tcp (rc_tcpConn rc') (rc_tcpAddr rc) (useTCP rc) rc) rc' /\
    (res = Some true -> is_Some (rc_tcpConn rc')) /\ (res <> Some true -> rc_tcpConn rc' = rc_tcpConn rc).
Proof.
  intros Hok. unfold reconnectTCP. generalize (2 * Time.Second). intros b.
  assert (H : exists rc' outs waits res, reconnectLoop atts b rc = Ret (rc', outs, waits, res) /\
    same (set_tcp (rc_tcpConn rc') (rc_tcpAddr rc) (useTCP rc) rc) rc' /\
    (res = Some true -> is_Some (rc_tcpConn rc')) /\ (res <> Some true -> rc_tcpConn rc' = rc_tcpConn rc)).
  { revert b. induction atts as [|[conn h now| |] atts IH]; intros b; cbn [reconnectLoop].
    - do 4 eexists. split; [done|]. split; [by destruct rc; apply same_refl|done].
    - destruct (same_hello h now (set_tcp (Some conn) (rc_tcpAddr rc) (useTCP rc) rc))
        as (rc' & out & -> & Hs & _); [by apply rc_ok_dial|].
      do 4 eexists. split; [done|]. rewrite (sm_conn _ _ Hs). split; [done|].
      simpl. split; [by eauto|done].
    - set (next := if maxBackoff <? i64 (b * 2) then _ else _).
      destruct (IH next) as (rc' & outs & waits & res & -> & H). simpl. by eauto 8.
    - do 4 eexists. split; [done|]. split; [by destruct rc; apply same_refl|done]. }
  destruct H as (rc' & outs & waits & res & -> & H). simpl. by eauto 8.
Qed.

Lemma ready_spec rc b :
  rc_ok rc -> transportReady rc = Some b ->
  exists rc', MarkTransportReady rc = Ret rc' /\ rc_ok rc' /\
    rc' = set_ready (Some true) (transportReadyOnce rc') rc.
Proof.
  intros Hok Hr. pose proof (rc_ready rc Hok) as Hs. unfold MarkTransportReady.
  rewrite Hr in Hs |- *. simpl in Hs. destruct (transportReadyOnce rc) eqn:Ho.
  - subst b. exists rc. split; [done|]. split; [done|]. destruct rc; simpl in *. by subst.
  - subst b. simpl. eexists. split; [done|]. split; [|done]. destruct Hok. by split.
Qed.

(** ** The invariant *)

(** The receive loop reads the transport that is used for sending, and only
    after the decision. *)
Definition recv_ok (w : World) : Prop :=
  match w_recv w with
  | RUDP => w_setup w = SDone /\ useTCP (w_rc w) = false
  | RTCP c => w_setup w = SDone /\ useTCP (w_rc w) = true /\ rc_tcpConn (w_rc w) = Some c
  | _ => True
  end.

(** The probe leaves a read deadline behind only when a hello failed. *)
Definition probe_ok (w : World) : Prop :=
  match w_probe w with
  | PIdle => w_deadline w = None
  | PRunning _ => w_setup w <> SBegin
  | PDone res => w_setup w <> SBegin /\ (res <> ProbeSendFailed -> w_deadline w = None)
  end.

(** The reports sent so far, as booleans. *)
Definition notes_ok (w : World) : Prop :=
  exists bs, w_notes w = onRelayHealthChanged <$> bs /\ alternates true bs /\
    List.last bs false = w_was w /\ (bs <> [] -> confirmed (w_rc w)).

Record w_ok (w : World) : Prop := {
  wo_rc : rc_ok (w_rc w);
  wo_ready : transportReady (w_rc w) = Some (match w_setup w with SDone => true | _ => false end);
  wo_recv : recv_ok w;
  wo_probe : probe_ok w;
  wo_last : lastRecv (w_rc w) <> 0 -> confirmed (w_rc w);
  wo_notes : notes_ok w }.

(** A step of the connection that keeps the transport. *)
Lemma w_ok_same rc outs w : w_ok w -> same (w_rc w) rc -> w_ok (with_rc rc outs w).
Proof.
  intros [Hok Hr Hv Hp Hl (bs & Hn & Ha & Hw & Hc)] [].
  split; simpl; [done|congruence| |done| |].
  - unfold recv_ok in *. simpl. rewrite sm_use0, sm_conn0. done.
  - intros H. destruct sm_last0 as [E|]; [|done]. apply sm_conf0, Hl. congruence.
  - exists bs. split_and!; simpl; auto.
Qed.

Lemma w_ok_setup s w :
  w_ok w -> w_setup w <> SDone -> s <> SDone -> s <> SBegin -> w_ok (with_setup s w).
Proof.
  intros [Hok Hr Hv Hp Hl Hn] H1 H2 H3. split; simpl; try done.
  - rewrite Hr. by destruct (w_setup w), s.
  - unfold recv_ok in *. simpl. by destruct (w_recv w); try destruct Hv.
  - unfold probe_ok in *. simpl. destruct (w_probe w); intuition.
Qed.

Lemma w_ok_switch conn addr w :
  w_ok w -> w_setup w <> SDone -> w_ok (with_rc (set_tcp (Some conn) addr true (w_rc w)) [] w).
Proof.
  intros [Hok Hr Hv Hp Hl (bs & Hn & Ha & Hw & Hc)] H. split; simpl; try done.
  - by apply rc_ok_dial.
  - unfold recv_ok in *. simpl. by destruct (w_recv w); try destruct Hv.
  - exists bs. split_and!; simpl; auto.
Qed.

Lemma w_ok_mark w :
  w_ok w -> w_setup w <> SDone ->
  exists rc, MarkTransportReady (w_rc w) = Ret rc /\ w_ok (with_setup SDone (with_rc rc [] w)) /\
    useTCP rc = useTCP (w_rc w) /\ rc_tcpConn rc = rc_tcpConn (w_rc w).
Proof.
  intros [Hok Hr Hv Hp Hl (bs & Hn & Ha & Hw & Hc)] H.
  destruct (ready_spec (w_rc w) _ Hok Hr) as (rc & -> & Hok' & E). exists rc. split; [done|].
  split; [|by rewrite E]. rewrite E. split; simpl; try done.
  - by rewrite <- E.
  - unfold recv_ok in *. simpl. destruct (w_recv w); try done; by destruct Hv.
  - unfold probe_ok in *. simpl. destruct (w_probe w); intuition discriminate.
  - exists bs. split_and!; simpl; auto.
Qed.

Lemma w_ok_recv r w : w_ok w -> recv_ok (with_recv r w) -> w_ok (with_recv r w).
Proof. by intros [Hok Hr Hv Hp Hl Hn] H. Qed.

Lemma w_ok_probe p d w : w_ok w -> probe_ok (with_probe p d w) -> w_ok (with_probe p d w).
Proof. by intros [Hok Hr Hv Hp Hl Hn] H. Qed.

Lemma alternates_snoc b l x :
  alternates b l -> x = negb (List.last l (negb b)) -> alternates b (l ++ [x]).
Proof.
  revert b; induction l as [|y l IH]; intros b; simpl; [by rewrite negb_involutive|].
  intros [-> Ha] Hx. split; [done|]. apply IH; [done|]. rewrite negb_involutive, Hx.
  destruct l as [|z l]; [done|]. f_equal. clear. revert z; induction l; intros z; simpl; [done|].
  destruct l; simpl in *; auto.
Qed.

Lemma w_ok_health now w :
  w_ok w -> w_ok (RunHealthMonitor now w) /\ w_was (RunHealthMonitor now w) = IsHealthy now (w_rc w).
Proof.
  intros [Hok Hr Hv Hp Hl (bs & Hn & Ha & Hw & Hc)]. unfold RunHealthMonitor.
  rewrite healthTick_spec. split; [|done]. split; simpl; try done.
  destruct (Bool.eqb (IsHealthy now (w_rc w)) (w_was w)) eqn:E; cbn [option_list].
  - apply eqb_prop in E. exists bs. simpl. rewrite app_nil_r. by rewrite E.
  - apply eqb_false_iff in E. exists (bs ++ [IsHealthy now (w_rc w)]). simpl.
    rewrite fmap_app, Hn. split; [done|]. split; [|split; [by rewrite last_last|]].
    + apply alternates_snoc; [done|]. simpl. rewrite Hw.
      by destruct (IsHealthy now (w_rc w)), (w_was w).
    + intros _. destruct (IsHealthy now (w_rc w)) eqn:Eh.
      * apply Hl. unfold IsHealthy in Eh. by destruct (Z.eqb_spec (lastRecv (w_rc w)) 0).
      * apply Hc. intros ->. simpl in Hw. by rewrite <- Hw in E.
Qed.

Lemma w_ok_setupStep cfg dialed ok now w :
  w_ok w -> exists w', setupStep cfg dialed ok now w = Ret w' /\ w_ok w'.
Proof.
  intros Hw. pose proof (wo_rc w Hw) as Hok. unfold setupStep. destruct (w_setup w) eqn:Es.
  - destruct (ForceTCP cfg); [|destruct (TCPFallback cfg)];
      (eexists; split; [done|]); [by apply w_ok_setup; rewrite ?Es| |by apply w_ok_setup; rewrite ?Es].
    apply w_ok_probe; [by apply w_ok_setup; rewrite ?Es|done].
  - destruct (w_probe w) as [| |[]]; (eexists; split; [done|]); try done; apply w_ok_setup; by rewrite ?Es.
  - destruct dialed as [c|]; simpl; (eexists; split; [done|]); apply w_ok_setup; simpl; rewrite ?Es; try done.
    + apply w_ok_switch; by rewrite ?Es.
    + apply w_ok_same; [done|by apply same_refl].
  - destruct (same_hello ok now (w_rc w) Hok) as (rc & out & -> & Hs & _). simpl.
    eexists. split; [done|]. apply w_ok_setup; simpl; rewrite ?Es; try done. by apply w_ok_same.
  - destruct (w_ok_mark w Hw) as (rc & -> & H & _); [by rewrite Es|]. simpl. eauto.
  - eauto.
Qed.

Lemma w_ok_probeStep r now w :
  w_ok w -> exists w', probeStep r now w = Ret w' /\ w_ok w'.
Proof.
  intros Hw. unfold probeStep. destruct (w_probe w) as [|d|] eqn:Ep; [by eauto| |by eauto].
  destruct (same_probe r d (w_rc w) (wo_rc w Hw)) as (rc & out & res & -> & Hs & _ & _).
  simpl. pose proof (wo_probe w Hw) as Hp. unfold probe_ok in Hp. rewrite Ep in Hp.
  apply (w_ok_same rc [out] w Hw) in Hs.
  destruct res as [[]|]; (eexists; split; [done|]); apply w_ok_probe; try done; split; done.
Qed.

Lemma w_ok_receive w : w_ok w -> exists w', ReceiveLoop w = Ret w' /\ w_ok w'.
Proof.
  intros Hw. unfold ReceiveLoop. destruct (w_recv w) eqn:Er; try by eauto.
  pose proof (wo_ready w Hw) as Hr. rewrite Hr.
  destruct (w_setup w) eqn:Es;
    try (destruct (w_cancelled w); (eexists; split; [done|]); [by apply w_ok_recv|done]).
  destruct (useTCP (w_rc w)) eqn:Hu.
  - destruct (rc_conn _ (wo_rc w Hw) Hu) as [c Hc]. rewrite Hc. eexists. split; [done|].
    by apply w_ok_recv.
  - eexists. split; [done|]. by apply w_ok_recv.
Qed.

Lemma w_ok_lost atts w : w_ok w -> exists w', recvTCPLost atts w = Ret w' /\ w_ok w'.
Proof.
  intros Hw. unfold recvTCPLost. destruct (w_recv w) eqn:Er; try by eauto.
  destruct (reconnect_spec atts (w_rc w) (wo_rc w Hw)) as (rc & outs & waits & res & -> & Hs & Ht & Hf).
  simpl. pose proof (wo_recv w Hw) as Hv. unfold recv_ok in Hv. rewrite Er in Hv.
  destruct Hv as (Hd & Hu & Hc). destruct (decide (res = Some true)) as [->|Hne].
  - destruct (Ht eq_refl) as [c' Hc']. rewrite Hc' in Hs |- *. eexists. split; [done|].
    destruct Hw as [Hok Hr Hv Hp Hl (bs & Hn & Ha & Hw & Hcf)], Hs. simpl in *.
    split; simpl; try done; try congruence.
    + split; [done|]. split; [simpl; congruence|done].
    + intros H. destruct sm_last0 as [E|]; [|done]. apply sm_conf0, Hl. congruence.
    + exists bs. split_and!; simpl; auto.
  - assert (Hs' : same (w_rc w) rc).
    { rewrite (Hf Hne) in Hs. by destruct (w_rc w). }
    apply (w_ok_same rc outs w Hw) in Hs'.
    destruct res as [[]|]; [done|eexists; split; [by destruct (rc_tcpConn rc)|by apply w_ok_recv]|].
    eexists. split; [by destruct (rc_tcpConn rc)|done].
Qed.

Lemma w_ok_exec cfg e w : w_ok w -> exists w', exec cfg e w = Ret w' /\ w_ok w'.
Proof.
  intros Hw. pose proof (wo_rc w Hw) as Hok.
  destruct e as [dialed ok now| |r now| | |d remote known now|stream known now|atts|ok now|now
                |ok dest payload|]; cbn [exec].
  - by apply w_ok_setupStep.
  - eexists. split; [done|]. unfold setupAborts.
    destruct (w_setup w) eqn:Es; try done. destruct (w_cancelled w); [|done].
    apply w_ok_setup; by rewrite ?Es.
  - by apply w_ok_probeStep.
  - by apply w_ok_receive.
  - eexists. split; [done|]. unfold recvStops. destruct (w_cancelled w); [by apply w_ok_recv|done].
  - unfold recvUDP. destruct (w_recv w); try by eauto. destruct (readable now w); [|by eauto].
    destruct (same_udp d remote now now (w_rc w) Hok) as (rc & x & -> & Hs). simpl.
    eexists. split; [done|]. apply w_ok_same; [done|].
    destruct x as [[[s p] n]|]; [|done]. destruct (known s); [by apply same_count|done].
  - unfold recvTCPFrame. destruct (w_recv w); try by eauto.
    destruct (Adapter.readTCPFrame 1500 stream) as [[buf rest]|]; [|by eauto].
    destruct (same_packet buf now now (w_rc w) Hok) as (rc & x & -> & Hs). simpl.
    eexists. split; [done|]. apply w_ok_same; [done|].
    destruct x as [[[s p] n]|]; [|done]. destruct (known s); [by apply same_count|done].
  - by apply w_ok_lost.
  - unfold RunKeepalive. destruct (same_hello ok now (w_rc w) Hok) as (rc & out & -> & Hs & _). simpl.
    eexists. split; [done|]. by apply w_ok_same.
  - eexists. split; [done|]. by apply w_ok_health.
  - unfold send. destruct (same_send ok dest payload (w_rc w) Hok) as (rc & outs & res & -> & Hs & _).
    simpl. eexists. split; [done|]. by apply w_ok_same.
  - eexists. split; [done|]. by destruct Hw.
Qed.

Lemma w_ok_start cfg raddr id : w_ok (startWorld cfg raddr id).
Proof.
  split; [apply rc_ok_new|by simpl; destruct (UseOfficialFAF cfg)|done..|by exists []].
Qed.

Lemma w_ok_run cfg es w : w_ok w -> exists w', run cfg es w = Ret w' /\ w_ok w'.
Proof.
  revert w; induction es as [|e es IH]; intros w Hw; simpl; [by eauto|].
  destruct (w_ok_exec cfg e w Hw) as (w1 & -> & H1). simpl. by apply IH.
Qed.

Lemma w_ok_reach cfg es raddr id w : run cfg es (startWorld cfg raddr id) = Ret w -> w_ok w.
Proof.
  intros H. destruct (w_ok_run cfg es _ (w_ok_start cfg raddr id)) as (w' & E & ?).
  rewrite H in E. by simplify_eq.
Qed.

(** ** The probe as a sequence of events *)

Definition probes (rs : list (ProbeRound * Z)) : list Event := (fun x => EProbe x.1 x.2) <$> rs.

Lemma run_probes_done cfg rs res w :
  w_probe w = PDone res -> run cfg (probes rs) w = Ret w.
Proof.
  intros Hp. induction rs as [|[r n] rs IH]; [done|]. cbn [probes fmap list_fmap run exec fst snd].
  unfold probeStep. by rewrite Hp.
Qed.

Lemma run_probes_idle cfg rs w :
  w_probe w = PIdle -> run cfg (probes rs) w = Ret w.
Proof.
  intros Hp. induction rs as [|[r n] rs IH]; [done|]. cbn [probes fmap list_fmap run exec fst snd].
  unfold probeStep. by rewrite Hp.
Qed.

Lemma probeLoop_cons r rs d rc :
  probeLoop (r :: rs) d rc =
  '(rc, outs, res) ← probeLoop [r] d rc;
  match res with
  | Some _ => Ret (rc, outs, res)
  | None => '(rc, outs', res) ← probeLoop rs d rc; Ret (rc, outs ++ outs', res)
  end.
Proof.
  cbn [probeLoop]. destruct (SendHello _ _ _) as [[[rc1 outs] ok]|]; [|done]. cbn [mbind outcome_bind].
  destruct (negb ok); [done|]. destruct (probeScan _ _) as [[rc2|]|]; [done| |done].
  cbn [mbind outcome_bind]. destruct (negb _); [done|]. simpl. by rewrite app_nil_r.
Qed.

Lemma same_probes rs d rc rc' outs res :
  rc_ok rc -> probeLoop rs d rc = Ret (rc', outs, res) -> same rc rc'.
Proof.
  revert rc outs; induction rs as [|r rs IH]; intros rc outs Hok H.
  - simpl in H. simplify_eq. by apply same_refl.
  - rewrite probeLoop_cons in H. destruct (same_probe r d rc Hok) as (rc1 & o & r1 & E & Hs & _).
    rewrite E in H. cbn [mbind outcome_bind] in H. destruct r1; [by simplify_eq|].
    destruct (probeLoop rs d rc1) as [[[rc2 o2] r2]|] eqn:E2; [|done]. simplify_eq/=.
    eapply same_trans; [exact Hs|]. eapply IH; [apply Hs|exact E2].
Qed.

Lemma run_probes cfg rs d w rc outs res :
  w_probe w = PRunning d -> probeLoop rs.*1 d (w_rc w) = Ret (rc, outs, Some res) ->
  exists dl, run cfg (probes rs) w = Ret (with_probe (PDone res) dl (with_rc rc outs w)).
Proof.
  revert w outs; induction rs as [|[r n] rs IH]; intros w outs Hp Hl; [done|].
  rewrite fmap_cons, probeLoop_cons in Hl. cbn [probes fmap list_fmap run exec fst snd] in *.
  unfold probeStep. rewrite Hp. destruct (probeLoop [r] d (w_rc w)) as [[[rc1 o1] [res1|]]|];
    [| |done]; cbn [mbind outcome_bind] in Hl |- *.
  - simplify_eq. destruct res; simpl; eexists; (eapply run_probes_done; reflexivity).
  - destruct (probeLoop rs.*1 d rc1) as [[[rc2 o2] res2]|] eqn:E; [|done]. simplify_eq/=.
    destruct (IH (with_probe (PRunning d) (Some (Z.min (Time.Add n retryInterval) d)) (with_rc rc1 o1 w))
                o2 eq_refl E) as [dl Hr].
    exists dl. etransitivity; [exact Hr|]. unfold with_probe, with_rc. simpl. by rewrite app_assoc.
Qed.

(** ** The end of the setup *)

(** Where the receive loop goes once it may start. *)
Definition chosen (rc : RelayConnection) : Recv :=
  if useTCP rc then match rc_tcpConn rc with Some c => RTCP c | None => RUDP end else RUDP.

Section settle.
Context (cfg : TransportConfig) (dialed : option Conn) (ok : bool) (now : Z).

(** [k] steps of the setup end it, and then the receive loop starts at [r]. *)
Definition settles (k : nat) (w : World) (r : Recv) : Prop :=
  exists w', run cfg (replicate k (ESetup dialed ok now) ++ [EReceive]) w = Ret w' /\
    w_setup w' = SDone /\ w_deadline w' = w_deadline w /\ w_recv w' = r.

Lemma settles_done k w :
  w_ok w -> w_setup w = SDone -> w_recv w = RWaiting -> settles k w (chosen (w_rc w)).
Proof.
  intros Hw Hs Hr. induction k as [|k (w' & E & IH)].
  - unfold settles. simpl. unfold ReceiveLoop. rewrite Hr, (wo_ready w Hw), Hs. unfold chosen.
    destruct (useTCP (w_rc w)) eqn:Hu; [|by eexists].
    destruct (rc_conn _ (wo_rc w Hw) Hu) as [c ->]. by eexists.
  - exists w'. cbn [replicate app run exec]. unfold setupStep. rewrite Hs. done.
Qed.

Lemma settles_step k w w1 r :
  setupStep cfg dialed ok now w = Ret w1 -> w_deadline w1 = w_deadline w ->
  settles k w1 r -> settles (S k) w r.
Proof.
  intros E Hd (w' & Hr & Hs & Hd' & Hv). exists w'. cbn [replicate app run exec]. rewrite E.
  split_and!; try done. congruence.
Qed.

Lemma settles_return k w :
  w_ok w -> w_setup w = SReturn -> w_recv w = RWaiting -> settles (S k) w (chosen (w_rc w)).
Proof.
  intros Hw Hs Hr. destruct (w_ok_mark w Hw) as (rc & E & Hw' & Hu & Hc); [by rewrite Hs|].
  eapply settles_step; [by unfold setupStep; rewrite Hs, E|done|].
  replace (chosen (w_rc w)) with (chosen rc) by by unfold chosen; rewrite Hu, Hc.
  by apply (settles_done k _ Hw').
Qed.

Lemma settles_hello k w :
  w_ok w -> w_setup w = SHello -> w_recv w = RWaiting -> settles (S (S k)) w (chosen (w_rc w)).
Proof.
  intros Hw Hs Hr. destruct (same_hello ok now (w_rc w) (wo_rc w Hw)) as (rc & out & E & Hsm & _).
  eapply settles_step; [by unfold setupStep; rewrite Hs, E|done|].
  replace (chosen (w_rc w)) with (chosen rc) by by unfold chosen; destruct Hsm; rewrite sm_use0, sm_conn0.
  apply settles_return; [|done..].
  apply w_ok_setup; [by apply w_ok_same|simpl; by rewrite Hs|done..].
Qed.

Lemma settles_dial k w :
  w_ok w -> w_setup w = SDial -> w_recv w = RWaiting -> useTCP (w_rc w) = false ->
  settles (S (S (S k))) w (match dialed with Some c => RTCP c | None => RUDP end).
Proof.
  intros Hw Hs Hr Hu. destruct dialed as [c|] eqn:Ed.
  - eapply settles_step; [by unfold setupStep; rewrite Hs, Ed|done|].
    replace (RTCP c) with (chosen (set_tcp dialed (tcpTarget cfg) true (w_rc w))) by by rewrite Ed.
    apply (settles_hello k (with_setup SHello (with_rc _ _ w))); [|done..].
    apply w_ok_setup; [|simpl; by rewrite Hs|done..].
    rewrite Ed. apply w_ok_switch; [done|by rewrite Hs].
  - eapply settles_step; [by unfold setupStep; rewrite Hs, Ed|done|].
    replace RUDP with (chosen (w_rc w)) by by unfold chosen; rewrite Hu.
    apply (settles_return (S k) (with_setup SReturn (with_rc _ [] w))); [|done..].
    apply w_ok_setup; [|simpl; by rewrite Hs|done..].
    apply w_ok_same; [done|]. apply same_refl, Hw.
Qed.

(** The whole sequence: one step of the setup, the rounds of the probe, then
    the steps that settle it. *)
Lemma settle_run rs w0 w1 r :
  run cfg (ESetup dialed ok now :: probes rs) w0 = Ret w1 -> settles 4 w1 r ->
  exists w, run cfg (ESetup dialed ok now :: probes rs ++ replicate 4 (ESetup dialed ok now) ++ [EReceive])
              w0 = Ret w /\
    w_setup w = SDone /\ w_deadline w = w_deadline w1 /\ w_recv w = r.
Proof.
  intros E (w2 & E2 & Hs2 & Hd2 & Hr2). exists w2. by rewrite app_comm_cons, run_app, E.
Qed.

Lemma run_idle rs w0 w1 :
  setupStep cfg dialed ok now w0 = Ret w1 -> w_probe w1 = PIdle ->
  run cfg (ESetup dialed ok now :: probes rs) w0 = Ret w1.
Proof. intros E Hi. cbn [run exec]. rewrite E. by apply run_probes_idle. Qed.

(** The branch with a probe. *)
Lemma fallback_settles raddr id rs rc outs res :
  UseOfficialFAF cfg = false -> ForceTCP cfg = false -> TCPFallback cfg = true ->
  ProbeRelayUDP now rs.*1 (NewRelayConnection raddr id) = Ret (rc, outs, Some res) ->
  exists w1, run cfg (ESetup dialed ok now :: probes rs) (startWorld cfg raddr id) = Ret w1 /\
    (res <> ProbeSendFailed -> w_deadline w1 = None) /\
    settles 4 w1 (match dialed, res with Some c, ProbeOk => RUDP | Some c, _ => RTCP c | None, _ => RUDP end).
Proof.
  intros Ho Hf Ht Hp. set (w0 := startWorld cfg raddr id).
  set (wp := with_probe (PRunning (Time.Add now ProbeTimeout)) None (with_setup SWait w0)).
  destruct (run_probes cfg rs (Time.Add now ProbeTimeout) wp rc outs res eq_refl Hp) as [dl Hl].
  set (w1 := with_probe (PDone res) dl _) in Hl.
  assert (Hr : run cfg (ESetup dialed ok now :: probes rs) w0 = Ret w1).
  { cbn [run exec]. unfold setupStep. simpl. by rewrite Ho, Hf, Ht. }
  pose proof (w_ok_reach cfg _ raddr id w1 Hr) as Hw1. exists w1. split; [done|].
  split; [apply (wo_probe w1 Hw1)|].
  assert (Hu : useTCP (w_rc w1) = false) by apply (same_probes _ _ _ _ _ _ (rc_ok_new raddr id) Hp).
  destruct res; (eapply settles_step; [done|done|]).
  - replace (match dialed with Some _ => _ | None => _ end) with (chosen (w_rc w1))
      by by unfold chosen; rewrite Hu; destruct dialed.
    apply (settles_return 2 (with_setup SReturn w1)); [|done..]. by apply w_ok_setup.
  - apply (settles_dial 0 (with_setup SDial w1)); [by apply w_ok_setup|done..].
  - apply (settles_dial 0 (with_setup SDial w1)); [by apply w_ok_setup|done..].
Qed.
End settle.

(** ** Theorems *)

(** C7. The two directions of the relay connection use the same transport.
    Whatever the interleaving of the setup, the probe, the receive loop, the
    keepalive, the health monitor and the senders, nothing panics, the receive
    loop does not read before the transport is decided, and from then on every
    packet that is sent goes over the transport the receive loop reads: the UDP
    socket, or the TCP connection it has captured, also after reconnects. *)
Theorem transport_agreement (cfg : TransportConfig) (raddr : AddrPort) (id : Z) (es : list Event)
    (ok : bool) (dest : Z) (payload : bytes) :
  exists w, run cfg es (startWorld cfg raddr id) = Ret w /\
    (forall e, exists w', exec cfg e w = Ret w') /\
    (w_setup w <> SDone -> w_recv w = RWaiting \/ w_recv w = RStopped) /\
    (len payload <= MaxRelayPayload ->
     exists w', send ok dest payload w = Ret w' /\
       let packet := header (localID (w_rc w)) dest ++ payload in
       match w_recv w with
       | RUDP => w_out w' = w_out w ++ [SendUDP (relayAddr (w_rc w)) packet]
       | RTCP c => w_out w' = w_out w ++ [SendTCP c (frame packet)]
       | _ => True
       end).
Proof.
  destruct (w_ok_run cfg es _ (w_ok_start cfg raddr id)) as (w & -> & Hw). exists w.
  split; [done|]. split; [|split].
  - intros e. destruct (w_ok_exec cfg e w Hw) as (w' & -> & _). eauto.
  - intros Hs. pose proof (wo_recv w Hw) as Hv. unfold recv_ok in Hv.
    destruct (w_recv w); auto; by destruct Hv.
  - intros Hp. unfold send.
    destruct (Send_spec ok dest payload (w_rc w) (wo_rc w Hw) Hp) as (sb & fb & _ & ->).
    eexists. split; [done|]. cbn [w_out with_rc]. unfold wire_out.
    pose proof (wo_recv w Hw) as Hv. unfold recv_ok in Hv.
    destruct (w_recv w); try done; [by destruct Hv as [_ ->]|by destruct Hv as (_ & -> & ->)].
Qed.

(** C40. Which transport is chosen.  The probe's rounds having a result, five
    steps of the setup reach its end and the receive loop starts: on TCP when
    the dial succeeds and TCP is forced or the probe failed with the fallback
    enabled, on UDP in every other case; in official mode always on UDP.  A
    probe that did not fail to send leaves no read deadline on the socket. *)
Theorem transport_decided (cfg : TransportConfig) (raddr : AddrPort) (id : Z)
    (rs : list (ProbeRound * Z)) (rc : RelayConnection) (outs : list Out) (res : ProbeResult)
    (dialed : option Conn) (ok : bool) (now : Z) :
  ProbeRelayUDP now rs.*1 (NewRelayConnection raddr id) = Ret (rc, outs, Some res) ->
  let setup := ESetup dialed ok now in
  exists w, run cfg (setup :: probes rs ++ [setup; setup; setup; setup; EReceive])
              (startWorld cfg raddr id) = Ret w /\
    w_setup w = SDone /\ (res <> ProbeSendFailed -> w_deadline w = None) /\
    w_recv w = match dialed with
               | Some c =>
                   if negb (UseOfficialFAF cfg) &&
                      (ForceTCP cfg ||
                       (TCPFallback cfg && match res with ProbeOk => false | _ => true end))
                   then RTCP c else RUDP
               | None => RUDP
               end.
Proof.
  intros Hp setup. pose proof (w_ok_start cfg raddr id) as H0. set (w0 := startWorld cfg raddr id) in *.
  assert (Hgoal : forall w1 r, run cfg (setup :: probes rs) w0 = Ret w1 ->
    (res <> ProbeSendFailed -> w_deadline w1 = None) -> settles cfg dialed ok now 4 w1 r ->
    exists w, run cfg (setup :: probes rs ++ [setup; setup; setup; setup; EReceive]) w0 = Ret w /\
      w_setup w = SDone /\ (res <> ProbeSendFailed -> w_deadline w = None) /\ w_recv w = r).
  { intros w1 r E Hd Hs. destruct (settle_run _ _ _ _ _ _ _ _ E Hs) as (w & E' & ? & Hd' & ?).
    exists w. split_and!; try done. rewrite Hd'. done. }
  destruct (UseOfficialFAF cfg) eqn:Ho; [|destruct (ForceTCP cfg) eqn:Hf; [|destruct (TCPFallback cfg) eqn:Ht]].
  - destruct (w_ok_mark w0 H0) as (rc1 & E & Hw1 & Hu & Hc); [simpl; by rewrite Ho|].
    eapply Hgoal; [apply run_idle; [unfold setupStep|]|..].
    + replace (w_setup w0) with SReturn by (simpl; by rewrite Ho). by rewrite E.
    + done.
    + done.
    + replace (match dialed with Some _ => _ | None => _ end) with (chosen rc1)
        by by unfold chosen; rewrite Hu; destruct dialed.
      by apply (settles_done cfg dialed ok now 4 (with_setup SDone (with_rc rc1 [] w0))).
  - eapply (Hgoal (with_setup SDial w0)); [apply run_idle; [|done]|done|].
    + unfold setupStep. simpl. by rewrite Ho, Hf.
    + apply (settles_dial cfg dialed ok now 1); [|done..].
      apply w_ok_setup; [done|simpl; by rewrite Ho|done..].
  - destruct (fallback_settles cfg dialed ok now raddr id rs rc outs res Ho Hf Ht Hp) as (w1 & E & Hd & Hs).
    replace (match dialed with Some _ => _ | None => _ end)
      with (match dialed, res with Some c, ProbeOk => RUDP | Some c, _ => RTCP c | None, _ => RUDP end)
      by by destruct dialed, res.
    by eapply Hgoal.
  - eapply (Hgoal (with_setup SHello w0)); [apply run_idle; [|done]|done|].
    + unfold setupStep. simpl. by rewrite Ho, Hf, Ht.
    + replace (match dialed with Some _ => _ | None => _ end) with (chosen (w_rc w0)) by by destruct dialed.
      apply (settles_hello cfg dialed ok now 2 (with_setup SHello w0)); [|done..].
      apply w_ok_setup; [done|simpl; by rewrite Ho|done..].
Qed.

Definition demo_tc : TransportConfig := MkTC "relay:10000" "relay:10001" true false false.
(** A round that nobody answers, and one whose hello cannot be sent. *)
Definition silent (start end_ : Z) : ProbeRound := MkRound start true [] end_.
Definition unsent (start : Z) : ProbeRound := MkRound start false [] start.
Definition demo_rounds : list (ProbeRound * Z) :=
  [(silent t_now (t_now + retryInterval), t_now);
   (silent (t_now + retryInterval) (t_now + ProbeTimeout), t_now + retryInterval)].
Definition demo_probed : RelayConnection * list Out * option ProbeResult :=
  match ProbeRelayUDP t_now demo_rounds.*1 demo_rc with
  | Ret x => x
  | Panic => (demo_rc, [], None)
  end.

Lemma transport_decided_witness :
  let setup := ESetup (Some (MkConn 3 None)) true t_now in
  exists w, run demo_tc (setup :: probes demo_rounds ++ [setup; setup; setup; setup; EReceive])
              (startWorld demo_tc relay_addr 7) = Ret w /\
    w_setup w = SDone /\ (ProbeNoResponse <> ProbeSendFailed -> w_deadline w = None) /\
    w_recv w = RTCP (MkConn 3 None).
Proof.
  exact (transport_decided demo_tc relay_addr 7 demo_rounds demo_probed.1.1 demo_probed.1.2
           ProbeNoResponse (Some (MkConn 3 None)) true t_now ltac:(by vm_compute)).
Defined.

(** ** The read deadline a failed probe leaves *)

(** Once the setup is over and the probe has ended, nothing changes the read
    deadline of the socket. *)
Lemma deadline_stays cfg es res w w' :
  w_setup w = SDone -> w_probe w = PDone res -> run cfg es w = Ret w' ->
  w_setup w' = SDone /\ w_probe w' = PDone res /\ w_deadline w' = w_deadline w.
Proof.
  revert w; induction es as [|e es IH]; intros w Hs Hp H; simpl in H; [by simplify_eq|].
  destruct (exec cfg e w) as [w1|] eqn:E; [|done]. simpl in H.
  assert (w_setup w1 = SDone /\ w_probe w1 = PDone res /\ w_deadline w1 = w_deadline w) as (? & ? & Hd).
  { destruct e; simpl in E;
      unfold setupStep, setupAborts, probeStep, ReceiveLoop, recvStops, recvUDP, recvTCPFrame,
        recvTCPLost, RunKeepalive, RunHealthMonitor, send in E; rewrite ?Hs, ?Hp in E;
      repeat (case_match || (unfold mbind, outcome_bind in E)); simplify_eq/=; done. }
  rewrite <- Hd. by apply IH.
Qed.

(** A probe whose hello cannot be sent makes the UDP path deaf.  There is
    a run in which the second hello of the probe fails and the TCP dial fails
    too, after which the receive loop is on UDP as intended, but the read
    deadline of the earlier round is still set: whatever happens from then on,
    no datagram that arrives after the deadline is ever processed. *)
Theorem probe_error_blocks_udp :
  exists es w d,
    run demo_tc es (startWorld demo_tc relay_addr 7) = Ret w /\ w_recv w = RUDP /\
    w_cancelled w = false /\
    forall es' w', run demo_tc es' w = Ret w' ->
      forall datagram remote known now, d <= now ->
        recvUDP datagram remote known now w' = Ret w'.
Proof.
  set (setup := ESetup None true t_now).
  exists [setup; EProbe (silent t_now (t_now + retryInterval)) t_now; EProbe (unsent (t_now + retryInterval)) 0;
          setup; setup; setup; EReceive].
  eexists. exists (t_now + retryInterval). split; [by vm_compute|]. split; [done|]. split; [done|].
  intros es' w' H datagram remote known now Hd.
  apply (deadline_stays _ _ ProbeSendFailed) in H as (_ & _ & H); [|done..].
  assert (Hw : w_deadline w' = Some (t_now + retryInterval)) by by rewrite H; vm_compute.
  unfold recvUDP, readable. rewrite Hw. destruct (w_recv w'); try done.
  by rewrite (proj2 (Z.ltb_ge _ _)).
Qed.

(** The reports on the relay's state.  Whatever the interleaving, the
    states reported to the client alternate, beginning with "Connected";
    "Connected" is reported only after a packet of the relay was accepted; and
    after a tick of the monitor the last report agrees with the health of the
    connection (no report counting as unreachable). *)
Theorem relay_state_reports (cfg : TransportConfig) (raddr : AddrPort) (id : Z) (es : list Event)
    (now : Z) :
  exists w w' bs,
    run cfg es (startWorld cfg raddr id) = Ret w /\ exec cfg (EHealth now) w = Ret w' /\
    w_notes w' = onRelayHealthChanged <$> bs /\ alternates true bs /\
    List.last bs false = IsHealthy now (w_rc w) /\
    (bs <> [] -> WaitRelayConfirmed false (w_rc w') = Some true).
Proof.
  destruct (w_ok_run cfg es _ (w_ok_start cfg raddr id)) as (w & -> & Hw).
  destruct (w_ok_health now w Hw) as [Hw' Hwas].
  destruct (wo_notes _ Hw') as (bs & Hn & Ha & Hl & Hc). exists w, (RunHealthMonitor now w), bs.
  split_and!; try done; [congruence|]. intros H%Hc. unfold confirmed, WaitRelayConfirmed in *.
  by destruct (relayConfirmed _) as [[]|].
Qed.

(** ** Rates *)

(** Differences of wrapping counters are the true differences. *)
Lemma delta_u64 n m : n <= m < n + 2 ^ 64 -> u64 (u64 m - u64 n) = m - n.
Proof.
  intros H. unfold u64. rewrite <- Zminus_mod. apply Z.mod_small. lia.
Qed.

Lemma pps_exact d : 0 <= d < 2 ^ 64 / Time.Second -> pps d = d / 10.
Proof.
  unfold pps, statsInterval, u64, Time.Second. intros H.
  assert (2 ^ 64 / 1000000000 = 18446744073) as E by by vm_compute. rewrite E in H.
  rewrite Z.mod_small by lia. rewrite Z.div_mul_cancel_r; lia.
Qed.

Lemma kbps_exact d : 0 <= d < 2 ^ 64 / (8 * Time.Second) -> kbps d = d * 8 / 10000.
Proof.
  unfold kbps, statsInterval, u64, Time.Second. intros H.
  assert (2 ^ 64 / (8 * 1000000000) = 2305843009) as E by by vm_compute. rewrite E in H.
  rewrite !Z.mod_small; [|rewrite ?Z.mod_small; lia..].
  rewrite Z.div_mul_cancel_r by lia. rewrite Z.div_div by lia. done.
Qed.

(** The statistics line.  Let the true numbers of packets and bytes be
    [s0 <= s], [r0 <= r], [bs0 <= bs] and [br0 <= br] at two ticks; the counters
    hold them modulo 2^64.  If fewer than 2^64 / 10^9 packets and 2^64 / (8 *
    10^9) bytes (230 MB/s) passed in each direction, the second tick logs
    exactly the packets per second and kilobits per second of the ten seconds
    in between, rounded down, and it logs nothing iff no packet passed. *)
Theorem stats_rates_exact (rc0 rc : RelayConnection) (p0 : Prev) (s0 s r0 r bs0 bs br0 br : Z) :
  pktsSent rc0 = u64 s0 -> pktsRecv rc0 = u64 r0 -> bytesSent rc0 = u64 bs0 -> bytesRecv rc0 = u64 br0 ->
  pktsSent rc = u64 s -> pktsRecv rc = u64 r -> bytesSent rc = u64 bs -> bytesRecv rc = u64 br ->
  0 <= s - s0 < 2 ^ 64 / Time.Second -> 0 <= r - r0 < 2 ^ 64 / Time.Second ->
  0 <= bs - bs0 < 2 ^ 64 / (8 * Time.Second) -> 0 <= br - br0 < 2 ^ 64 / (8 * Time.Second) ->
  (RunStats rc (RunStats rc0 p0).1).2 =
  if bool_decide (s = s0 /\ r = r0) then None
  else Some (MkLine ((s - s0) / 10) ((r - r0) / 10) ((bs - bs0) * 8 / 10000) ((br - br0) * 8 / 10000)
               (u64 s) (u64 r)).
Proof.
  intros E1 E2 E3 E4 E5 E6 E7 E8 Hs Hr Hbs Hbr. unfold RunStats. cbn [fst snd prevSent prevRecv
    prevBytesSent prevBytesRecv]. rewrite E1, E2, E3, E4, E5, E6, E7, E8.
  assert (H1 : 2 ^ 64 / Time.Second < 2 ^ 64) by by vm_compute.
  assert (H2 : 2 ^ 64 / (8 * Time.Second) < 2 ^ 64) by by vm_compute.
  rewrite !delta_u64 by lia. rewrite !pps_exact, !kbps_exact by lia.
  destruct (Z.ltb_spec 0 (s - s0)), (Z.ltb_spec 0 (r - r0)); cbn [orb];
    (case_bool_decide as Hd; try done); exfalso; lia.
Qed.

Definition demo_counted : RelayConnection := count_sent 1250 demo_rc.
Lemma stats_rates_exact_witness :
  (RunStats demo_counted (RunStats demo_rc noPrev).1).2 =
  if bool_decide (1 = 0 /\ 0 = 0) then None
  else Some (MkLine ((1 - 0) / 10) ((0 - 0) / 10) ((1250 - 0) * 8 / 10000) ((0 - 0) * 8 / 10000)
               (u64 1) (u64 0)).
Proof.
  apply (stats_rates_exact demo_rc demo_counted noPrev 0 1 0 0 0 1250 0 0);
    [by vm_compute..|vm_compute; split; congruence|vm_compute; split; congruence
    |vm_compute; split; congruence|vm_compute; split; congruence].
Defined.

(** A rate that wraps: 2.4 GB in ten seconds are reported as 75 Mbit/s. *)
Example kbps_wraps : kbps 2400000000 = 75325.
Proof. reflexivity. Qed.

(** ** [receiveTCP] under read timeouts

    Each frame is read under a deadline of 45 seconds.  [bursts] are the bytes
    of one connection, cut where a read runs into its deadline: [io.ReadFull]
    has consumed what was there, the timeout is taken for a quiet line and the
    loop starts over with a new frame. *)

(** The frames complete in one burst, and the error that ends them: the burst
    is used up, or a hard error. *)
Fixpoint burstFrames (fuel : nat) (burst : bytes) : list bytes * bool :=
  match fuel with
  | O => ([], false)
  | S fuel' =>
      match Adapter.readTCPFrame 1500 burst with
      | Err (FrameIO EOF) | Err (FrameIO ErrUnexpectedEOF) => ([], false)
      | Err _ => ([], true)
      | Ok (buf, burst) => let '(fs, hard) := burstFrames fuel' burst in (buf :: fs, hard)
      end
  end.

(** The frames [receiveTCP] handles on one connection; every frame takes at
    least two bytes. *)
Fixpoint connFrames (bursts : list bytes) : list bytes :=
  match bursts with
  | [] => []
  | b :: bursts' =>
      let '(fs, hard) := burstFrames (S (length b)) b in
      fs ++ (if hard then [] else connFrames bursts')
  end.

Lemma burstFrames_whole fuel ps :
  (length (concat (frame <$> ps)) < fuel)%nat -> Forall (fun p => len p <= 1500) ps ->
  burstFrames fuel (concat (frame <$> ps)) = (ps, false).
Proof.
  revert fuel; induction ps as [|p ps IH]; intros [|fuel] Hf Hp; simpl in *; try lia; [done|].
  apply Forall_cons in Hp as [Hp1 Hp2]. rewrite adapter_read_frame by (simpl in *; lia).
  change (list_fmap _ _ frame ps) with (frame <$> ps) in *.
  rewrite length_app, length_frame in Hf. by rewrite IH by (done || lia).
Qed.

(** A quiet line is harmless.  When every read timeout falls between two
    frames, the adapter handles exactly the frames the relay wrote, in order,
    however many timeouts there are. *)
Theorem tcp_timeouts_harmless (pss : list (list bytes)) :
  Forall (Forall (fun p => len p <= MaxRelayPacket)) pss ->
  connFrames ((fun ps => concat (frame <$> ps)) <$> pss) = concat pss.
Proof.
  induction 1 as [|ps pss Hp _ IH]; [done|]. cbn [fmap list_fmap connFrames concat].
  rewrite burstFrames_whole; [by rewrite <- IH|lia|].
  eapply Forall_impl; [exact Hp|]. simpl. intros p Hl. unfold MaxRelayPacket in Hl. lia.
Qed.

Lemma tcp_timeouts_harmless_witness :
  connFrames ((fun ps => concat (frame <$> ps)) <$> [[[Byte.x01]; [Byte.x02; Byte.x03]]; []; [[Byte.x04]]]) =
  concat [[[Byte.x01]; [Byte.x02; Byte.x03]]; []; [[Byte.x04]]].
Proof.
  apply (tcp_timeouts_harmless [[[Byte.x01]; [Byte.x02; Byte.x03]]; []; [[Byte.x04]]]).
  repeat (apply Forall_cons_2 || apply Forall_nil_2); vm_compute; congruence.
Defined.

(** A timeout inside a frame desynchronises the stream.  The relay writes
    one frame: a packet of player 8 whose payload looks like a frame with a
    packet of player 9.  If the read times out after the header of player 8, the
    adapter drops that packet and handles the payload as a packet of player 9. *)
Theorem tcp_timeout_desync :
  exists packet k,
    DecodeRelayHeader packet = Ok (8, 7) /\
    connFrames [frame packet] = [packet] /\
    connFrames [take k (frame packet); drop k (frame packet)] = [header 9 7 ++ [Byte.x2a]] /\
    DecodeRelayHeader (header 9 7 ++ [Byte.x2a]) = Ok (9, 7).
Proof.
  exists (header 8 7 ++ frame (header 9 7 ++ [Byte.x2a])), 10%nat. by vm_compute.
Qed.
