(* ===== verification/Peer.v ===== *)
(** * [internal/adapter/peer.go]: the forwarder between the game and the relay

    One peer stands for one remote player.  Its local UDP socket talks to the
    game; its channel holds what the relay delivered.  The three goroutines of
    a peer are modelled by the body of one round each. *)

From S2P Require Import Prelude GoLib RelayWire TcpFrame RelayConn.

Definition echoMagicPing : bytes := [Byte.xaf; Byte.xec; Byte.xfa; Byte.x00].
Definition echoMagicPong : bytes := [Byte.xaf; Byte.xed; Byte.xfa; Byte.x00].
Definition echoFrameSize : Z := 12.
(** The capacity of [fromCh]. *)
Definition fromChCap : Z := 256.

Record Peer := MkPeer {
  PlayerID : Z;
  p_Login : string;
  AddedOrder : Z;
  LocalID : Z;
  p_conn : nat;
  gameAddr : option AddrPort;
  fromCh : list bytes;
  started : bool;
  rttMs : Z;
}.

(** [sock] is the socket [net.ListenUDP] gives. *)
Definition NewPeer (playerID : Z) (login : string) (localID : Z) (sock : nat) : Peer :=
  MkPeer playerID login 0 localID sock None [] false 0.

Definition set_gameAddr (a : option AddrPort) (p : Peer) : Peer :=
  MkPeer (PlayerID p) (p_Login p) (AddedOrder p) (LocalID p) (p_conn p) a (fromCh p) (started p)
    (rttMs p).
Definition set_fromCh (q : list bytes) (p : Peer) : Peer :=
  MkPeer (PlayerID p) (p_Login p) (AddedOrder p) (LocalID p) (p_conn p) (gameAddr p) q (started p)
    (rttMs p).
Definition set_rtt (ms : Z) (p : Peer) : Peer :=
  MkPeer (PlayerID p) (p_Login p) (AddedOrder p) (LocalID p) (p_conn p) (gameAddr p) (fromCh p)
    (started p) ms.
Definition set_order (n : Z) (p : Peer) : Peer :=
  MkPeer (PlayerID p) (p_Login p) n (LocalID p) (p_conn p) (gameAddr p) (fromCh p) (started p)
    (rttMs p).

(** [Start]; the boolean says whether the goroutines are launched. *)
Definition Start (p : Peer) : Peer * bool :=
  if started p then (p, false)
  else (MkPeer (PlayerID p) (p_Login p) (AddedOrder p) (LocalID p) (p_conn p) (gameAddr p)
          (fromCh p) true (rttMs p), true).

Definition DeliverFromRelay (data : bytes) (p : Peer) : Peer :=
  if len (fromCh p) <? fromChCap then set_fromCh (fromCh p ++ [data]) p else p.

(** One round of [gameToRelay] on a datagram from the game. *)
Definition gameToRelay (ok : bool) (datagram : bytes) (remote : AddrPort) (p : Peer)
    (rc : RelayConnection) : outcome (Peer * RelayConnection * list Out) :=
  let p := match gameAddr p with None => set_gameAddr (Some remote) p | Some _ => p end in
  '(rc, outs, _) ← Send ok (u32 (PlayerID p)) (take 1500 datagram) rc;
  Ret (p, rc, outs).

(** The datagram the peer writes to the game, if any. *)
Abbreviation GameOut := (option (AddrPort * bytes)).

(** One round of [relayToGame] on the packet at the head of the channel. *)
Definition relayToGame (ok : bool) (now : Z) (p : Peer) (rc : RelayConnection)
    : outcome (Peer * RelayConnection * list Out * GameOut) :=
  match fromCh p with
  | [] => Ret (p, rc, [], None)
  | data :: rest =>
      let p := set_fromCh rest p in
      let forward :=
        match gameAddr p with
        | None => Ret (p, rc, [], None)
        | Some addr => Ret (p, rc, [], Some (addr, data))
        end in
      if len data =? echoFrameSize then
        if bool_decide (take 4 data = echoMagicPing) then
          let pong := replicate 12 Byte.x00 in
          let pong := copy_at 4 (drop 4 data) pong in
          let pong := copy_at 0 echoMagicPong pong in
          '(rc, outs, _) ← Send ok (u32 (PlayerID p)) pong rc;
          Ret (p, rc, outs, None)
        else if bool_decide (take 4 data = echoMagicPong) then
          let sentNs := i64 (Uint64 (drop 4 data)) in
          let rtt := i64 (Time.UnixNano now - sentNs) in
          let p := if 0 <? rtt then set_rtt (Z.quot rtt Time.Millisecond) p else p in
          Ret (p, rc, [], None)
        else forward
      else forward
  end.

(** The frame [pingLoop] sends on a tick. *)
Definition pingFrame (now : Z) : bytes :=
  let frame := replicate 12 Byte.x00 in
  let frame := copy_at 0 echoMagicPing frame in
  PutUint64 4 (u64 (Time.UnixNano now)) frame.

Definition pingTick (ok : bool) (now : Z) (p : Peer) (rc : RelayConnection)
    : outcome (RelayConnection * list Out) :=
  '(rc, outs, _) ← Send ok (u32 (PlayerID p)) (pingFrame now) rc;
  Ret (rc, outs).

(** [relay] is [None] when the peer has no relay connection. *)
Definition RttMs (p : Peer) (relay : option RelayConnection) : Z :=
  if 0 <? rttMs p then rttMs p
  else match relay with None => 0 | Some rc => RelayRttMs rc end.

Definition RttIsEstimated (p : Peer) : bool := rttMs p =? 0.

(** ** Lemmas *)

(** An echo frame with the given magic and time stamp. *)
Definition echo_frame (magic : bytes) (stamp : Z) : bytes := magic ++ be_encode 8 stamp.

Lemma pingFrame_spec now : pingFrame now = echo_frame echoMagicPing (Time.UnixNano now).
Proof.
  unfold pingFrame, echo_frame, PutUint64. change 12%nat with (4 + 8)%nat.
  rewrite replicate_add, copy_at_front by done.
  rewrite copy_at_tail by (autorewrite with wire; done). f_equal.
  rewrite <- (be_encode_decode 8 (be_encode 8 (u64 _))) by apply length_be_encode.
  rewrite be_decode_encode. change (2 ^ (8 * Z.of_nat 8)) with (2 ^ 64). unfold u64.
  rewrite Z.mod_mod by lia.
  rewrite <- (be_encode_decode 8 (be_encode 8 (Time.UnixNano now))) by apply length_be_encode.
  by rewrite be_decode_encode.
Qed.

Lemma length_echo_frame magic stamp :
  length magic = 4%nat -> length (echo_frame magic stamp) = 12%nat.
Proof. intros H. unfold echo_frame. rewrite length_app, length_be_encode. lia. Qed.

(** The answer to a ping carries the ping's time stamp. *)
Lemma pong_of_ping (data : bytes) :
  len data = echoFrameSize ->
  copy_at 0 echoMagicPong (copy_at 4 (drop 4 data) (replicate 12 Byte.x00)) =
  echoMagicPong ++ drop 4 data.
Proof.
  unfold echoFrameSize. intros Hl. change 12%nat with (4 + 8)%nat. rewrite replicate_add.
  rewrite copy_at_tail by (rewrite ?length_drop, ?length_replicate; lia).
  by rewrite copy_at_front.
Qed.

Lemma stamp_roundtrip magic t :
  length magic = 4%nat -> - 2 ^ 63 <= t < 2 ^ 63 ->
  i64 (Uint64 (drop 4 (echo_frame magic t))) = t.
Proof.
  intros Hm Ht. unfold echo_frame. rewrite drop_app_exact by done. unfold Uint64.
  rewrite be_decode_encode. change (8 * Z.of_nat 8) with 64. unfold i64.
  rewrite swrap_mod by lia. by apply swrap_small.
Qed.

(** Echo frames are 12 bytes that begin with one of the two magics. *)
Definition is_echo (data : bytes) : bool :=
  (len data =? echoFrameSize) &&
  (bool_decide (take 4 data = echoMagicPing) || bool_decide (take 4 data = echoMagicPong)).

Lemma relayToGame_plain ok now p rc data rest :
  fromCh p = data :: rest -> is_echo data = false ->
  relayToGame ok now p rc =
  Ret (set_fromCh rest p, rc, [], (fun a => (a, data)) <$> gameAddr p).
Proof.
  intros Hq He. unfold relayToGame. rewrite Hq. unfold is_echo in He. cbv zeta.
  destruct (len data =? echoFrameSize); simpl in He.
  - apply orb_false_elim in He as [-> ->]. simpl. by destruct (gameAddr p).
  - simpl. by destruct (gameAddr p).
Qed.

Lemma relayToGame_ping ok now p rc data rest :
  rc_ok rc -> fromCh p = data :: rest -> len data = echoFrameSize ->
  take 4 data = echoMagicPing ->
  exists rc', rc_ok rc' /\ relayToGame ok now p rc =
    Ret (set_fromCh rest p, rc',
         [wire_out rc (header (localID rc) (u32 (PlayerID p)) ++ echoMagicPong ++ drop 4 data)],
         None).
Proof.
  intros Hok Hq Hl Hm. unfold relayToGame. rewrite Hq, Hl, Hm. cbv zeta.
  rewrite Z.eqb_refl, bool_decide_eq_true_2 by done. rewrite pong_of_ping by done.
  change (PlayerID (set_fromCh rest p)) with (PlayerID p).
  destruct (Send_spec ok (u32 (PlayerID p)) (echoMagicPong ++ drop 4 data) rc Hok)
    as (sb & fb & Hok' & ->).
  { rewrite length_app, length_drop. change (length echoMagicPong) with 4%nat.
    unfold echoFrameSize in *. assert (length data = 12%nat) by lia. rewrite H. by vm_compute. }
  simpl. eexists. split; [|done]. destruct ok; auto with relay.
Qed.

(** ** Theorems *)

(** Packets from the relay reach the game unchanged.  The packet at the
    head of the channel is written to the game's learned address, unless that
    is not known yet or the packet is an echo frame; echo frames never reach
    the game. *)
Theorem relay_to_game (raddr : AddrPort) (id : Z) (rc : RelayConnection) (ok : bool) (now : Z)
    (p : Peer) (data : bytes) (rest : list bytes) :
  rc_reach raddr id rc -> fromCh p = data :: rest ->
  exists p' rc' outs, relayToGame ok now p rc =
    Ret (p', rc', outs, if is_echo data then None else (fun a => (a, data)) <$> gameAddr p) /\
    fromCh p' = rest /\ gameAddr p' = gameAddr p.
Proof.
  intros Hr%rc_reach_ok Hq. destruct (is_echo data) eqn:He.
  2: { rewrite (relayToGame_plain ok now p rc data rest) by done. by do 3 eexists. }
  unfold is_echo in He. apply andb_prop in He as [Hl Hm]. apply Z.eqb_eq in Hl.
  destruct (bool_decide_reflect (take 4 data = echoMagicPing)) as [Hp|Hp].
  - destruct (relayToGame_ping ok now p rc data rest Hr Hq Hl Hp) as (rc' & _ & ->).
    by do 3 eexists.
  - unfold relayToGame. rewrite Hq. cbv zeta. rewrite Hl, Z.eqb_refl.
    rewrite bool_decide_eq_false_2 by done. simpl in Hm. rewrite Hm.
    destruct (0 <? _); by do 3 eexists.
Qed.

Definition demo_peer : Peer :=
  set_gameAddr (Some (MkAddrPort (Addr4 127) 6112))
    (DeliverFromRelay [Byte.x01; Byte.x02] (NewPeer 8 "b" 7 1)).

Lemma relay_to_game_witness :
  exists p' rc' outs, relayToGame true t_now demo_peer demo_rc =
    Ret (p', rc', outs, if is_echo [Byte.x01; Byte.x02] then None
                        else (fun a => (a, [Byte.x01; Byte.x02])) <$> gameAddr demo_peer) /\
    fromCh p' = [] /\ gameAddr p' = gameAddr demo_peer.
Proof.
  apply (relay_to_game relay_addr 7 demo_rc true t_now demo_peer [Byte.x01; Byte.x02] []);
    [apply rcr_new|done].
Defined.

(** The end-to-end round-trip time.  The ping frame of [t1], delivered to
    the remote peer [q], makes it send one packet back to us through its relay
    connection; when the payload of that packet reaches our peer [p] at
    [t2 > t1], the measured time is [t2 - t1] in milliseconds. *)
Theorem echo_rtt_end_to_end (raddr : AddrPort) (id : Z) (rcq rcp : RelayConnection)
    (okq okp : bool) (nowq t1 t2 : Z) (p q : Peer) (restp restq : list bytes) :
  rc_reach raddr id rcq ->
  Time.unixToInternal * Time.Second <= t1 < t2 ->
  t2 < Time.unixToInternal * Time.Second + 2 ^ 63 ->
  fromCh q = pingFrame t1 :: restq ->
  exists payload q' rcq',
    relayToGame okq nowq q rcq =
      Ret (q', rcq', [wire_out rcq (header (localID rcq) (u32 (PlayerID q)) ++ payload)], None) /\
    exists p', relayToGame okp t2 (set_fromCh (payload :: restp) p) rcp = Ret (p', rcp, [], None) /\
      rttMs p' = (t2 - t1) / Time.Millisecond.
Proof.
  intros Hr%rc_reach_ok Ht1 Ht2 Hq.
  assert (Hn1 : Time.UnixNano t1 = t1 - Time.unixToInternal * Time.Second)
    by (apply i64_small; lia).
  assert (Hn2 : Time.UnixNano t2 = t2 - Time.unixToInternal * Time.Second)
    by (apply i64_small; lia).
  rewrite pingFrame_spec in Hq.
  set (stamp := Time.UnixNano t1) in *.
  destruct (relayToGame_ping okq nowq q rcq (echo_frame echoMagicPing stamp) restq Hr Hq)
    as (rcq' & _ & E).
  { by rewrite length_echo_frame. }
  { unfold echo_frame. by rewrite take_app_exact. }
  exists (echo_frame echoMagicPong stamp). do 2 eexists. split.
  { rewrite E. unfold echo_frame at 1. by rewrite drop_app_exact. }
  unfold relayToGame. cbn [fromCh set_fromCh]. cbv zeta.
  rewrite length_echo_frame by done. change (Z.of_nat 12 =? echoFrameSize) with true.
  replace (take 4 (echo_frame echoMagicPong stamp)) with echoMagicPong
    by (unfold echo_frame; by rewrite take_app_exact).
  rewrite bool_decide_eq_false_2 by done. rewrite bool_decide_eq_true_2 by done.
  rewrite stamp_roundtrip by (done || (unfold stamp; lia)).
  rewrite i64_small by (unfold stamp; lia).
  replace (Time.UnixNano t2 - stamp) with (t2 - t1) by (unfold stamp; lia).
  rewrite (proj2 (Z.ltb_lt _ _)) by lia. eexists. split; [done|]. simpl.
  apply Z.quot_div_nonneg; unfold Time.Millisecond; lia.
Qed.

Definition ping_at_q : Peer := DeliverFromRelay (pingFrame t_now) (NewPeer 7 "a" 8 2).

Lemma echo_rtt_end_to_end_witness :
  exists payload q' rcq',
    relayToGame true t_now ping_at_q demo_rc =
      Ret (q', rcq', [wire_out demo_rc (header (localID demo_rc) (u32 (PlayerID ping_at_q)) ++ payload)],
           None) /\
    exists p', relayToGame true (t_now + 5000000) (set_fromCh [payload] demo_peer) demo_rc =
        Ret (p', demo_rc, [], None) /\
      rttMs p' = (t_now + 5000000 - t_now) / Time.Millisecond.
Proof.
  apply (echo_rtt_end_to_end relay_addr 7 demo_rc demo_rc true true t_now t_now (t_now + 5000000)
           demo_peer ping_at_q [] []).
  - apply rcr_new.
  - unfold t_now; lia.
  - unfold t_now; lia.
  - done.
Defined.

(** The channel keeps the oldest packets: of a burst on an empty channel the
    first 256 arrive, in order. *)
Lemma deliver_burst ds p :
  fromCh p = [] -> fromCh (foldl (fun p d => DeliverFromRelay d p) p ds) = take 256 ds.
Proof.
  intros H0. assert (Hg : forall q, (length (fromCh q) <= 256)%nat ->
    fromCh (foldl (fun p d => DeliverFromRelay d p) q ds) =
    fromCh q ++ take (256 - length (fromCh q)) ds).
  { induction ds as [|d ds IH]; intros q Hq; simpl; [by rewrite take_nil, app_nil_r|].
    unfold DeliverFromRelay at 2, fromChCap.
    destruct (Z.ltb_spec (len (fromCh q)) 256).
    - rewrite IH by (simpl; rewrite length_app; simpl; lia). simpl. rewrite <- app_assoc.
      f_equal. rewrite length_app. simpl.
      replace (256 - length (fromCh q))%nat with (S (256 - (length (fromCh q) + 1)))%nat by lia.
      done.
    - rewrite IH by done. by replace (256 - length (fromCh q))%nat with 0%nat by lia. }
  rewrite Hg, H0 by (rewrite H0; simpl; lia). by rewrite Nat.sub_0_r.
Qed.
