(* ===== verification/PeerMgr.v ===== *)
(** * [internal/adapter/peermgr.go]: the peers of a game

    The manager keeps the relay peers and the ICE peers by remote player and
    owns their life cycle.  Local UDP sockets are resources: [pm_socks] is the
    set of open ones.  Of an ICE peer ([internal/adapter/icepeer.go]) this file
    has what its creation, replacement and closing touch; the ICE agent of the
    pion library appears only through whether its constructors succeed. *)

From S2P Require Import Prelude GoLib RelayWire TcpFrame RelayConn Peer.

Record fafIceCandidate := MkCand {
  Foundation : string; Protocol : string; Priority : Z; cand_IP : string; cand_Port : Z;
  cand_Type : string; Generation : Z; cand_ID : string; RelAddr : option string; RelPort : Z }.
Record fafIceMsg := MkIceMsg {
  SrcID : Z; msg_DestID : Z; Password : string; Ufrag : string;
  Candidates : list fafIceCandidate; Manual : bool }.

(** Where the [run] goroutine of an ICE peer is: not started; waiting for the
    candidates; waiting for the remote credentials; inside [Dial] or [Accept];
    forwarding to the game; returned. *)
Inductive RunPhase := PhIdle | PhGather | PhSignal | PhConnect | PhForward | PhEnded.
#[export] Instance RunPhase_eq_dec : EqDecision RunPhase.
Proof. solve_decision. Defined.

(** The fields that change while an ICE peer runs.  [connReady] says whether
    the channel is closed, [iceConn] whether there is a connection, and
    [restartOnce] whether the [sync.Once] has been used. *)
Record IceDyn := MkDyn {
  iceStarted : bool;
  runPhase : RunPhase;
  relayOnly : bool;
  sendFirst : bool;
  restartOnce : bool;
  connReady : bool;
  iceConn : bool;
  remoteUfrag : string;
  iceState : string;
  connectedAt : Z;
  ice_rttMs : Z;
  rttEstimated : bool;
}.
Definition new_dyn : IceDyn :=
  MkDyn false PhIdle false false false false false "" "" Time.zero 0 false.

(** [ip_ptr] is the identity of the [*ICEPeer]. *)
Record ICEPeer := MkICE {
  ip_ptr : nat;
  ip_PlayerID : Z;
  ip_Login : string;
  ip_Offerer : bool;
  ip_localID : Z;
  ip_conn : nat;
  ownsConn : bool;
  ip_gameAddr : option AddrPort;
  remoteMsg : list fafIceMsg;
  ip_AddedOrder : Z;
  ip_dyn : IceDyn;
}.
Definition set_ice_order (n : Z) (p : ICEPeer) : ICEPeer :=
  MkICE (ip_ptr p) (ip_PlayerID p) (ip_Login p) (ip_Offerer p) (ip_localID p) (ip_conn p)
    (ownsConn p) (ip_gameAddr p) (remoteMsg p) n (ip_dyn p).
Definition set_ice_addr (a : option AddrPort) (p : ICEPeer) : ICEPeer :=
  MkICE (ip_ptr p) (ip_PlayerID p) (ip_Login p) (ip_Offerer p) (ip_localID p) (ip_conn p)
    (ownsConn p) a (remoteMsg p) (ip_AddedOrder p) (ip_dyn p).
Definition set_msgs (q : list fafIceMsg) (p : ICEPeer) : ICEPeer :=
  MkICE (ip_ptr p) (ip_PlayerID p) (ip_Login p) (ip_Offerer p) (ip_localID p) (ip_conn p)
    (ownsConn p) (ip_gameAddr p) q (ip_AddedOrder p) (ip_dyn p).
Definition push_msg (m : fafIceMsg) (p : ICEPeer) : ICEPeer := set_msgs (remoteMsg p ++ [m]) p.
Definition disown (p : ICEPeer) : ICEPeer :=
  MkICE (ip_ptr p) (ip_PlayerID p) (ip_Login p) (ip_Offerer p) (ip_localID p) (ip_conn p)
    false (ip_gameAddr p) (remoteMsg p) (ip_AddedOrder p) (ip_dyn p).
Definition set_dyn (d : IceDyn) (p : ICEPeer) : ICEPeer :=
  MkICE (ip_ptr p) (ip_PlayerID p) (ip_Login p) (ip_Offerer p) (ip_localID p) (ip_conn p)
    (ownsConn p) (ip_gameAddr p) (remoteMsg p) (ip_AddedOrder p) d.

(** Which of the calls that can fail succeed: binding a socket, creating the
    ICE agent, starting to gather candidates. *)
Record PeerEnv := MkEnv { bindOk : bool; agentOk : bool; gatherOk : bool }.

Record PeerManager := MkPM {
  pm_peers : gmap Z Peer;
  pm_ice : gmap Z ICEPeer;
  pm_localID : Z;
  pm_nextOrder : Z;
  pm_socks : gset nat;
  pm_nextSock : nat;
  pm_nextPtr : nat;
}.

Definition NewPeerManager (id : Z) : PeerManager := MkPM ∅ ∅ id 0 ∅ O O.

Definition with_peers (f : gmap Z Peer -> gmap Z Peer) (pm : PeerManager) : PeerManager :=
  MkPM (f (pm_peers pm)) (pm_ice pm) (pm_localID pm) (pm_nextOrder pm) (pm_socks pm)
    (pm_nextSock pm) (pm_nextPtr pm).
Definition with_ice (f : gmap Z ICEPeer -> gmap Z ICEPeer) (pm : PeerManager) : PeerManager :=
  MkPM (pm_peers pm) (f (pm_ice pm)) (pm_localID pm) (pm_nextOrder pm) (pm_socks pm)
    (pm_nextSock pm) (pm_nextPtr pm).
(** [pm.nextOrder++] *)
Definition bump_order (pm : PeerManager) : PeerManager :=
  MkPM (pm_peers pm) (pm_ice pm) (pm_localID pm) (pm_nextOrder pm + 1) (pm_socks pm)
    (pm_nextSock pm) (pm_nextPtr pm).
(** [net.ListenUDP] *)
Definition open_sock (pm : PeerManager) : nat * PeerManager :=
  (pm_nextSock pm,
   MkPM (pm_peers pm) (pm_ice pm) (pm_localID pm) (pm_nextOrder pm)
     ({[pm_nextSock pm]} ∪ pm_socks pm) (S (pm_nextSock pm)) (pm_nextPtr pm)).
(** A new object: the identity of an [*ICEPeer]. *)
Definition new_ptr (pm : PeerManager) : nat * PeerManager :=
  (pm_nextPtr pm,
   MkPM (pm_peers pm) (pm_ice pm) (pm_localID pm) (pm_nextOrder pm) (pm_socks pm)
     (pm_nextSock pm) (S (pm_nextPtr pm))).
Definition close_sock (s : nat) (pm : PeerManager) : PeerManager :=
  MkPM (pm_peers pm) (pm_ice pm) (pm_localID pm) (pm_nextOrder pm) (pm_socks pm ∖ {[s]})
    (pm_nextSock pm) (pm_nextPtr pm).

Definition AddPeer (env : PeerEnv) (playerID : Z) (login : string) (pm : PeerManager)
    : PeerManager * option Peer :=
  match pm_peers pm !! playerID with
  | Some existing => (pm, Some existing)
  | None =>
      if negb (bindOk env) then (pm, None)
      else
        let '(sock, pm) := open_sock pm in
        let peer := NewPeer playerID login (pm_localID pm) sock in
        let pm := bump_order pm in
        let peer := set_order (pm_nextOrder pm) peer in
        (with_peers (fun t => <[playerID := peer]> t) pm, Some peer)
  end.

Definition GetPeer (playerID : Z) (pm : PeerManager) : option Peer := pm_peers pm !! playerID.
Definition GetICEPeer (playerID : Z) (pm : PeerManager) : option ICEPeer := pm_ice pm !! playerID.

(** The constructor: a failure closes the socket only if it was opened here. *)
Definition NewICEPeer (env : PeerEnv) (playerID : Z) (login : string) (offerer : bool)
    (existingConn : option nat) (pm : PeerManager) : PeerManager * option ICEPeer :=
  let build conn pm :=
    if agentOk env && gatherOk env
    then
      let '(ptr, pm) := new_ptr pm in
      (pm, Some (MkICE ptr playerID login offerer (pm_localID pm) conn
                   (bool_decide (existingConn = None)) None [] 0 new_dyn))
    else (match existingConn with None => close_sock conn pm | Some _ => pm end, None) in
  match existingConn with
  | Some conn => build conn pm
  | None =>
      if negb (bindOk env) then (pm, None)
      else let '(conn, pm) := open_sock pm in build conn pm
  end.

(** [ICEPeer.Close], as far as the socket is concerned. *)
Definition iceClose (p : ICEPeer) (pm : PeerManager) : PeerManager :=
  if ownsConn p then close_sock (ip_conn p) pm else pm.

Definition AddICEPeer (env : PeerEnv) (playerID : Z) (login : string) (offerer : bool)
    (pm : PeerManager) : PeerManager * option ICEPeer :=
  match pm_ice pm !! playerID with
  | Some existing => (pm, Some existing)
  | None =>
      match NewICEPeer env playerID login offerer None pm with
      | (pm, None) => (pm, None)
      | (pm, Some peer) =>
          let pm := bump_order pm in
          let peer := set_ice_order (pm_nextOrder pm) peer in
          (with_ice (fun t => <[playerID := peer]> t) pm, Some peer)
      end
  end.

Definition ReplaceICEPeer (env : PeerEnv) (playerID : Z) (login : string) (offerer : bool)
    (initialMsg : option fafIceMsg) (pm : PeerManager) : PeerManager * option ICEPeer :=
  let '(inheritedConn, inheritedOrder, inheritedGameAddr, pm) :=
    match pm_ice pm !! playerID with
    | Some old =>
        let pm := iceClose (disown old) pm in
        (Some (ip_conn old), ip_AddedOrder old, ip_gameAddr old, with_ice (delete playerID) pm)
    | None => (None, 0, None, pm)
    end in
  match NewICEPeer env playerID login offerer inheritedConn pm with
  | (pm, None) =>
      (match inheritedConn with Some c => close_sock c pm | None => pm end, None)
  | (pm, Some peer) =>
      let '(order, pm) :=
        if 0 <? inheritedOrder then (inheritedOrder, pm)
        else let pm := bump_order pm in (pm_nextOrder pm, pm) in
      let peer := set_ice_order order peer in
      let peer := match inheritedGameAddr with
                  | Some _ => set_ice_addr inheritedGameAddr peer
                  | None => peer
                  end in
      let peer := match initialMsg with Some m => push_msg m peer | None => peer end in
      (with_ice (fun t => <[playerID := peer]> t) pm, Some peer)
  end.

Definition RemovePeer (playerID : Z) (pm : PeerManager) : PeerManager :=
  let pm := match pm_peers pm !! playerID with
            | Some p => with_peers (delete playerID) (close_sock (p_conn p) pm)
            | None => pm
            end in
  match pm_ice pm !! playerID with
  | Some p => with_ice (delete playerID) (iceClose p pm)
  | None => pm
  end.

Definition GetAllPeerIDs (ρ : Shuffle) (pm : PeerManager) : list Z :=
  fst <$> ρ _ (map_to_list (pm_peers pm)).
Definition GetAllPeers (ρ : Shuffle) (pm : PeerManager) : list Peer :=
  snd <$> ρ _ (map_to_list (pm_peers pm)).
Definition GetAllICEPeers (ρ : Shuffle) (pm : PeerManager) : list ICEPeer :=
  snd <$> ρ _ (map_to_list (pm_ice pm)).

Definition CloseAll (ρ : Shuffle) (pm : PeerManager) : PeerManager :=
  let pm := foldl (fun pm '(id, p) => with_peers (delete id) (close_sock (p_conn p) pm)) pm
              (ρ _ (map_to_list (pm_peers pm))) in
  foldl (fun pm '(id, p) => with_ice (delete id) (iceClose p pm)) pm
    (ρ _ (map_to_list (pm_ice pm))).

(** ** Invariant *)

(** Every peer has an open socket and a place in the insertion order, and no
    two peers share either. *)
Definition holders (pm : PeerManager) : list (nat * Z) :=
  ((fun x : Z * Peer => (p_conn x.2, AddedOrder x.2)) <$> map_to_list (pm_peers pm)) ++
  ((fun x : Z * ICEPeer => (ip_conn x.2, ip_AddedOrder x.2)) <$> map_to_list (pm_ice pm)).

Record pm_ok (pm : PeerManager) : Prop := {
  pm_sock_inj : NoDup (holders pm).*1;
  pm_order_inj : NoDup (holders pm).*2;
  pm_holds : forall c n, (c, n) ∈ holders pm -> c ∈ pm_socks pm /\ 0 < n <= pm_nextOrder pm;
  pm_fresh : forall c, c ∈ pm_socks pm -> (c < pm_nextSock pm)%nat;
  pm_order : 0 <= pm_nextOrder pm;
}.

Lemma holders_insert_peer id p pm :
  pm_peers pm !! id = None ->
  holders (with_peers (fun t => <[id := p]> t) pm) ≡ₚ (p_conn p, AddedOrder p) :: holders pm.
Proof. intros H. unfold holders; simpl. by rewrite map_to_list_insert. Qed.

Lemma holders_insert_ice id p pm :
  pm_ice pm !! id = None ->
  holders (with_ice (fun t => <[id := p]> t) pm) ≡ₚ (ip_conn p, ip_AddedOrder p) :: holders pm.
Proof.
  intros H. unfold holders; simpl. rewrite map_to_list_insert by done. simpl.
  by rewrite Permutation_middle.
Qed.

Lemma holders_delete_ice id p pm :
  pm_ice pm !! id = Some p ->
  holders pm ≡ₚ (ip_conn p, ip_AddedOrder p) :: holders (with_ice (delete id) pm).
Proof.
  intros H. unfold holders; simpl.
  rewrite <- (map_to_list_delete (pm_ice pm) id p) by done. simpl.
  by rewrite Permutation_middle.
Qed.

Lemma holders_delete_peer id p pm :
  pm_peers pm !! id = Some p ->
  holders pm ≡ₚ (p_conn p, AddedOrder p) :: holders (with_peers (delete id) pm).
Proof.
  intros H. unfold holders; simpl.
  by rewrite <- (map_to_list_delete (pm_peers pm) id p) by done.
Qed.

Lemma pm_ok_cons pm pm' c n :
  pm_ok pm -> holders pm' ≡ₚ (c, n) :: holders pm ->
  pm_socks pm ⊆ pm_socks pm' -> c ∈ pm_socks pm' ->
  c ∉ (holders pm).*1 -> n ∉ (holders pm).*2 ->
  0 < n <= pm_nextOrder pm' -> pm_nextOrder pm <= pm_nextOrder pm' ->
  (forall s, s ∈ pm_socks pm' -> (s < pm_nextSock pm')%nat) -> pm_ok pm'.
Proof.
  intros [Hs Ho Hh Hf Hn] Hp Hsub Hc Hcn Hnn Hr Hle Hf'. split.
  - rewrite Hp. simpl. by apply NoDup_cons.
  - rewrite Hp. simpl. by apply NoDup_cons.
  - intros c' n'. rewrite Hp, elem_of_cons. intros [[= -> ->]|Hin]; [done|].
    destruct (Hh _ _ Hin). split; [set_solver|lia].
  - done.
  - lia.
Qed.

Lemma pm_ok_tail pm pm' c n :
  pm_ok pm -> holders pm ≡ₚ (c, n) :: holders pm' ->
  pm_socks pm ∖ {[c]} ⊆ pm_socks pm' -> pm_socks pm' ⊆ pm_socks pm ->
  pm_nextOrder pm' = pm_nextOrder pm -> pm_nextSock pm' = pm_nextSock pm ->
  pm_ok pm' /\ c ∉ (holders pm').*1 /\ n ∉ (holders pm').*2 /\ c ∈ pm_socks pm /\
  0 < n <= pm_nextOrder pm.
Proof.
  intros [Hs Ho Hh Hf Hn] Hp Hsub Hsup Hno Hns.
  rewrite Hp in Hs, Ho. simpl in Hs, Ho.
  apply NoDup_cons in Hs as [Hc Hs]. apply NoDup_cons in Ho as [Hcn Ho].
  assert (Hhd : (c, n) ∈ holders pm) by (rewrite Hp; left).
  destruct (Hh _ _ Hhd). split; [|done].
  split; [done|done| | |by rewrite Hno].
  - intros c' n' Hin. destruct (Hh c' n') as [H1 H2]; [rewrite Hp; by right|].
    rewrite Hno. split; [|done]. apply Hsub. apply elem_of_difference. split; [done|].
    apply not_elem_of_singleton. intros ->. apply Hc. apply list_elem_of_fmap. by exists (c, n').
  - rewrite Hns. set_solver.
Qed.

(** A socket nobody holds may be opened and closed. *)
Lemma pm_ok_open pm : pm_ok pm -> pm_ok (open_sock pm).2 /\ (open_sock pm).1 ∉ (holders pm).*1.
Proof.
  intros [Hs Ho Hh Hf Hn]. split.
  - split; simpl; try done.
    + intros c n Hin. destruct (Hh c n Hin). split; [set_solver|done].
    + intros c. rewrite elem_of_union, elem_of_singleton. intros [->|Hc]; [lia|].
      apply Hf in Hc. lia.
  - simpl. intros ([c n] & E & Hin)%list_elem_of_fmap. destruct (Hh c n Hin) as [Hc _].
    apply Hf in Hc. simpl in E. lia.
Qed.

Lemma pm_ok_close c pm : pm_ok pm -> c ∉ (holders pm).*1 -> pm_ok (close_sock c pm).
Proof.
  intros [Hs Ho Hh Hf Hn] Hc. split; simpl; try done.
  - intros c' n Hin. destruct (Hh c' n Hin). split; [|done].
    apply elem_of_difference. split; [done|]. apply not_elem_of_singleton. intros ->.
    apply Hc, list_elem_of_fmap. by exists (c, n).
  - intros c' [? _]%elem_of_difference. by apply Hf.
Qed.

Lemma order_fresh pm : pm_ok pm -> pm_nextOrder pm + 1 ∉ (holders pm).*2.
Proof.
  intros Hok ([c n] & E & Hin)%list_elem_of_fmap.
  destruct (pm_holds pm Hok c n Hin). simpl in E. lia.
Qed.

Lemma pm_ok_AddPeer env id login pm : pm_ok pm -> pm_ok (AddPeer env id login pm).1.
Proof.
  intros Hok. unfold AddPeer. destruct (pm_peers pm !! id) eqn:E; [done|].
  destruct (bindOk env); [|done]. cbn [negb].
  destruct (pm_ok_open pm Hok) as [Hok1 Hf].
  eapply (pm_ok_cons pm _ (pm_nextSock pm) (pm_nextOrder pm + 1)); simpl.
  - done.
  - unfold holders; simpl. by rewrite map_to_list_insert.
  - set_solver.
  - set_solver.
  - done.
  - by apply order_fresh.
  - pose proof (pm_order pm Hok). lia.
  - lia.
  - apply (pm_fresh _ Hok1).
Qed.

Lemma pm_ok_AddICEPeer env id login off pm : pm_ok pm -> pm_ok (AddICEPeer env id login off pm).1.
Proof.
  intros Hok. unfold AddICEPeer. destruct (pm_ice pm !! id) eqn:E; [done|].
  unfold NewICEPeer. destruct (bindOk env); [|done]. cbn [negb].
  destruct (pm_ok_open pm Hok) as [Hok1 Hf]. unfold open_sock in *. cbn [fst snd] in *.
  destruct (_ && _); simpl; [|by apply pm_ok_close].
  eapply (pm_ok_cons pm _ (pm_nextSock pm) (pm_nextOrder pm + 1)); simpl.
  - done.
  - unfold holders; simpl. rewrite map_to_list_insert by done. simpl. by rewrite Permutation_middle.
  - set_solver.
  - set_solver.
  - done.
  - by apply order_fresh.
  - pose proof (pm_order pm Hok). lia.
  - lia.
  - apply (pm_fresh _ Hok1).
Qed.

Lemma pm_ok_drop_ice id p pm :
  pm_ok pm -> pm_ice pm !! id = Some p -> pm_ok (with_ice (delete id) (iceClose p pm)).
Proof.
  intros Hok E. eapply (pm_ok_tail pm _ (ip_conn p) (ip_AddedOrder p)); [done|..].
  - rewrite (holders_delete_ice id p pm E). unfold iceClose, holders. by destruct (ownsConn p).
  - unfold iceClose. destruct (ownsConn p); simpl; set_solver.
  - unfold iceClose. destruct (ownsConn p); simpl; set_solver.
  - unfold iceClose. by destruct (ownsConn p).
  - unfold iceClose. by destruct (ownsConn p).
Qed.

Lemma pm_ok_RemovePeer id pm : pm_ok pm -> pm_ok (RemovePeer id pm).
Proof.
  intros Hok. unfold RemovePeer.
  assert (H1 : pm_ok (match pm_peers pm !! id with
                      | Some p => with_peers (delete id) (close_sock (p_conn p) pm)
                      | None => pm end)).
  { destruct (pm_peers pm !! id) as [p|] eqn:E; [|done].
    eapply (pm_ok_tail pm _ (p_conn p) (AddedOrder p)); [done|..]; simpl; try done.
    - by rewrite (holders_delete_peer id p pm E).
    - set_solver. }
  set (pm1 := match pm_peers pm !! id with Some _ => _ | None => _ end) in *.
  destruct (pm_ice pm1 !! id) as [p|] eqn:Ei; [|done]. by apply pm_ok_drop_ice.
Qed.

Lemma pm_ok_ReplaceICEPeer env id login off msg pm :
  pm_ok pm -> pm_ok (ReplaceICEPeer env id login off msg pm).1.
Proof.
  intros Hok. unfold ReplaceICEPeer. destruct (pm_ice pm !! id) as [old|] eqn:E.
  - unfold NewICEPeer, iceClose. cbn [ownsConn disown].
    destruct (pm_ok_tail pm (with_ice (delete id) pm) (ip_conn old) (ip_AddedOrder old))
      as (Hok1 & Hc & Hn & Hin & Hr); [done|by apply holders_delete_ice|set_solver|done|done|done|].
    destruct (_ && _); [|by apply pm_ok_close].
    rewrite (proj2 (Z.ltb_lt _ _)) by lia. cbn [fst].
    eapply (pm_ok_cons (with_ice (delete id) pm) _ (ip_conn old) (ip_AddedOrder old));
      [done| |done|done|done|done|done|simpl; lia|apply Hok1].
    unfold holders; simpl. rewrite map_to_list_insert by apply lookup_delete_eq. simpl.
    rewrite <- Permutation_middle. by destruct (ip_gameAddr old), msg.
  - unfold NewICEPeer. destruct (bindOk env); [|done]. cbn [negb].
    destruct (pm_ok_open pm Hok) as [Hok1 Hf]. unfold open_sock in *. cbn [fst snd] in *.
    destruct (_ && _); [|by apply pm_ok_close]. simpl.
    eapply (pm_ok_cons pm _ (pm_nextSock pm) (pm_nextOrder pm + 1)); simpl.
    + done.
    + unfold holders; simpl. rewrite map_to_list_insert by done. simpl.
      rewrite <- Permutation_middle. by destruct msg.
    + set_solver.
    + set_solver.
    + done.
    + by apply order_fresh.
    + pose proof (pm_order pm Hok). lia.
    + lia.
    + apply (pm_fresh _ Hok1).
Qed.

Lemma pm_ok_new id : pm_ok (NewPeerManager id).
Proof. split; simpl; try done; [constructor|constructor|]. intros c n H. by apply elem_of_nil in H. Qed.

(** The calls that change the set of peers. *)
Inductive pm_step : PeerManager -> PeerManager -> Prop :=
| ps_add env id login pm : pm_step pm (AddPeer env id login pm).1
| ps_add_ice env id login off pm : pm_step pm (AddICEPeer env id login off pm).1
| ps_replace env id login off msg pm : pm_step pm (ReplaceICEPeer env id login off msg pm).1
| ps_remove id pm : pm_step pm (RemovePeer id pm).

Lemma pm_ok_step pm pm' : pm_step pm pm' -> pm_ok pm -> pm_ok pm'.
Proof.
  destruct 1; auto using pm_ok_AddPeer, pm_ok_AddICEPeer, pm_ok_ReplaceICEPeer, pm_ok_RemovePeer.
Qed.

(** ** Theorems *)

(** In every reachable state each relay or ICE peer holds an open socket
    of its own and a position in the insertion order of its own. *)
Theorem peers_hold_own_sockets (id : Z) (pm : PeerManager) :
  rtc pm_step (NewPeerManager id) pm ->
  NoDup (holders pm).*1 /\ NoDup (holders pm).*2 /\
  forall c n, (c, n) ∈ holders pm -> c ∈ pm_socks pm /\ 0 < n <= pm_nextOrder pm.
Proof.
  intros Hr. pose proof (rtc_invariant _ _ pm_ok_step _ _ Hr (pm_ok_new id)) as [].
  by split_and!.
Qed.

Definition all_ok : PeerEnv := MkEnv true true true.
Definition two_peers : PeerManager :=
  (AddICEPeer all_ok 8 "b" true (AddPeer all_ok 9 "c" (NewPeerManager 7)).1).1.

Lemma two_peers_reachable : rtc pm_step (NewPeerManager 7) two_peers.
Proof.
  eapply rtc_l; [apply (ps_add all_ok 9 "c")|].
  eapply rtc_l; [apply (ps_add_ice all_ok 8 "b" true)|]. apply rtc_refl.
Qed.

Lemma peers_hold_own_sockets_witness :
  NoDup (holders two_peers).*1 /\ NoDup (holders two_peers).*2 /\
  forall c n, (c, n) ∈ holders two_peers -> c ∈ pm_socks two_peers /\ 0 < n <= pm_nextOrder two_peers.
Proof. exact (peers_hold_own_sockets 7 two_peers two_peers_reachable). Defined.

(** An ICE restart is invisible to the game.  When the replacement of an
    existing ICE peer succeeds, the new peer has the old one's local socket,
    game address and position, and the triggering message is in its inbox;
    the socket stays open. *)
Theorem replace_keeps_port (id : Z) (pm pm' : PeerManager) (env : PeerEnv) (pid : Z)
    (login : string) (off : bool) (msg : option fafIceMsg) (old new : ICEPeer) :
  rtc pm_step (NewPeerManager id) pm -> pm_ice pm !! pid = Some old ->
  ReplaceICEPeer env pid login off msg pm = (pm', Some new) ->
  pm_ice pm' !! pid = Some new /\ ip_conn new = ip_conn old /\
  ip_gameAddr new = ip_gameAddr old /\ ip_AddedOrder new = ip_AddedOrder old /\
  remoteMsg new = option_list msg /\ ip_conn new ∈ pm_socks pm'.
Proof.
  intros Hr Ho H. pose proof (rtc_invariant _ _ pm_ok_step _ _ Hr (pm_ok_new id)) as Hok.
  assert (Hold : (ip_conn old, ip_AddedOrder old) ∈ holders pm).
  { rewrite (holders_delete_ice pid old pm Ho). left. }
  destruct (pm_holds pm Hok _ _ Hold) as [Hc Hn].
  unfold ReplaceICEPeer, NewICEPeer, iceClose in H. rewrite Ho in H. cbn [ownsConn disown] in H.
  destruct (_ && _); [|done]. rewrite (proj2 (Z.ltb_lt _ _)) in H by lia.
  injection H as <- <-. simpl. rewrite lookup_insert_eq.
  destruct (ip_gameAddr old), msg; done.
Qed.

Lemma replace_keeps_port_witness :
  let r := ReplaceICEPeer all_ok 8 "b" false None two_peers in
  exists old new, r.2 = Some new /\
  pm_ice r.1 !! 8 = Some new /\ ip_conn new = ip_conn old /\
  ip_gameAddr new = ip_gameAddr old /\ ip_AddedOrder new = ip_AddedOrder old /\
  remoteMsg new = option_list None /\ ip_conn new ∈ pm_socks r.1.
Proof.
  intros r. do 2 eexists. split; [by vm_compute|].
  eapply (replace_keeps_port 7 two_peers r.1 all_ok 8 "b" false None); [exact two_peers_reachable|..].
  - by vm_compute.
  - by vm_compute.
Defined.

(** The socket of a replaced ICE peer is never closed.  After an ICE
    restart the new peer does not own the socket it uses, so removing the peer
    leaves the socket open although no peer holds it any more. *)
Theorem replaced_socket_leaks (id : Z) (pm pm' : PeerManager) (env : PeerEnv) (pid : Z)
    (login : string) (off : bool) (msg : option fafIceMsg) (old new : ICEPeer) :
  rtc pm_step (NewPeerManager id) pm -> pm_ice pm !! pid = Some old ->
  ReplaceICEPeer env pid login off msg pm = (pm', Some new) ->
  ip_conn old ∈ pm_socks (RemovePeer pid pm') /\
  ip_conn old ∉ (holders (RemovePeer pid pm')).*1.
Proof.
  intros Hr Ho H. pose proof (rtc_invariant _ _ pm_ok_step _ _ Hr (pm_ok_new id)) as Hok.
  destruct (pm_ok_tail pm (with_ice (delete pid) pm) (ip_conn old) (ip_AddedOrder old))
    as (Hok1 & Hc & _ & Hin & Hn); [done|by apply holders_delete_ice|set_solver|done|done|done|].
  assert (Hnew : pm' = with_ice (fun t => <[pid := new]> t) (new_ptr (with_ice (delete pid) pm)).2 /\
                 ownsConn new = false).
  { unfold ReplaceICEPeer, NewICEPeer, iceClose in H. rewrite Ho in H. cbn [ownsConn disown] in H.
    destruct (_ && _); [|done]. rewrite (proj2 (Z.ltb_lt _ _)) in H by lia.
    injection H as <- <-. split; [done|]. by destruct (ip_gameAddr old), msg. }
  destruct Hnew as [-> Hown]. unfold RemovePeer. cbn [pm_peers with_ice new_ptr snd].
  assert (Hpeer : forall p, pm_peers pm !! pid = Some p -> p_conn p <> ip_conn old).
  { intros p Hp E. apply Hc. rewrite <- E.
    rewrite (holders_delete_peer pid p (with_ice (delete pid) pm) Hp). left. }
  destruct (pm_peers pm !! pid) as [p|] eqn:Ep; cbn [pm_ice with_peers with_ice close_sock new_ptr snd];
    rewrite lookup_insert_eq; unfold iceClose; rewrite Hown; simpl.
  - split; [specialize (Hpeer p eq_refl); set_solver|].
    intros Hx. apply Hc. rewrite (holders_delete_peer pid p (with_ice (delete pid) pm) Ep). right.
    unfold holders in *. simpl in *. by rewrite delete_insert_id in Hx by apply lookup_delete_eq.
  - split; [done|]. unfold holders in *. simpl in *. by rewrite delete_insert_id by apply lookup_delete_eq.
Qed.

Lemma replaced_socket_leaks_witness :
  let pm' := (ReplaceICEPeer all_ok 8 "b" false None two_peers).1 in
  1%nat ∈ pm_socks (RemovePeer 8 pm') /\ 1%nat ∉ (holders (RemovePeer 8 pm')).*1.
Proof.
  intros pm'.
  apply (replaced_socket_leaks 7 two_peers pm' all_ok 8 "b" false None
           (MkICE 0 8 "b" true 7 1 true None [] 2 new_dyn)
           (MkICE 1 8 "b" false 7 1 false None [] 2 new_dyn)
           two_peers_reachable); by vm_compute.
Defined.
