(* ===== verification/GpgNetServer.v ===== *)
(** * [internal/adapter/gpgnetserver.go]: the server the game connects to

    One game connection at a time.  Messages for the game that come before its
    lobby is up are queued; the game's [GameState] messages drive the lobby
    life cycle.  The first part models each method; the second the
    interleaving of [SendToGameQueued] with the flush. *)

From S2P Require Import Prelude Float GoLib GPGNet.

(** [internal/protocol/gpgnet_messages.go] *)
Definition CmdCreateLobby : string := "CreateLobby".
Definition CmdGameState : string := "GameState".
Definition GameStateNone : string := "None".
Definition GameStateIdle : string := "Idle".
Definition GameStateLobby : string := "Lobby".

Definition maxQueuedMessages : Z := 100.

Record queuedMessage := MkQueued { q_header : string; q_args : list Arg }.

(** What the server tells the rest of the adapter. *)
Inductive Note :=
| NConnectionState (state : string)
| NGpgNetMessage (header : string) (chunks : list Chunk)
| NGameDisconnected.

Record GPGNetServer := MkGPG {
  g_conn : option Conn;
  connEpoch : Z;
  g_writer : option BufWriter;
  connected : bool;
  gameState : string;
  lobbyReady : bool;
  lobbyOnce : bool;
  messageQueue : list queuedMessage;
  g_notes : list Note;
}.

Definition NewGPGNetServer : GPGNetServer := MkGPG None 0 None false GameStateNone false false [] [].

Definition set_writer (w : option BufWriter) (g : GPGNetServer) : GPGNetServer :=
  MkGPG (g_conn g) (connEpoch g) w (connected g) (gameState g) (lobbyReady g) (lobbyOnce g)
    (messageQueue g) (g_notes g).
Definition set_state (s : string) (g : GPGNetServer) : GPGNetServer :=
  MkGPG (g_conn g) (connEpoch g) (g_writer g) (connected g) s (lobbyReady g) (lobbyOnce g)
    (messageQueue g) (g_notes g).
Definition set_lobby (ready once : bool) (g : GPGNetServer) : GPGNetServer :=
  MkGPG (g_conn g) (connEpoch g) (g_writer g) (connected g) (gameState g) ready once
    (messageQueue g) (g_notes g).
Definition set_queue (q : list queuedMessage) (g : GPGNetServer) : GPGNetServer :=
  MkGPG (g_conn g) (connEpoch g) (g_writer g) (connected g) (gameState g) (lobbyReady g)
    (lobbyOnce g) q (g_notes g).
Definition note (n : Note) (g : GPGNetServer) : GPGNetServer :=
  MkGPG (g_conn g) (connEpoch g) (g_writer g) (connected g) (gameState g) (lobbyReady g)
    (lobbyOnce g) (messageQueue g) (g_notes g ++ [n]).

(** What the server reads from the adapter. *)
Record GameConfig := MkConfig {
  LobbyInitMode : Z; LobbyPort : Z; cfg_Login : string; cfg_PlayerID : Z }.

Section Server.
Variable cfg : GameConfig.
(** The conversion of out-of-range floats, as in [GPGNet.WriteMessage]. *)
Variable oor : float64 -> Z.

Definition SendToGame (header : string) (args : list Arg) (g : GPGNetServer)
    : GPGNetServer * bool :=
  match g_writer g with
  | None => (g, false)
  | Some w =>
      let '(w, err) := WriteMessage oor header args w in
      (set_writer (Some w) g, match err with None => true | Some _ => false end)
  end.

Definition SendToGameQueued (header : string) (args : list Arg) (g : GPGNetServer)
    : GPGNetServer :=
  if lobbyReady g then (SendToGame header args g).1
  else if maxQueuedMessages <=? len (messageQueue g) then g
  else set_queue (messageQueue g ++ [MkQueued header args]) g.

Definition flushQueue (g : GPGNetServer) : GPGNetServer :=
  let queue := messageQueue g in
  foldl (fun g m => (SendToGame (q_header m) (q_args m) g).1) (set_queue [] g) queue.

(** [lobbyOnce.Do] closes [lobbyReady] the first time; closing a closed
    channel panics. *)
Definition onGameState (state : string) (g : GPGNetServer) : outcome GPGNetServer :=
  let g := set_state state g in
  if bool_decide (state = GameStateIdle) then
    Ret (SendToGame CmdCreateLobby
           [ArgInt32 (i32 (LobbyInitMode cfg)); ArgInt32 (i32 (LobbyPort cfg));
            ArgString (cfg_Login cfg); ArgInt32 (i32 (cfg_PlayerID cfg)); ArgInt32 1] g).1
  else if bool_decide (state = GameStateLobby) then
    if lobbyOnce g then Ret (flushQueue g)
    else if lobbyReady g then Panic
    else Ret (flushQueue (set_lobby true true g))
  else Ret g.

Definition processMessage (header : string) (chunks : list Chunk) (g : GPGNetServer)
    : outcome GPGNetServer :=
  let g := note (NGpgNetMessage header chunks) g in
  if bool_decide (header = CmdGameState) then
    match chunks with
    | CStr state :: _ => onGameState state g
    | _ => Ret g
    end
  else Ret g.

(** The start of [handleConnection]. *)
Definition gameConnected (conn : Conn) (g : GPGNetServer) : GPGNetServer :=
  note (NConnectionState "Connected")
    (MkGPG (Some conn) (u64 (connEpoch g + 1)) (Some NewBufWriter) true GameStateNone false false []
       (g_notes g)).

(** Its end; [myEpoch] is the epoch of this connection. *)
Definition gameGone (myEpoch : Z) (g : GPGNetServer) : GPGNetServer :=
  if connEpoch g =? myEpoch then
    let g := MkGPG None (connEpoch g) None false (gameState g) (lobbyReady g) (lobbyOnce g)
               (messageQueue g) (g_notes g) in
    note NGameDisconnected (note (NConnectionState "Disconnected") g)
  else g.

(** The read loop on the bytes the game sends before it closes the
    connection.  A message takes at least eight bytes. *)
Fixpoint readLoop (fuel : nat) (stream : bytes) (g : GPGNetServer) : outcome GPGNetServer :=
  match fuel with
  | O => Ret g
  | S fuel' =>
      match ReadMessage stream with
      | RPanic => Panic
      | RErr _ => Ret g
      | ROk (header, chunks) stream =>
          g ← processMessage header chunks g; readLoop fuel' stream g
      end
  end.

Definition handleConnection (conn : Conn) (stream : bytes) (g : GPGNetServer)
    : outcome GPGNetServer :=
  let g := gameConnected conn g in
  let myEpoch := connEpoch g in
  g ← readLoop (S (length stream)) stream g;
  Ret (gameGone myEpoch g).
End Server.

(** ** Lemmas *)

Definition msg_ok (m : queuedMessage) : Prop :=
  Z.of_nat (String.length (q_header m)) <= MaxStringLength /\ Forall arg_ok (q_args m).

(** The bytes a message puts on the connection. *)
Definition msg_bytes (oor : float64 -> Z) (m : queuedMessage) : bytes :=
  enc_message oor (q_header m) (q_args m).

Lemma SendToGame_spec oor h args g w :
  g_writer g = Some w -> bw_healthy w -> bw_buf w = [] -> msg_ok (MkQueued h args) ->
  exists w', SendToGame oor h args g = (set_writer (Some w') g, true) /\ bw_healthy w' /\
    bw_buf w' = [] /\ bw_out w' = bw_out w ++ enc_message oor h args.
Proof.
  intros Hw Hh Hb [H1 H2]. unfold SendToGame. rewrite Hw.
  destruct (WriteMessage_flushes oor h args w Hh H1 H2) as (w' & -> & Hh' & Ho & Hb').
  exists w'. split; [done|]. split; [done|]. split; [done|].
  rewrite Ho. unfold bw_content. by rewrite Hb, app_nil_r.
Qed.

Lemma sendAll_spec oor ms g w :
  g_writer g = Some w -> bw_healthy w -> bw_buf w = [] -> Forall msg_ok ms ->
  exists w', foldl (fun g m => (SendToGame oor (q_header m) (q_args m) g).1) g ms =
    set_writer (Some w') g /\ bw_healthy w' /\ bw_buf w' = [] /\
    bw_out w' = bw_out w ++ concat (msg_bytes oor <$> ms).
Proof.
  revert g w; induction ms as [|m ms IH]; intros g w Hw Hh Hb Hm; simpl.
  - exists w. rewrite app_nil_r. split; [|done]. destruct g. simpl in *. by subst.
  - apply Forall_cons in Hm as [Hm Hms].
    destruct (SendToGame_spec oor (q_header m) (q_args m) g w Hw Hh Hb) as (w1 & -> & Hh1 & Hb1 & Ho1);
      [by destruct m|]. cbn [fst].
    destruct (IH (set_writer (Some w1) g) w1 eq_refl Hh1 Hb1 Hms) as (w2 & -> & Hh2 & Hb2 & Ho2).
    exists w2. split; [done|]. split; [done|]. split; [done|].
    rewrite Ho2, Ho1, <- app_assoc. done.
Qed.

Lemma queued_before_lobby oor ms g :
  lobbyReady g = false ->
  foldl (fun g m => SendToGameQueued oor (q_header m) (q_args m) g) g ms =
  set_queue (take 100 (messageQueue g ++ ms)) g \/
  (100 < length (messageQueue g))%nat.
Proof.
  intros Hr. destruct (Nat.le_gt_cases (length (messageQueue g)) 100) as [Hl|Hl]; [left|by right].
  revert g Hr Hl; induction ms as [|m ms IH]; intros g Hr Hl; simpl.
  - rewrite app_nil_r, take_ge by done. by destruct g.
  - unfold SendToGameQueued at 2. rewrite Hr. unfold maxQueuedMessages.
    destruct (Z.leb_spec 100 (len (messageQueue g))) as [Hf|Hf].
    + rewrite IH by done. rewrite !take_app_le by lia. done.
    + rewrite IH; [|done|simpl; rewrite length_app; simpl; lia]. simpl.
      rewrite <- app_assoc. by destruct m.
Qed.

(** ** [SendToGameQueued] beside the flush

    Checking [lobbyReady] and appending to the queue happen under [queueMu],
    and so does taking the queue; closing [lobbyReady] and the writes do not.
    [qs_pending] is the queue the flusher has taken, [qs_inflight] the
    messages of callers that found the lobby ready and have not written yet. *)
Record QState := MkQ {
  qs_ready : bool;
  qs_taken : bool;
  qs_queue : list queuedMessage;
  qs_pending : list queuedMessage;
  qs_inflight : list queuedMessage;
  qs_sent : list queuedMessage;
  qs_accepted : list queuedMessage;
  qs_dropped : list queuedMessage;
}.
Definition q_init : QState := MkQ false false [] [] [] [] [] [].

Inductive qstep : QState -> QState -> Prop :=
| q_enqueue m tk q p i s a d :
    len q < maxQueuedMessages ->
    qstep (MkQ false tk q p i s a d) (MkQ false tk (q ++ [m]) p i s (a ++ [m]) d)
| q_full m tk q p i s a d :
    maxQueuedMessages <= len q ->
    qstep (MkQ false tk q p i s a d) (MkQ false tk q p i s a (d ++ [m]))
| q_direct m tk q p i s a d :
    qstep (MkQ true tk q p i s a d) (MkQ true tk q p (i ++ [m]) s (a ++ [m]) d)
| q_write m rd tk q p i1 i2 s a d :
    qstep (MkQ rd tk q p (i1 ++ m :: i2) s a d) (MkQ rd tk q p (i1 ++ i2) (s ++ [m]) a d)
| q_lobby tk q p i s a d :
    qstep (MkQ false tk q p i s a d) (MkQ true tk q p i s a d)
| q_take tk q i s a d :
    qstep (MkQ true tk q [] i s a d) (MkQ true true [] q i s a d)
| q_flush m rd tk q p i s a d :
    qstep (MkQ rd tk q (m :: p) i s a d) (MkQ rd tk q p i (s ++ [m]) a d).

Record q_ok (x : QState) : Prop := {
  q_account : qs_accepted x ≡ₚ qs_queue x ++ qs_pending x ++ qs_inflight x ++ qs_sent x;
  q_taken : qs_taken x = true -> qs_ready x = true /\ qs_queue x = [];
  q_before : qs_ready x = false -> qs_pending x = [] /\ qs_inflight x = [] /\ qs_sent x = [] /\
               qs_accepted x = qs_queue x;
  q_bound : len (qs_queue x) <= maxQueuedMessages;
  q_drops : qs_dropped x <> [] -> (100 <= length (qs_accepted x))%nat;
}.

Lemma q_ok_step x y : qstep x y -> q_ok x -> q_ok y.
Proof.
  destruct 1 as [m tk q p i s a d Hl|m tk q p i s a d Hl|m tk q p i s a d|m rd tk q p i1 i2 s a d
                |tk q p i s a d|tk q i s a d|m rd tk q p i s a d];
    intros [Ha Ht Hb Hq Hd]; simpl in *; unfold maxQueuedMessages in *.
  - split; simpl; [rewrite Ha; solve_Permutation| | | |].
    + intros ->. by destruct (Ht eq_refl).
    + intros _. by destruct (Hb eq_refl) as (-> & -> & -> & ->).
    + rewrite length_app. unfold maxQueuedMessages. simpl. lia.
    + intros H%Hd. rewrite length_app. lia.
  - split; simpl; [done|done|done|done|].
    intros _. destruct (Hb eq_refl) as (_ & _ & _ & ->). lia.
  - split; simpl; [rewrite Ha; solve_Permutation|done|done|done|].
    intros H%Hd. rewrite length_app. lia.
  - split; simpl; [rewrite Ha; solve_Permutation|done| |done|done].
    intros Hr. destruct (Hb Hr) as (_ & Hi & _). by apply app_eq_nil in Hi as [_ ?].
  - split; simpl; [done| |done|done|done]. intros H. by destruct (Ht H).
  - split; simpl; [rewrite Ha; solve_Permutation|done|done|unfold maxQueuedMessages; lia|done].
  - split; simpl; [rewrite Ha; solve_Permutation|done| |done|done].
    intros Hr. by destruct (Hb Hr).
Qed.

Lemma q_ok_init : q_ok q_init.
Proof. by split. Qed.

(** The lobby flag and its [sync.Once] agree, so the channel is closed once. *)
Definition lobby_ok (g : GPGNetServer) : Prop := lobbyReady g = lobbyOnce g.

Lemma SendToGame_lobby oor h args g : lobby_ok g -> lobby_ok (SendToGame oor h args g).1.
Proof.
  unfold SendToGame. destruct (g_writer g); [|done]. by destruct (WriteMessage _ _ _ _).
Qed.

Lemma flushQueue_lobby oor g : lobby_ok g -> lobby_ok (flushQueue oor g).
Proof.
  unfold flushQueue. intros Hg. assert (Hq : lobby_ok (set_queue [] g)) by done.
  revert Hq. generalize (set_queue [] g) as g0.
  induction (messageQueue g) as [|m ms IH]; intros g0 Hg0; simpl; [done|].
  by apply IH, SendToGame_lobby.
Qed.

Lemma processMessage_ok cfg oor h cs g :
  lobby_ok g -> exists g', processMessage cfg oor h cs g = Ret g' /\ lobby_ok g'.
Proof.
  intros Hg. unfold processMessage. destruct (bool_decide _); [|by eexists].
  destruct cs as [|[v|state] cs]; [by eexists..|]. unfold onGameState.
  destruct (bool_decide _); [eexists; split; [done|]; by apply SendToGame_lobby|].
  destruct (bool_decide _); [|by eexists].
  cbn [lobbyOnce lobbyReady set_state note]. unfold lobby_ok in Hg.
  destruct (lobbyOnce g) eqn:Ho.
  - eexists. split; [done|]. apply flushQueue_lobby. unfold lobby_ok; simpl. congruence.
  - rewrite Hg. eexists. split; [done|]. by apply flushQueue_lobby.
Qed.

(** Nothing the game sends changes the epoch of its connection. *)
Lemma SendToGame_epoch oor h args g : connEpoch (SendToGame oor h args g).1 = connEpoch g.
Proof.
  unfold SendToGame. destruct (g_writer g); [|done]. by destruct (WriteMessage _ _ _ _).
Qed.

Lemma flushQueue_epoch oor g : connEpoch (flushQueue oor g) = connEpoch g.
Proof.
  unfold flushQueue. change (connEpoch g) with (connEpoch (set_queue [] g)).
  generalize (set_queue [] g) as g0.
  induction (messageQueue g) as [|m ms IH]; intros g0; simpl; [done|].
  by rewrite IH, SendToGame_epoch.
Qed.

Lemma processMessage_epoch cfg oor h cs g g' :
  processMessage cfg oor h cs g = Ret g' -> connEpoch g' = connEpoch g.
Proof.
  unfold processMessage, onGameState. destruct (bool_decide _); [|by intros [= <-]].
  destruct cs as [|[v|state] cs]; [by intros [= <-]..|].
  destruct (bool_decide _); [intros [= <-]; by rewrite SendToGame_epoch|].
  destruct (bool_decide _); [|by intros [= <-]].
  destruct (lobbyOnce _); [intros [= <-]; by rewrite flushQueue_epoch|].
  destruct (lobbyReady _); [done|]. intros [= <-]. by rewrite flushQueue_epoch.
Qed.

Lemma readLoop_epoch cfg oor fuel stream g g' :
  readLoop cfg oor fuel stream g = Ret g' -> connEpoch g' = connEpoch g.
Proof.
  revert stream g; induction fuel as [|fuel IH]; intros stream g; simpl; [by intros [= ->]|].
  destruct (ReadMessage stream) as [[h cs] rest|e|]; [|by intros [= ->]|done].
  destruct (processMessage cfg oor h cs g) as [g1|] eqn:E; [|done]. simpl.
  intros H%IH. rewrite H. by eapply processMessage_epoch.
Qed.

(** What a successful read leaves is a suffix of the stream. *)
Lemma rd_full_suffix n r p r' : rd_full n r = ROk p r' -> exists used, r = used ++ r'.
Proof.
  unfold rd_full, ReadFull. intros H. repeat (split_guard_in H; try done); simplify_eq.
  - by exists [].
  - eexists. symmetry. apply take_drop.
Qed.

Definition consumes {A} (m : rd A) : Prop := forall r a r', m r = ROk a r' -> exists used, r = used ++ r'.

Lemma consumes_bind {A B} (m : rd A) (k : A -> rd B) :
  consumes m -> (forall a, consumes (k a)) -> consumes (m ≫= k).
Proof.
  intros Hm Hk r b r' H. apply rd_bind_inv in H as (a & r1 & H1 & H2).
  destruct (Hm _ _ _ H1) as [u ->]. destruct (Hk a _ _ _ H2) as [v ->].
  exists (u ++ v). by rewrite app_assoc.
Qed.

Lemma consumes_ret {A} (a : A) : consumes (mret a).
Proof. intros r b r' [= <- <-]. by exists []. Qed.
Lemma consumes_err {A} f (m : rd A) : consumes m -> consumes (on_err f m).
Proof. intros Hm r a r' H%on_err_inv. by eapply Hm. Qed.
Lemma consumes_full n : consumes (rd_full n).
Proof. intros r p r'. apply rd_full_suffix. Qed.
Lemma consumes_fail {A} e : consumes (@rd_fail A e).
Proof. done. Qed.
Lemma consumes_panic {A} : consumes (@rd_panic A).
Proof. done. Qed.
#[local] Hint Resolve consumes_bind consumes_ret consumes_err consumes_full consumes_fail
  consumes_panic : core.

Lemma consumes_ReadInt : consumes ReadInt.
Proof. unfold ReadInt. eauto. Qed.
#[local] Hint Resolve consumes_ReadInt : core.
Lemma consumes_ReadString : consumes ReadString.
Proof. unfold ReadString. apply consumes_bind; [auto|]. intros sz. destruct (_ || _); eauto. Qed.
#[local] Hint Resolve consumes_ReadString : core.
Lemma consumes_ReadChunk : consumes ReadChunk.
Proof.
  unfold ReadChunk, ReadTyped. apply consumes_bind; [auto|]. intros t. destruct (_ =? _); eauto.
Qed.
#[local] Hint Resolve consumes_ReadChunk : core.
Lemma consumes_ReadChunks : consumes ReadChunks.
Proof.
  unfold ReadChunks. apply consumes_bind; [auto|]. intros n. destruct (_ <? _); [auto|].
  destruct (_ <? _); [auto|]. induction (Z.to_nat n); simpl; [auto|]. eauto.
Qed.
#[local] Hint Resolve consumes_ReadChunks : core.

Lemma ReadMessage_suffix r a r' : ReadMessage r = ROk a r' -> exists used, r = used ++ r'.
Proof. revert r a r'. unfold ReadMessage. change (consumes ReadMessage). unfold ReadMessage. eauto. Qed.

(** A message takes something off the stream. *)
Lemma ReadMessage_shrinks r a r' : ReadMessage r = ROk a r' -> (length r' < length r)%nat.
Proof.
  unfold ReadMessage. intros (h & r1 & H1 & H2)%rd_bind_inv. apply on_err_inv in H1.
  unfold ReadString in H1. apply rd_bind_inv in H1 as (n & r0 & Hn & H1). apply on_err_inv in Hn.
  unfold ReadInt in Hn. apply rd_bind_inv in Hn as (b & r00 & Hb & [= _ ->]).
  apply rd_full_inv in Hb as [-> Hb]; [|lia].
  assert (Hs1 : exists u, r0 = u ++ r1).
  { revert H1. destruct (_ || _); [done|]. intros H1.
    refine (consumes_bind _ _ _ _ r0 h r1 H1); eauto. }
  assert (Hs2 : exists u, r1 = u ++ r').
  { refine (consumes_bind _ _ _ _ r1 a r' H2); eauto. }
  destruct Hs1 as [u ->], Hs2 as [v ->]. rewrite !length_app. lia.
Qed.

(** The bound of the read loop is enough. *)
Lemma readLoop_fuel cfg oor f1 f2 stream g :
  (length stream < f1)%nat -> (length stream < f2)%nat ->
  readLoop cfg oor f1 stream g = readLoop cfg oor f2 stream g.
Proof.
  revert f2 stream g; induction f1 as [|f1 IH]; intros [|f2] stream g H1 H2; try lia. simpl.
  destruct (ReadMessage stream) as [[h cs] rest|e|] eqn:E; [|done|done].
  apply ReadMessage_shrinks in E. destruct (processMessage cfg oor h cs g); [|done]. simpl.
  apply IH; lia.
Qed.

Lemma readLoop_panic cfg oor fuel stream g :
  lobby_ok g -> readLoop cfg oor fuel stream g = Panic ->
  exists pre rest, stream = pre ++ rest /\ ReadMessage rest = RPanic.
Proof.
  revert stream g; induction fuel as [|fuel IH]; intros stream g Hg; simpl; [done|].
  destruct (ReadMessage stream) as [[h cs] rest|e|] eqn:E; [|done|by exists [], stream].
  destruct (processMessage_ok cfg oor h cs g Hg) as (g' & -> & Hg'). simpl. intros H.
  destruct (IH rest g' Hg' H) as (pre & r & -> & Hr).
  apply ReadMessage_suffix in E as [used ->]. exists (used ++ pre), r. by rewrite app_assoc.
Qed.

(** ** Theorems *)

(** Messages reach the game in order.  What is queued for a game that has
    just connected (at most 100 messages) is written to its connection when it
    reports the lobby, in the order of the calls and before anything that is
    sent later. *)
Theorem lobby_flush_in_order (cfg : GameConfig) (oor : float64 -> Z) (conn : Conn)
    (g0 : GPGNetServer) (ms : list queuedMessage) (m : queuedMessage) :
  Forall msg_ok ms -> (length ms <= 100)%nat -> msg_ok m ->
  exists g w,
    processMessage cfg oor CmdGameState [CStr GameStateLobby]
      (foldl (fun g m => SendToGameQueued oor (q_header m) (q_args m) g) (gameConnected conn g0) ms)
      = Ret g /\
    g_writer (SendToGameQueued oor (q_header m) (q_args m) g) = Some w /\
    bw_out w = concat (msg_bytes oor <$> ms ++ [m]).
Proof.
  intros Hms Hlen Hm.
  destruct (queued_before_lobby oor ms (gameConnected conn g0) eq_refl) as [Hq|Hq];
    [|simpl in Hq; lia].
  rewrite Hq. cbn [messageQueue gameConnected note app]. rewrite take_ge by lia.
  unfold processMessage, onGameState.
  rewrite (bool_decide_eq_true_2 (CmdGameState = CmdGameState)) by done.
  rewrite (bool_decide_eq_false_2 (GameStateLobby = GameStateIdle)) by done.
  rewrite (bool_decide_eq_true_2 (GameStateLobby = GameStateLobby)) by done.
  cbn [lobbyOnce lobbyReady set_state note set_queue gameConnected].
  unfold flushQueue. set (g1 := set_queue [] _).
  match goal with |- context [foldl _ g1 ?q] => change q with ms end.
  destruct (sendAll_spec oor ms g1 NewBufWriter eq_refl) as (w1 & -> & Hh1 & Hb1 & Ho1);
    [done|done|done|].
  destruct (SendToGame_spec oor (q_header m) (q_args m) (set_writer (Some w1) g1) w1 eq_refl Hh1 Hb1)
    as (w2 & Hs2 & Hh2 & Hb2 & Ho2); [by destruct m|].
  exists (set_writer (Some w1) g1), w2. split; [done|].
  unfold SendToGameQueued. change (lobbyReady (set_writer (Some w1) g1)) with true. cbv iota.
  rewrite Hs2. split; [done|].
  rewrite Ho2, Ho1. simpl. rewrite fmap_app, concat_app. simpl. by rewrite app_nil_r.
Qed.

Lemma lobby_flush_in_order_witness :
  exists g w,
    processMessage (MkConfig 0 6112 "me" 7) f_trunc CmdGameState [CStr GameStateLobby]
      (foldl (fun g m => SendToGameQueued f_trunc (q_header m) (q_args m) g)
         (gameConnected (MkConn 1 None) NewGPGNetServer)
         [MkQueued "HostGame" [ArgString "map"]]) = Ret g /\
    g_writer (SendToGameQueued f_trunc "JoinGame" [ArgInt 3] g) = Some w /\
    bw_out w = concat (msg_bytes f_trunc <$>
      [MkQueued "HostGame" [ArgString "map"]] ++ [MkQueued "JoinGame" [ArgInt 3]]).
Proof.
  apply (lobby_flush_in_order (MkConfig 0 6112 "me" 7) f_trunc (MkConn 1 None) NewGPGNetServer
           [MkQueued "HostGame" [ArgString "map"]] (MkQueued "JoinGame" [ArgInt 3])).
  - constructor; [|constructor]. split; [by vm_compute|].
    constructor; [by vm_compute|constructor].
  - simpl; lia.
  - split; [by vm_compute|]. constructor; [done|constructor].
Defined.

(** C26. No message is lost or duplicated by the race between callers and the
    flush: in every interleaving each accepted message is in exactly one
    place, the queue is empty once the flusher has taken it, and a message is
    refused only after 100 others.  Hence when callers and flusher have
    finished, what was written is exactly what was accepted. *)
Theorem queue_race_no_loss (x : QState) :
  rtc qstep q_init x ->
  qs_accepted x ≡ₚ qs_queue x ++ qs_pending x ++ qs_inflight x ++ qs_sent x /\
  (qs_taken x = true -> qs_queue x = []) /\
  (qs_taken x = true -> qs_pending x = [] -> qs_inflight x = [] -> qs_sent x ≡ₚ qs_accepted x) /\
  (qs_dropped x <> [] -> (100 <= length (qs_accepted x))%nat).
Proof.
  intros Hr. destruct (rtc_invariant _ _ q_ok_step _ _ Hr q_ok_init) as [Ha Ht _ _ Hd].
  split; [done|]. split; [by intros H; apply Ht in H as []|]. split; [|done].
  intros H Hp Hi. apply Ht in H as [_ Hq]. by rewrite Ha, Hq, Hp, Hi.
Qed.

(** Two messages: the first queued, the second sent by a caller that
    overtakes the flusher. *)
Definition msg_a : queuedMessage := MkQueued "A" [].
Definition msg_b : queuedMessage := MkQueued "B" [].
Definition overtaken : QState := MkQ true true [] [] [] [msg_b; msg_a] [msg_a; msg_b] [].

Lemma overtaken_reachable : rtc qstep q_init overtaken.
Proof.
  eapply rtc_l; [by apply (q_enqueue msg_a)|].
  eapply rtc_l; [apply q_lobby|].
  eapply rtc_l; [apply (q_direct msg_b)|].
  eapply rtc_l; [apply (q_write msg_b true false [msg_a] [] [] [])|].
  eapply rtc_l; [apply q_take|].
  eapply rtc_l; [apply q_flush|]. apply rtc_refl.
Qed.

Lemma queue_race_no_loss_witness :
  qs_accepted overtaken ≡ₚ qs_queue overtaken ++ qs_pending overtaken ++ qs_inflight overtaken ++
    qs_sent overtaken /\
  (qs_taken overtaken = true -> qs_queue overtaken = []) /\
  (qs_taken overtaken = true -> qs_pending overtaken = [] -> qs_inflight overtaken = [] ->
   qs_sent overtaken ≡ₚ qs_accepted overtaken) /\
  (qs_dropped overtaken <> [] -> (100 <= length (qs_accepted overtaken))%nat).
Proof. exact (queue_race_no_loss overtaken overtaken_reachable). Defined.

(** A game connection ends cleanly.  Unless some message of the game makes
    the reader panic, [handleConnection] returns with no game connected and
    with the disconnect reported last; nothing else in it panics. *)
Theorem game_connection_ends (cfg : GameConfig) (oor : float64 -> Z) (conn : Conn)
    (stream : bytes) (g : GPGNetServer) :
  (forall pre rest, stream = pre ++ rest -> ReadMessage rest <> RPanic) ->
  exists g', handleConnection cfg oor conn stream g = Ret g' /\
    connected g' = false /\ g_writer g' = None /\
    exists notes, g_notes g' = notes ++ [NConnectionState "Disconnected"; NGameDisconnected].
Proof.
  intros Hs. unfold handleConnection.
  destruct (readLoop cfg oor (S (length stream)) stream (gameConnected conn g)) as [g1|] eqn:E.
  - simpl. unfold gameGone. rewrite (readLoop_epoch _ _ _ _ _ _ E), Z.eqb_refl.
    eexists. split; [done|]. simpl. split; [done|]. split; [done|].
    exists (g_notes g1). by rewrite <- app_assoc.
  - destruct (readLoop_panic cfg oor _ _ (gameConnected conn g) eq_refl E) as (pre & rest & -> & Hp).
    destruct (Hs pre rest eq_refl Hp).
Qed.

Lemma game_connection_ends_witness :
  exists g', handleConnection (MkConfig 0 6112 "me" 7) f_trunc (MkConn 1 None) [] NewGPGNetServer =
      Ret g' /\
    connected g' = false /\ g_writer g' = None /\
    exists notes, g_notes g' = notes ++ [NConnectionState "Disconnected"; NGameDisconnected].
Proof.
  apply game_connection_ends. intros pre rest H.
  symmetry in H. apply app_eq_nil in H as [-> ->]. by vm_compute.
Defined.
