(* ===== verification/EndToEnd.v ===== *)
(** * From one game to the other

    The receive loops of the adapter with their dispatch to the peers, and the
    composition of the two adapters with the relay server: a datagram one game
    sends comes out at the other game. *)

From S2P Require Import Prelude GoLib RelayWire TcpFrame Metrics Session SessionManager Router.
From S2P Require Import RelayConn Peer PeerMgr.

(** [dispatchTopeer] *)
Definition dispatchTopeer (senderID : Z) (payload : bytes) (totalBytes : Z)
    (rc : RelayConnection) (pm : PeerManager) : RelayConnection * PeerManager :=
  match GetPeer senderID pm with
  | None => (rc, pm)
  | Some peer =>
      (count_recv (u64 totalBytes) rc,
       with_peers (fun t => <[senderID := DeliverFromRelay payload peer]> t) pm)
  end.

(** What one read of [receiveUDP] gives: a datagram with its source and the
    two clock values, or an error. *)
Inductive RecvEvent :=
| RecvData (datagram : bytes) (remote : AddrPort) (now1 now2 : Z)
| RecvErr (ctxDone : bool).

Fixpoint receiveUDP (evs : list RecvEvent) (rc : RelayConnection) (pm : PeerManager)
    : outcome (RelayConnection * PeerManager) :=
  match evs with
  | [] => Ret (rc, pm)
  | RecvErr true :: _ => Ret (rc, pm)
  | RecvErr false :: evs' => receiveUDP evs' rc pm
  | RecvData d remote now1 now2 :: evs' =>
      '(rc, call) ← receiveUDPPacket d remote now1 now2 rc;
      let '(rc, pm) := match call with
                       | Some (sender, payload, n) => dispatchTopeer sender payload n rc pm
                       | None => (rc, pm)
                       end in
      receiveUDP evs' rc pm
  end.

(** [receiveTCP] on the bytes of one connection, with its dispatches. *)
Definition receiveTCP (stream : bytes) (clk : nat -> Z * Z) (rc : RelayConnection)
    (pm : PeerManager) : outcome (RelayConnection * PeerManager) :=
  '(rc, calls) ← receiveFrames (S (length stream)) stream clk 0 rc;
  Ret (foldl (fun '(rc, pm) '(sender, payload, n) => dispatchTopeer sender payload n rc pm)
         (rc, pm) calls).

(** ** Lemmas *)

Lemma receive_from_relay rc pm a b payload now1 now2 peer :
  rc_ok rc -> localID rc = b -> a <> b -> 0 <= a < 2 ^ 32 -> 0 <= b < 2 ^ 32 ->
  len payload <= MaxRelayPayload -> GetPeer a pm = Some peer ->
  exists rc', receiveUDP [RecvData (header a b ++ payload) (relayAddr rc) now1 now2] rc pm =
    Ret (rc', with_peers (fun t => <[a := DeliverFromRelay payload peer]> t) pm) /\ rc_ok rc'.
Proof.
  intros Hok Hb Hab Ha Hbr Hp Hg. simpl. unfold receiveUDPPacket.
  rewrite bool_decide_eq_true_2 by done. cbn [negb].
  unfold MaxRelayPayload, MaxRelayPacket, RelayHeaderSize in Hp.
  rewrite take_ge by (rewrite length_app, length_header; lia).
  destruct (handleRelayPacket_spec (header a b ++ payload) now1 now2 rc a b Hok)
    as (ch & once & _ & Hok' & ->); [by apply DecodeRelayHeader_app|].
  rewrite Hb, (proj2 (Z.eqb_neq _ _)) by done. cbn [mbind outcome_bind].
  rewrite drop_app_exact by apply length_header.
  unfold dispatchTopeer. rewrite Hg. eexists. split; [done|]. by apply rc_ok_recv.
Qed.

(** The server forwards an accepted datagram to a receiver with a UDP route. *)
Lemma server_forwards net ρ m l a b srcA now payload pb :
  net_wf net -> FindSessionByPlayer a m = Some l -> a <> b -> b <> BroadcastDest ->
  0 <= a < 2 ^ 32 -> 0 <= b < 2 ^ 32 ->
  accepts (udpUpdate l a srcA now m).2 = true ->
  players (deref l m) !! b = Some pb -> p_TCPConn pb = None -> IsValid (p_Addr pb) = true ->
  exists m', udpPacket net ρ (header a b ++ payload) srcA now m =
    Ret (m', [SendUDP (p_Addr pb) (header a b ++ payload)]).
Proof.
  intros Hw Hf Hab Hbc Ha Hb Hacc Hpb Ht Hv.
  rewrite udpPacket_unfold, DecodeRelayHeader_app by done. rewrite Hf.
  destruct (deref_udpUpdate l a srcA now m) as [Hd _].
  destruct (udpUpdate l a srcA now m) as [m1 v]. simpl in Hacc, Hd. rewrite Hacc.
  rewrite (proj2 (Z.eqb_neq _ _)) by congruence. unfold route.
  rewrite (proj2 (Z.eqb_neq _ _)) by done. unfold unicast, GetPlayerTarget. rewrite Hd.
  rewrite UpdatePlayerAddr_other by done. rewrite Hpb. unfold sendToTarget. simpl.
  rewrite Ht, Hv. simpl. eauto.
Qed.

Lemma deref_tcpUpdate l id conn now m :
  deref l (tcpUpdate l id conn now m).1 = (UpdatePlayerTCP id conn now (deref l m)).1.
Proof.
  unfold tcpUpdate. destruct (UpdatePlayerTCP id conn now (deref l m)) as [s v].
  unfold deref; simpl. by rewrite lookup_insert_eq.
Qed.

(** The same for a frame, to a receiver connected over TCP. *)
Lemma server_forwards_tcp net ρ m l a b conn now payload pb cB :
  net_wf net -> FindSessionByPlayer a m = Some l -> a <> b -> b <> BroadcastDest ->
  0 <= a < 2 ^ 32 -> 0 <= b < 2 ^ 32 -> len (header a b ++ payload) <= 1400 ->
  accepts (tcpUpdate l a conn now m).2.1 = true ->
  players (deref l m) !! b = Some pb -> p_TCPConn pb = Some cB ->
  exists m' old, tcpPacket net ρ conn (header a b ++ payload) now m =
    Ret (m', closed_old old conn ++ [SendTCP cB (frame (header a b ++ payload))], true).
Proof.
  intros Hw Hf Hab Hbc Ha Hb Hlen Hacc Hpb Ht.
  rewrite tcpPacket_unfold, DecodeRelayHeader_app by done. rewrite Hf.
  pose proof (deref_tcpUpdate l a conn now m) as Hd.
  destruct (tcpUpdate l a conn now m) as [m1 [v old]]. simpl in Hacc, Hd. cbv zeta. rewrite Hacc.
  rewrite (proj2 (Z.eqb_neq _ _)) by congruence. unfold route.
  rewrite (proj2 (Z.eqb_neq _ _)) by done. unfold unicast, GetPlayerTarget. rewrite Hd.
  rewrite UpdatePlayerTCP_other by done. rewrite Hpb. cbn [negb]. unfold sendToTarget.
  cbn [t_TCPConn]. rewrite Ht, server_write_spec by done.
  unfold Server.maxTCPFramePayload. rewrite (proj2 (Z.ltb_ge _ _)) by done. simpl.
  by exists (count_send (tcp_ok net cB (frame (header a b ++ payload))) (header a b ++ payload) m1), old.
Qed.

Lemma receive_from_relay_tcp rc pm a b payload clk peer :
  rc_ok rc -> localID rc = b -> a <> b -> 0 <= a < 2 ^ 32 -> 0 <= b < 2 ^ 32 ->
  len payload <= MaxRelayPayload -> GetPeer a pm = Some peer ->
  exists rc', receiveTCP (frame (header a b ++ payload)) clk rc pm =
    Ret (rc', with_peers (fun t => <[a := DeliverFromRelay payload peer]> t) pm) /\ rc_ok rc'.
Proof.
  intros Hok Hb Hab Ha Hbr Hp Hg. unfold receiveTCP.
  unfold MaxRelayPayload, MaxRelayPacket, RelayHeaderSize in Hp.
  rewrite length_frame. cbn [receiveFrames Nat.add].
  rewrite <- (app_nil_r (frame _)), adapter_read_frame by (rewrite length_app, length_header; lia).
  destruct (handleRelayPacket_spec (header a b ++ payload) (clk 0%nat).1 (clk 0%nat).2 rc a b Hok)
    as (ch & once & _ & Hok' & ->); [by apply DecodeRelayHeader_app|].
  rewrite Hb, (proj2 (Z.eqb_neq _ _)) by done. simpl.
  rewrite drop_app_exact by apply length_header.
  unfold dispatchTopeer. rewrite Hg. eexists. split; [done|]. by apply rc_ok_recv.
Qed.

(** The game's datagram as one packet to the relay. *)
Lemma game_sends rc p d remote :
  rc_ok rc -> len d <= MaxRelayPayload -> 0 <= PlayerID p < 2 ^ 32 ->
  exists p' rc', gameToRelay true d remote p rc =
    Ret (p', rc', [wire_out rc (header (localID rc) (PlayerID p) ++ d)]) /\ rc_ok rc'.
Proof.
  intros Hok Hd Hp. unfold gameToRelay.
  rewrite take_ge by (unfold MaxRelayPayload, MaxRelayPacket, RelayHeaderSize in Hd; lia).
  set (p1 := match gameAddr p with Some _ => p | None => _ end).
  assert (Hid : PlayerID p1 = PlayerID p) by (unfold p1; by destruct (gameAddr p)).
  rewrite Hid, u32_small by done.
  destruct (Send_spec true (PlayerID p) d rc Hok Hd) as (sb & fb & Hok' & ->).
  cbn [mbind outcome_bind]. do 2 eexists. split; [done|]. by apply rc_ok_count.
Qed.

Section Route.
(** Two adapters, with players [a] and [b], and the server between them. *)
Context (net : Net) (ρ : Shuffle) (m : Manager) (l : loc) (a b : Z).
Context (rcA rcB : RelayConnection) (peerB peerA : Peer) (pmB : PeerManager).
Context (pb : PlayerInfo).
Hypothesis Hnet : net_wf net.
Hypothesis Hab : a <> b.
Hypothesis Ha : 0 <= a < 2 ^ 32.
Hypothesis Hb : 0 <= b < 2 ^ 32.
Hypothesis Hbc : b <> BroadcastDest.
Hypothesis HrcA : rc_ok rcA.
Hypothesis HrcB : rc_ok rcB.
Hypothesis HidA : localID rcA = a.
Hypothesis HidB : localID rcB = b.
Hypothesis HpB : PlayerID peerB = b.
Hypothesis HpA : GetPeer a pmB = Some peerA.
Hypothesis Hempty : fromCh peerA = [].
Hypothesis Hfind : FindSessionByPlayer a m = Some l.
Hypothesis Hpb : players (deref l m) !! b = Some pb.

(** The last leg: what the channel holds goes to the game. *)
Lemma peer_to_game d gB rc now pm :
  rc_ok rc -> gameAddr peerA = Some gB -> is_echo d = false ->
  pm = with_peers (fun t => <[a := DeliverFromRelay d peerA]> t) pmB ->
  exists p1 p2, GetPeer a pm = Some p1 /\
    relayToGame true now p1 rc = Ret (p2, rc, [], Some (gB, d)).
Proof using Hempty.
  intros Hok Hg He ->. exists (DeliverFromRelay d peerA). eexists. split.
  - unfold GetPeer; simpl. apply lookup_insert_eq.
  - assert (Hq : fromCh (DeliverFromRelay d peerA) = [d]).
    { unfold DeliverFromRelay. by rewrite Hempty. }
    rewrite (relayToGame_plain true now _ rc d [] Hq He). unfold DeliverFromRelay.
    rewrite Hempty. simpl. by rewrite Hg.
Qed.

Lemma udp_path d gA srcA gB now now1 now2 now3 :
  useTCP rcA = false -> len d <= MaxRelayPayload -> is_echo d = false ->
  gameAddr peerA = Some gB -> accepts (udpUpdate l a srcA now m).2 = true ->
  p_TCPConn pb = None -> IsValid (p_Addr pb) = true ->
  exists pkt peerB' rcA' m' rcB' pmB' p1 p2,
    gameToRelay true d gA peerB rcA = Ret (peerB', rcA', [SendUDP (relayAddr rcA) pkt]) /\
    udpPacket net ρ pkt srcA now m = Ret (m', [SendUDP (p_Addr pb) pkt]) /\
    receiveUDP [RecvData pkt (relayAddr rcB) now1 now2] rcB pmB = Ret (rcB', pmB') /\
    GetPeer a pmB' = Some p1 /\
    relayToGame true now3 p1 rcB' = Ret (p2, rcB', [], Some (gB, d)).
Proof using Hnet Hab Ha Hb Hbc HrcA HrcB HidA HidB HpB HpA Hempty Hfind Hpb.
  intros Hu Hd He Hg Hacc Ht Hv. exists (header a b ++ d).
  destruct (game_sends rcA peerB d gA HrcA Hd) as (peerB' & rcA' & Hs & _); [by rewrite HpB|].
  unfold wire_out in Hs. rewrite Hu, HidA, HpB in Hs.
  destruct (server_forwards net ρ m l a b srcA now d pb) as (m' & Hf); try done.
  destruct (receive_from_relay rcB pmB a b d now1 now2 peerA) as (rcB' & Hr & HokB); try done.
  destruct (peer_to_game d gB rcB' now3 _ HokB Hg He eq_refl) as (p1 & p2 & Hp & Hw).
  by exists peerB', rcA', m', rcB',
    (with_peers (fun t => <[a := DeliverFromRelay d peerA]> t) pmB), p1, p2.
Qed.

Lemma tcp_path d gA conn cA cB gB now clk now3 :
  useTCP rcA = true -> rc_tcpConn rcA = Some cA ->
  len d <= MaxRelayPayload -> is_echo d = false ->
  gameAddr peerA = Some gB -> accepts (tcpUpdate l a conn now m).2.1 = true ->
  p_TCPConn pb = Some cB ->
  exists pkt peerB' rcA' m' old rcB' pmB' p1 p2,
    gameToRelay true d gA peerB rcA = Ret (peerB', rcA', [SendTCP cA (frame pkt)]) /\
    Server.readTCPFrame readBufSize (frame pkt) = Ok (pkt, []) /\
    tcpPacket net ρ conn pkt now m = Ret (m', closed_old old conn ++ [SendTCP cB (frame pkt)], true) /\
    receiveTCP (frame pkt) clk rcB pmB = Ret (rcB', pmB') /\
    GetPeer a pmB' = Some p1 /\
    relayToGame true now3 p1 rcB' = Ret (p2, rcB', [], Some (gB, d)).
Proof using Hnet Hab Ha Hb Hbc HrcA HrcB HidA HidB HpB HpA Hempty Hfind Hpb.
  intros Hu HcA Hd He Hg Hacc Ht. exists (header a b ++ d).
  assert (Hlen : len (header a b ++ d) <= 1400).
  { rewrite length_app, length_header.
    unfold MaxRelayPayload, MaxRelayPacket, RelayHeaderSize in Hd. lia. }
  destruct (game_sends rcA peerB d gA HrcA Hd) as (peerB' & rcA' & Hs & _); [by rewrite HpB|].
  unfold wire_out in Hs. rewrite Hu, HcA, HidA, HpB in Hs.
  assert (Hrd : Server.readTCPFrame readBufSize (frame (header a b ++ d)) = Ok (header a b ++ d, [])).
  { rewrite <- (app_nil_r (frame _)). apply server_read_frame; [|by vm_compute].
    unfold Server.maxTCPFramePayload. rewrite length_app, length_header in *. lia. }
  destruct (server_forwards_tcp net ρ m l a b conn now d pb cB) as (m' & old & Hf); try done.
  destruct (receive_from_relay_tcp rcB pmB a b d clk peerA) as (rcB' & Hr & HokB); try done.
  destruct (peer_to_game d gB rcB' now3 _ HokB Hg He eq_refl) as (p1 & p2 & Hp & Hw).
  by exists peerB', rcA', m', old, rcB',
    (with_peers (fun t => <[a := DeliverFromRelay d peerA]> t) pmB), p1, p2.
Qed.
End Route.

(** ** Theorems *)

(** The two adapters as their own code sets them up: connected to the relay,
    with a peer for each other whose channel is drained. *)
Record linked (a b : Z) (rcA rcB : RelayConnection) (peerB peerA : Peer) (pmB : PeerManager)
    : Prop := {
  lk_ids : a <> b /\ 0 <= a < 2 ^ 32 /\ 0 <= b < 2 ^ 32 /\ b <> BroadcastDest;
  lk_rcA : exists raddr, rc_reach raddr a rcA;
  lk_rcB : exists raddr, rc_reach raddr b rcB;
  lk_peerB : PlayerID peerB = b;
  lk_peerA : GetPeer a pmB = Some peerA;
  lk_empty : fromCh peerA = [];
  lk_idA : localID rcA = a;
  lk_idB : localID rcB = b;
}.

(** C1. Game to game over UDP.  Player [a]'s game sends a datagram [d] of at
    most 1392 bytes that is not an echo frame to its local peer for [b].  If
    [a] and [b] are in one session, [b]'s UDP address is known to the server
    and the packet passes the server's checks, then the adapter of [a] sends
    one packet, the server forwards it unchanged to [b]'s address, and the
    adapter of [b] writes exactly [d] to [b]'s game. *)
Theorem game_to_game_udp (net : Net) (ρ : Shuffle) (m : Manager) (l : loc) (a b : Z)
    (rcA rcB : RelayConnection) (peerB peerA : Peer) (pmB : PeerManager) (pb : PlayerInfo)
    (d : bytes) (gA srcA gB : AddrPort) (now now1 now2 now3 : Z) :
  net_wf net -> linked a b rcA rcB peerB peerA pmB ->
  FindSessionByPlayer a m = Some l -> players (deref l m) !! b = Some pb ->
  accepts (udpUpdate l a srcA now m).2 = true ->
  p_TCPConn pb = None -> IsValid (p_Addr pb) = true ->
  useTCP rcA = false -> gameAddr peerA = Some gB ->
  len d <= MaxRelayPayload -> is_echo d = false ->
  exists pkt peerB' rcA' m' rcB' pmB' p1 p2,
    gameToRelay true d gA peerB rcA = Ret (peerB', rcA', [SendUDP (relayAddr rcA) pkt]) /\
    udpPacket net ρ pkt srcA now m = Ret (m', [SendUDP (p_Addr pb) pkt]) /\
    receiveUDP [RecvData pkt (relayAddr rcB) now1 now2] rcB pmB = Ret (rcB', pmB') /\
    GetPeer a pmB' = Some p1 /\
    relayToGame true now3 p1 rcB' = Ret (p2, rcB', [], Some (gB, d)).
Proof.
  intros Hw [(Hab & Ha & Hb & Hbc) [ra HrA%rc_reach_ok] [rb HrB%rc_reach_ok] HpB HpA He HiA HiB].
  intros. eapply (udp_path net ρ m l a b rcA rcB peerB peerA pmB pb); done.
Qed.

(** C13. Game to game over the TCP fallback: the same when both adapters are on
    TCP, through the framing of both ends. *)
Theorem game_to_game_tcp (net : Net) (ρ : Shuffle) (m : Manager) (l : loc) (a b : Z)
    (rcA rcB : RelayConnection) (peerB peerA : Peer) (pmB : PeerManager) (pb : PlayerInfo)
    (d : bytes) (gA gB : AddrPort) (conn cA cB : Conn) (now : Z) (clk : nat -> Z * Z) (now3 : Z) :
  net_wf net -> linked a b rcA rcB peerB peerA pmB ->
  FindSessionByPlayer a m = Some l -> players (deref l m) !! b = Some pb ->
  accepts (tcpUpdate l a conn now m).2.1 = true -> p_TCPConn pb = Some cB ->
  useTCP rcA = true -> rc_tcpConn rcA = Some cA -> gameAddr peerA = Some gB ->
  len d <= MaxRelayPayload -> is_echo d = false ->
  exists pkt peerB' rcA' m' old rcB' pmB' p1 p2,
    gameToRelay true d gA peerB rcA = Ret (peerB', rcA', [SendTCP cA (frame pkt)]) /\
    Server.readTCPFrame readBufSize (frame pkt) = Ok (pkt, []) /\
    tcpPacket net ρ conn pkt now m =
      Ret (m', closed_old old conn ++ [SendTCP cB (frame pkt)], true) /\
    receiveTCP (frame pkt) clk rcB pmB = Ret (rcB', pmB') /\
    GetPeer a pmB' = Some p1 /\
    relayToGame true now3 p1 rcB' = Ret (p2, rcB', [], Some (gB, d)).
Proof.
  intros Hw [(Hab & Ha & Hb & Hbc) [ra HrA%rc_reach_ok] [rb HrB%rc_reach_ok] HpB HpA He HiA HiB].
  intros. eapply (tcp_path net ρ m l a b rcA rcB peerB peerA pmB pb); done.
Qed.

(** ** Concrete instances *)

Definition rc1 : RelayConnection := NewRelayConnection relay_addr 1.
Definition rc2 : RelayConnection := NewRelayConnection relay_addr 2.
Definition game2 : AddrPort := MkAddrPort (Addr4 127) 6112.
Definition peer_of_1 : Peer := set_gameAddr (Some game2) (NewPeer 1 "a" 2 0).
Definition pm2 : PeerManager := with_peers (fun t => <[1 := peer_of_1]> t) (NewPeerManager 2).
Definition udp_server : Manager :=
  (udpUpdate 0%nat 2 addr2 20 (udpUpdate 0%nat 1 addr1 10 two_players).1).1.
Definition seen2 : PlayerInfo := default (new_player 2 "") (players (deref 0%nat udp_server) !! 2).
Definition tcp_seen2 : PlayerInfo := default (new_player 2 "") (players (deref 0%nat two_seen) !! 2).
Definition conn1 : Conn := MkConn 1 (Some "10.0.0.1:5001").
Definition rc1_tcp : RelayConnection := (SwitchToTCP "relay:10000" (Some conn1) rc1).1.

Lemma linked_udp : linked 1 2 rc1 rc2 (NewPeer 2 "b" 1 0) peer_of_1 pm2.
Proof.
  split; [split_and!; unfold BroadcastDest; lia|..|done|done|done|done|done].
  - exists relay_addr. apply rcr_new.
  - exists relay_addr. apply rcr_new.
Qed.

Lemma linked_tcp : linked 1 2 rc1_tcp rc2 (NewPeer 2 "b" 1 0) peer_of_1 pm2.
Proof.
  split; [split_and!; unfold BroadcastDest; lia|..|done|done|done|done|done].
  - exists relay_addr. eapply rcr_step; [apply rcr_new|]. apply rs_switch.
  - exists relay_addr. apply rcr_new.
Qed.

Lemma game_to_game_udp_witness :
  exists pkt peerB' rcA' m' rcB' pmB' p1 p2,
    gameToRelay true [Byte.x2a] game2 (NewPeer 2 "b" 1 0) rc1 =
      Ret (peerB', rcA', [SendUDP (relayAddr rc1) pkt]) /\
    udpPacket good_net id_shuffle pkt addr1 30 udp_server = Ret (m', [SendUDP (p_Addr seen2) pkt]) /\
    receiveUDP [RecvData pkt (relayAddr rc2) 40 40] rc2 pm2 = Ret (rcB', pmB') /\
    GetPeer 1 pmB' = Some p1 /\
    relayToGame true 50 p1 rcB' = Ret (p2, rcB', [], Some (game2, [Byte.x2a])).
Proof.
  apply (game_to_game_udp good_net id_shuffle udp_server 0%nat 1 2 rc1 rc2 (NewPeer 2 "b" 1 0)
           peer_of_1 pm2 seen2 [Byte.x2a] game2 addr1 game2 30 40 40 50 eq_refl linked_udp);
    by vm_compute.
Defined.

Lemma game_to_game_tcp_witness :
  exists pkt peerB' rcA' m' old rcB' pmB' p1 p2,
    gameToRelay true [Byte.x2a] game2 (NewPeer 2 "b" 1 0) rc1_tcp =
      Ret (peerB', rcA', [SendTCP conn1 (frame pkt)]) /\
    Server.readTCPFrame readBufSize (frame pkt) = Ok (pkt, []) /\
    tcpPacket good_net id_shuffle conn1 pkt 30 two_seen =
      Ret (m', closed_old old conn1 ++ [SendTCP conn2 (frame pkt)], true) /\
    receiveTCP (frame pkt) (fun _ => (40, 40)) rc2 pm2 = Ret (rcB', pmB') /\
    GetPeer 1 pmB' = Some p1 /\
    relayToGame true 50 p1 rcB' = Ret (p2, rcB', [], Some (game2, [Byte.x2a])).
Proof.
  apply (game_to_game_tcp good_net id_shuffle two_seen 0%nat 1 2 rc1_tcp rc2 (NewPeer 2 "b" 1 0)
           peer_of_1 pm2 tcp_seen2 [Byte.x2a] game2 game2 conn1 conn1 conn2 30 (fun _ => (40, 40)) 50
           eq_refl linked_tcp); by vm_compute.
Defined.
