(* ===== verification/IcePeer.v ===== *)
(** * [internal/adapter/icepeer.go]: a peer over an ICE connection

    The forwarder used when the remote player runs the java-ice-adapter.  The
    first part is the data path: [iceToGame], [gameToICE] and the echo loops
    with their one-byte prefixes.  The second is signalling: [HandleIceMsg],
    the agent's state callback, and [run] as a state machine.  The ICE agent
    of the pion library is not code of the repository; what it returns
    (credentials, candidates, success of [Dial] and [Accept]) is an argument. *)

From stdpp Require Import pretty.
From Stdlib Require Import Ascii.
From S2P Require Import Prelude GoLib PeerMgr.

(** ** Data path *)

Definition fafPrefixData : byte := Byte.x64.
Definition fafPrefixEcho : byte := Byte.x65.
Definition fafPrefixAnswerEcho : byte := Byte.x66.
Definition fafPrefixRTTReport : byte := Byte.x72.
Definition fafEchoLen : Z := 9.
Definition fafRTTReportLen : Z := 5.
Definition earlyBufCap : Z := 64.

Definition set_rtt_ice (ms : Z) (est : bool) (p : ICEPeer) : ICEPeer :=
  let d := ip_dyn p in
  set_dyn (MkDyn (iceStarted d) (runPhase d) (relayOnly d) (sendFirst d) (restartOnce d)
             (connReady d) (iceConn d) (remoteUfrag d) (iceState d) (connectedAt d) ms est) p.
Definition ice_rtt (p : ICEPeer) : Z := ice_rttMs (ip_dyn p).
Definition ice_est (p : ICEPeer) : bool := rttEstimated (ip_dyn p).

(** A write to the game's socket or to the ICE connection. *)
Inductive IceWrite :=
| ToGame (addr : AddrPort) (data : bytes)
| ToICE (data : bytes).

(** [buf[i]] for an index inside the packet. *)
Definition at_ (buf : bytes) (i : nat) : Z := byteZ (nth i buf Byte.x00).

(** [int64(buf[1])<<56 | ... | int64(buf[8])] *)
Definition readStamp (buf : bytes) : Z :=
  let sh i k := i64 (Z.shiftl (at_ buf i) k) in
  Z.lor (Z.lor (Z.lor (Z.lor (Z.lor (Z.lor (Z.lor (sh 1%nat 56) (sh 2%nat 48)) (sh 3%nat 40))
    (sh 4%nat 32)) (sh 5%nat 24)) (sh 6%nat 16)) (sh 7%nat 8)) (at_ buf 8).

(** [int64(buf[1])<<24 | ... | int64(buf[4])] *)
Definition readReport (buf : bytes) : Z :=
  let sh i k := i64 (Z.shiftl (at_ buf i) k) in
  Z.lor (Z.lor (Z.lor (sh 1%nat 24) (sh 2%nat 16)) (sh 3%nat 8)) (at_ buf 4).

(** [rttPkt]: the report the offerer sends after a measurement. *)
Definition rttReport (rtt : Z) : bytes :=
  [fafPrefixRTTReport; Zbyte (Z.shiftr rtt 24); Zbyte (Z.shiftr rtt 16);
   Zbyte (Z.shiftr rtt 8); Zbyte rtt].

(** The [switch] of [iceToGame] on a packet of [n] bytes, by its first byte.
    [early] is [earlyBuf]. *)
Definition iceData (payload : bytes) (p : ICEPeer) (early : list bytes)
    : ICEPeer * list bytes * list IceWrite :=
  match payload with
  | [] => (p, early, [])
  | _ =>
      match ip_gameAddr p with
      | None => (p, if len early <? earlyBufCap then early ++ [payload] else early, [])
      | Some addr => (p, [], (ToGame addr <$> early) ++ [ToGame addr payload])
      end
  end.

Definition iceEcho (now : Z) (pkt : bytes) (p : ICEPeer) : ICEPeer * list IceWrite :=
  if negb (len pkt =? fafEchoLen) then (p, [])
  else if ip_Offerer p then
    let rtt := i64 (Time.UnixMilli now - readStamp pkt) in
    if (0 <=? rtt) && (rtt <? 60000) then
      (set_rtt_ice rtt (ice_est p) p, [ToICE (rttReport rtt)])
    else (p, [])
  else
    let oneWay := i64 (Time.UnixMilli now - readStamp pkt) in
    let p := if (0 <=? oneWay) && (oneWay <? 30000) && (ice_rtt p =? 0)
             then set_rtt_ice (oneWay * 2) true p else p in
    (p, [ToICE pkt]).

Definition iceAnswerEcho (now : Z) (pkt : bytes) (p : ICEPeer) : ICEPeer * list IceWrite :=
  if negb (len pkt =? fafEchoLen) then (p, [])
  else if ip_Offerer p then (p, [ToICE pkt])
  else
    let rtt := i64 (Time.UnixMilli now - readStamp pkt) in
    (if (0 <=? rtt) && (rtt <? 60000) then set_rtt_ice rtt false p else p, []).

Definition iceRTTReport (pkt : bytes) (p : ICEPeer) : ICEPeer :=
  if (len pkt =? fafRTTReportLen) && negb (ip_Offerer p) then
    let rtt := readReport pkt in
    if (0 <=? rtt) && (rtt <? 60000) then set_rtt_ice rtt false p else p
  else p.

(** One turn of [iceToGame]; packets with another prefix are dropped. *)
Definition iceToGame (now : Z) (pkt : bytes) (p : ICEPeer) (early : list bytes)
    : ICEPeer * list bytes * list IceWrite :=
  match pkt with
  | [] => (p, early, [])
  | c :: payload =>
      if bool_decide (c = fafPrefixData) then iceData payload p early
      else if bool_decide (c = fafPrefixEcho) then
        let '(p, out) := iceEcho now pkt p in (p, early, out)
      else if bool_decide (c = fafPrefixAnswerEcho) then
        let '(p, out) := iceAnswerEcho now pkt p in (p, early, out)
      else if bool_decide (c = fafPrefixRTTReport) then (iceRTTReport pkt p, early, [])
      else (p, early, [])
  end.

(** [gameToICE] up to its wait for the ICE connection: it learns or follows
    the game's address. *)
Definition gameToICE_read (remote : AddrPort) (p : ICEPeer) : ICEPeer :=
  match ip_gameAddr p with
  | None => set_ice_addr (Some remote) p
  | Some a => if ap_port a =? ap_port remote then p else set_ice_addr (Some remote) p
  end.

(** Its end, once [connReady] is closed: [send[0]] is the prefix. *)
Definition gameToICE_send (buf : bytes) (p : ICEPeer) : list IceWrite :=
  if iceConn (ip_dyn p) then [ToICE (fafPrefixData :: buf)] else [].

(** The packets of [sendEchoLoop] and [sendAnswerEchoLoop]. *)
Definition echoPacket (prefix : byte) (now : Z) : bytes :=
  let now := Time.UnixMilli now in
  [prefix; Zbyte (Z.shiftr now 56); Zbyte (Z.shiftr now 48); Zbyte (Z.shiftr now 40);
   Zbyte (Z.shiftr now 32); Zbyte (Z.shiftr now 24); Zbyte (Z.shiftr now 16);
   Zbyte (Z.shiftr now 8); Zbyte now].
Definition sendEcho (now : Z) : bytes := echoPacket fafPrefixEcho now.
Definition sendAnswerEcho (now : Z) : bytes := echoPacket fafPrefixAnswerEcho now.

(** The two goroutines of a peer that share the game's address: [l_early] is
    [earlyBuf]; [l_wait] the datagram [gameToICE] holds while it waits for the
    connection. *)
Record Link := MkLink { l_peer : ICEPeer; l_early : list bytes; l_wait : option bytes }.

Inductive LinkEv :=
| EvGame (datagram : bytes) (remote : AddrPort)
| EvSend
| EvIce (pkt : bytes) (now : Z)
| EvTick (now : Z).

(** [None] when the goroutine is not at that point of its loop. *)
Definition link_step (ev : LinkEv) (l : Link) : option (Link * list IceWrite) :=
  match ev with
  | EvGame d a =>
      match l_wait l with
      | Some _ => None
      | None => Some (MkLink (gameToICE_read a (l_peer l)) (l_early l) (Some d), [])
      end
  | EvSend =>
      match l_wait l with
      | Some d =>
          if connReady (ip_dyn (l_peer l))
          then Some (MkLink (l_peer l) (l_early l) None, gameToICE_send d (l_peer l)) else None
      | None => None
      end
  | EvIce pkt now =>
      let '(p, early, out) := iceToGame now pkt (l_peer l) (l_early l) in
      Some (MkLink p early (l_wait l), out)
  | EvTick now =>
      Some (l, [ToICE (if ip_Offerer (l_peer l) then sendEcho now else sendAnswerEcho now)])
  end.

Fixpoint link_run (evs : list LinkEv) (l : Link) : option (Link * list IceWrite) :=
  match evs with
  | [] => Some (l, [])
  | ev :: evs' =>
      '(l, out) ← link_step ev l; '(l, out') ← link_run evs' l; Some (l, out ++ out')
  end.

(** ** Candidates *)

(** The candidate types the code distinguishes; every other one is a host
    candidate to [iceToFAFCand]. *)
Inductive CandidateType := TypeHost | TypeServerReflexive | TypePeerReflexive | TypeRelay.
#[export] Instance CandidateType_eq_dec : EqDecision CandidateType.
Proof. solve_decision. Defined.

(** What the code reads of an [ice.Candidate]. *)
Record Candidate := MkCandidate {
  c_Type : CandidateType; c_Foundation : string; c_Priority : Z; c_Address : string;
  c_Port : Z; c_RelatedAddress : option (string * Z) }.

Definition iceToFAFCand (c : Candidate) (idx : Z) : fafIceCandidate :=
  let typ := match c_Type c with
             | TypeServerReflexive => "SERVER_REFLEXIVE_CANDIDATE"
             | TypePeerReflexive => "PEER_REFLEXIVE_CANDIDATE"
             | TypeRelay => "RELAYED_CANDIDATE"
             | TypeHost => "HOST_CANDIDATE"
             end%string in
  MkCand (c_Foundation c) "udp" (c_Priority c) (c_Address c) (c_Port c) typ 0 (pretty idx)
    (fst <$> c_RelatedAddress c) (match c_RelatedAddress c with Some (_, p) => p | None => 0 end).

(** [strings.ToLower], on ASCII letters. *)
Definition lower (c : ascii) : ascii :=
  let n := N_of_ascii c in
  if ((65 <=? n) && (n <=? 90))%N then ascii_of_N (n + 32) else c.
Fixpoint ToLower (s : string) : string :=
  match s with
  | EmptyString => EmptyString
  | String c s' => String (lower c) (ToLower s')
  end.

(** The line [fafCandToICE] hands to [ice.UnmarshalCandidate]; [None] for an
    unknown candidate type. *)
Definition candType (t : string) : option string :=
  if bool_decide (t = "HOST_CANDIDATE") then Some "host"
  else if bool_decide (t = "SERVER_REFLEXIVE_CANDIDATE") then Some "srflx"
  else if bool_decide (t = "PEER_REFLEXIVE_CANDIDATE") then Some "prflx"
  else if bool_decide (t = "RELAYED_CANDIDATE") then Some "relay"
  else None.
Definition fafCandLine (c : fafIceCandidate) : option string :=
  typ ← candType (cand_Type c);
  let s := (Foundation c +:+ " 1 " +:+ ToLower (Protocol c) +:+ " " +:+ pretty (Priority c) +:+
            " " +:+ cand_IP c +:+ " " +:+ pretty (cand_Port c) +:+ " typ " +:+ typ)%string in
  Some (match RelAddr c with
        | Some r =>
            if bool_decide (r = "") then s
            else (s +:+ " raddr " +:+ r +:+ " rport " +:+ pretty (RelPort c))%string
        | None => s
        end).

(** ** Signalling *)

Definition remoteMsgCap : Z := 4.

Definition set_phase (ph : RunPhase) (p : ICEPeer) : ICEPeer :=
  let d := ip_dyn p in
  set_dyn (MkDyn (iceStarted d) ph (relayOnly d) (sendFirst d) (restartOnce d) (connReady d)
             (iceConn d) (remoteUfrag d) (iceState d) (connectedAt d) (ice_rttMs d)
             (rttEstimated d)) p.
Definition set_ufrag (u : string) (p : ICEPeer) : ICEPeer :=
  let d := ip_dyn p in
  set_dyn (MkDyn (iceStarted d) (runPhase d) (relayOnly d) (sendFirst d) (restartOnce d)
             (connReady d) (iceConn d) u (iceState d) (connectedAt d) (ice_rttMs d)
             (rttEstimated d)) p.
Definition set_ready (ready conn : bool) (p : ICEPeer) : ICEPeer :=
  let d := ip_dyn p in
  set_dyn (MkDyn (iceStarted d) (runPhase d) (relayOnly d) (sendFirst d) (restartOnce d)
             ready conn (remoteUfrag d) (iceState d) (connectedAt d) (ice_rttMs d)
             (rttEstimated d)) p.
Definition use_once (p : ICEPeer) : ICEPeer :=
  let d := ip_dyn p in
  set_dyn (MkDyn (iceStarted d) (runPhase d) (relayOnly d) (sendFirst d) true (connReady d)
             (iceConn d) (remoteUfrag d) (iceState d) (connectedAt d) (ice_rttMs d)
             (rttEstimated d)) p.
Definition set_iceState (s : string) (at' : Z) (p : ICEPeer) : ICEPeer :=
  let d := ip_dyn p in
  set_dyn (MkDyn (iceStarted d) (runPhase d) (relayOnly d) (sendFirst d) (restartOnce d)
             (connReady d) (iceConn d) (remoteUfrag d) s at' (ice_rttMs d) (rttEstimated d)) p.

Definition SetRelayOnly (p : ICEPeer) : ICEPeer :=
  let d := ip_dyn p in
  set_dyn (MkDyn (iceStarted d) (runPhase d) true (sendFirst d) (restartOnce d) (connReady d)
             (iceConn d) (remoteUfrag d) (iceState d) (connectedAt d) (ice_rttMs d)
             (rttEstimated d)) p.
Definition SetSendFirst (p : ICEPeer) : ICEPeer :=
  let d := ip_dyn p in
  set_dyn (MkDyn (iceStarted d) (runPhase d) (relayOnly d) true (restartOnce d) (connReady d)
             (iceConn d) (remoteUfrag d) (iceState d) (connectedAt d) (ice_rttMs d)
             (rttEstimated d)) p.
Definition iceStart (p : ICEPeer) : ICEPeer :=
  let d := ip_dyn p in
  if iceStarted d then p
  else set_dyn (MkDyn true PhGather (relayOnly d) (sendFirst d) (restartOnce d) (connReady d)
                  (iceConn d) (remoteUfrag d) (iceState d) (connectedAt d) (ice_rttMs d)
                  (rttEstimated d)) p.

(** What an ICE peer makes others do: send credentials to the FAF client, run
    a callback, or start [Dial] ([controlling]) or [Accept] on the agent with
    the remote candidates added. *)
Inductive IceAction :=
| ASignal (msg : fafIceMsg)
| AConnected
| ARestart (msg : fafIceMsg)
| ADelayedRestart
| AConnect (controlling : bool) (ufrag pwd : string) (cands : list Candidate).

Definition emptyMsg : fafIceMsg := MkIceMsg 0 0 "" "" [] false.
Definition manualMsg : fafIceMsg := MkIceMsg 0 0 "" "" [] true.

(** [p.restartOnce.Do(func() { go p.onRestart(fafIceMsg{}) })] *)
Definition restartOnceDo (p : ICEPeer) : ICEPeer * list IceAction :=
  if restartOnce (ip_dyn p) then (p, []) else (use_once p, [ARestart emptyMsg]).

(** The argument is what [json.Unmarshal] makes of the text, [None] for an
    error; the boolean result says whether [HandleIceMsg] returns an error. *)
Definition HandleIceMsg (parsed : option fafIceMsg) (p : ICEPeer)
    : ICEPeer * list IceAction * bool :=
  match parsed with
  | None => (p, [], true)
  | Some msg =>
      if bool_decide (Ufrag msg = "") || bool_decide (Password msg = "") then (p, [], false)
      else
        let currentUfrag := remoteUfrag (ip_dyn p) in
        if negb (bool_decide (currentUfrag = "")) && negb (bool_decide (Ufrag msg = currentUfrag))
        then (p, [ARestart msg], false)
        else if len (remoteMsg p) <? remoteMsgCap then (push_msg msg p, [], false)
        else (push_msg msg (set_msgs (drop 1 (remoteMsg p)) p), [], false)
  end.

(** The states of the agent the callback distinguishes; [str] is
    [state.String()]. *)
Inductive ConnectionState := StateConnected | StateFailed | StateOther.

Definition onConnectionStateChange (state : ConnectionState) (str : string) (now : Z) (p : ICEPeer)
    : ICEPeer * list IceAction :=
  match state with
  | StateConnected => (set_iceState str now p, [AConnected])
  | StateFailed =>
      let p := set_iceState str Time.zero p in
      if ip_Offerer p then restartOnceDo p else (p, [ADelayedRestart])
  | StateOther => (set_iceState str Time.zero p, [])
  end.

(** The end of the delay of [answererRestartDelay]; the goroutine returns at
    once when the peer's context is done. *)
Definition delayedRestart (ctxDone : bool) (p : ICEPeer) : ICEPeer * list IceAction :=
  if ctxDone then (p, []) else restartOnceDo p.

Definition ForceRestart (p : ICEPeer) : list IceAction := [ARestart manualMsg].

(** The message [sendFafIceMsg] sends, as the remote side decodes it. *)
Definition fafIceMsgOf (ufrag pwd : string) (candidates : list Candidate) (p : ICEPeer)
    : fafIceMsg :=
  let keep '(i, c) := if relayOnly (ip_dyn p) && negb (bool_decide (c_Type c = TypeRelay))
                      then None else Some (iceToFAFCand c i) in
  MkIceMsg (ip_localID p) (ip_PlayerID p) pwd ufrag
    (omap keep (imap (fun i c => (Z.of_nat i, c)) candidates)) false.

(** What the agent gives [run]: [GetLocalUserCredentials] ([None] for an
    error) and the candidates gathered. *)
Record Agent := MkAgent { ag_creds : option (string * string); ag_cands : list Candidate }.

(** The events [run] waits for in its phases. *)
Inductive RunEv :=
| REGathered
| REGatherTimeout
| RERemoteMsg
| RESignalTimeout
| REConnect (ok : bool)
| REReadErr
| RECtxDone.

(** The end of [run] when [Dial] or [Accept] fails. *)
Definition connectFailed (p : ICEPeer) : ICEPeer * list IceAction :=
  let p := set_phase PhEnded p in
  if ip_Offerer p then restartOnceDo p else (p, []).

(** [Close]: [iceConn] is dropped and the context cancelled, which ends
    [run]; an offerer inside [Dial] sees the cancellation as a failed
    connection. *)
Definition iceShutdown (p : ICEPeer) : ICEPeer * list IceAction :=
  let p := set_ready (connReady (ip_dyn p)) false p in
  match runPhase (ip_dyn p) with
  | PhGather | PhSignal | PhForward => (set_phase PhEnded p, [])
  | PhConnect => connectFailed p
  | PhIdle | PhEnded => (p, [])
  end.

Section Run.
(** [ice.UnmarshalCandidate] of the pion library. *)
Variable UnmarshalCandidate : string -> option Candidate.

Definition fafCandToICE (c : fafIceCandidate) : option Candidate :=
  s ← fafCandLine c; UnmarshalCandidate s.

(** One event of [run]; [None] when [run] does not wait for it. *)
Definition run_step (ag : Agent) (ev : RunEv) (p : ICEPeer)
    : option (ICEPeer * list IceAction) :=
  let sends := ip_Offerer p || sendFirst (ip_dyn p) in
  match runPhase (ip_dyn p), ev with
  | PhGather, (REGathered | REGatherTimeout) =>
      match ag_creds ag with
      | None => Some (set_phase PhEnded p, [])
      | Some (ufrag, pwd) =>
          Some (set_phase PhSignal p,
                if sends then [ASignal (fafIceMsgOf ufrag pwd (ag_cands ag) p)] else [])
      end
  | PhSignal, RERemoteMsg =>
      match remoteMsg p, ag_creds ag with
      | msg :: rest, Some (ufrag, pwd) =>
          let p := set_ufrag (Ufrag msg) (set_msgs rest p) in
          let signal := if sends then [] else [ASignal (fafIceMsgOf ufrag pwd (ag_cands ag) p)] in
          Some (set_phase PhConnect p,
                signal ++ [AConnect (ip_Offerer p) (Ufrag msg) (Password msg)
                             (omap fafCandToICE (Candidates msg))])
      | _, _ => None
      end
  | PhSignal, RESignalTimeout =>
      match ag_creds ag with
      | Some (ufrag, pwd) =>
          Some (p, if sends then [ASignal (fafIceMsgOf ufrag pwd (ag_cands ag) p)] else [])
      | None => None
      end
  | PhConnect, REConnect true => Some (set_phase PhForward (set_ready true true p), [])
  | PhConnect, (REConnect false | RECtxDone) => Some (connectFailed p)
  | (PhGather | PhSignal), RECtxDone => Some (set_phase PhEnded p, [])
  | PhForward, (REReadErr | RECtxDone) => Some (set_phase PhEnded p, [])
  | _, _ => None
  end.
End Run.

(** ** Accessors

    [GetSelectedCandidatePairStats]: the milliseconds of [CurrentRoundTripTime]
    and whether it is positive.  [GetSelectedCandidatePair]: the types of the
    two candidates, and the relay protocol of the local one if it is a relay
    candidate; [None] for an error or no pair. *)
Record PairStats := MkStats { st_ms : Z; st_positive : bool }.
Record CandPair := MkPair { cp_local : string; cp_remote : string; cp_relayProto : option string }.

Definition ICEState (p : ICEPeer) : string :=
  if bool_decide (iceState (ip_dyn p) = "") then "New" else iceState (ip_dyn p).
Definition agentClosed (p : ICEPeer) : bool := bool_decide (iceState (ip_dyn p) = "Closed").
Definition iceRttMs (stats : option PairStats) (p : ICEPeer) : Z :=
  match stats with
  | Some s => if negb (agentClosed p) && (0 <? st_ms s) then st_ms s else ice_rtt p
  | None => ice_rtt p
  end.
Definition iceRttIsEstimated (stats : option PairStats) (p : ICEPeer) : bool :=
  match stats with
  | Some s => if negb (agentClosed p) && st_positive s then false else ice_est p
  | None => ice_est p
  end.
Definition SelectedTransport (pair : option CandPair) (p : ICEPeer) : string :=
  if agentClosed p then "udp"
  else match pair with
       | Some (MkPair _ _ (Some proto)) =>
           if bool_decide (proto = "tcp") || bool_decide (proto = "tls") then "tcp" else "udp"
       | _ => "udp"
       end.
Definition SelectedCandTypes (pair : option CandPair) (p : ICEPeer) : string * string :=
  if agentClosed p then ("", "")
  else match pair with Some cp => (cp_local cp, cp_remote cp) | None => ("", "") end.

(** [iceServerToStunURIs]; [ParseURI] is pion's. *)
Record ICEServer := MkServer { URLs : list string; Username : string; Credential : option string }.
Record URI := MkURI { u_rest : string; u_Username : string; u_Password : string }.

Definition iceServerToStunURIs (ParseURI : string -> option URI) (server : ICEServer)
    : option (list URI) :=
  mapM (fun rawURL =>
          uri ← ParseURI rawURL;
          let uri := if bool_decide (Username server = "") then uri
                     else MkURI (u_rest uri) (Username server) (u_Password uri) in
          Some (match Credential server with
                | Some cred => if bool_decide (cred = "") then uri
                               else MkURI (u_rest uri) (u_Username uri) cred
                | None => uri
                end)) (URLs server).
(** The loop of [NewICEPeer] over its servers. *)
Definition stunURIs (ParseURI : string -> option URI) (servers : list ICEServer) : list URI :=
  concat (omap (iceServerToStunURIs ParseURI) servers).

(** ** Lemmas: time stamps *)

Lemma i64_byte_shift b k : 0 <= k <= 48 -> i64 (Z.shiftl (byteZ b) k) = Z.shiftl (byteZ b) k.
Proof.
  intros Hk. pose proof (byteZ_range b). apply i64_small. rewrite Z.shiftl_mul_pow2 by lia.
  pose proof (Z.pow_le_mono_r 2 k 48). pose proof (Z.pow_pos_nonneg 2 k). nia.
Qed.

(** The byte that carries the sign. *)
Lemma i64_top_shift b : i64 (Z.shiftl (byteZ b) 56) = Z.shiftl (swrap 8 (byteZ b)) 56.
Proof.
  pose proof (byteZ_range b). rewrite !Z.shiftl_mul_pow2 by lia. unfold i64, swrap.
  Z.to_euclidean_division_equations. lia.
Qed.

Lemma readStamp_be prefix l : length l = 8%nat -> readStamp (prefix :: l) = i64 (be_decode l).
Proof.
  intros Hl. do 9 (destruct l as [|? l]; try discriminate Hl).
  unfold readStamp, at_. cbn [nth]. rewrite i64_top_shift, !i64_byte_shift by lia.
  rewrite (lor_shifted _ _ 48), (lor_shifted _ _ 40), (lor_shifted _ _ 32), (lor_shifted _ _ 24),
    (lor_shifted _ _ 16), (lor_shifted _ _ 8) by (apply byteZ_range || lia).
  rewrite <- (Z.shiftl_0_r (byteZ b6)), (lor_shifted _ _ 0), Z.shiftl_0_r
    by (apply byteZ_range || lia).
  change [b; b0; b1; b2; b3; b4; b5; b6] with
    ((((((([] ++ [b]) ++ [b0]) ++ [b1]) ++ [b2]) ++ [b3]) ++ [b4]) ++ [b5] ++ [b6]).
  rewrite app_assoc, !be_decode_snoc, be_decode_nil.
  repeat match goal with |- context [byteZ ?x] => pose proof (byteZ_range x); generalize dependent (byteZ x); intros end.
  unfold i64, swrap. Z.to_euclidean_division_equations. lia.
Qed.

Lemma readReport_be prefix l : length l = 4%nat -> readReport (prefix :: l) = be_decode l.
Proof.
  intros Hl. do 5 (destruct l as [|? l]; try discriminate Hl).
  unfold readReport, at_. cbn [nth]. rewrite !i64_byte_shift by lia.
  rewrite (lor_shifted _ _ 16), (lor_shifted _ _ 8) by (apply byteZ_range || lia).
  rewrite <- (Z.shiftl_0_r (byteZ b2)), (lor_shifted _ _ 0), Z.shiftl_0_r
    by (apply byteZ_range || lia).
  change [b; b0; b1; b2] with ((([] ++ [b]) ++ [b0]) ++ [b1] ++ [b2]).
  rewrite app_assoc, !be_decode_snoc, be_decode_nil. lia.
Qed.

Lemma echoPacket_be prefix now : echoPacket prefix now = prefix :: be_encode 8 (Time.UnixMilli now).
Proof. by rewrite be_encode_8. Qed.

Lemma length_echoPacket prefix now : len (echoPacket prefix now) = fafEchoLen.
Proof. done. Qed.

(** What an echo packet carries is the time it was sent. *)
Lemma echoPacket_stamp prefix now :
  - 2 ^ 63 <= Time.UnixMilli now < 2 ^ 63 ->
  readStamp (echoPacket prefix now) = Time.UnixMilli now.
Proof.
  intros H. rewrite echoPacket_be, readStamp_be by apply length_be_encode.
  rewrite be_decode_encode. unfold i64. change (8 * Z.of_nat 8) with 64.
  rewrite swrap_mod by lia. by apply swrap_small.
Qed.

Lemma rttReport_value rtt : 0 <= rtt < 2 ^ 32 -> readReport (rttReport rtt) = rtt.
Proof.
  intros H. change (rttReport rtt) with
    (fafPrefixRTTReport :: [Zbyte (Z.shiftr rtt 24); Zbyte (Z.shiftr rtt 16);
       Zbyte (Z.shiftr rtt 8); Zbyte rtt]).
  rewrite <- be_encode_4, readReport_be by apply length_be_encode.
  rewrite be_decode_encode. by apply Z.mod_small.
Qed.
#[global] Opaque echoPacket readStamp readReport.

(** ** Lemmas: the data path *)

(** The game data a packet carries. *)
Definition data_of (pkt : bytes) : option bytes :=
  match pkt with
  | c :: (_ :: _) as payload => if bool_decide (c = fafPrefixData) then Some payload else None
  | _ => None
  end.
Definition ev_data (ev : LinkEv) : list bytes :=
  match ev with EvIce pkt _ => option_list (data_of pkt) | _ => [] end.
Definition data_in (evs : list LinkEv) : list bytes := concat (ev_data <$> evs).
(** The part of a run before the game's first datagram. *)
Fixpoint before_game (evs : list LinkEv) : list LinkEv :=
  match evs with
  | EvGame _ _ :: _ | [] => []
  | ev :: evs' => ev :: before_game evs'
  end.
Definition to_game (w : IceWrite) : list bytes :=
  match w with ToGame _ d => [d] | ToICE _ => [] end.
Definition game_data (out : list IceWrite) : list bytes := concat (to_game <$> out).

Lemma data_in_cons ev evs : data_in (ev :: evs) = ev_data ev ++ data_in evs.
Proof. done. Qed.

Lemma game_data_app o1 o2 : game_data (o1 ++ o2) = game_data o1 ++ game_data o2.
Proof. unfold game_data. by rewrite fmap_app, concat_app. Qed.

Lemma game_data_map addr l : game_data (ToGame addr <$> l) = l.
Proof. induction l as [|d l IH]; [done|]. exact (f_equal (cons d) IH). Qed.

(** Packets without game data change neither the address nor the buffer. *)
Lemma iceToGame_other now pkt p early p' early' out :
  data_of pkt = None -> iceToGame now pkt p early = (p', early', out) ->
  early' = early /\ game_data out = [] /\ ip_gameAddr p' = ip_gameAddr p.
Proof.
  unfold iceToGame, data_of. intros Hd H. destruct pkt as [|c payload]; [by simplify_eq|].
  destruct (bool_decide (c = fafPrefixData)).
  { destruct payload; [|done]. unfold iceData in H. by simplify_eq. }
  unfold iceEcho, iceAnswerEcho, iceRTTReport in H. cbv zeta in H.
  repeat case_match; by simplify_eq.
Qed.

Lemma iceToGame_data now pkt p early payload :
  data_of pkt = Some payload ->
  iceToGame now pkt p early =
  match ip_gameAddr p with
  | None => (p, if len early <? earlyBufCap then early ++ [payload] else early, [])
  | Some addr => (p, [], (ToGame addr <$> early) ++ [ToGame addr payload])
  end.
Proof.
  unfold data_of, iceToGame. intros H. destruct pkt as [|c [|c' l]]; [done..|].
  destruct (bool_decide (c = fafPrefixData)); [|done]. by simplify_eq.
Qed.

(** One step keeps the data in order unless the buffer is full. *)
Lemma link_step_data ev l l' out :
  link_step ev l = Some (l', out) ->
  (ip_gameAddr (l_peer l) = None -> len (l_early l) + len (ev_data ev) <= earlyBufCap) ->
  l_early l ++ ev_data ev = game_data out ++ l_early l' /\
  (ip_gameAddr (l_peer l) <> None -> ev_data ev <> [] -> l_early l' = []) /\
  match ev with
  | EvGame _ _ => ip_gameAddr (l_peer l') <> None
  | _ => ip_gameAddr (l_peer l') = ip_gameAddr (l_peer l)
  end.
Proof.
  intros H Hb. destruct ev as [d a| |pkt now|now]; simpl in H.
  - destruct (l_wait l); [done|]. simplify_eq/=. rewrite app_nil_r. split_and!; [done|done|].
    unfold gameToICE_read. destruct (ip_gameAddr (l_peer l)) eqn:E; [|done].
    destruct (_ =? _); [by rewrite E|done].
  - destruct (l_wait l); [|done]. destruct (connReady _); [|done]. simplify_eq/=.
    rewrite app_nil_r. unfold gameToICE_send. by destruct (iceConn _).
  - destruct (iceToGame now pkt (l_peer l) (l_early l)) as [[p e] o] eqn:E. simplify_eq/=.
    destruct (data_of pkt) as [payload|] eqn:Ed; simpl in *.
    + rewrite (iceToGame_data _ _ _ _ _ Ed) in E. destruct (ip_gameAddr (l_peer l)) eqn:Ea.
      * simplify_eq. rewrite Ea. split_and!; [|done|done].
        rewrite game_data_app, game_data_map. simpl. by rewrite app_nil_r.
      * specialize (Hb eq_refl). rewrite (proj2 (Z.ltb_lt _ _)) in E by lia. simplify_eq.
        by rewrite Ea.
    + apply iceToGame_other in E as (-> & -> & ->); [|done]. by rewrite app_nil_r.
  - simplify_eq/=. by rewrite app_nil_r.
Qed.

Lemma link_run_data evs l l' out :
  link_run evs l = Some (l', out) ->
  (ip_gameAddr (l_peer l) = None ->
   len (l_early l) + len (data_in (before_game evs)) <= earlyBufCap) ->
  l_early l ++ data_in evs = game_data out ++ l_early l'.
Proof.
  revert l l' out. induction evs as [|ev evs IH]; intros l l' out H Hb; simpl in H.
  { simplify_eq. simpl. by rewrite app_nil_r. }
  destruct (link_step ev l) as [[l1 o1]|] eqn:E1; simpl in H; [|done].
  destruct (link_run evs l1) as [[l2 o2]|] eqn:E2; simpl in H; [|done]. simplify_eq.
  destruct (link_step_data ev l l1 o1 E1) as (Hd & _ & Ha).
  { intros Hn. specialize (Hb Hn). destruct ev; cbn [before_game] in Hb;
      rewrite ?data_in_cons, ?length_app in Hb; simpl; simpl in Hb; lia. }
  rewrite data_in_cons, app_assoc, Hd, <- app_assoc, game_data_app, <- app_assoc.
  f_equal. eapply IH; [done|]. intros Hn. apply (f_equal length) in Hd.
  rewrite !length_app in Hd. destruct ev; try done; rewrite Ha in Hn; specialize (Hb Hn);
    cbn [before_game] in Hb; rewrite data_in_cons, length_app in Hb; simpl in Hb, Hd; lia.
Qed.

Lemma link_run_app evs1 evs2 l :
  link_run (evs1 ++ evs2) l =
  '(l1, o1) ← link_run evs1 l; '(l2, o2) ← link_run evs2 l1; Some (l2, o1 ++ o2).
Proof.
  revert l. induction evs1 as [|ev evs1 IH]; intros l; simpl.
  { destruct (link_run evs2 l) as [[? ?]|]; done. }
  destruct (link_step ev l) as [[l1 o1]|]; simpl; [|done]. rewrite IH.
  destruct (link_run evs1 l1) as [[? ?]|]; simpl; [|done].
  destruct (link_run evs2 _) as [[? ?]|]; simpl; [|done]. by rewrite app_assoc.
Qed.

(** An echo or report handled by the peer it concerns. *)
Lemma echo_at_offerer p early t1 t2 :
  ip_Offerer p = true ->
  - 2 ^ 63 <= Time.UnixMilli t1 < 2 ^ 63 -> 0 <= Time.UnixMilli t2 - Time.UnixMilli t1 < 60000 ->
  let rtt := Time.UnixMilli t2 - Time.UnixMilli t1 in
  iceToGame t2 (sendEcho t1) p early =
  (set_rtt_ice rtt (ice_est p) p, early, [ToICE (rttReport rtt)]).
Proof.
  intros Ho Ht Hr rtt. unfold iceToGame, sendEcho. rewrite echoPacket_be. cbn.
  rewrite <- echoPacket_be. unfold iceEcho. rewrite length_echoPacket, Z.eqb_refl, Ho.
  rewrite echoPacket_stamp, i64_small by lia. cbn [negb]. fold rtt.
  rewrite (proj2 (Z.leb_le 0 rtt)), (proj2 (Z.ltb_lt rtt 60000)) by (unfold rtt; lia). done.
Qed.

Lemma report_at_answerer p early t rtt :
  ip_Offerer p = false -> 0 <= rtt < 60000 ->
  iceToGame t (rttReport rtt) p early = (set_rtt_ice rtt false p, early, []).
Proof.
  intros Ho Hr. unfold iceToGame. unfold rttReport at 1. cbn.
  change (iceRTTReport _ p) with (iceRTTReport (rttReport rtt) p). unfold iceRTTReport.
  change (len (rttReport rtt)) with 5. rewrite Ho. cbn [negb andb fafRTTReportLen Z.eqb].
  rewrite rttReport_value by lia.
  by rewrite (proj2 (Z.leb_le 0 rtt)), (proj2 (Z.ltb_lt rtt 60000)) by lia.
Qed.

(** ** Theorems *)

(** C30. Game data over ICE arrives complete and in order.  Whatever the
    interleaving of packets, echoes and datagrams of the game, and provided at
    most 64 data packets come before the game's address is known, what was
    written to the game followed by what is still buffered is exactly the data
    received; and the next data packet after the address is known releases the
    whole buffer in front of it. *)
Theorem ice_data_in_order (l l' : Link) (evs : list LinkEv) (out : list IceWrite) :
  l_early l = [] -> link_run evs l = Some (l', out) ->
  (ip_gameAddr (l_peer l) = None -> len (data_in (before_game evs)) <= earlyBufCap) ->
  data_in evs = game_data out ++ l_early l' /\
  forall pkt now payload a, data_of pkt = Some payload -> ip_gameAddr (l_peer l') = Some a ->
    link_step (EvIce pkt now) l' =
    Some (MkLink (l_peer l') [] (l_wait l'), ToGame a <$> (l_early l' ++ [payload])).
Proof.
  intros He Hr Hb. split.
  - rewrite <- (link_run_data evs l l' out Hr); rewrite He; [done|exact Hb].
  - intros pkt now payload a Hd Ha. simpl. rewrite (iceToGame_data _ _ _ _ _ Hd), Ha.
    by rewrite fmap_app.
Qed.

(** A peer whose ICE connection is up. *)
Definition up_peer (off : bool) (addr : option AddrPort) : ICEPeer :=
  MkICE 0 8 "b" off 7 0 true addr [] 1
    (MkDyn true PhForward false false false true true "u" "Connected" 5 0 false).

Lemma ice_data_in_order_witness :
  let game := MkAddrPort (Addr4 1) 6112 in
  let evs := [EvIce [fafPrefixData; Byte.x01] 1; EvTick 2; EvIce [fafPrefixData; Byte.x02] 3;
              EvGame [] game; EvSend; EvIce [fafPrefixData; Byte.x03] 4] in
  [[Byte.x01]; [Byte.x02]; [Byte.x03]] = [[Byte.x01]; [Byte.x02]; [Byte.x03]] ++ [] /\
  forall pkt now payload a, data_of pkt = Some payload ->
    ip_gameAddr (up_peer true (Some game)) = Some a ->
    link_step (EvIce pkt now) (MkLink (up_peer true (Some game)) [] None) =
    Some (MkLink (up_peer true (Some game)) [] None, ToGame a <$> ([] ++ [payload])).
Proof.
  intros game evs.
  exact (ice_data_in_order (MkLink (up_peer true None) [] None)
           (MkLink (up_peer true (Some game)) [] None) evs
           [ToICE (sendEcho 2); ToICE [fafPrefixData]; ToGame game [Byte.x01];
            ToGame game [Byte.x02]; ToGame game [Byte.x03]]
           eq_refl eq_refl (fun _ => ltac:(vm_compute; discriminate))).
Defined.

(** Game to game over ICE.  A datagram the game of [la] sends goes out
    with the data prefix, and the other peer writes exactly its bytes to its
    own game. *)
Theorem ice_game_to_game (la lb : Link) (d : bytes) (ga gb : AddrPort) (now : Z) :
  l_wait la = None -> connReady (ip_dyn (l_peer la)) = true -> iceConn (ip_dyn (l_peer la)) = true ->
  ip_gameAddr (l_peer lb) = Some gb -> l_early lb = [] -> d <> [] ->
  exists la' pkt,
    link_run [EvGame d ga; EvSend] la = Some (la', [ToICE pkt]) /\
    link_step (EvIce pkt now) lb = Some (lb, [ToGame gb d]).
Proof.
  intros Hw Hr Hc Hb He Hd.
  assert (Hdyn : ip_dyn (gameToICE_read ga (l_peer la)) = ip_dyn (l_peer la)).
  { unfold gameToICE_read. by repeat case_match. }
  exists (MkLink (gameToICE_read ga (l_peer la)) (l_early la) None), (fafPrefixData :: d). split.
  - simpl. rewrite Hw. simpl. rewrite Hdyn, Hr. simpl. unfold gameToICE_send. by rewrite Hdyn, Hc.
  - unfold link_step. rewrite (iceToGame_data _ _ _ _ d), Hb, He; [|by destruct d].
    simpl. rewrite <- He. by destruct lb.
Qed.

Lemma ice_game_to_game_witness :
  exists la' pkt,
    link_run [EvGame [Byte.x2a] (MkAddrPort (Addr4 1) 6112); EvSend]
      (MkLink (up_peer true None) [] None) = Some (la', [ToICE pkt]) /\
    link_step (EvIce pkt 9) (MkLink (up_peer false (Some (MkAddrPort (Addr4 2) 6113))) [] None) =
    Some (MkLink (up_peer false (Some (MkAddrPort (Addr4 2) 6113))) [] None,
          [ToGame (MkAddrPort (Addr4 2) 6113) [Byte.x2a]]).
Proof. by apply ice_game_to_game. Defined.

(** The echoes measure the round trip.  The offerer's echo of [t1] is
    mirrored by the answerer, gives the offerer the time to [t2], and its
    report gives the answerer the same value as a direct measurement; the
    answerer's own echo does the same without a report. *)
Theorem ice_echo_rtt (a b : ICEPeer) (ea eb : list bytes) (t1 ta t2 t3 : Z) :
  ip_Offerer a = true -> ip_Offerer b = false ->
  - 2 ^ 63 <= Time.UnixMilli t1 < 2 ^ 63 -> 0 <= Time.UnixMilli t2 - Time.UnixMilli t1 < 60000 ->
  let rtt := Time.UnixMilli t2 - Time.UnixMilli t1 in
  (exists b1 report,
     iceToGame ta (sendEcho t1) b eb = (b1, eb, [ToICE (sendEcho t1)]) /\
     iceToGame t2 (sendEcho t1) a ea = (set_rtt_ice rtt (ice_est a) a, ea, [ToICE report]) /\
     iceToGame t3 report b1 eb = (set_rtt_ice rtt false b, eb, [])) /\
  iceToGame ta (sendAnswerEcho t1) a ea = (a, ea, [ToICE (sendAnswerEcho t1)]) /\
  iceToGame t2 (sendAnswerEcho t1) b eb = (set_rtt_ice rtt false b, eb, []).
Proof.
  intros Ha Hb Ht Hr rtt. split; [|split].
  - exists (iceEcho ta (sendEcho t1) b).1, (rttReport rtt). split_and!.
    + unfold iceToGame, sendEcho. rewrite echoPacket_be. cbn. rewrite <- echoPacket_be.
      unfold iceEcho. rewrite length_echoPacket, Hb. cbn. by rewrite echoPacket_be.
    + by apply echo_at_offerer.
    + rewrite report_at_answerer; [|unfold iceEcho, sendEcho; rewrite length_echoPacket, Hb; cbn;
        by destruct (_ && _)|done].
      unfold iceEcho, sendEcho. rewrite length_echoPacket, Hb. cbn. by destruct (_ && _).
  - unfold iceToGame, sendAnswerEcho. rewrite echoPacket_be. cbn. rewrite <- echoPacket_be.
    unfold iceAnswerEcho. rewrite length_echoPacket, Ha. cbn. by rewrite echoPacket_be.
  - unfold iceToGame, sendAnswerEcho. rewrite echoPacket_be. cbn. rewrite <- echoPacket_be.
    unfold iceAnswerEcho. rewrite length_echoPacket, Hb, echoPacket_stamp, i64_small by lia.
    cbn [negb Z.eqb fafEchoLen]. fold rtt.
    by rewrite (proj2 (Z.leb_le 0 rtt)), (proj2 (Z.ltb_lt rtt 60000)) by (unfold rtt; lia).
Qed.

Lemma ice_echo_rtt_witness :
  let t1 := 63000000000 * Time.Second in let t2 := t1 + 42 * Time.Millisecond in
  let a := up_peer true None in let b := up_peer false None in
  let rtt := Time.UnixMilli t2 - Time.UnixMilli t1 in
  (exists b1 report,
     iceToGame t2 (sendEcho t1) b [] = (b1, [], [ToICE (sendEcho t1)]) /\
     iceToGame t2 (sendEcho t1) a [] = (set_rtt_ice rtt (ice_est a) a, [], [ToICE report]) /\
     iceToGame t2 report b1 [] = (set_rtt_ice rtt false b, [], [])) /\
  iceToGame t2 (sendAnswerEcho t1) a [] = (a, [], [ToICE (sendAnswerEcho t1)]) /\
  iceToGame t2 (sendAnswerEcho t1) b [] = (set_rtt_ice rtt false b, [], []).
Proof.
  intros t1 t2 a b.
  apply (ice_echo_rtt a b [] [] t1 t2 t2 t2); [done|done|split; by vm_compute..].
Defined.
