(* ===== verification/IceText.v ===== *)
(** * The text of ICE messages ([internal/adapter/icepeer.go])

    [sendFafIceMsg] marshals credentials and candidates to JSON; the text
    travels as a string inside JSON-RPC messages, through both FAF clients, and
    is unmarshalled by [HandleIceMsg] of the other adapter. *)

From stdpp Require Import pretty.
From S2P Require Import Prelude GoLib GoText JsonRpc Json RpcMessage.
From S2P Require Import RelayWire TcpFrame RelayConn Peer PeerMgr IcePeer.

(** ** Encoding *)

Definition jstr (s : string) : JSON := JStr (str_bytes s).
Definition jint (z : Z) : JSON := JNum (Itoa z).

Definition candJSON (c : fafIceCandidate) : JSON :=
  JObj [(B "foundation", jstr (Foundation c)); (B "protocol", jstr (Protocol c));
        (B "priority", jint (Priority c)); (B "ip", jstr (cand_IP c)); (B "port", jint (cand_Port c));
        (B "type", jstr (cand_Type c)); (B "generation", jint (Generation c));
        (B "id", jstr (cand_ID c));
        (B "relAddr", match RelAddr c with Some s => jstr s | None => JNull end);
        (B "relPort", jint (RelPort c))].
(** [Manual] is not encoded; [sendFafIceMsg] never leaves [Candidates] nil. *)
Definition iceMsgJSON (m : fafIceMsg) : JSON :=
  JObj [(B "srcId", jint (SrcID m)); (B "destId", jint (msg_DestID m));
        (B "password", jstr (Password m)); (B "ufrag", jstr (Ufrag m));
        (B "candidates", JArr (candJSON <$> Candidates m))].
Definition iceText (m : fafIceMsg) : bytes := Marshal (iceMsgJSON m).

(** ** Decoding *)

(** A member decoded into a field with an old value; [None] is a type error. *)
Definition setStr (v : JSON) (old : string) : option string :=
  match v with JStr s => Some (bytes_str s) | JNull => Some old | _ => None end.
Definition setInt (v : JSON) (old : Z) : option Z :=
  match v with JNum n => Atoi n | JNull => Some old | _ => None end.
Definition setUint32 (v : JSON) (old : Z) : option Z :=
  match v with
  | JNum n => z ← Atoi n;
              if bool_decide (head n = Some Byte.x2d) || (2 ^ 32 <=? z) then None else Some z
  | JNull => Some old
  | _ => None
  end.
Definition setStrPtr (v : JSON) : option (option string) :=
  match v with JStr s => Some (Some (bytes_str s)) | JNull => Some None | _ => None end.

Definition candFields : list bytes :=
  [B "foundation"; B "protocol"; B "priority"; B "ip"; B "port"; B "type"; B "generation"; B "id";
   B "relAddr"; B "relPort"].
Definition zeroCand : fafIceCandidate := MkCand "" "" 0 "" 0 "" 0 "" None 0.

Definition setCandField (c : fafIceCandidate) (kv : bytes * JSON) : option fafIceCandidate :=
  let '(MkCand fo pr pri ip po ty ge id ra rp) := c in
  let v := kv.2 in
  match field candFields kv.1 with
  | None => Some c
  | Some f =>
      let named n := bool_decide (f = B n) in
      if named "foundation"%string then (fun x => MkCand x pr pri ip po ty ge id ra rp) <$> setStr v fo
      else if named "protocol"%string then (fun x => MkCand fo x pri ip po ty ge id ra rp) <$> setStr v pr
      else if named "priority"%string then (fun x => MkCand fo pr x ip po ty ge id ra rp) <$> setUint32 v pri
      else if named "ip"%string then (fun x => MkCand fo pr pri x po ty ge id ra rp) <$> setStr v ip
      else if named "port"%string then (fun x => MkCand fo pr pri ip x ty ge id ra rp) <$> setInt v po
      else if named "type"%string then (fun x => MkCand fo pr pri ip po x ge id ra rp) <$> setStr v ty
      else if named "generation"%string then (fun x => MkCand fo pr pri ip po ty x id ra rp) <$> setInt v ge
      else if named "id"%string then (fun x => MkCand fo pr pri ip po ty ge x ra rp) <$> setStr v id
      else if named "relAddr"%string then (fun x => MkCand fo pr pri ip po ty ge id x rp) <$> setStrPtr v
      else (fun x => MkCand fo pr pri ip po ty ge id ra x) <$> setInt v rp
  end.
Definition decodeCand (v : JSON) : option fafIceCandidate :=
  match v with
  | JObj l => foldl (fun c kv => c ≫= fun c => setCandField c kv) (Some zeroCand) l
  | JNull => Some zeroCand
  | _ => None
  end.

Definition msgFields : list bytes := [B "srcId"; B "destId"; B "password"; B "ufrag"; B "candidates"].
(** A second [candidates] member replaces the first. *)
Definition setMsgField (m : fafIceMsg) (kv : bytes * JSON) : option fafIceMsg :=
  let '(MkIceMsg src dst pwd uf cs man) := m in
  let v := kv.2 in
  match field msgFields kv.1 with
  | None => Some m
  | Some f =>
      let named n := bool_decide (f = B n) in
      if named "srcId"%string then (fun x => MkIceMsg x dst pwd uf cs man) <$> setInt v src
      else if named "destId"%string then (fun x => MkIceMsg src x pwd uf cs man) <$> setInt v dst
      else if named "password"%string then (fun x => MkIceMsg src dst x uf cs man) <$> setStr v pwd
      else if named "ufrag"%string then (fun x => MkIceMsg src dst pwd x cs man) <$> setStr v uf
      else (fun x => MkIceMsg src dst pwd uf x man) <$>
           match v with JArr l => mapM decodeCand l | JNull => Some [] | _ => None end
  end.
Definition decodeIceMsg (text : bytes) : option fafIceMsg :=
  v ← Unmarshal text;
  match v with
  | JObj l => foldl (fun m kv => m ≫= fun m => setMsgField m kv) (Some emptyMsg) l
  | JNull => Some emptyMsg
  | _ => None
  end.

(** ** Well-formed messages *)

Definition int_ok (z : Z) : Prop := - 2 ^ 63 <= z < 2 ^ 63.
(** The strings are valid UTF-8 with balanced braces, the numbers in range:
    what pion's credentials, candidates and addresses are. *)
Definition text_ok (s : string) : Prop := valid_utf8 (str_bytes s) /\ brace_safe (str_bytes s).
Definition cand_ok (c : fafIceCandidate) : Prop :=
  text_ok (Foundation c) /\ text_ok (Protocol c) /\ 0 <= Priority c < 2 ^ 32 /\ text_ok (cand_IP c) /\
  int_ok (cand_Port c) /\ text_ok (cand_Type c) /\ int_ok (Generation c) /\ text_ok (cand_ID c) /\
  (forall s, RelAddr c = Some s -> text_ok s) /\ int_ok (RelPort c).
Definition msg_ok (m : fafIceMsg) : Prop :=
  int_ok (SrcID m) /\ int_ok (msg_DestID m) /\ text_ok (Password m) /\ text_ok (Ufrag m) /\
  Forall cand_ok (Candidates m) /\ Manual m = false.

(** ** Round trip *)

Lemma setInt_jint z old : int_ok z -> setInt (jint z) old = Some z.
Proof. intros H. by apply Atoi_Itoa. Qed.

Lemma setStr_jstr s old : setStr (jstr s) old = Some s.
Proof. cbn. by rewrite bytes_str_bytes. Qed.

Lemma Itoa_nonneg z : 0 <= z -> head (Itoa z) <> Some Byte.x2d.
Proof.
  intros H. unfold Itoa. destruct z as [|p|p]; [done| |lia].
  change (pretty (Z.pos p)) with (pretty (N.pos p)). unfold pretty, pretty_N.
  rewrite decide_False by done.
  destruct (pretty_N_go_digits (N.pos p) "" ltac:(lia)) as (b & l & -> & Hb & _).
  intros [= ->]. change (49 <= 45 <= 57) in Hb. lia.
Qed.

Lemma setUint32_jint z old : 0 <= z < 2 ^ 32 -> setUint32 (jint z) old = Some z.
Proof.
  intros H. cbn [setUint32 jint]. rewrite Atoi_Itoa by lia. cbn [mbind option_bind].
  rewrite bool_decide_eq_false_2 by (apply Itoa_nonneg; lia). by decide_guards.
Qed.

Lemma setStrPtr_spec o :
  setStrPtr (match o with Some s => jstr s | None => JNull end) = Some o.
Proof. destruct o; cbn; by rewrite ?bytes_str_bytes. Qed.

(** Evaluate the closed field names of a goal. *)
Ltac eval_fields :=
  repeat match goal with
  | |- context [field ?ns ?k] =>
      let r := eval vm_compute in (field ns k) in change (field ns k) with r
  end; cbv iota beta;
  repeat match goal with
  | |- context [@bool_decide (?a = ?b) ?d] =>
      let r := eval vm_compute in (@bool_decide (a = b) d) in
      change (@bool_decide (a = b) d) with r
  end; cbv iota.
(** One member of a struct whose fields so far are known. *)
Ltac next_field :=
  cbn [mbind option_bind fmap option_fmap option_map fst snd setCandField setMsgField];
  eval_fields;
  rewrite ?setStr_jstr, ?setInt_jint, ?setUint32_jint, ?setStrPtr_spec by done.

Lemma decodeCand_candJSON c : cand_ok c -> decodeCand (candJSON c) = Some c.
Proof.
  intros (H1 & H2 & H3 & H4 & H5 & H6 & H7 & H8 & H9 & H10).
  destruct c as [fo pr pri ip po ty ge id ra rp].
  unfold decodeCand, candJSON, zeroCand. cbn [foldl]. cbn [Foundation Protocol Priority cand_IP cand_Port
    cand_Type Generation cand_ID RelAddr RelPort] in *.
  do 10 next_field. done.
Qed.

Lemma mapM_decodeCand l : Forall cand_ok l -> mapM decodeCand (candJSON <$> l) = Some l.
Proof.
  induction 1 as [|c l Hc Hl IH]; [done|]. rewrite fmap_cons. cbn [mapM].
  rewrite decodeCand_candJSON by done. cbn [mbind option_bind]. by rewrite IH.
Qed.

Lemma candJSON_ok c : cand_ok c -> wf (candJSON c) /\ safe (candJSON c) /\ height (candJSON c) = 1.
Proof.
  intros ([? ?] & [? ?] & Hpri & [? ?] & Hport & [? ?] & Hgen & [? ?] & Hrel & Hrp). unfold candJSON, jstr, jint.
  assert (A : forall s, Forall (fun b => byteZ b < 128) (B s) -> valid_utf8 (B s)) by (intros; by apply valid_ascii).
  split_and!.
  - cbn [wf foldr fst snd]. split_and!; try done; try apply Itoa_valid;
      try (apply A; repeat constructor).
    destruct (RelAddr c) eqn:E; [|done]. by apply Hrel.
  - cbn [safe foldr fst snd]. split_and!; try done; try apply Itoa_valid.
    destruct (RelAddr c) eqn:E; [|done]. by apply Hrel.
  - cbn [height foldr snd]. by destruct (RelAddr c).
Qed.

Lemma iceMsgJSON_ok m :
  msg_ok m -> wf (iceMsgJSON m) /\ safe (iceMsgJSON m) /\ height (iceMsgJSON m) <= 3.
Proof.
  intros (H1 & H2 & [] & [] & Hc & _). unfold iceMsgJSON, jstr, jint.
  assert (G : foldr (fun x P => wf x /\ P) True (candJSON <$> Candidates m) /\
    foldr (fun x P => safe x /\ P) True (candJSON <$> Candidates m) /\
    foldr (fun x d => Z.max (height x) d) 0 (candJSON <$> Candidates m) <= 1).
  { induction Hc as [|c l Hc Hl IH]; [done|]. rewrite fmap_cons. cbn [foldr].
    destruct IH as (? & ? & ?). destruct (candJSON_ok c Hc) as (? & ? & ?). split_and!; try done. lia. }
  destruct G as (G1 & G2 & G3). split_and!.
  - cbn [wf foldr fst snd]. split_and!; try done; try apply Itoa_valid;
      apply valid_ascii; repeat constructor.
  - cbn [safe foldr fst snd]. split_and!; try done; apply Itoa_valid.
  - cbn [height foldr snd] in *. lia.
Qed.

Lemma iceText_roundtrip m : msg_ok m -> decodeIceMsg (iceText m) = Some m.
Proof.
  intros Hm. destruct (iceMsgJSON_ok m Hm) as (W & _ & D). unfold decodeIceMsg, iceText.
  rewrite unmarshal_marshal by (try done; unfold maxNestingDepth; lia). cbn [mbind option_bind].
  destruct Hm as (H1 & H2 & H3 & H4 & Hc & Hman). destruct m as [src dst pwd uf cs man].
  cbn [SrcID msg_DestID Password Ufrag Candidates Manual] in *. subst man.
  unfold iceMsgJSON, emptyMsg. cbn [foldl SrcID msg_DestID Password Ufrag Candidates].
  do 5 next_field. rewrite mapM_decodeCand by done. done.
Qed.

(** The text as a string inside another message. *)
Lemma iceText_string m :
  msg_ok m -> wf (JStr (iceText m)) /\ safe (JStr (iceText m)).
Proof.
  intros Hm. destruct (iceMsgJSON_ok m Hm) as (W & S & _).
  split; [by apply valid_Marshal|by apply safe_Marshal].
Qed.
