(* ===== verification/IceSignal.v ===== *)
(** * Signalling between two ICE peers

    How the credentials and candidates of [internal/adapter/icepeer.go] get
    from one peer to the other: the system of two peers and the message
    channels between them, its invariant, and the theorem that the exchange
    always converges. *)

From stdpp Require Import pretty.
From Stdlib Require Import Ascii.
From S2P Require Import Prelude GoLib PeerMgr IcePeer.

(** ** The exchange of credentials between two peers

    Two peers and the FAF clients between them, which carry each message to
    the other side in order.  A side is its peer, the messages on their way to
    it and what it did other than sending. *)

Record Side := MkSide { s_peer : ICEPeer; s_net : list fafIceMsg; s_log : list IceAction }.

Definition signals (acts : list IceAction) : list fafIceMsg :=
  omap (fun a => match a with ASignal m => Some m | _ => None end) acts.
Definition others (acts : list IceAction) : list IceAction :=
  List.filter (fun a => match a with ASignal _ => false | _ => true end) acts.

(** The events up to the connection attempt. *)
Definition signalling (ev : RunEv) : Prop :=
  match ev with
  | REGathered | REGatherTimeout | RERemoteMsg | RESignalTimeout => True
  | _ => False
  end.

Section Handshake.
Variable UnmarshalCandidate : string -> option Candidate.

(** A step of the first side of the pair. *)
Inductive side_step (ag : Agent) : Side * Side -> Side * Side -> Prop :=
| side_run ev x y p acts :
    signalling ev -> run_step UnmarshalCandidate ag ev (s_peer x) = Some (p, acts) ->
    side_step ag (x, y) (MkSide p (s_net x) (s_log x ++ others acts),
                         MkSide (s_peer y) (s_net y ++ signals acts) (s_log y))
| side_deliver x y m rest p acts err :
    s_net x = m :: rest -> HandleIceMsg (Some m) (s_peer x) = (p, acts, err) ->
    side_step ag (x, y) (MkSide p rest (s_log x ++ others acts), y).

Definition sig_step (agA agB : Agent) (s s' : Side * Side) : Prop :=
  side_step agA s s' \/ side_step agB (s.2, s.1) (s'.2, s'.1).

Definition phase (x : Side) : RunPhase := runPhase (ip_dyn (s_peer x)).

(** The connection attempt with the credentials of [m]. *)
Definition connect_with (m : fafIceMsg) (p : ICEPeer) : IceAction :=
  AConnect (ip_Offerer p) (Ufrag m) (Password m)
    (omap (fafCandToICE UnmarshalCandidate) (Candidates m)).

(** The invariant of one side; [m] is the only message of the other. *)
Record side_ok (m : fafIceMsg) (p0 : ICEPeer) (x : Side) : Prop := {
  so_mail : Forall (eq m) (remoteMsg (s_peer x) ++ s_net x);
  so_phase : match phase x with
             | PhGather | PhSignal => remoteUfrag (ip_dyn (s_peer x)) = "" /\ s_log x = []
             | PhConnect => remoteUfrag (ip_dyn (s_peer x)) = Ufrag m /\
                            s_log x = [connect_with m (s_peer x)]
             | _ => False
             end;
  so_same : ip_Offerer (s_peer x) = ip_Offerer p0 /\ ip_localID (s_peer x) = ip_localID p0 /\
            ip_PlayerID (s_peer x) = ip_PlayerID p0 /\
            relayOnly (ip_dyn (s_peer x)) = relayOnly (ip_dyn p0) /\
            sendFirst (ip_dyn (s_peer x)) = sendFirst (ip_dyn p0);
}.

Definition sends (p : ICEPeer) : bool := ip_Offerer p || sendFirst (ip_dyn p).
Definition has_sent (x : Side) : Prop :=
  match phase x with PhSignal => sends (s_peer x) = true | PhConnect => True | _ => False end.
Definition has_mail (x : Side) : Prop :=
  phase x = PhConnect \/ remoteMsg (s_peer x) ++ s_net x <> [].

Lemma fafIceMsgOf_same u w cs (p p0 : ICEPeer) :
  ip_localID p = ip_localID p0 -> ip_PlayerID p = ip_PlayerID p0 ->
  relayOnly (ip_dyn p) = relayOnly (ip_dyn p0) -> fafIceMsgOf u w cs p = fafIceMsgOf u w cs p0.
Proof. unfold fafIceMsgOf. intros E1 E2 E3. by rewrite E1, E2, E3. Qed.

(** More of the same mail keeps a side as it is. *)
Lemma side_ok_mail m p0 y l :
  side_ok m p0 y -> Forall (eq m) l ->
  side_ok m p0 (MkSide (s_peer y) (s_net y ++ l) (s_log y)).
Proof.
  intros [Hm Hp Hs] Hl. split; simpl; [|done|done]. rewrite app_assoc. by apply Forall_app.
Qed.

Lemma has_mail_more y l :
  has_mail y \/ l <> [] -> has_mail (MkSide (s_peer y) (s_net y ++ l) (s_log y)).
Proof.
  unfold has_mail, phase; simpl. rewrite app_assoc. intros [[H|H]|H]; [by left|right..].
  - by intros [? _]%app_nil.
  - by intros [_ ?]%app_nil.
Qed.

Section Step.
Variables (ag : Agent) (u w : string) (p0 q0 : ICEPeer) (my : fafIceMsg).
Hypothesis Hag : ag_creds ag = Some (u, w).
Hypothesis Hcreds : Ufrag my <> "" /\ Password my <> "".
Let mx := fafIceMsgOf u w (ag_cands ag) p0.

(** The message a side sends is always [mx]. *)
Lemma side_message x : side_ok my p0 x -> fafIceMsgOf u w (ag_cands ag) (s_peer x) = mx.
Proof. intros [_ _ (_ & ? & ? & ? & _)]. by apply fafIceMsgOf_same. Qed.

Lemma side_run_ok ev x p acts :
  signalling ev -> run_step UnmarshalCandidate ag ev (s_peer x) = Some (p, acts) ->
  side_ok my p0 x ->
  let x' := MkSide p (s_net x) (s_log x ++ others acts) in
  side_ok my p0 x' /\ Forall (eq mx) (signals acts) /\
  (has_sent x' -> has_sent x \/ signals acts <> []) /\ (has_mail x -> has_mail x').
Proof.
  intros Hev H Hx x'. pose proof (side_message x Hx) as Hmx.
  destruct Hx as [Hm Hp (Ho & Hl & Hi & Hr & Hf)]. unfold run_step in H. unfold phase in Hp.
  destruct (runPhase (ip_dyn (s_peer x))) eqn:Ep; try done.
  - assert (Hev' : ev = REGathered \/ ev = REGatherTimeout) by (destruct ev; auto; done).
    assert (H' : p = set_phase PhSignal (s_peer x) /\
                 acts = if sends (s_peer x) then [ASignal mx] else []).
    { rewrite Hag, Hmx in H. unfold sends. by destruct Hev' as [-> | ->]; simplify_eq. }
    destruct H' as [-> ->]. destruct Hp as [Hu Hlog].
    unfold x', has_sent, has_mail, phase; simpl. rewrite Ep. split_and!.
    + split; simpl; [done| |done]. unfold phase; simpl. rewrite Hlog. by destruct (sends _).
    + destruct (sends _); simpl; repeat constructor.
    + unfold sends; simpl. intros ->. by right.
    + intros [?|?]; [done|by right].
  - rewrite Hag in H. destruct Hp as [Hu Hlog]. destruct ev; try done.
    + destruct (remoteMsg (s_peer x)) as [|m rest] eqn:Er; [done|].
      assert (Em : m = my) by (rewrite Forall_app, Forall_cons in Hm; by destruct Hm as [[] _]).
      subst m. rewrite (fafIceMsgOf_same u w (ag_cands ag) 
        (set_ufrag (Ufrag my) (set_msgs rest (s_peer x))) p0 Hl Hi Hr) in H. fold mx in H.
      simplify_eq. unfold x', has_sent, has_mail, phase; simpl. split_and!.
      * split; simpl; [by apply Forall_app in Hm as [[_ ?]%Forall_cons ?]; apply Forall_app| |done].
        unfold phase; simpl. rewrite Hlog. by destruct (_ || _).
      * destruct (_ || _); simpl; repeat constructor.
      * rewrite Ep. unfold sends. destruct (_ || _); [by left|by right].
      * by left.
    + rewrite Hmx in H. simplify_eq. unfold x', has_sent, has_mail, phase; simpl. split_and!.
      * split; simpl; [done| |done]. unfold phase; simpl. rewrite Ep, Hlog. by destruct (_ || _).
      * destruct (_ || _); simpl; repeat constructor.
      * by left.
      * done.
  - by destruct ev.
Qed.

(** Mail that arrives is queued: it never looks like a restart. *)
Lemma side_deliver_ok x m rest p acts err :
  s_net x = m :: rest -> HandleIceMsg (Some m) (s_peer x) = (p, acts, err) ->
  side_ok my p0 x ->
  let x' := MkSide p rest (s_log x ++ others acts) in
  side_ok my p0 x' /\ (has_sent x' -> has_sent x) /\ has_mail x' /\ remoteMsg p <> [].
Proof.
  intros Hn H [Hm Hp Hs] x'. rewrite Hn in Hm.
  assert (Em : m = my /\ Forall (eq my) (remoteMsg (s_peer x)) /\ Forall (eq my) rest).
  { apply Forall_app in Hm as [? [? ?]%Forall_cons]. by split_and!. }
  destruct Em as (-> & Hq & Hrest). destruct Hcreds as [Hu Hw]. unfold HandleIceMsg in H.
  rewrite !bool_decide_eq_false_2 in H by done. simpl in H.
  assert (Hno : negb (bool_decide (remoteUfrag (ip_dyn (s_peer x)) = "")) &&
                negb (bool_decide (Ufrag my = remoteUfrag (ip_dyn (s_peer x)))) = false).
  { unfold phase in Hp. destruct (runPhase _); try done; destruct Hp as [Hr _]; rewrite Hr; [done..|].
    rewrite (bool_decide_eq_true_2 (Ufrag my = Ufrag my)) by done. apply andb_false_r. }
  rewrite Hno in H.
  assert (Hp' : exists q, p = set_msgs (q ++ [my]) (s_peer x) /\ acts = [] /\ Forall (eq my) q).
  { destruct (_ <? _); simplify_eq; [by eexists|]. eexists; split_and!; [done|done|].
    simpl. by apply Forall_drop. }
  destruct Hp' as (q & -> & -> & Hqq). unfold x', has_sent, has_mail, phase; simpl.
  split_and!; [|done|right|].
  - split; simpl; [|by rewrite app_nil_r|done]. rewrite <- app_assoc.
    apply Forall_app. split; [done|]. by constructor.
  - rewrite <- app_assoc. by destruct q.
  - by destruct q.
Qed.

(** Both sides stay well formed, and a side that has sent its message can
    count on the other one having it. *)
Lemma side_step_ok x y x' y' :
  side_step ag (x, y) (x', y') -> side_ok my p0 x -> side_ok mx q0 y ->
  (has_sent x -> has_mail y) -> (has_sent y -> has_mail x) ->
  side_ok my p0 x' /\ side_ok mx q0 y' /\ (has_sent x' -> has_mail y') /\
  (has_sent y' -> has_mail x').
Proof.
  intros Hs Hx Hy Hxy Hyx. inversion Hs as [ev ? ? p acts Hev Hr|? ? m rest p acts err Hn Hh]; subst.
  - destruct (side_run_ok ev x p acts Hev Hr Hx) as (Hx' & Hsig & Hsent & Hmail).
    split_and!; [done|by apply side_ok_mail|..].
    + intros [H|H]%Hsent; apply has_mail_more; auto.
    + auto.
  - destruct (side_deliver_ok x m rest p acts err Hn Hh Hx) as (Hx' & Hsent & Hmail & _).
    split_and!; auto.
Qed.

(** A side that has gathered, or can, and has mail gets to its connection
    attempt by its own steps. *)
Lemma reach_signal x y :
  side_ok my p0 x ->
  exists x' y', rtc (side_step ag) (x, y) (x', y') /\ phase y' = phase y /\
    (phase x' = PhSignal \/ phase x' = PhConnect).
Proof.
  intros [_ Hp _]. destruct (phase x) eqn:E; try done.
  - do 2 eexists. split.
    + apply rtc_once, (side_run ag REGathered); [done|]. unfold run_step. unfold phase in E.
      rewrite E, Hag. done.
    + split; [done|]. by left.
  - exists x, y. split; [apply rtc_refl|]. auto.
  - exists x, y. split; [apply rtc_refl|]. auto.
Qed.

Lemma take_message x y m rest :
  phase x = PhSignal -> remoteMsg (s_peer x) = m :: rest ->
  exists x' y', side_step ag (x, y) (x', y') /\ phase y' = phase y /\ phase x' = PhConnect.
Proof.
  intros E Er. unfold phase in E. do 2 eexists. split.
  - apply (side_run ag RERemoteMsg); [done|]. unfold run_step. by rewrite E, Er, Hag.
  - done.
Qed.

Lemma HandleIceMsg_phase m p p' acts err :
  HandleIceMsg (Some m) p = (p', acts, err) -> ip_dyn p' = ip_dyn p.
Proof. unfold HandleIceMsg. intros H. repeat case_match; by simplify_eq. Qed.

Lemma reach_connect x y :
  side_ok my p0 x -> phase x = PhSignal \/ phase x = PhConnect -> has_mail x ->
  exists x' y', rtc (side_step ag) (x, y) (x', y') /\ phase y' = phase y /\ phase x' = PhConnect.
Proof.
  intros Hx [Ep|Ep] Hm; [|exists x, y; split; [apply rtc_refl|done]].
  destruct Hm as [Hm|Hm]; [congruence|].
  destruct (remoteMsg (s_peer x)) as [|m rest] eqn:Er.
  - destruct (s_net x) as [|m rest] eqn:En; [done|].
    destruct (HandleIceMsg (Some m) (s_peer x)) as [[p acts] err] eqn:Eh.
    destruct (side_deliver_ok x m rest p acts err En Eh Hx) as (Hx' & _ & _ & Hq).
    apply HandleIceMsg_phase in Eh as Ed. destruct (remoteMsg p) as [|m' rest'] eqn:Er'; [done|].
    destruct (take_message (MkSide p rest (s_log x ++ others acts)) y m' rest') as (x' & y' & Hs & ? & ?).
    { unfold phase in *. simpl. by rewrite Ed. }
    { done. }
    exists x', y'. split; [|done]. eapply rtc_l; [by eapply side_deliver|]. by apply rtc_once.
  - destruct (take_message x y m rest Ep Er) as (x' & y' & Hs & ? & ?).
    exists x', y'. split; [by apply rtc_once|done].
Qed.
End Step.

(** Runs of one side are runs of the pair. *)
Lemma run_first agA agB s s' : rtc (side_step agA) s s' -> rtc (sig_step agA agB) s s'.
Proof. apply rtc_subrel. intros ? ? ?. by left. Qed.

Lemma run_second agA agB a b a' b' :
  rtc (side_step agB) (b, a) (b', a') -> rtc (sig_step agA agB) (a, b) (a', b').
Proof.
  intros H. eapply (rtc_congruence (fun s : Side * Side => (s.2, s.1))) in H; [exact H|].
  intros [] [] ?. by right.
Qed.

Section Pair.
Variables (agA agB : Agent) (ua wa ub wb : string) (a0 b0 : ICEPeer).
Hypothesis HagA : ag_creds agA = Some (ua, wa).
Hypothesis HagB : ag_creds agB = Some (ub, wb).
Hypothesis Hua : ua <> "" /\ wa <> "".
Hypothesis Hub : ub <> "" /\ wb <> "".
Let ma := fafIceMsgOf ua wa (ag_cands agA) a0.
Let mb := fafIceMsgOf ub wb (ag_cands agB) b0.

Record pair_ok (s : Side * Side) : Prop := {
  po_first : side_ok mb a0 s.1;
  po_second : side_ok ma b0 s.2;
  po_sent_first : has_sent s.1 -> has_mail s.2;
  po_sent_second : has_sent s.2 -> has_mail s.1;
}.

Lemma pair_ok_step s s' : sig_step agA agB s s' -> pair_ok s -> pair_ok s'.
Proof.
  destruct s as [a b], s' as [a' b']. intros [H|H] [H1 H2 H3 H4]; simpl in *.
  - destruct (side_step_ok agA ua wa a0 b0 mb HagA Hub a b a' b' H H1 H2 H3 H4) as (? & ? & ? & ?).
    by split.
  - destruct (side_step_ok agB ub wb b0 a0 ma HagB Hua b a b' a' H H2 H1 H4 H3) as (? & ? & ? & ?).
    by split.
Qed.

(** As long as the first side sends first, both can get to their connection
    attempts. *)
Lemma pair_converges s :
  ip_Offerer a0 = true -> pair_ok s ->
  exists s', rtc (sig_step agA agB) s s' /\ pair_ok s' /\
    phase s'.1 = PhConnect /\ phase s'.2 = PhConnect.
Proof.
  intros Hoff Hs. destruct s as [a b].
  destruct (reach_signal agA ua wa a0 mb HagA a b (po_first _ Hs)) as (a1 & b1 & R1 & Eb1 & Ea1).
  apply run_first with (agB := agB) in R1.
  pose proof (rtc_invariant _ _ pair_ok_step _ _ R1 Hs) as Hs1.
  destruct (reach_signal agB ub wb b0 ma HagB b1 a1 (po_second _ Hs1)) as (b2 & a2 & R2 & Ea2 & Eb2).
  apply run_second with (agA := agA) in R2.
  pose proof (rtc_invariant _ _ pair_ok_step _ _ R2 Hs1) as Hs2. rewrite <- Ea2 in Ea1.
  destruct (reach_connect agB ub wb b0 ma HagB Hua b2 a2 (po_second _ Hs2) Eb2)
    as (b3 & a3 & R3 & Ea3 & Eb3).
  { apply (po_sent_first _ Hs2). simpl. unfold has_sent, sends.
    destruct (so_same _ _ _ (po_first _ Hs2)) as (Ho & _). simpl in Ho. rewrite Ho, Hoff.
    by destruct Ea1 as [-> | ->]. }
  apply run_second with (agA := agA) in R3.
  pose proof (rtc_invariant _ _ pair_ok_step _ _ R3 Hs2) as Hs3. rewrite <- Ea3 in Ea1.
  destruct (reach_connect agA ua wa a0 mb HagA Hub a3 b3 (po_first _ Hs3) Ea1)
    as (a4 & b4 & R4 & Eb4 & Ea4).
  { apply (po_sent_second _ Hs3). simpl. unfold has_sent. by rewrite Eb3. }
  apply run_first with (agB := agB) in R4. exists (a4, b4). split_and!.
  - by rewrite R1, R2, R3.
  - by apply (rtc_invariant _ _ pair_ok_step _ _ R4).
  - done.
  - simpl. congruence.
Qed.
End Pair.
End Handshake.

(** ** Lemmas: candidates and the inbox *)

(** The candidate line of a local candidate, as the ICE standard writes it. *)
Definition type_name (t : CandidateType) : string :=
  match t with
  | TypeHost => "host"
  | TypeServerReflexive => "srflx"
  | TypePeerReflexive => "prflx"
  | TypeRelay => "relay"
  end.
Definition cand_line (c : Candidate) : string :=
  (c_Foundation c +:+ " 1 udp " +:+ pretty (c_Priority c) +:+ " " +:+ c_Address c +:+ " " +:+
   pretty (c_Port c) +:+ " typ " +:+ type_name (c_Type c) +:+
   match c_RelatedAddress c with
   | Some (r, port) =>
       if bool_decide (r = "") then "" else " raddr " +:+ r +:+ " rport " +:+ pretty port
   | None => ""
   end)%string.

Lemma string_app_nil_r s : (s +:+ "")%string = s.
Proof. induction s as [|c s IH]; [done|]. exact (f_equal (String c) IH). Qed.

Lemma string_app_assoc' (a b c : string) : ((a +:+ b) +:+ c = a +:+ (b +:+ c))%string.
Proof. induction a as [|x a IH]; [done|]. exact (f_equal (String x) IH). Qed.

Lemma fafCandLine_own c i : fafCandLine (iceToFAFCand c i) = Some (cand_line c).
Proof.
  unfold fafCandLine, iceToFAFCand, cand_line. cbn [cand_Type Foundation Protocol Priority cand_IP
    cand_Port RelAddr RelPort].
  assert (Ht : candType (match c_Type c with
             | TypeServerReflexive => "SERVER_REFLEXIVE_CANDIDATE"
             | TypePeerReflexive => "PEER_REFLEXIVE_CANDIDATE"
             | TypeRelay => "RELAYED_CANDIDATE"
             | TypeHost => "HOST_CANDIDATE"
             end) = Some (type_name (c_Type c))) by by destruct (c_Type c).
  rewrite Ht. cbn [mbind option_bind]. f_equal.
  change (ToLower "udp") with "udp"%string.
  destruct (c_RelatedAddress c) as [[r port]|]; simpl.
  - destruct (bool_decide (r = "")); rewrite ?string_app_nil_r; [done|].
    by rewrite !string_app_assoc'.
  - by rewrite string_app_nil_r.
Qed.

(** The candidates a peer advertises. *)
Definition advertised (cands : list Candidate) (p : ICEPeer) : list Candidate :=
  filter (fun c => relayOnly (ip_dyn p) = false \/ c_Type c = TypeRelay) cands.

Lemma candidates_advertised Unm u w cands p :
  Forall (fun c => Unm (cand_line c) = Some c) cands ->
  omap (fafCandToICE Unm) (Candidates (fafIceMsgOf u w cands p)) = advertised cands p.
Proof.
  unfold fafIceMsgOf, advertised. cbn [Candidates].
  set (f := fun (i : nat) (c : Candidate) => (Z.of_nat i, c)).
  enough (H : forall g, Forall (fun c => Unm (cand_line c) = Some c) cands ->
    omap (fafCandToICE Unm) (omap (fun '(i, c) =>
      if relayOnly (ip_dyn p) && negb (bool_decide (c_Type c = TypeRelay)) then None
      else Some (iceToFAFCand c i)) (imap (fun i c => (Z.of_nat (g i), c)) cands)) =
    filter (fun c => relayOnly (ip_dyn p) = false \/ c_Type c = TypeRelay) cands)
    by (intros; by apply (H id)).
  induction cands as [|c cands IH]; intros g HF; [done|]. apply Forall_cons in HF as [Hc HF].
  rewrite imap_cons, filter_cons. cbn [omap list_omap].
  specialize (IH (g ∘ S) HF). unfold compose in IH.
  destruct (relayOnly (ip_dyn p) && negb (bool_decide (c_Type c = TypeRelay))) eqn:Eb.
  - rewrite decide_False; [exact IH|]. apply andb_prop in Eb as [E1 E2].
    apply negb_true_iff, bool_decide_eq_false in E2. intros [?|?]; congruence.
  - rewrite decide_True; [|destruct (relayOnly _); [right|by left]].
    2: { simpl in Eb. by apply negb_false_iff, bool_decide_eq_true in Eb. }
    cbn [omap list_omap]. unfold fafCandToICE at 1. rewrite fafCandLine_own.
    cbn [mbind option_bind]. rewrite Hc. f_equal. exact IH.
Qed.

(** Messages that carry credentials and do not look like a restart. *)
Definition plain_msg (p : ICEPeer) (m : fafIceMsg) : Prop :=
  Ufrag m <> "" /\ Password m <> "" /\
  (remoteUfrag (ip_dyn p) = "" \/ Ufrag m = remoteUfrag (ip_dyn p)).

Definition deliver (p : ICEPeer) (m : fafIceMsg) : ICEPeer := (HandleIceMsg (Some m) p).1.1.

Lemma HandleIceMsg_plain p m :
  plain_msg p m ->
  HandleIceMsg (Some m) p =
  (set_msgs ((if len (remoteMsg p) <? remoteMsgCap then remoteMsg p else drop 1 (remoteMsg p)) ++ [m]) p,
   [], false).
Proof.
  intros (Hu & Hw & Hr). unfold HandleIceMsg. rewrite !bool_decide_eq_false_2 by done. cbn [orb].
  replace (negb _ && _) with false; [by destruct (_ <? _)|].
  destruct Hr as [-> |Hr]; [done|]. by rewrite (bool_decide_eq_true_2 (Ufrag m = _) Hr), andb_false_r.
Qed.

(** ** Theorems *)

(** The inbox keeps the newest credentials: after any sequence of messages
    that are not restarts it holds the last four. *)
Theorem inbox_keeps_newest (p : ICEPeer) (msgs : list fafIceMsg) :
  len (remoteMsg p) <= remoteMsgCap -> Forall (plain_msg p) msgs ->
  let all := remoteMsg p ++ msgs in
  remoteMsg (foldl deliver p msgs) = drop (length all - 4) all.
Proof.
  revert p. induction msgs as [|m msgs IH]; intros p Hl HF all.
  { unfold all. rewrite app_nil_r. simpl. unfold remoteMsgCap in Hl.
    by replace (length (remoteMsg p) - 4)%nat with 0%nat by lia. }
  apply Forall_cons in HF as [Hm HF]. simpl. unfold deliver at 2.
  rewrite HandleIceMsg_plain by done. simpl. unfold remoteMsgCap in *.
  destruct (Z.ltb_spec (len (remoteMsg p)) 4) as [Hlt|Hge].
  - rewrite IH; simpl; [by rewrite <- app_assoc|rewrite length_app; simpl; lia|done].
  - rewrite IH; simpl; [|rewrite length_app, length_drop; simpl; lia|done]. unfold all.
    rewrite <- app_assoc, <- drop_app_le by lia. rewrite drop_drop, !length_drop, !length_app.
    simpl. f_equal. lia.
Qed.

(** A started peer that has not received anything yet. *)
Definition waiting (off : bool) (p : ICEPeer) : Prop :=
  ip_Offerer p = off /\ runPhase (ip_dyn p) = PhGather /\ remoteUfrag (ip_dyn p) = "" /\
  remoteMsg p = [].

Lemma waiting_ok Unm m off p : waiting off p -> side_ok Unm m p (MkSide p [] []).
Proof.
  intros (Ho & Hp & Hu & Hm). split; [by simpl; rewrite Hm; constructor| |done].
  unfold phase; simpl. by rewrite Hp.
Qed.

Lemma side_ok_log Unm m p0 x :
  side_ok Unm m p0 x ->
  s_log x = [] \/
  s_log x = [AConnect (ip_Offerer p0) (Ufrag m) (Password m) (omap (fafCandToICE Unm) (Candidates m))].
Proof.
  intros [_ Hp (Ho & _)]. destruct (phase x); try done; destruct Hp as [_ ->]; [by left..|right].
  unfold connect_with. by rewrite Ho.
Qed.

(** C8. The exchange of credentials cannot get stuck or go wrong.  In every
    interleaving of an offerer's and an answerer's steps, timeouts and repeated
    messages included, no restart is triggered, a side that starts connecting
    does so once, with the other side's credentials and exactly the candidates
    the other side advertises, and both sides can still get there. *)
Theorem signalling_converges (Unm : string -> option Candidate) (pa pb : ICEPeer)
    (ua wa ub wb : string) (ca cb : list Candidate) (s : Side * Side) :
  ua <> "" -> wa <> "" -> ub <> "" -> wb <> "" -> waiting true pa -> waiting false pb ->
  Forall (fun c => Unm (cand_line c) = Some c) (ca ++ cb) ->
  let agA := MkAgent (Some (ua, wa)) ca in
  let agB := MkAgent (Some (ub, wb)) cb in
  rtc (sig_step Unm agA agB) (MkSide pa [] [], MkSide pb [] []) s ->
  let dial := AConnect true ub wb (advertised cb pb) in
  let accept := AConnect false ua wa (advertised ca pa) in
  (s_log s.1 = [] \/ s_log s.1 = [dial]) /\ (s_log s.2 = [] \/ s_log s.2 = [accept]) /\
  exists s', rtc (sig_step Unm agA agB) s s' /\ s_log s'.1 = [dial] /\ s_log s'.2 = [accept].
Proof.
  intros Hua Hwa Hub Hwb HA HB [HcA HcB]%Forall_app agA agB Hr dial accept.
  set (ok := pair_ok Unm agA agB ua wa ub wb pa pb).
  assert (Hstep : forall x y, sig_step Unm agA agB x y -> ok x -> ok y)
    by (intros x y; by apply pair_ok_step).
  assert (Hs : ok s).
  { apply (rtc_invariant _ _ Hstep _ _ Hr). split; simpl.
    - by apply (waiting_ok _ _ true).
    - by apply (waiting_ok _ _ false).
    - unfold has_sent, phase; simpl. destruct HA as (_ & -> & _). done.
    - unfold has_sent, phase; simpl. destruct HB as (_ & -> & _). done. }
  assert (Hlog : forall x, ok x ->
    (s_log x.1 = [] \/ s_log x.1 = [dial]) /\ (s_log x.2 = [] \/ s_log x.2 = [accept])).
  { intros x [H1 H2 _ _]. apply side_ok_log in H1, H2. destruct HA as (EA & _), HB as (EB & _).
    rewrite EA, candidates_advertised in H1 by done. by rewrite EB, candidates_advertised in H2. }
  destruct (Hlog s Hs). split_and!; [done|done|].
  destruct (pair_converges Unm agA agB ua wa ub wb pa pb eq_refl eq_refl (conj Hua Hwa)
              (conj Hub Hwb) s (proj1 HA) Hs) as (s' & Hr' & Hs' & E1 & E2).
  exists s'. split; [done|]. destruct (Hlog s' Hs') as [L1 L2].
  pose proof (so_phase _ _ _ _ (po_first _ _ _ _ _ _ _ _ _ _ Hs')) as P1. rewrite E1 in P1.
  pose proof (so_phase _ _ _ _ (po_second _ _ _ _ _ _ _ _ _ _ Hs')) as P2. rewrite E2 in P2.
  destruct P1 as [_ P1], P2 as [_ P2]. rewrite P1, P2 in *. split.
  - by destruct L1.
  - by destruct L2.
Qed.

Definition demo_cand : Candidate := MkCandidate TypeHost "f1" 2130706431 "10.0.0.1" 5000 None.
Definition demo_unmarshal (s : string) : option Candidate :=
  if bool_decide (s = cand_line demo_cand) then Some demo_cand else None.
Definition demo_waiting (off : bool) : ICEPeer :=
  iceStart (MkICE 0 8 "b" off 7 0 true None [] 1 new_dyn).

Lemma signalling_converges_witness :
  let agA := MkAgent (Some ("ua", "wa")) [demo_cand] in
  let agB := MkAgent (Some ("ub", "wb")) [] in
  let s := (MkSide (demo_waiting true) [] [], MkSide (demo_waiting false) [] []) in
  let dial := AConnect true "ub" "wb" [] in
  let accept := AConnect false "ua" "wa" [demo_cand] in
  (s_log s.1 = [] \/ s_log s.1 = [dial]) /\ (s_log s.2 = [] \/ s_log s.2 = [accept]) /\
  exists s', rtc (sig_step demo_unmarshal agA agB) s s' /\ s_log s'.1 = [dial] /\
    s_log s'.2 = [accept].
Proof.
  intros agA agB s dial accept.
  apply (signalling_converges demo_unmarshal (demo_waiting true) (demo_waiting false)
           "ua" "wa" "ub" "wb" [demo_cand] []); try done.
  constructor; [by vm_compute|constructor].
Defined.
