(* ===== verification/IceRestart.v ===== *)
(** * [iceRestartCallback] of [internal/adapter/rpchandler.go]

    The callback that replaces an ICE peer when its connection fails, when the
    remote side sends new credentials or when the user asks for it.  Several
    runs of it can be under way at once: each is cut at the points where
    another goroutine can come in between (the mutex of the shared variables,
    the lock of the peer manager, the backoff sleep), and a step relation
    interleaves them with everything else that changes the peer. *)

From S2P Require Import Prelude GoLib PeerMgr IcePeer.

(** What the FAF client is told. *)
Inductive FafNote :=
| NoteIceState (localID remoteID : Z) (state : string)
| NoteConnected (localID remoteID : Z) (connected : bool)
| NoteIceMsg (remoteID : Z) (msg : fafIceMsg).

(** The variables the closure captures. *)
Record Closure := MkClosure {
  consecutiveFailures : Z; sinceConnectedSnapshot : Z; lastConnectedAt : Z }.
Definition new_closure : Closure := MkClosure 0 0 Time.zero.

Definition stableAfter : Z := 60 * Time.Second.
Definition shortBelow : Z := 45 * Time.Second.
Definition maxRestarts : Z := 5.

(** The section under the mutex; the result is the closure and the local
    copies [localCF] and [localSnapshot]. *)
Definition elapsed (msg : fafIceMsg) (now : Z) (c : Closure) : Z :=
  if negb (Time.IsZero (lastConnectedAt c)) then Time.Sub now (lastConnectedAt c)
  else if Manual msg then 0 else sinceConnectedSnapshot c.
Definition cbProtected (msg : fafIceMsg) (now : Z) (c : Closure) : Closure * Z * Z :=
  let cf := if Manual msg then 0 else consecutiveFailures c in
  let snap := elapsed msg now c in
  let '(cf, snap) := if stableAfter <=? snap then (0, 0) else (cf, snap) in
  let cf := cf + 1 in
  (MkClosure cf snap Time.zero, cf, snap).

(** [time.Duration(1<<localCF) * 500 * time.Millisecond], capped. *)
Definition backoff (localCF : Z) : Z :=
  let b := i64 (i64 (Z.shiftl 1 localCF) * 500 * Time.Millisecond) in
  if 16 * Time.Second <? b then 16 * Time.Second else b.

(** The points at which a run of the callback can be: about to enter the
    protected section; about to look up the peer before its backoff of [wait]; in
    the backoff, with the peer it saw; about to call [ReplaceICEPeer]; about to
    configure and start the new peer.  [gen] counts, for the theorems only,
    the changes of the registered peer seen so far. *)
Inductive Pending :=
| PBegin (msg : fafIceMsg)
| PSnap (wait snap : Z)
| PSleep (snap : Z) (peerBefore : option nat) (gen : nat)
| PReplace (snap : Z) (msg : fafIceMsg)
| PStart (ptr : nat) (shortLived selfInitiated : bool).

(** [w_gen], [w_replaced] and [w_resets] are counters the code does not have:
    changes of the registered peer, calls of [ReplaceICEPeer] by the callback,
    and resets of the failure counter. *)
Record World := MkWorld {
  w_pm : PeerManager;
  w_clo : Closure;
  w_notes : list FafNote;
  w_gen : nat;
  w_replaced : nat;
  w_resets : nat;
}.

Section Callback.
(** The arguments of [iceRestartCallback] and the adapter's own identifier. *)
Variables (playerID pid : Z) (login : string) (offerer : bool).

Definition selfInitiated (msg : fafIceMsg) : bool := bool_decide (Ufrag msg = "").

Definition resets (msg : fafIceMsg) (now : Z) (c : Closure) : bool :=
  Manual msg || (stableAfter <=? elapsed msg now c).

(** From the start of the callback to the end of the protected section and
    the limit on restarts. *)
Definition cbBegin (msg : fafIceMsg) (now : Z) (w : World) : World * list Pending :=
  let notes := w_notes w ++ [NoteIceState playerID pid "Disconnected";
                             NoteConnected playerID pid false] in
  let '(c, localCF, localSnapshot) := cbProtected msg now (w_clo w) in
  let w' := MkWorld (w_pm w) c notes (w_gen w) (w_replaced w)
              (w_resets w + if resets msg now (w_clo w) then 1 else 0) in
  (w', if maxRestarts <? localCF then []
       else if selfInitiated msg && negb (Manual msg) then [PSnap (backoff localCF) localSnapshot]
       else [PReplace localSnapshot msg]).

(** [peerBefore := h.adapter.peerMgr.GetICEPeer(pid)] *)
Definition cbSnap (snap : Z) (w : World) : list Pending :=
  [PSleep snap (ip_ptr <$> GetICEPeer pid (w_pm w)) (w_gen w)].

(** The end of the backoff: the checks on [peerAfter]. *)
Definition cbWake (snap : Z) (peerBefore : option nat) (w : World) : list Pending :=
  match ip_ptr <$> GetICEPeer pid (w_pm w) with
  | None => []
  | Some after =>
      if bool_decide (Some after = peerBefore) then [PReplace snap emptyMsg] else []
  end.

(** The callbacks that closing a peer sets off. *)
Definition spawned (acts : list IceAction) : list Pending :=
  omap (fun a => match a with ARestart m => Some (PBegin m) | _ => None end) acts.
Definition closing (pm : PeerManager) : list Pending :=
  match GetICEPeer pid pm with Some old => spawned (iceShutdown old).2 | None => [] end.

(** [ReplaceICEPeer] by the callback. *)
Definition cbReplace (env : PeerEnv) (snap : Z) (msg : fafIceMsg) (w : World)
    : World * list Pending :=
  let self := selfInitiated msg in
  let shortLived := (0 <? snap) && (snap <? shortBelow) in
  let '(pm, new) :=
    ReplaceICEPeer env pid login offerer (if self then None else Some msg) (w_pm w) in
  (MkWorld pm (w_clo w) (w_notes w) (S (w_gen w)) (S (w_replaced w)) (w_resets w),
   closing (w_pm w) ++
   match new with Some p => [PStart (ip_ptr p) shortLived self] | None => [] end).

(** The configuration of the new peer and its start. *)
Definition configure (shortLived self : bool) (p : ICEPeer) : ICEPeer :=
  let p := if shortLived then SetRelayOnly p else p in
  let p := if self && negb offerer then SetSendFirst p else p in
  iceStart p.
Definition cbStart (ptr : nat) (shortLived self : bool) (w : World) : World :=
  MkWorld (with_ice (alter (fun p => if bool_decide (ip_ptr p = ptr)
                                     then configure shortLived self p else p) pid) (w_pm w))
    (w_clo w) (w_notes w) (w_gen w) (w_replaced w) (w_resets w).

(** [wrappedOnConnected] *)
Definition cbConnected (now : Z) (w : World) : World :=
  MkWorld (w_pm w) (MkClosure (consecutiveFailures (w_clo w)) (sinceConnectedSnapshot (w_clo w)) now)
    (w_notes w ++ [NoteIceState playerID pid "Connected"; NoteConnected playerID pid true])
    (w_gen w) (w_replaced w) (w_resets w).

Definition set_pm (pm : PeerManager) (w : World) : World :=
  MkWorld pm (w_clo w) (w_notes w) (w_gen w) (w_replaced w) (w_resets w).
Definition next_gen (w : World) : World :=
  MkWorld (w_pm w) (w_clo w) (w_notes w) (S (w_gen w)) (w_replaced w) (w_resets w).

(** A run of the callback moves on. *)
Inductive cb_step : World * list Pending -> World * list Pending -> Prop :=
| cs_begin msg now w ps1 ps2 :
    let r := cbBegin msg now w in
    cb_step (w, ps1 ++ PBegin msg :: ps2) (r.1, ps1 ++ r.2 ++ ps2)
| cs_snap wait snap w ps1 ps2 :
    cb_step (w, ps1 ++ PSnap wait snap :: ps2) (w, ps1 ++ cbSnap snap w ++ ps2)
| cs_wake snap before gen w ps1 ps2 :
    cb_step (w, ps1 ++ PSleep snap before gen :: ps2) (w, ps1 ++ cbWake snap before w ++ ps2)
| cs_replace env snap msg w ps1 ps2 :
    let r := cbReplace env snap msg w in
    cb_step (w, ps1 ++ PReplace snap msg :: ps2) (r.1, ps1 ++ r.2 ++ ps2)
| cs_start ptr short self w ps1 ps2 :
    cb_step (w, ps1 ++ PStart ptr short self :: ps2) (cbStart ptr short self w, ps1 ++ ps2).

(** The environment acts.  The agent may report any failure and the remote
    side or the user any restart ([es_trigger]); the adapter shuts down during
    a backoff; the connection comes up; the peer runs ([es_peer], any change of
    it that keeps its identity); the RPC handlers add, replace or remove the
    peer. *)
Inductive env_step : World * list Pending -> World * list Pending -> Prop :=
| es_trigger msg w ps : env_step (w, ps) (w, ps ++ [PBegin msg])
| es_cancel snap before gen w ps1 ps2 :
    env_step (w, ps1 ++ PSleep snap before gen :: ps2) (w, ps1 ++ ps2)
| es_connected now w ps : env_step (w, ps) (cbConnected now w, ps)
| es_peer f w ps :
    (forall p, ip_ptr (f p) = ip_ptr p) ->
    env_step (w, ps) (set_pm (with_ice (alter f pid) (w_pm w)) w, ps)
| es_replace env off msg w ps :
    env_step (w, ps)
      (next_gen (set_pm (ReplaceICEPeer env pid login off msg (w_pm w)).1 w), ps ++ closing (w_pm w))
| es_remove w ps :
    env_step (w, ps) (next_gen (set_pm (RemovePeer pid (w_pm w)) w), ps ++ closing (w_pm w))
| es_add env off w ps :
    GetICEPeer pid (w_pm w) = None ->
    env_step (w, ps) (next_gen (set_pm (AddICEPeer env pid login off (w_pm w)).1 w), ps).

Definition world_step (s s' : World * list Pending) : Prop := cb_step s s' \/ env_step s s'.

Definition start_world (pm : PeerManager) : World * list Pending :=
  (MkWorld pm new_closure [] 0 0 0, []).

(** ** The limit on restarts *)

(** The runs of the callback that have passed the limit and not yet called
    [ReplaceICEPeer]. *)
Definition live (p : Pending) : nat :=
  match p with PSnap _ _ | PSleep _ _ _ | PReplace _ _ => 1 | _ => 0 end.

Definition within_limit (s : World * list Pending) : Prop :=
  let '(w, ps) := s in
  0 <= consecutiveFailures (w_clo w) /\
  Z.of_nat (sum_list_with live ps + w_replaced w) <=
    maxRestarts * Z.of_nat (w_resets w) + Z.min maxRestarts (consecutiveFailures (w_clo w)).

Lemma live_spawned acts : sum_list_with live (spawned acts) = 0%nat.
Proof. induction acts as [|[] acts IH]; done. Qed.

Lemma live_closing pm : sum_list_with live (closing pm) = 0%nat.
Proof. unfold closing. destruct (GetICEPeer pid pm); [apply live_spawned|done]. Qed.

Lemma cbBegin_limit msg now w :
  let r := cbBegin msg now w in
  0 <= consecutiveFailures (w_clo w) ->
  w_replaced r.1 = w_replaced w /\ 0 <= consecutiveFailures (w_clo r.1) /\
  Z.of_nat (sum_list_with live r.2) + maxRestarts * Z.of_nat (w_resets w) +
    Z.min maxRestarts (consecutiveFailures (w_clo w)) <=
  maxRestarts * Z.of_nat (w_resets r.1) + Z.min maxRestarts (consecutiveFailures (w_clo r.1)).
Proof.
  intros r Hcf. unfold r, cbBegin, cbProtected, resets, maxRestarts. simpl.
  destruct (stableAfter <=? elapsed msg now (w_clo w)) eqn:Es, (Manual msg) eqn:Em; simpl;
    (split; [done|split; [lia|]]); try lia.
  all: try (destruct (selfInitiated msg); simpl; lia).
  destruct (Z.ltb_spec 5 (consecutiveFailures (w_clo w) + 1)); simpl; [lia|].
  destruct (selfInitiated msg); simpl; lia.
Qed.

Lemma within_limit_step s s' : world_step s s' -> within_limit s -> within_limit s'.
Proof.
  destruct 1 as [[]|[]]; intros [Hc Hl]; unfold within_limit; rewrite ?sum_list_with_app in *;
    simpl in *; rewrite ?live_closing in *; try (split; [done|simpl in *; lia]).
  - destruct (cbBegin_limit msg now w Hc) as (E1 & E2 & E3). fold r in E1, E2, E3.
    destruct r as [w' ps]. simpl in *. rewrite ?sum_list_with_app. split; [done|lia].
  - split; [done|]. unfold cbWake. repeat case_match; simpl; lia.
  - unfold r, cbReplace. destruct (ReplaceICEPeer _ _ _ _ _ _) as [pm new]. simpl. split; [done|].
    rewrite ?sum_list_with_app, ?live_closing. destruct new; simpl; lia.
Qed.

(** ** Identity of the peers *)

Lemma ReplaceICEPeer_fresh env off msg pm pm' new :
  ReplaceICEPeer env pid login off msg pm = (pm', new) ->
  GetICEPeer pid pm' = new /\ (pm_nextPtr pm <= pm_nextPtr pm')%nat /\
  match new with
  | Some p => ip_ptr p = pm_nextPtr pm /\ (ip_ptr p < pm_nextPtr pm')%nat /\ ip_Offerer p = off /\
              remoteMsg p = option_list msg /\ ip_dyn p = new_dyn
  | None => True
  end.
Proof.
  unfold ReplaceICEPeer, NewICEPeer, GetICEPeer, iceClose. intros H.
  destruct (pm_ice pm !! pid) as [old|] eqn:E; [|destruct (bindOk env)];
    cbn [ownsConn disown negb] in H; [destruct (_ && _)..|]; cbn in H.
  - destruct (0 <? ip_AddedOrder old); simplify_eq; simpl; rewrite lookup_insert_eq;
      destruct (ip_gameAddr old), msg; simpl; split_and!; try done; lia.
  - simplify_eq. simpl. rewrite lookup_delete_eq. split_and!; [done|lia|done].
  - simplify_eq. simpl. rewrite lookup_insert_eq. destruct msg; simpl; split_and!; try done; lia.
  - simplify_eq. simpl. split_and!; [done|lia|done].
  - simplify_eq. split_and!; [done|lia|done].
Qed.

Lemma ReplaceICEPeer_succeeds off msg pm :
  exists p, (ReplaceICEPeer all_ok pid login off msg pm).2 = Some p.
Proof.
  unfold ReplaceICEPeer, NewICEPeer. destruct (pm_ice pm !! pid); simpl; [|by eexists].
  destruct (0 <? _); by eexists.
Qed.

Lemma RemovePeer_fresh pm :
  GetICEPeer pid (RemovePeer pid pm) = None /\ pm_nextPtr (RemovePeer pid pm) = pm_nextPtr pm.
Proof.
  unfold RemovePeer, GetICEPeer, iceClose.
  destruct (pm_peers pm !! pid); simpl; destruct (pm_ice pm !! pid) as [q|] eqn:E;
    try destruct (ownsConn q); simpl; rewrite ?lookup_delete_eq; done.
Qed.

Lemma AddICEPeer_fresh env off pm :
  GetICEPeer pid pm = None ->
  let pm' := (AddICEPeer env pid login off pm).1 in
  (pm_nextPtr pm <= pm_nextPtr pm')%nat /\
  forall p, GetICEPeer pid pm' = Some p ->
    ip_ptr p = pm_nextPtr pm /\ (ip_ptr p < pm_nextPtr pm')%nat.
Proof.
  unfold GetICEPeer, AddICEPeer, NewICEPeer. intros E. rewrite E.
  destruct (bindOk env); simpl; [destruct (_ && _)|]; simpl.
  - rewrite lookup_insert_eq. split; [lia|]. intros p [= <-]. simpl. lia.
  - split; [lia|]. intros p Hp. congruence.
  - split; [lia|]. intros p Hp. congruence.
Qed.

(** A sleeping run holds a peer that existed; once the registered peer has
    changed, it is another one. *)
Definition sleep_ok (w : World) (p : Pending) : Prop :=
  match p with
  | PSleep _ before gen =>
      (gen <= w_gen w)%nat /\ (forall b, before = Some b -> b < pm_nextPtr (w_pm w))%nat /\
      ((gen < w_gen w)%nat -> forall q, GetICEPeer pid (w_pm w) = Some q -> before <> Some (ip_ptr q))
  | _ => True
  end.
Definition fresh_ok (s : World * list Pending) : Prop :=
  (forall q, GetICEPeer pid (w_pm s.1) = Some q -> (ip_ptr q < pm_nextPtr (w_pm s.1))%nat) /\
  Forall (sleep_ok s.1) s.2.

(** A change of the registered peer to a new one or to none. *)
Definition changed (w w' : World) : Prop :=
  w_gen w' = S (w_gen w) /\ (pm_nextPtr (w_pm w) <= pm_nextPtr (w_pm w'))%nat /\
  forall q, GetICEPeer pid (w_pm w') = Some q ->
    (pm_nextPtr (w_pm w) <= ip_ptr q < pm_nextPtr (w_pm w'))%nat.
(** A change that keeps its identity. *)
Definition kept (w w' : World) : Prop :=
  w_gen w' = w_gen w /\ pm_nextPtr (w_pm w') = pm_nextPtr (w_pm w) /\
  ip_ptr <$> GetICEPeer pid (w_pm w') = ip_ptr <$> GetICEPeer pid (w_pm w).

Lemma fresh_ok_changed w w' ps ps' :
  changed w w' -> fresh_ok (w, ps) -> Forall (fun p => p ∈ ps \/ sleep_ok w' p) ps' ->
  fresh_ok (w', ps').
Proof.
  intros (Hg & Hn & Hq) [Hc Hs] Hps. split; simpl in *.
  - intros q Hlk. apply (Hq q Hlk).
  - eapply Forall_impl; [exact Hps|]. intros p [Hin|H]; [|exact H].
    rewrite Forall_forall in Hs. specialize (Hs p Hin). destruct p; try done. simpl in *.
    destruct Hs as (H1 & H2 & H3). split_and!; [lia| |].
    + intros b Hb. specialize (H2 b Hb). lia.
    + intros _ q Hlk Heq. specialize (H2 _ Heq). specialize (Hq q Hlk). lia.
Qed.

Lemma fresh_ok_kept w w' ps ps' :
  kept w w' -> fresh_ok (w, ps) -> Forall (fun p => p ∈ ps \/ sleep_ok w' p) ps' ->
  fresh_ok (w', ps').
Proof.
  intros (Hg & Hn & Hq) [Hc Hs] Hps.
  assert (Hback : forall q, GetICEPeer pid (w_pm w') = Some q ->
    exists q0, GetICEPeer pid (w_pm w) = Some q0 /\ ip_ptr q0 = ip_ptr q).
  { intros q Hlk. rewrite Hlk in Hq. simpl in Hq.
    destruct (GetICEPeer pid (w_pm w)) as [q0|]; simplify_eq/=. by exists q0. }
  split; simpl in *.
  - intros q (q0 & Hlk & E)%Hback. specialize (Hc q0 Hlk). lia.
  - eapply Forall_impl; [exact Hps|]. intros p [Hin|H]; [|exact H].
    rewrite Forall_forall in Hs. specialize (Hs p Hin). destruct p; try done. simpl in *.
    destruct Hs as (H1 & H2 & H3). rewrite Hg, Hn. split_and!; [done|done|].
    intros Hlt q (q0 & Hlk & E)%Hback. rewrite <- E. by apply H3.
Qed.

Lemma kept_refl w : kept w w.
Proof. done. Qed.

Lemma closing_ok w pm (ps : list Pending) : Forall (fun p => p ∈ ps \/ sleep_ok w p) (closing pm).
Proof.
  unfold closing. destruct (GetICEPeer pid pm) as [q|]; [|constructor]. apply Forall_forall.
  intros p Hp. right. apply list_elem_of_omap in Hp as ([] & _ & E); simplify_eq. done.
Qed.

Lemma alter_ptr f pm :
  (forall p, ip_ptr (f p) = ip_ptr p) ->
  ip_ptr <$> GetICEPeer pid (with_ice (alter f pid) pm) = ip_ptr <$> GetICEPeer pid pm.
Proof.
  intros Hf. unfold GetICEPeer; simpl. rewrite lookup_alter_eq.
  destruct (pm_ice pm !! pid); simpl; [by rewrite Hf|done].
Qed.

Lemma configure_ptr short self p : ip_ptr (configure short self p) = ip_ptr p.
Proof. unfold configure, iceStart. destruct short, (self && negb offerer); simpl; by case_match. Qed.

(** Pending runs other than the one that moves. *)
Lemma Forall_in_rest (w : World) (p0 : Pending) ps1 ps2 ps :
  Forall (fun p => p ∈ ps1 ++ p0 :: ps2 \/ sleep_ok w p) ps ->
  Forall (fun p => p ∈ ps1 ++ p0 :: ps2 \/ sleep_ok w p) (ps1 ++ ps ++ ps2).
Proof.
  intros H. rewrite !Forall_app. split_and!; [|done|]; apply Forall_forall; intros p Hp; left;
    set_solver.
Qed.

Lemma Forall_in_all (w : World) (ps ps' : list Pending) :
  Forall (fun p => p ∈ ps \/ sleep_ok w p) ps' -> Forall (fun p => p ∈ ps \/ sleep_ok w p) (ps ++ ps').
Proof. intros H. apply Forall_app. split; [|done]. apply Forall_forall. by left. Qed.

Lemma fresh_ok_cb s s' : cb_step s s' -> fresh_ok s -> fresh_ok s'.
Proof.
  destruct 1; intros Hs.
  - eapply fresh_ok_kept; [|exact Hs|].
    { unfold r, cbBegin. by destruct (cbProtected msg now (w_clo w)) as [[]]. }
    apply Forall_in_rest. unfold r, cbBegin. destruct (cbProtected msg now (w_clo w)) as [[]]; simpl.
    repeat case_match; repeat constructor; by right.
  - eapply fresh_ok_kept; [apply kept_refl|exact Hs|]. apply Forall_in_rest. constructor; [|done].
    right. destruct Hs as [Hc _]. simpl in *. split_and!; [lia| |lia].
    intros b Hb. destruct (GetICEPeer pid (w_pm w)) as [q|]; simplify_eq/=. by apply Hc.
  - eapply fresh_ok_kept; [apply kept_refl|exact Hs|]. apply Forall_in_rest.
    unfold cbWake. repeat case_match; repeat constructor; by right.
  - pose proof (closing_ok r.1 (w_pm w) (ps1 ++ PReplace snap msg :: ps2)) as Hcl.
    unfold r, cbReplace in *. destruct (ReplaceICEPeer _ _ _ _ _ _) as [pm new] eqn:E. simpl in *.
    destruct (ReplaceICEPeer_fresh _ _ _ _ _ _ E) as (Hlk & Hn & Hf).
    eapply fresh_ok_changed; [|exact Hs|]; simpl.
    + split_and!; simpl; [done|done|]. intros q Hq. rewrite Hlk in Hq. rewrite Hq in Hf.
      destruct Hf as (? & ? & _). lia.
    + apply Forall_in_rest, Forall_app. split; [exact Hcl|]. destruct new; [|constructor].
      constructor; [by right|constructor].
  - eapply fresh_ok_kept; [|exact Hs|]; simpl.
    + split_and!; [done|done|]. simpl. apply alter_ptr. intros p. case_bool_decide; [|done].
      apply configure_ptr.
    + apply (Forall_in_rest _ (PStart ptr short self) ps1 ps2 []). constructor.
Qed.

Lemma fresh_ok_env s s' : env_step s s' -> fresh_ok s -> fresh_ok s'.
Proof.
  destruct 1; intros Hs.
  - eapply fresh_ok_kept; [apply kept_refl|exact Hs|]. apply Forall_in_all.
    constructor; [by right|constructor].
  - eapply fresh_ok_kept; [apply kept_refl|exact Hs|].
    apply (Forall_in_rest _ (PSleep snap before gen) ps1 ps2 []). constructor.
  - eapply fresh_ok_kept; [done|exact Hs|]. apply Forall_forall. by left.
  - eapply fresh_ok_kept; [|exact Hs|].
    + split_and!; [done|done|]. by apply alter_ptr.
    + apply Forall_forall. by left.
  - destruct (ReplaceICEPeer _ _ _ _ _ _) as [pm new] eqn:E.
    destruct (ReplaceICEPeer_fresh _ _ _ _ _ _ E) as (Hlk & Hn & Hf).
    eapply fresh_ok_changed; [|exact Hs|apply Forall_in_all, closing_ok].
    split_and!; simpl; [done|done|]. intros q Hq. rewrite Hlk in Hq. rewrite Hq in Hf.
      destruct Hf as (? & ? & _). lia.
  - destruct (RemovePeer_fresh (w_pm w)) as [Hlk Hn].
    eapply fresh_ok_changed; [|exact Hs|apply Forall_in_all, closing_ok].
    split_and!; simpl; [done|lia|]. intros q Hq. congruence.
  - destruct (AddICEPeer_fresh env off (w_pm w) H) as [Hn Hq].
    eapply fresh_ok_changed; [|exact Hs|].
    + split_and!; simpl; [done|done|]. intros q [-> ?]%Hq. lia.
    + apply Forall_forall. by left.
Qed.

Lemma fresh_ok_step s s' : world_step s s' -> fresh_ok s -> fresh_ok s'.
Proof. intros [H|H]; [by apply fresh_ok_cb|by apply fresh_ok_env]. Qed.
End Callback.

(** ** Theorems *)

Lemma backoff_value n : 1 <= n <= maxRestarts -> backoff n = 2 ^ (n - 1) * Time.Second.
Proof.
  unfold maxRestarts. intros H.
  assert (n = 1 \/ n = 2 \/ n = 3 \/ n = 4 \/ n = 5) as [-> | [-> | [-> | [-> | ->]]]] by lia;
    by vm_compute.
Qed.

Lemma within_limit_start pm : within_limit (start_world pm).
Proof. unfold within_limit, start_world; simpl. unfold maxRestarts. lia. Qed.

(** C29. Restarts are limited and spaced.  In every interleaving of restarts,
    failures, connections and RPC calls the callback replaces the peer at most
    five times per reset of the failure counter (a manual restart, or a
    connection that held for a minute), and a self-initiated restart (not one
    that the remote side or the user asked for) first waits 1, 2, 4, 8 or 16
    seconds. *)
Theorem restarts_limited (playerID pid : Z) (login : string) (offerer : bool) (pm : PeerManager)
    (w : World) (ps : list Pending) :
  rtc (world_step playerID pid login offerer) (start_world pm) (w, ps) ->
  Z.of_nat (w_replaced w) <= maxRestarts * (Z.of_nat (w_resets w) + 1) /\
  forall msg now wait snap, PSnap wait snap ∈ (cbBegin playerID pid msg now w).2 ->
    exists n, 0 <= n <= 4 /\ wait = 2 ^ n * Time.Second.
Proof.
  intros Hr. apply (rtc_invariant _ _ (within_limit_step playerID pid login offerer)) in Hr
    as [Hc Hl]; [|apply within_limit_start]. split.
  - unfold maxRestarts in *. lia.
  - intros msg now wait snap Hin. unfold cbBegin, cbProtected in Hin. simpl in Hin.
    destruct (stableAfter <=? _); simpl in Hin.
    + destruct (_ && _); apply list_elem_of_singleton in Hin; simplify_eq. by exists 0.
    + case_match eqn:El; [by apply elem_of_nil in Hin|]. bool_facts.
      destruct (_ && _); apply list_elem_of_singleton in Hin; simplify_eq.
      exists (if Manual msg then 0 else consecutiveFailures (w_clo w)).
      unfold maxRestarts in *. split; [destruct (Manual msg); lia|].
      rewrite backoff_value by (unfold maxRestarts; destruct (Manual msg); lia). f_equal. f_equal.
      lia.
Qed.

(** A registered offerer that is inside [Dial], and new credentials. *)
Definition dialing_pm : PeerManager :=
  with_ice (alter (fun p => set_ufrag "r1" (set_phase PhConnect (iceStart p))) 8) two_peers.
Definition fresh_msg : fafIceMsg := MkIceMsg 8 7 "w2" "r2" [] false.

Lemma restarts_limited_witness :
  let w := (cbBegin 7 8 emptyMsg 0 (start_world dialing_pm).1).1 in
  Z.of_nat (w_replaced w) <= maxRestarts * (Z.of_nat (w_resets w) + 1) /\
  forall msg now wait snap, PSnap wait snap ∈ (cbBegin 7 8 msg now w).2 ->
    exists n, 0 <= n <= 4 /\ wait = 2 ^ n * Time.Second.
Proof.
  intros w. eapply (restarts_limited 7 8 "b" true dialing_pm w).
  eapply rtc_l; [right; apply (es_trigger _ _ _ emptyMsg)|].
  eapply rtc_l; [left; apply (cs_begin _ _ _ _ emptyMsg 0 _ [] [])|]. apply rtc_refl.
Defined.

(** C24. A self-initiated restart does not act on a peer it does not know.
    When a run of the callback wakes from its backoff and goes on to replace
    the peer, then nobody has replaced, removed or added the peer since the
    backoff began, and the registered peer is the one the run saw. *)
Theorem self_restart_not_stale (playerID pid : Z) (login : string) (offerer : bool)
    (pm : PeerManager) (w : World) (ps : list Pending) (snap : Z) (before : option nat) (gen : nat) :
  (forall q, GetICEPeer pid pm = Some q -> (ip_ptr q < pm_nextPtr pm)%nat) ->
  rtc (world_step playerID pid login offerer) (start_world pm) (w, ps) ->
  PSleep snap before gen ∈ ps -> cbWake pid snap before w <> [] ->
  gen = w_gen w /\ exists q, GetICEPeer pid (w_pm w) = Some q /\ before = Some (ip_ptr q).
Proof.
  intros Hq Hr Hin Hw.
  apply (rtc_invariant _ _ (fresh_ok_step playerID pid login offerer)) in Hr as [_ Hs];
    [|by split; [|constructor]].
  rewrite Forall_forall in Hs. destruct (Hs _ Hin) as (Hg & _ & Hlt). simpl in *.
  unfold cbWake in Hw. destruct (GetICEPeer pid (w_pm w)) as [q|] eqn:E; [|done]. simpl in Hw.
  case_bool_decide; [|done]. split; [|by exists q].
  destruct (decide (gen < w_gen w)%nat) as [Hlt'|]; [|lia]. by destruct (Hlt Hlt' q).
Qed.

Lemma self_restart_not_stale_witness :
  let w := (cbBegin 7 8 emptyMsg 0 (start_world dialing_pm).1).1 in
  0%nat = w_gen w /\ exists q, GetICEPeer 8 (w_pm w) = Some q /\ Some 0%nat = Some (ip_ptr q).
Proof.
  intros w.
  apply (self_restart_not_stale 7 8 "b" true dialing_pm w [PSleep 0 (Some 0%nat) 0] 0 (Some 0%nat) 0).
  - intros q Hq. vm_compute in Hq. injection Hq as <-. vm_compute. lia.
  - eapply rtc_l; [right; apply (es_trigger _ _ _ emptyMsg)|].
    eapply rtc_l; [left; apply (cs_begin _ _ _ _ emptyMsg 0 _ [] [])|].
    eapply rtc_l; [left; apply (cs_snap _ _ _ _ _ _ _ [] [])|]. apply rtc_refl.
  - left.
  - by vm_compute.
Defined.

(** A run of the callback that is within the limit goes on. *)
Lemma cbBegin_goes_on playerID pid msg now w :
  0 <= consecutiveFailures (w_clo w) < maxRestarts -> Manual msg = false ->
  exists w' wait snap,
    cbBegin playerID pid msg now w =
      (w', if selfInitiated msg then [PSnap wait snap] else [PReplace snap msg]) /\
    w_pm w' = w_pm w /\ w_gen w' = w_gen w /\
    0 <= consecutiveFailures (w_clo w') <= consecutiveFailures (w_clo w) + 1.
Proof.
  intros Hc Hm. unfold maxRestarts in Hc. unfold cbBegin, cbProtected. rewrite Hm. simpl.
  destruct (stableAfter <=? elapsed msg now (w_clo w)); simpl.
  - do 3 eexists. split; [rewrite andb_true_r; by destruct (selfInitiated msg)|]. simpl. split_and!; [done|done|lia|lia].
  - rewrite (proj2 (Z.ltb_ge maxRestarts (consecutiveFailures (w_clo w) + 1)))
      by (unfold maxRestarts; lia).
    do 3 eexists. split; [rewrite andb_true_r; by destruct (selfInitiated msg)|]. simpl. split_and!; [done|done|lia|lia].
Qed.

(** Replacing an offerer that is inside [Dial] starts a callback. *)
Lemma closing_dialing pid pm old :
  GetICEPeer pid pm = Some old -> ip_Offerer old = true -> runPhase (ip_dyn old) = PhConnect ->
  restartOnce (ip_dyn old) = false -> closing pid pm = [PBegin emptyMsg].
Proof.
  intros Hg Ho Hp Hr. unfold closing, iceShutdown, connectFailed, restartOnceDo. rewrite Hg. simpl.
  rewrite Hp. simpl. by rewrite Ho, Hr.
Qed.

Lemma cbReplace_ok pid login offerer snap msg w :
  exists w' p short,
    cbReplace pid login offerer all_ok snap msg w =
      (w', closing pid (w_pm w) ++ [PStart (ip_ptr p) short (selfInitiated msg)]) /\
    GetICEPeer pid (w_pm w') = Some p /\ ip_ptr p = pm_nextPtr (w_pm w) /\
    (ip_ptr p < pm_nextPtr (w_pm w'))%nat /\
    remoteMsg p = (if selfInitiated msg then [] else [msg]) /\ w_clo w' = w_clo w.
Proof.
  destruct (ReplaceICEPeer_succeeds pid login offerer (if selfInitiated msg then None else Some msg)
              (w_pm w)) as [p Hp].
  unfold cbReplace. destruct (ReplaceICEPeer _ _ _ _ _ _) as [pm new] eqn:E. simpl in Hp. subst new.
  destruct (ReplaceICEPeer_fresh _ _ _ _ _ _ _ _ E) as (Hlk & _ & Hptr & Hlt & _ & Hm & _).
  do 3 eexists. split; [done|]. simpl. rewrite Hlk. split_and!; [done|done|done| |done].
  by destruct (selfInitiated msg).
Qed.

(** C37. A remote restart can be undone by the restart it replaced.  If the
    remote side's new credentials arrive while the offerer is inside [Dial],
    replacing the peer cancels that [Dial], which the old peer takes for a
    failed connection: it starts a self-initiated restart.  That one looks up
    the peer only when the replacement is done, so its check finds nothing
    wrong, and it can replace the peer that has the credentials by one that has
    none: there is such a run, in which only the callback itself acts. *)
Theorem remote_restart_undone (playerID pid : Z) (login : string) (w : World) (old : ICEPeer)
    (msg : fafIceMsg) (now : Z) :
  GetICEPeer pid (w_pm w) = Some old -> ip_Offerer old = true ->
  runPhase (ip_dyn old) = PhConnect -> restartOnce (ip_dyn old) = false ->
  Ufrag msg <> "" -> Manual msg = false -> 0 <= consecutiveFailures (w_clo w) <= 3 ->
  exists w1 p1 ps1 w2 p2 ps2,
    rtc (cb_step playerID pid login true) (w, [PBegin msg]) (w1, ps1) /\
    GetICEPeer pid (w_pm w1) = Some p1 /\ remoteMsg p1 = [msg] /\
    rtc (cb_step playerID pid login true) (w1, ps1) (w2, ps2) /\
    GetICEPeer pid (w_pm w2) = Some p2 /\ ip_ptr p2 <> ip_ptr p1 /\ remoteMsg p2 = [].
Proof.
  intros Hg Ho Hp Hr Hu Hm Hc.
  assert (Hs : selfInitiated msg = false) by by apply bool_decide_eq_false.
  destruct (cbBegin_goes_on playerID pid msg now w) as (wa & wait & snap & E1 & Epm & _ & Hc1);
    [unfold maxRestarts; lia|done|]. rewrite Hs in E1.
  destruct (cbReplace_ok pid login true snap msg wa) as (wb & p1 & short & E2 & Hg1 & Hp1 & Hlt & Hm1 & Hclo).
  rewrite Epm, (closing_dialing pid _ old Hg Ho Hp Hr) in E2. rewrite Hs in Hm1.
  destruct (cbBegin_goes_on playerID pid emptyMsg now wb) as (wc & wait' & snap' & E3 & Epm3 & _ & _);
    [unfold maxRestarts; rewrite Hclo; lia|done|].
  destruct (cbReplace_ok pid login true snap' emptyMsg wc) as (wd & p2 & short2 & E4 & Hg4 & Hp4 & _ & Hm4 & _).
  exists wb, p1, [PBegin emptyMsg; PStart (ip_ptr p1) short (selfInitiated msg)]. do 3 eexists.
  split_and!; [|exact Hg1|exact Hm1| |exact Hg4| |exact Hm4].
  - eapply rtc_l; [apply (cs_begin _ _ _ _ msg now _ [] [])|]. rewrite E1. simpl.
    eapply rtc_l; [apply (cs_replace _ _ _ _ all_ok snap msg _ [] [])|]. rewrite E2. simpl.
    apply rtc_refl.
  - eapply rtc_l; [apply (cs_begin _ _ _ _ emptyMsg now _ [] [_])|]. rewrite E3. simpl.
    eapply rtc_l; [apply (cs_snap _ _ _ _ wait' snap' _ [] [_])|]. simpl.
    eapply rtc_l; [apply (cs_wake _ _ _ _ snap' _ _ _ [] [_])|]. unfold cbWake.
    rewrite Epm3, Hg1. simpl. rewrite bool_decide_eq_true_2 by done. simpl.
    eapply rtc_l; [apply (cs_replace _ _ _ _ all_ok snap' emptyMsg _ [] [_])|]. rewrite E4. simpl.
    apply rtc_refl.
  - rewrite Hp4, Epm3. lia.
Qed.

Lemma remote_restart_undone_witness :
  let w := (start_world dialing_pm).1 in
  exists w1 p1 ps1 w2 p2 ps2,
    rtc (cb_step 7 8 "b" true) (w, [PBegin fresh_msg]) (w1, ps1) /\
    GetICEPeer 8 (w_pm w1) = Some p1 /\ remoteMsg p1 = [fresh_msg] /\
    rtc (cb_step 7 8 "b" true) (w1, ps1) (w2, ps2) /\
    GetICEPeer 8 (w_pm w2) = Some p2 /\ ip_ptr p2 <> ip_ptr p1 /\ remoteMsg p2 = [].
Proof.
  intros w. eapply (remote_restart_undone 7 8 "b" w _ fresh_msg 0); [by vm_compute|..];
    try done; by vm_compute.
Defined.
