(* ===== verification/RpcHandler.v ===== *)
(** * [internal/adapter/rpchandler.go]: the requests of the FAF client

    [HandleRequest] and its handlers, with the parts of
    [internal/adapter/adapter.go] they use: the lobby-wide relay mode, the
    registration with the relay server and the notifications to the client.
    Parameters arrive as JSON values with their text.  The outcome of network
    calls is an argument; goroutines a handler starts are recorded as tasks,
    whose later effect is [taskDone]. *)

From stdpp Require Import pretty.
From Stdlib Require Import Ascii.
From S2P Require Import Prelude Float GoLib GPGNet RelayWire TcpFrame RelayConn Peer PeerMgr GpgNetServer.
From S2P Require Import IcePeer IceRestart.

Definition maxLoginLen : Z := 64.
Definition maxMapNameLen : Z := 256.

(** [internal/protocol/gpgnet_messages.go] *)
Definition CmdHostGame : string := "HostGame".
Definition CmdJoinGame : string := "JoinGame".
Definition CmdConnectToPeer : string := "ConnectToPeer".
Definition CmdDisconnectFromPeer : string := "DisconnectFromPeer".
Definition GameStateLaunching : string := "Launching".
Definition GameStateEnded : string := "Ended".
Definition LobbyInitModeNormal : Z := 0.
Definition LobbyInitModeAuto : Z := 1.

(** ** JSON parameters *)

(** A [json.RawMessage]: its text and its value.  A number is its [float64],
    [None] when the literal is out of range. *)
Inductive RVal := RNull | RBool (b : bool) | RNum (f : option float64) | RStr (s : string) | RComposite.
Record RawMessage := MkRaw { raw_text : string; raw_val : RVal }.

(** [json.Unmarshal] into a zero variable; [null] leaves it zero. *)
Definition toString (m : RawMessage) : option string :=
  match raw_val m with RNull => Some ""%string | RStr s => Some s | _ => None end.
Definition toFloat (m : RawMessage) : option float64 :=
  match raw_val m with RNull => Some (MkFloat 0 0) | RNum f => f | _ => None end.
Definition toBool (m : RawMessage) : option bool :=
  match raw_val m with RNull => Some false | RBool b => Some b | _ => None end.
(** Into an [interface{}], as an argument for the game; [None] is an error. *)
Definition toArg (m : RawMessage) : option Arg :=
  match raw_val m with
  | RNum (Some f) => Some (ArgFloat64 f)
  | RNum None => None
  | RStr s => Some (ArgString s)
  | RNull | RBool _ | RComposite => Some ArgOther
  end.

(** ** The adapter *)

Record Config := MkCfg {
  cfg_playerID : Z; cfg_GameID : Z; cfg_login : string; cfg_RelayHTTP : string;
  cfg_UseOfficialFAF : bool }.

(** What the adapter asks of the relay server. *)
Inductive RelayReq :=
| ReqHealth
| ReqCreate (sessionID : string)
| ReqJoin (sessionID : string) (playerID : Z) (login : string)
| ReqHello
| ReqLeave (sessionID : string) (playerID : Z).

(** Goroutines: the two that wait for the relay to be confirmed, and runs of
    the restart callback of a peer ([IceRestart]). *)
Inductive Task :=
| THostGame (mapName : string)
| TPeerReady (pid : Z)
| TRestart (pid : Z) (msg : fafIceMsg).

Record Adapter := MkAdapter {
  ad_cfg : Config;
  ad_mode : Z;
  ad_isHost : bool;
  ad_relayMode : bool;
  ad_iceServers : list ICEServer;
  ad_pm : PeerManager;
  ad_gpg : GPGNetServer;
  ad_notes : list FafNote;
  ad_tasks : list Task;
  ad_reqs : list RelayReq;
  ad_setupOnce : bool;
  ad_cancelled : bool;
}.

Definition NewAdapter (cfg : Config) (g : GPGNetServer) : Adapter :=
  MkAdapter cfg LobbyInitModeNormal false false [] (NewPeerManager (u32 (cfg_playerID cfg))) g
    [] [] [] false false.

Definition SetLobbyInitMode (m : Z) (a : Adapter) : Adapter :=
  MkAdapter (ad_cfg a) m (ad_isHost a) (ad_relayMode a) (ad_iceServers a) (ad_pm a) (ad_gpg a)
    (ad_notes a) (ad_tasks a) (ad_reqs a) (ad_setupOnce a) (ad_cancelled a).
Definition SetHost (a : Adapter) : Adapter :=
  MkAdapter (ad_cfg a) (ad_mode a) true (ad_relayMode a) (ad_iceServers a) (ad_pm a) (ad_gpg a)
    (ad_notes a) (ad_tasks a) (ad_reqs a) (ad_setupOnce a) (ad_cancelled a).
Definition SetRelayMode (r : bool) (a : Adapter) : Adapter :=
  MkAdapter (ad_cfg a) (ad_mode a) (ad_isHost a) r (ad_iceServers a) (ad_pm a) (ad_gpg a)
    (ad_notes a) (ad_tasks a) (ad_reqs a) (ad_setupOnce a) (ad_cancelled a).
Definition SetICEServers (l : list ICEServer) (a : Adapter) : Adapter :=
  MkAdapter (ad_cfg a) (ad_mode a) (ad_isHost a) (ad_relayMode a) l (ad_pm a) (ad_gpg a)
    (ad_notes a) (ad_tasks a) (ad_reqs a) (ad_setupOnce a) (ad_cancelled a).
Definition with_pm (pm : PeerManager) (a : Adapter) : Adapter :=
  MkAdapter (ad_cfg a) (ad_mode a) (ad_isHost a) (ad_relayMode a) (ad_iceServers a) pm (ad_gpg a)
    (ad_notes a) (ad_tasks a) (ad_reqs a) (ad_setupOnce a) (ad_cancelled a).
Definition with_gpg (g : GPGNetServer) (a : Adapter) : Adapter :=
  MkAdapter (ad_cfg a) (ad_mode a) (ad_isHost a) (ad_relayMode a) (ad_iceServers a) (ad_pm a) g
    (ad_notes a) (ad_tasks a) (ad_reqs a) (ad_setupOnce a) (ad_cancelled a).
Definition notify (ns : list FafNote) (a : Adapter) : Adapter :=
  MkAdapter (ad_cfg a) (ad_mode a) (ad_isHost a) (ad_relayMode a) (ad_iceServers a) (ad_pm a)
    (ad_gpg a) (ad_notes a ++ ns) (ad_tasks a) (ad_reqs a) (ad_setupOnce a) (ad_cancelled a).
Definition spawn (ts : list Task) (a : Adapter) : Adapter :=
  MkAdapter (ad_cfg a) (ad_mode a) (ad_isHost a) (ad_relayMode a) (ad_iceServers a) (ad_pm a)
    (ad_gpg a) (ad_notes a) (ad_tasks a ++ ts) (ad_reqs a) (ad_setupOnce a) (ad_cancelled a).
Definition ask (rs : list RelayReq) (a : Adapter) : Adapter :=
  MkAdapter (ad_cfg a) (ad_mode a) (ad_isHost a) (ad_relayMode a) (ad_iceServers a) (ad_pm a)
    (ad_gpg a) (ad_notes a) (ad_tasks a) (ad_reqs a ++ rs) (ad_setupOnce a) (ad_cancelled a).
Definition use_setup (a : Adapter) : Adapter :=
  MkAdapter (ad_cfg a) (ad_mode a) (ad_isHost a) (ad_relayMode a) (ad_iceServers a) (ad_pm a)
    (ad_gpg a) (ad_notes a) (ad_tasks a) (ad_reqs a) true (ad_cancelled a).
Definition quit (a : Adapter) : Adapter :=
  MkAdapter (ad_cfg a) (ad_mode a) (ad_isHost a) (ad_relayMode a) (ad_iceServers a) (ad_pm a)
    (ad_gpg a) (ad_notes a) (ad_tasks a) (ad_reqs a) (ad_setupOnce a) true.

(** The two notifications that always go together. *)
Definition notifyState (pid : Z) (state : string) (connected : bool) (a : Adapter) : Adapter :=
  notify [NoteIceState (cfg_playerID (ad_cfg a)) pid state;
          NoteConnected (cfg_playerID (ad_cfg a)) pid connected] a.

Definition sessionID (a : Adapter) : string := pretty (cfg_GameID (ad_cfg a)).

(** What the relay server answers: the status codes of the two requests of
    [registerWithRelay] ([None] for a transport error), and the status and
    player list of the session lookup. *)
Record RelayAnswers := MkAnswers {
  ans_create : option Z; ans_join : option Z; ans_session : option (Z * option (list Z)) }.

Definition isHostOnRelay (ans : RelayAnswers) (hostPlayerID : Z) (a : Adapter) : bool :=
  if bool_decide (cfg_RelayHTTP (ad_cfg a) = "") then false
  else match ans_session ans with
       | None => false
       | Some (status, players) =>
           if status =? 404 then false
           else if negb (status =? 200) then false
           else match players with
                | None => false
                | Some ids => existsb (fun id => id =? hostPlayerID) ids
                end
       end.

(** The requests made, and whether the registration succeeded. *)
Definition registerWithRelay (ans : RelayAnswers) (a : Adapter) : Adapter * bool :=
  let sid := sessionID a in
  let a := ask [ReqCreate sid] a in
  match ans_create ans with
  | None => (a, false)
  | Some st =>
      if negb (st =? 201) && negb (st =? 409) then (a, false)
      else
        let a := ask [ReqJoin sid (cfg_playerID (ad_cfg a)) (cfg_login (ad_cfg a))] a in
        match ans_join ans with
        | None => (a, false)
        | Some st => (a, st =? 200)
        end
  end.

Definition ensureRelayReady (ans : RelayAnswers) (a : Adapter) : Adapter :=
  if ad_setupOnce a then a
  else
    let a := use_setup a in
    if bool_decide (cfg_RelayHTTP (ad_cfg a) = "") then a
    else
      let a := ask [ReqHealth] a in
      let '(a, ok) := registerWithRelay ans a in
      if ok then ask [ReqHello] a else a.

Definition leaveRelay (a : Adapter) : Adapter :=
  if bool_decide (cfg_RelayHTTP (ad_cfg a) = "") || negb (ad_relayMode a) then a
  else ask [ReqLeave (sessionID a) (cfg_playerID (ad_cfg a))] a.

(** ** ICE server URLs *)

(** [strings.Replace(s, "://", ":", 1)] and [s[:strings.Index(s, "?")]]. *)
Fixpoint replaceScheme (s : string) : string :=
  match s with
  | String c s' => if String.prefix "://" s then String ":" (String.substring 2 (String.length s) s')
                   else String c (replaceScheme s')
  | EmptyString => EmptyString
  end.
Fixpoint upToQuery (s : string) : string :=
  match s with
  | String "?" _ | EmptyString => EmptyString
  | String c s' => String c (upToQuery s')
  end.
Definition normalizeICEServerURL (rawURL : string) : string :=
  let rawURL := if existsb (fun scheme => String.prefix scheme rawURL)
                     ["stun://"; "stuns://"; "turn://"; "turns://"]%string
                then replaceScheme rawURL else rawURL in
  if String.prefix "stun:" rawURL || String.prefix "stuns:" rawURL
  then upToQuery rawURL else rawURL.

(** ** Handlers *)

(** The restart callbacks that closing or signalling a peer starts. *)
Definition restartTasks (pid : Z) (ps : list Pending) : list Task :=
  omap (fun p => match p with PBegin m => Some (TRestart pid m) | _ => None end) ps.

Inductive RpcErr :=
| TooFewParams
| BadParam
| TooLong
| InvalidPlayerID
| CreatingPeer
| GameWrite
| UnknownMethod.

(** What a request can depend on besides the adapter. *)
Record RpcEnv := MkRpcEnv {
  e_peer : PeerEnv;
  e_relay : RelayAnswers;
  (** The port [net.ListenUDP] chose for a socket. *)
  e_port : nat -> Z;
  (** Out-of-range conversions of a [float64] to [int32] and to [int]. *)
  e_oor32 : float64 -> Z;
  e_oor64 : float64 -> Z;
  (** [json.Unmarshal] into [fafIceMsg] and into the list of ICE servers. *)
  e_iceMsg : string -> option fafIceMsg;
  e_servers : RawMessage -> option (list ICEServer);
}.

Section Handlers.
Variable env : RpcEnv.

(** [int(f)] *)
Definition float_int (f : float64) : Z :=
  let t := f_trunc f in
  if (- 2 ^ 63 <=? t) && (t <? 2 ^ 63) then t else i64 (e_oor64 env f).

Definition queueToGame (header : string) (args : list Arg) (a : Adapter) : Adapter :=
  with_gpg (SendToGameQueued (e_oor32 env) header args (ad_gpg a)) a.

(** The message that tells the game where to find a peer. *)
Definition peerCommand (cmd : string) (sock : nat) (login : string) (pid : Z) (a : Adapter)
    : Adapter :=
  queueToGame cmd [ArgString ("127.0.0.1:" +:+ pretty (e_port env sock))%string; ArgString login;
                   ArgInt32 (i32 pid)] a.

Definition hostGame (params : list RawMessage) (a : Adapter) : Adapter * result RpcErr unit :=
  match params with
  | [] => (a, Err TooFewParams)
  | p0 :: _ =>
      match toString p0 with
      | None => (a, Err BadParam)
      | Some mapName =>
          if maxMapNameLen <? Z.of_nat (String.length mapName) then (a, Err TooLong)
          else
            let a := SetHost a in
            let useRelay := negb (cfg_UseOfficialFAF (ad_cfg a)) &&
                            negb (ad_mode a =? LobbyInitModeAuto) in
            let a := SetRelayMode useRelay a in
            let me := cfg_playerID (ad_cfg a) in
            if negb useRelay then
              let a := queueToGame CmdHostGame [ArgString mapName] a in
              (notifyState me "Connected" true a, Ok tt)
            else
              (spawn [THostGame mapName] (notifyState me "Connecting" false a), Ok tt)
      end
  end.

(** The end of a waiting task: [confirmed] is what [WaitRelayConfirmed]
    returns.  Restarts are not waiting tasks. *)
Definition notifyPeerConnectedWhenRelayReady (confirmed : bool) (pid : Z) (a : Adapter) : Adapter :=
  if confirmed then notifyState pid "Connected" true a else a.
Definition taskDone (confirmed : bool) (t : Task) (a : Adapter) : Adapter :=
  match t with
  | THostGame mapName =>
      if negb confirmed then a
      else notifyState (cfg_playerID (ad_cfg a)) "Connected" true
             (queueToGame CmdHostGame [ArgString mapName] a)
  | TPeerReady pid => notifyPeerConnectedWhenRelayReady confirmed pid a
  | TRestart _ _ => a
  end.

(** The relay branch of [joinGame] and [connectToPeer]. *)
Definition addRelayPeer (cmd : string) (pid : Z) (login : string) (a : Adapter)
    : Adapter * result RpcErr unit :=
  let a := ensureRelayReady (e_relay env) a in
  match AddPeer (e_peer env) pid login (ad_pm a) with
  | (pm, None) => (with_pm pm a, Err CreatingPeer)
  | (pm, Some peer) =>
      let peer := (Start peer).1 in
      let a := with_pm (with_peers (fun t => <[pid := peer]> t) pm) a in
      (spawn [TPeerReady pid] (peerCommand cmd (p_conn peer) login pid a), Ok tt)
  end.

(** Their ICE branch. *)
Definition addICEPeer (cmd : string) (pid : Z) (login : string) (offerer : bool) (a : Adapter)
    : Adapter * result RpcErr unit :=
  match AddICEPeer (e_peer env) pid login offerer (ad_pm a) with
  | (pm, None) => (with_pm pm a, Err CreatingPeer)
  | (pm, Some peer) =>
      let peer := iceStart peer in
      let a := with_pm (with_ice (fun t => <[pid := peer]> t) pm) a in
      (notifyState pid "Connecting" false (peerCommand cmd (ip_conn peer) login pid a), Ok tt)
  end.

Definition joinGame (params : list RawMessage) (a : Adapter) : Adapter * result RpcErr unit :=
  match params with
  | p0 :: p1 :: _ =>
      match toString p0, toFloat p1 with
      | Some login, Some f =>
          if maxLoginLen <? Z.of_nat (String.length login) then (a, Err TooLong)
          else
            let pid := float_int f in
            if pid <=? 0 then (a, Err InvalidPlayerID)
            else match GetPeer pid (ad_pm a), GetICEPeer pid (ad_pm a) with
                 | Some peer, _ => (peerCommand CmdJoinGame (p_conn peer) login pid a, Ok tt)
                 | None, Some _ => (a, Ok tt)
                 | None, None =>
                     let onRelay := negb (ad_mode a =? LobbyInitModeAuto) &&
                                    isHostOnRelay (e_relay env) pid a in
                     let a := SetRelayMode onRelay a in
                     if onRelay then addRelayPeer CmdJoinGame pid login a
                     else addICEPeer CmdJoinGame pid login false a
                 end
      | _, _ => (a, Err BadParam)
      end
  | _ => (a, Err TooFewParams)
  end.

Definition connectToPeer (params : list RawMessage) (a : Adapter) : Adapter * result RpcErr unit :=
  match params with
  | p0 :: p1 :: p2 :: _ =>
      match toString p0, toFloat p1, toBool p2 with
      | Some login, Some f, Some offer =>
          if maxLoginLen <? Z.of_nat (String.length login) then (a, Err TooLong)
          else
            let pid := float_int f in
            if pid <=? 0 then (a, Err InvalidPlayerID)
            else if bool_decide (gameState (ad_gpg a) = GameStateLaunching) ||
                    bool_decide (gameState (ad_gpg a) = GameStateEnded) then (a, Ok tt)
            else match GetPeer pid (ad_pm a), GetICEPeer pid (ad_pm a) with
                 | Some peer, _ => (peerCommand CmdConnectToPeer (p_conn peer) login pid a, Ok tt)
                 | None, Some old =>
                     if eqb (ip_Offerer old) offer then (a, Ok tt)
                     else
                       let a := spawn (restartTasks pid (closing pid (ad_pm a))) a in
                       match ReplaceICEPeer (e_peer env) pid login offer None (ad_pm a) with
                          | (pm, None) => (with_pm pm a, Ok tt)
                          | (pm, Some peer) =>
                              let a := with_pm (with_ice (fun t => <[pid := iceStart peer]> t) pm) a in
                              (notifyState pid "Connecting" false a, Ok tt)
                          end
                 | None, None =>
                     if ad_relayMode a then addRelayPeer CmdConnectToPeer pid login a
                     else addICEPeer CmdConnectToPeer pid login offer a
                 end
      | _, _, _ => (a, Err BadParam)
      end
  | _ => (a, Err TooFewParams)
  end.

Definition disconnectFromPeer (params : list RawMessage) (a : Adapter)
    : Adapter * result RpcErr unit :=
  match params with
  | [] => (a, Err TooFewParams)
  | p0 :: _ =>
      match toFloat p0 with
      | None => (a, Err BadParam)
      | Some f =>
          let pid := float_int f in
          let a := spawn (restartTasks pid (closing pid (ad_pm a))) a in
          let a := with_pm (RemovePeer pid (ad_pm a)) a in
          (with_gpg (SendToGame (e_oor32 env) CmdDisconnectFromPeer [ArgInt32 (i32 pid)] (ad_gpg a)).1 a,
           Ok tt)
      end
  end.

Definition setLobbyInitMode (params : list RawMessage) (a : Adapter)
    : Adapter * result RpcErr unit :=
  match params with
  | [] => (a, Err TooFewParams)
  | p0 :: _ =>
      match toString p0 with
      | None => (a, Err BadParam)
      | Some mode =>
          (SetLobbyInitMode (if bool_decide (mode = "auto") then LobbyInitModeAuto
                             else LobbyInitModeNormal) a, Ok tt)
      end
  end.

Definition sendToGpgNet (params : list RawMessage) (a : Adapter) : Adapter * result RpcErr unit :=
  match params with
  | [] => (a, Err TooFewParams)
  | p0 :: rest =>
      match toString p0, mapM toArg rest with
      | Some header, Some args =>
          let '(g, ok) := SendToGame (e_oor32 env) header args (ad_gpg a) in
          (with_gpg g a, if (ok : bool) then Ok tt else Err GameWrite)
      | _, _ => (a, Err BadParam)
      end
  end.

Definition iceMsg (params : list RawMessage) (a : Adapter) : Adapter * result RpcErr unit :=
  match params with
  | p0 :: p1 :: _ =>
      match toFloat p0 with
      | None => (a, Err BadParam)
      | Some f =>
          let pid := float_int f in
          let msgJSON := match toString p1 with Some s => s | None => raw_text p1 end in
          match GetICEPeer pid (ad_pm a) with
          | None => (a, Ok tt)
          | Some peer =>
              let '(peer, acts, _) := HandleIceMsg (e_iceMsg env msgJSON) peer in
              let a := spawn (restartTasks pid (spawned acts)) a in
              (with_pm (with_ice (fun t => <[pid := peer]> t) (ad_pm a)) a, Ok tt)
          end
      end
  | _ => (a, Err TooFewParams)
  end.

Definition normalizeServer (s : ICEServer) : ICEServer :=
  MkServer (normalizeICEServerURL <$> URLs s) (Username s)
    (match Credential s with
     | Some c => if bool_decide (c = "") then None else Some c
     | None => None
     end).
Definition setIceServers (params : list RawMessage) (a : Adapter) : Adapter * result RpcErr unit :=
  match params with
  | [] => (a, Err TooFewParams)
  | p0 :: _ =>
      match e_servers env p0 with
      | None => (a, Err BadParam)
      | Some servers => (SetICEServers (normalizeServer <$> servers) a, Ok tt)
      end
  end.

(** A request: its method and parameters. *)
Record RpcRequest := MkRpc { rpc_method : string; rpc_params : list RawMessage }.

(** The dispatch.  The results are empty, but for [status], whose report is
    [Status.BuildStatus] and which changes nothing. *)
Definition HandleRequest (req : RpcRequest) (a : Adapter) : Adapter * result RpcErr unit :=
  let params := rpc_params req in
  let meth m := bool_decide (rpc_method req = m) in
  if meth "hostGame"%string then hostGame params a
  else if meth "joinGame"%string then joinGame params a
  else if meth "connectToPeer"%string then connectToPeer params a
  else if meth "disconnectFromPeer"%string then disconnectFromPeer params a
  else if meth "setLobbyInitMode"%string then setLobbyInitMode params a
  else if meth "iceMsg"%string then iceMsg params a
  else if meth "sendToGpgNet"%string then sendToGpgNet params a
  else if meth "setIceServers"%string then setIceServers params a
  else if meth "status"%string then (a, Ok tt)
  else if meth "quit"%string then (quit a, Ok tt)
  else (a, Err UnknownMethod).
End Handlers.

(** ** Invariant *)

(** Updates of a peer that keep its socket and its place. *)
Lemma pm_ok_perm pm pm' :
  pm_ok pm -> holders pm' ≡ₚ holders pm -> pm_socks pm' = pm_socks pm ->
  pm_nextOrder pm' = pm_nextOrder pm -> pm_nextSock pm' = pm_nextSock pm -> pm_ok pm'.
Proof.
  intros [H1 H2 H3 H4 H5] Hp Hs Ho Hn. split; rewrite ?Hp, ?Hs, ?Ho, ?Hn; try done.
  intros c n. rewrite Hp. apply H3.
Qed.

Lemma holders_update_peer id p p' pm :
  pm_peers pm !! id = Some p -> p_conn p' = p_conn p -> AddedOrder p' = AddedOrder p ->
  holders (with_peers (fun t => <[id := p']> t) pm) ≡ₚ holders pm.
Proof.
  intros H Hc Ho. rewrite (holders_delete_peer id p pm H).
  rewrite (holders_delete_peer id p' (with_peers _ pm)) by apply lookup_insert_eq.
  rewrite Hc, Ho. unfold holders; simpl. by rewrite delete_insert_eq.
Qed.

Lemma holders_update_ice id p p' pm :
  pm_ice pm !! id = Some p -> ip_conn p' = ip_conn p -> ip_AddedOrder p' = ip_AddedOrder p ->
  holders (with_ice (fun t => <[id := p']> t) pm) ≡ₚ holders pm.
Proof.
  intros H Hc Ho. rewrite (holders_delete_ice id p pm H).
  rewrite (holders_delete_ice id p' (with_ice _ pm)) by apply lookup_insert_eq.
  rewrite Hc, Ho. unfold holders; simpl. by rewrite delete_insert_eq.
Qed.

Lemma pm_ok_update_peer id p p' pm :
  pm_ok pm -> pm_peers pm !! id = Some p -> p_conn p' = p_conn p -> AddedOrder p' = AddedOrder p ->
  pm_ok (with_peers (fun t => <[id := p']> t) pm).
Proof. intros Hok H ? ?. eapply pm_ok_perm; [exact Hok|by eapply holders_update_peer|done..]. Qed.

Lemma pm_ok_update_ice id p p' pm :
  pm_ok pm -> pm_ice pm !! id = Some p -> ip_conn p' = ip_conn p ->
  ip_AddedOrder p' = ip_AddedOrder p -> pm_ok (with_ice (fun t => <[id := p']> t) pm).
Proof. intros Hok H ? ?. eapply pm_ok_perm; [exact Hok|by eapply holders_update_ice|done..]. Qed.

(** What the operations of the peer manager do to the two tables. *)
Lemma AddPeer_tables env id login pm :
  pm_peers pm !! id = None ->
  pm_ice (AddPeer env id login pm).1 = pm_ice pm /\
  match (AddPeer env id login pm).2 with
  | Some p => pm_peers (AddPeer env id login pm).1 = <[id := p]> (pm_peers pm) /\
              started p = false
  | None => pm_peers (AddPeer env id login pm).1 = pm_peers pm
  end.
Proof. intros H. unfold AddPeer. rewrite H. by destruct (bindOk env). Qed.

Lemma AddICEPeer_tables env id login off pm :
  pm_ice pm !! id = None ->
  pm_peers (AddICEPeer env id login off pm).1 = pm_peers pm /\
  match (AddICEPeer env id login off pm).2 with
  | Some p => pm_ice (AddICEPeer env id login off pm).1 = <[id := p]> (pm_ice pm) /\
              ip_Offerer p = off /\ ip_dyn p = new_dyn /\ ip_conn p = pm_nextSock pm
  | None => pm_ice (AddICEPeer env id login off pm).1 = pm_ice pm
  end.
Proof.
  intros H. unfold AddICEPeer, NewICEPeer. rewrite H.
  destruct (bindOk env), (agentOk env), (gatherOk env); simpl; by rewrite ?H.
Qed.

Lemma ReplaceICEPeer_tables env id login off msg pm :
  pm_peers (ReplaceICEPeer env id login off msg pm).1 = pm_peers pm /\
  match (ReplaceICEPeer env id login off msg pm).2 with
  | Some p => pm_ice (ReplaceICEPeer env id login off msg pm).1 = <[id := p]> (pm_ice pm) /\
              ip_Offerer p = off
  | None => pm_ice (ReplaceICEPeer env id login off msg pm).1 = delete id (pm_ice pm)
  end.
Proof.
  unfold ReplaceICEPeer, NewICEPeer, iceClose.
  destruct (pm_ice pm !! id) as [old|] eqn:E; simpl.
  - destruct (_ && _); simpl; [|done]. destruct (0 <? _); simpl; rewrite insert_delete_eq;
      (split_and!; [done|done|by destruct (ip_gameAddr old), msg]).
  - destruct (bindOk env); simpl; [destruct (_ && _); simpl|];
      rewrite ?delete_id by done; split_and!; try done. by destruct msg.
Qed.

Lemma RemovePeer_tables id pm :
  pm_peers (RemovePeer id pm) = delete id (pm_peers pm) /\
  pm_ice (RemovePeer id pm) = delete id (pm_ice pm).
Proof.
  unfold RemovePeer, iceClose.
  destruct (pm_peers pm !! id) eqn:E1; simpl; destruct (pm_ice pm !! id) as [q|] eqn:E2; simpl.
  - by destruct (ownsConn q).
  - by rewrite (delete_id (pm_ice pm) id E2).
  - rewrite (delete_id (pm_peers pm) id E1). by destruct (ownsConn q).
  - by rewrite (delete_id (pm_peers pm) id E1), (delete_id (pm_ice pm) id E2).
Qed.

(** No player has two peers, every peer is running, identifiers are positive,
    and the sockets are in order. *)
Record adapter_ok (a : Adapter) : Prop := {
  ao_pm : pm_ok (ad_pm a);
  ao_relay : forall id p, GetPeer id (ad_pm a) = Some p ->
    GetICEPeer id (ad_pm a) = None /\ 0 < id /\ started p = true;
  ao_ice : forall id p, GetICEPeer id (ad_pm a) = Some p -> 0 < id /\ iceStarted (ip_dyn p) = true;
}.

(** Changes that do not touch the peers. *)
Lemma adapter_ok_same a a' : ad_pm a' = ad_pm a -> adapter_ok a -> adapter_ok a'.
Proof. intros E []. by split; rewrite E. Qed.

Lemma ensureRelayReady_pm ans a :
  ad_pm (ensureRelayReady ans a) = ad_pm a /\ ad_gpg (ensureRelayReady ans a) = ad_gpg a /\
  ad_cfg (ensureRelayReady ans a) = ad_cfg a /\ ad_mode (ensureRelayReady ans a) = ad_mode a /\
  ad_relayMode (ensureRelayReady ans a) = ad_relayMode a.
Proof.
  unfold ensureRelayReady, registerWithRelay. destruct (ad_setupOnce a); [done|].
  destruct (bool_decide _); [done|]. destruct (ans_create ans) as [st|]; [|done].
  destruct (negb _ && _); [done|]. destruct (ans_join ans) as [st'|]; [|done]. by destruct (st' =? 200).
Qed.

Lemma adapter_ok_add_relay env cmd id login a :
  adapter_ok a -> GetPeer id (ad_pm a) = None -> GetICEPeer id (ad_pm a) = None -> 0 < id ->
  adapter_ok (addRelayPeer env cmd id login a).1.
Proof.
  intros Ha H1 H2 Hid. unfold addRelayPeer.
  destruct (ensureRelayReady_pm (e_relay env) a) as (E & _). set (b := ensureRelayReady _ a) in *.
  apply (adapter_ok_same a b E) in Ha. rewrite <- E in H1, H2. clearbody b.
  pose proof (AddPeer_tables (e_peer env) id login (ad_pm b) H1) as [Hi Hp].
  pose proof (pm_ok_AddPeer (e_peer env) id login (ad_pm b) (ao_pm b Ha)) as Hok.
  destruct (AddPeer (e_peer env) id login (ad_pm b)) as [pm [p|]]; simpl in *.
  - destruct Hp as [Hp Hst]. unfold Start. rewrite Hst. simpl. split; simpl.
    + eapply pm_ok_update_peer; [done|by rewrite Hp, lookup_insert_eq|done|done].
    + unfold GetPeer, GetICEPeer; simpl. rewrite Hp, Hi, insert_insert_eq. intros id' p'.
      destruct (decide (id = id')) as [<-|Hne].
      * rewrite lookup_insert_eq. intros [= <-]. done.
      * rewrite lookup_insert_ne by done. apply (ao_relay b Ha).
    + unfold GetICEPeer; simpl. rewrite Hi. apply (ao_ice b Ha).
  - split; simpl; [done|..]; unfold GetPeer, GetICEPeer; rewrite ?Hp, Hi;
      [apply (ao_relay b Ha)|apply (ao_ice b Ha)].
Qed.

Lemma iceStart_dyn p : iceStarted (ip_dyn (iceStart p)) = true /\ ip_conn (iceStart p) = ip_conn p /\
  ip_AddedOrder (iceStart p) = ip_AddedOrder p /\ ip_Offerer (iceStart p) = ip_Offerer p.
Proof. unfold iceStart. by destruct (iceStarted (ip_dyn p)) eqn:E. Qed.

(** Putting a running ICE peer into the table of a player without a relay
    peer. *)
Lemma adapter_ok_put_ice a pm id p :
  adapter_ok a -> pm_ok (with_ice (fun t => <[id := p]> t) pm) -> pm_peers pm = pm_peers (ad_pm a) ->
  (forall id', id' <> id -> pm_ice pm !! id' = pm_ice (ad_pm a) !! id') ->
  GetPeer id (ad_pm a) = None -> 0 < id -> iceStarted (ip_dyn p) = true ->
  adapter_ok (with_pm (with_ice (fun t => <[id := p]> t) pm) a).
Proof.
  intros Ha Hok Hp Hi Hn Hid Hst. split; simpl; [done|..]; unfold GetPeer, GetICEPeer in *; simpl.
  - rewrite Hp. intros id' p' Hlk. assert (id' <> id) by congruence.
    rewrite lookup_insert_ne, Hi by done. by apply (ao_relay a Ha).
  - intros id' p'. destruct (decide (id = id')) as [<-|Hne].
    + rewrite lookup_insert_eq. by intros [= <-].
    + rewrite lookup_insert_ne, Hi by done. apply (ao_ice a Ha).
Qed.

Lemma adapter_ok_drop_ice a pm :
  adapter_ok a -> pm_ok pm -> pm_peers pm = pm_peers (ad_pm a) ->
  (forall id' p, pm_ice pm !! id' = Some p -> pm_ice (ad_pm a) !! id' = Some p) ->
  adapter_ok (with_pm pm a).
Proof.
  intros Ha Hok Hp Hi. split; simpl; [done|..]; unfold GetPeer, GetICEPeer in *; simpl.
  - rewrite Hp. intros id' p' Hlk. destruct (ao_relay a Ha id' p' Hlk) as (Hn & ? & ?).
    split_and!; [|done|done]. destruct (pm_ice pm !! id') eqn:E; [|done].
    apply Hi in E. unfold GetICEPeer in Hn. congruence.
  - intros id' p' Hlk%Hi. by apply (ao_ice a Ha).
Qed.

Lemma adapter_ok_add_ice env cmd id login off a :
  adapter_ok a -> GetPeer id (ad_pm a) = None -> GetICEPeer id (ad_pm a) = None -> 0 < id ->
  adapter_ok (addICEPeer env cmd id login off a).1.
Proof.
  intros Ha H1 H2 Hid. unfold addICEPeer.
  pose proof (AddICEPeer_tables (e_peer env) id login off (ad_pm a) H2) as [Hp Hi].
  pose proof (pm_ok_AddICEPeer (e_peer env) id login off (ad_pm a) (ao_pm a Ha)) as Hok.
  destruct (AddICEPeer (e_peer env) id login off (ad_pm a)) as [pm [p|]]; simpl in *.
  - destruct Hi as (Hi & _). destruct (iceStart_dyn p) as (Hst & Hc & Ho & _).
    apply (adapter_ok_same (with_pm (with_ice (fun t => <[id := iceStart p]> t) pm) a)); [done|].
    apply adapter_ok_put_ice; try done.
    + eapply pm_ok_update_ice; [done|by rewrite Hi, lookup_insert_eq|done|done].
    + intros id' Hne. by rewrite Hi, lookup_insert_ne.
  - apply adapter_ok_drop_ice; try done. by rewrite Hi.
Qed.

Lemma adapter_ok_hostGame env params a : adapter_ok a -> adapter_ok (hostGame env params a).1.
Proof.
  intros Ha. unfold hostGame. destruct params as [|p0 ?]; [done|]. destruct (toString p0); [|done].
  destruct (_ <? _); [done|]. destruct (_ && _); simpl; by apply (adapter_ok_same a).
Qed.

Lemma adapter_ok_joinGame env params a : adapter_ok a -> adapter_ok (joinGame env params a).1.
Proof.
  intros Ha. unfold joinGame. destruct params as [|p0 [|p1 ?]]; [done..|].
  destruct (toString p0) as [login|]; [|done]. destruct (toFloat p1) as [f|]; [|done].
  destruct (_ <? _); [done|]. destruct (Z.leb_spec (float_int env f) 0); [done|].
  destruct (GetPeer _ _) eqn:E1; [by apply (adapter_ok_same a)|].
  destruct (GetICEPeer _ _) eqn:E2; [done|]. cbv zeta.
  destruct (_ && _); [apply adapter_ok_add_relay|apply adapter_ok_add_ice]; try done;
    by apply (adapter_ok_same a).
Qed.

Lemma adapter_ok_connectToPeer env params a : adapter_ok a -> adapter_ok (connectToPeer env params a).1.
Proof.
  intros Ha. unfold connectToPeer. destruct params as [|p0 [|p1 [|p2 ?]]]; [done..|].
  destruct (toString p0) as [login|]; [|done]. destruct (toFloat p1) as [f|]; [|done].
  destruct (toBool p2) as [offer|]; [|done].
  destruct (_ <? _); [done|]. destruct (Z.leb_spec (float_int env f) 0); [done|].
  destruct (_ || _); [done|]. set (id := float_int env f) in *. cbv zeta.
  destruct (GetPeer id (ad_pm a)) eqn:E1; [by apply (adapter_ok_same a)|].
  destruct (GetICEPeer id (ad_pm a)) as [old|] eqn:E2.
  - destruct (eqb _ _); [done|]. simpl.
    pose proof (ReplaceICEPeer_tables (e_peer env) id login offer None (ad_pm a)) as [Hp Hi].
    pose proof (pm_ok_ReplaceICEPeer (e_peer env) id login offer None (ad_pm a) (ao_pm a Ha)) as Hok.
    destruct (ReplaceICEPeer _ _ _ _ _ _) as [pm [p|]]; simpl in *.
    + destruct (iceStart_dyn p) as (Hst & Hc & Ho & _). destruct Hi as [Hi _].
      apply (adapter_ok_same (with_pm (with_ice (fun t => <[id := iceStart p]> t) pm) a)); [done|].
      apply adapter_ok_put_ice; try done.
      * eapply pm_ok_update_ice; [done|by rewrite Hi, lookup_insert_eq|done|done].
      * intros id' Hne. by rewrite Hi, lookup_insert_ne.
    + apply (adapter_ok_same (with_pm pm a)); [done|]. apply adapter_ok_drop_ice; try done.
      rewrite Hi. intros id' p. rewrite lookup_delete_Some. by intros [].
  - destruct (ad_relayMode a); [by apply adapter_ok_add_relay|by apply adapter_ok_add_ice].
Qed.

Lemma adapter_ok_disconnect env params a :
  adapter_ok a -> adapter_ok (disconnectFromPeer env params a).1.
Proof.
  intros Ha. unfold disconnectFromPeer. destruct params as [|p0 ?]; [done|].
  destruct (toFloat p0) as [f|]; [|done]. set (id := float_int env f). simpl.
  destruct (RemovePeer_tables id (ad_pm a)) as [Hp Hi].
  pose proof (pm_ok_RemovePeer id (ad_pm a) (ao_pm a Ha)) as Hok.
  split; simpl; [done|..]; unfold GetPeer, GetICEPeer; rewrite ?Hp, ?Hi; intros id' p.
  - rewrite lookup_delete_Some. intros [Hne Hlk].
    rewrite lookup_delete_ne by done. by apply (ao_relay a Ha).
  - rewrite lookup_delete_Some. intros [Hne Hlk]. by apply (ao_ice a Ha).
Qed.

Lemma HandleIceMsg_keeps m p :
  ip_conn (HandleIceMsg m p).1.1 = ip_conn p /\
  ip_AddedOrder (HandleIceMsg m p).1.1 = ip_AddedOrder p /\
  ip_dyn (HandleIceMsg m p).1.1 = ip_dyn p.
Proof. unfold HandleIceMsg. by repeat case_match. Qed.

Lemma adapter_ok_iceMsg env params a : adapter_ok a -> adapter_ok (iceMsg env params a).1.
Proof.
  intros Ha. unfold iceMsg. destruct params as [|p0 [|p1 ?]]; [done..|].
  destruct (toFloat p0) as [f|]; [|done]. set (id := float_int env f).
  destruct (GetICEPeer id (ad_pm a)) as [p|] eqn:E; [|done].
  set (m := e_iceMsg env _). destruct (HandleIceMsg_keeps m p) as (Hc & Ho & Hd).
  destruct (HandleIceMsg m p) as [[p' acts] err]. simpl in *.
  apply (adapter_ok_same (with_pm (with_ice (fun t => <[id := p']> t) (ad_pm a)) a)); [done|].
  destruct (ao_ice a Ha id p E) as [Hid Hst]. apply adapter_ok_put_ice; try done.
  - eapply pm_ok_update_ice; [apply Ha|exact E|done|done].
  - destruct (GetPeer id (ad_pm a)) as [q|] eqn:Eq; [|done].
    destruct (ao_relay a Ha id q Eq) as [Hn _]. congruence.
  - by rewrite Hd.
Qed.

Lemma adapter_ok_request env req a : adapter_ok a -> adapter_ok (HandleRequest env req a).1.
Proof.
  intros Ha. unfold HandleRequest. cbv zeta.
  repeat (destruct (bool_decide _);
    [first [by apply adapter_ok_hostGame|by apply adapter_ok_joinGame|by apply adapter_ok_connectToPeer
           |by apply adapter_ok_disconnect|by apply adapter_ok_iceMsg|by apply (adapter_ok_same a)
           |idtac]|]); try done.
  - unfold setLobbyInitMode. repeat case_match; try done; by apply (adapter_ok_same a).
  - unfold sendToGpgNet. repeat case_match; try done; by apply (adapter_ok_same a).
  - unfold setIceServers. repeat case_match; try done; by apply (adapter_ok_same a).
Qed.

Lemma adapter_ok_task env ok t a : adapter_ok a -> adapter_ok (taskDone env ok t a).
Proof. intros Ha. unfold taskDone. destruct ok, t; simpl; by apply (adapter_ok_same a). Qed.

Lemma adapter_ok_new cfg g : adapter_ok (NewAdapter cfg g).
Proof.
  split; simpl; [apply pm_ok_new|..]; intros id p; unfold GetPeer, GetICEPeer; simpl;
    by rewrite lookup_empty.
Qed.

(** ** Reachable adapters *)

(** A request, the end of a waiting task, or anything the game does to the
    GPGNet server. *)
Inductive adapter_step : Adapter -> Adapter -> Prop :=
| as_request env req a : adapter_step a (HandleRequest env req a).1
| as_task env ok t a : t ∈ ad_tasks a -> adapter_step a (taskDone env ok t a)
| as_game g a : adapter_step a (with_gpg g a).

Lemma adapter_ok_step a a' : adapter_step a a' -> adapter_ok a -> adapter_ok a'.
Proof.
  destruct 1; intros Ha; [by apply adapter_ok_request|by apply adapter_ok_task|].
  by apply (adapter_ok_same a).
Qed.

(** The requests that decide the mode of the lobby. *)
Definition decides_mode (req : RpcRequest) : bool :=
  bool_decide (rpc_method req = "hostGame") || bool_decide (rpc_method req = "joinGame").

Lemma addRelayPeer_mode env cmd id login a :
  ad_relayMode (addRelayPeer env cmd id login a).1 = ad_relayMode a.
Proof.
  unfold addRelayPeer. destruct (ensureRelayReady_pm (e_relay env) a) as (_ & _ & _ & _ & E).
  by destruct (AddPeer _ _ _ _) as [pm [p|]].
Qed.

Lemma addICEPeer_mode env cmd id login off a :
  ad_relayMode (addICEPeer env cmd id login off a).1 = ad_relayMode a.
Proof. unfold addICEPeer. by destruct (AddICEPeer _ _ _ _ _) as [pm [p|]]. Qed.

Lemma connectToPeer_mode env params a :
  ad_relayMode (connectToPeer env params a).1 = ad_relayMode a.
Proof.
  unfold connectToPeer. destruct params as [|p0 [|p1 [|p2 ?]]]; [done..|].
  destruct (toString p0) as [login|]; [|done]. destruct (toFloat p1) as [f|]; [|done].
  destruct (toBool p2) as [offer|]; [|done]. cbv zeta.
  destruct (_ <? _); [done|]. destruct (_ <=? _); [done|]. destruct (_ || _); [done|].
  destruct (GetPeer _ _); [done|]. destruct (GetICEPeer _ _) as [old|].
  - destruct (eqb _ _); [done|]. by destruct (ReplaceICEPeer _ _ _ _ _ _) as [pm [p|]].
  - destruct (ad_relayMode a) eqn:E; [rewrite addRelayPeer_mode|rewrite addICEPeer_mode]; done.
Qed.

Lemma request_mode env req a :
  decides_mode req = false -> ad_relayMode (HandleRequest env req a).1 = ad_relayMode a.
Proof.
  intros [H1 H2]%orb_false_elim. unfold HandleRequest. cbv zeta. rewrite H1, H2. clear H1 H2.
  destruct (bool_decide _); [apply connectToPeer_mode|].
  repeat (destruct (bool_decide _);
    [unfold disconnectFromPeer, setLobbyInitMode, iceMsg, sendToGpgNet, setIceServers;
     by repeat case_match|]).
  done.
Qed.

Definition run_requests (rs : list (RpcEnv * RpcRequest)) (a : Adapter) : Adapter :=
  foldl (fun a '(env, req) => (HandleRequest env req a).1) a rs.

Lemma run_requests_mode rs a :
  Forall (fun r => decides_mode r.2 = false) rs -> ad_relayMode (run_requests rs a) = ad_relayMode a.
Proof.
  revert a. induction rs as [|[env req] rs IH]; intros a HF; [done|].
  apply Forall_cons in HF as [H HF]. simpl in *. rewrite IH by done. by apply request_mode.
Qed.

(** The parameters of [connectToPeer] when it accepts them. *)
Definition connect_params (env : RpcEnv) (params : list RawMessage) : option (string * Z * bool) :=
  match params with
  | p0 :: p1 :: p2 :: _ =>
      login ← toString p0; f ← toFloat p1; offer ← toBool p2;
      if (Z.of_nat (String.length login) <=? maxLoginLen) && (0 <? float_int env f)
      then Some (login, float_int env f, offer) else None
  | _ => None
  end.
Definition in_lobby (a : Adapter) : bool :=
  negb (bool_decide (gameState (ad_gpg a) = GameStateLaunching) ||
        bool_decide (gameState (ad_gpg a) = GameStateEnded)).

Lemma connectToPeer_accepts env params a login pid offer :
  connect_params env params = Some (login, pid, offer) -> in_lobby a = true ->
  connectToPeer env params a =
  match GetPeer pid (ad_pm a), GetICEPeer pid (ad_pm a) with
  | Some peer, _ => (peerCommand env CmdConnectToPeer (p_conn peer) login pid a, Ok tt)
  | None, Some old =>
      if eqb (ip_Offerer old) offer then (a, Ok tt)
      else
        let a := spawn (restartTasks pid (closing pid (ad_pm a))) a in
        match ReplaceICEPeer (e_peer env) pid login offer None (ad_pm a) with
        | (pm, None) => (with_pm pm a, Ok tt)
        | (pm, Some peer) =>
            (notifyState pid "Connecting" false
               (with_pm (with_ice (fun t => <[pid := iceStart peer]> t) pm) a), Ok tt)
        end
  | None, None =>
      if ad_relayMode a then addRelayPeer env CmdConnectToPeer pid login a
      else addICEPeer env CmdConnectToPeer pid login offer a
  end.
Proof.
  unfold connect_params, connectToPeer, in_lobby. intros H Hl%negb_true_iff.
  destruct params as [|p0 [|p1 [|p2 ?]]]; try done. destruct (toString p0) as [lg|]; [|done].
  destruct (toFloat p1) as [f|]; [|done]. destruct (toBool p2) as [o|]; [|done]. simpl in H.
  destruct (Z.leb_spec (Z.of_nat (String.length lg)) maxLoginLen) as [H1|]; [|done].
  destruct (Z.ltb_spec 0 (float_int env f)) as [H2|]; [|done]. simpl in H. simplify_eq.
  rewrite (proj2 (Z.ltb_ge _ _) H1), (proj2 (Z.leb_gt _ _) H2), Hl. done.
Qed.

(** What a fresh peer looks like in the tables. *)
Lemma addRelayPeer_registers env cmd id login a a' :
  GetPeer id (ad_pm a) = None -> addRelayPeer env cmd id login a = (a', Ok tt) ->
  (exists p, GetPeer id (ad_pm a') = Some p) /\ GetICEPeer id (ad_pm a') = GetICEPeer id (ad_pm a) /\
  gameState (ad_gpg a') = gameState (ad_gpg a).
Proof.
  intros Hn H. unfold addRelayPeer in H.
  destruct (ensureRelayReady_pm (e_relay env) a) as (E & Eg & _). set (b := ensureRelayReady _ a) in *.
  rewrite <- E in Hn |- *. rewrite <- Eg. clearbody b.
  destruct (AddPeer_tables (e_peer env) id login (ad_pm b) Hn) as [Hi Hp].
  destruct (AddPeer _ _ _ _) as [pm [p|]]; simplify_eq/=. destruct Hp as [Hp _].
  unfold GetPeer, GetICEPeer; simpl. rewrite lookup_insert_eq, Hi. split_and!; [by eexists|done|].
  unfold SendToGameQueued, SendToGame. repeat case_match; by simplify_eq.
Qed.

Lemma addICEPeer_registers env cmd id login off a a' :
  GetICEPeer id (ad_pm a) = None -> addICEPeer env cmd id login off a = (a', Ok tt) ->
  (exists p, GetICEPeer id (ad_pm a') = Some p /\ ip_Offerer p = off) /\
  GetPeer id (ad_pm a') = GetPeer id (ad_pm a) /\ gameState (ad_gpg a') = gameState (ad_gpg a).
Proof.
  intros Hn H. unfold addICEPeer in H.
  destruct (AddICEPeer_tables (e_peer env) id login off (ad_pm a) Hn) as [Hp Hi].
  destruct (AddICEPeer _ _ _ _ _) as [pm [p|]]; simplify_eq/=. destruct Hi as (Hi & Hoff & _).
  unfold GetPeer, GetICEPeer; simpl. rewrite lookup_insert_eq, Hp. split_and!; [|done|].
  - eexists. split; [done|]. by rewrite (proj2 (proj2 (proj2 (iceStart_dyn p)))).
  - unfold SendToGameQueued, SendToGame. repeat case_match; by simplify_eq.
Qed.

(** ** Theorems *)


(** A client that hosts and then connects player 8. *)
Definition demo_cfg (official : bool) : Config := MkCfg 7 1234 "me" "http://relay" official.
Definition demo_env : RpcEnv :=
  MkRpcEnv all_ok (MkAnswers (Some 201) (Some 200) None) (fun s => 5000 + Z.of_nat s)
    (fun _ => 0) (fun _ => 0) (fun _ => None) (fun _ => None).
Definition num (n : Z) : RawMessage := MkRaw "" (RNum (Some (MkFloat n 0))).
Definition str (s : string) : RawMessage := MkRaw "" (RStr s).
Definition host_req : RpcRequest := MkRpc "hostGame" [str "map"].
Definition connect_args (pid : Z) (offer : bool) : list RawMessage :=
  [str "b"; num pid; MkRaw "" (RBool offer)].
Definition hosting (official : bool) : Adapter :=
  (HandleRequest demo_env host_req (NewAdapter (demo_cfg official) NewGPGNetServer)).1.


(** The host decides once for the whole lobby.  After [hostGame] succeeds,
    whatever other requests follow (short of another [hostGame] or
    [joinGame]), a [connectToPeer] for a new player that succeeds makes a
    relay peer when the host is not in official mode and not in matchmaking,
    and otherwise an ICE peer with the role asked for. *)
Theorem lobby_mode_governs (env envc : RpcEnv) (a a1 a3 : Adapter) (host params : list RawMessage)
    (rs : list (RpcEnv * RpcRequest)) (login : string) (pid : Z) (offer : bool) :
  hostGame env host a = (a1, Ok tt) -> Forall (fun r => decides_mode r.2 = false) rs ->
  let a2 := run_requests rs a1 in
  connect_params envc params = Some (login, pid, offer) -> in_lobby a2 = true ->
  GetPeer pid (ad_pm a2) = None -> GetICEPeer pid (ad_pm a2) = None ->
  connectToPeer envc params a2 = (a3, Ok tt) ->
  if negb (cfg_UseOfficialFAF (ad_cfg a)) && negb (ad_mode a =? LobbyInitModeAuto)
  then exists p, GetPeer pid (ad_pm a3) = Some p
  else exists p, GetICEPeer pid (ad_pm a3) = Some p /\ ip_Offerer p = offer.
Proof.
  intros Hh HF a2 Hc Hl H1 H2 H.
  assert (Hm : ad_relayMode a1 =
    negb (cfg_UseOfficialFAF (ad_cfg a)) && negb (ad_mode a =? LobbyInitModeAuto)).
  { unfold hostGame in Hh. destruct host as [|p0 ?]; [done|]. destruct (toString p0); [|done].
    destruct (_ <? _); [done|]. cbv zeta in Hh. change (ad_cfg (SetHost a)) with (ad_cfg a) in Hh.
    change (ad_mode (SetHost a)) with (ad_mode a) in Hh. by destruct (_ && _); simplify_eq/=. }
  rewrite (connectToPeer_accepts _ _ _ _ _ _ Hc Hl), H1, H2 in H. unfold a2 in H at 1.
  rewrite run_requests_mode, Hm in H by done. destruct (_ && _).
  - by destruct (addRelayPeer_registers _ _ _ _ _ _ H1 H) as [? _].
  - by destruct (addICEPeer_registers _ _ _ _ _ _ _ H2 H) as [? _].
Qed.

Lemma lobby_mode_governs_witness :
  exists p, GetICEPeer 8 (ad_pm (connectToPeer demo_env (connect_args 8 true) (hosting true)).1) = Some p /\
    ip_Offerer p = true.
Proof.
  exact (lobby_mode_governs demo_env demo_env (NewAdapter (demo_cfg true) NewGPGNetServer)
           (hosting true) (connectToPeer demo_env (connect_args 8 true) (hosting true)).1 [str "map"]
           (connect_args 8 true) [] "b" 8 true eq_refl ltac:(constructor) eq_refl eq_refl eq_refl
           eq_refl eq_refl).
Defined.

(** Repeating [connectToPeer] does no harm.  When the request has left the
    player with a peer, the same request again keeps every peer, starts
    nothing and tells the client nothing; it is ignored for an ICE peer and
    repeats only the message to the game for a relay peer. *)
Theorem connect_again (env : RpcEnv) (params : list RawMessage) (a a1 : Adapter) (login : string)
    (pid : Z) (offer : bool) :
  connect_params env params = Some (login, pid, offer) -> in_lobby a = true ->
  connectToPeer env params a = (a1, Ok tt) ->
  match GetPeer pid (ad_pm a1), GetICEPeer pid (ad_pm a1) with
  | Some peer, _ =>
      connectToPeer env params a1 =
      (peerCommand env CmdConnectToPeer (p_conn peer) login pid a1, Ok tt)
  | None, Some _ => connectToPeer env params a1 = (a1, Ok tt)
  | None, None => True
  end.
Proof.
  intros Hc Hl H.
  assert (Hg : gameState (ad_gpg a1) = gameState (ad_gpg a) /\
    forall p, GetPeer pid (ad_pm a1) = None -> GetICEPeer pid (ad_pm a1) = Some p ->
      ip_Offerer p = offer).
  { rewrite (connectToPeer_accepts _ _ _ _ _ _ Hc Hl) in H.
    destruct (GetPeer pid (ad_pm a)) as [q|] eqn:E1.
    { simplify_eq/=. split; [|congruence].
      unfold SendToGameQueued, SendToGame. repeat case_match; by simplify_eq. }
    destruct (GetICEPeer pid (ad_pm a)) as [old|] eqn:E2.
    - destruct (eqb (ip_Offerer old) offer) eqn:Eo.
      { simplify_eq. apply eqb_prop in Eo. split; [done|]. intros. congruence. }
      cbv zeta in H. destruct (ReplaceICEPeer_tables (e_peer env) pid login offer None (ad_pm a)) as [_ Hi].
      change (ad_pm (spawn _ a)) with (ad_pm a) in H.
      destruct (ReplaceICEPeer _ _ _ _ _ _) as [pm [p|]]; simplify_eq/=; split; try done;
        unfold GetICEPeer; simpl; intros q _.
      + rewrite lookup_insert_eq. intros [= <-].
        by rewrite (proj2 (proj2 (proj2 (iceStart_dyn p)))), (proj2 Hi).
      + rewrite Hi, lookup_delete_eq. done.
    - destruct (ad_relayMode a).
      + destruct (addRelayPeer_registers _ _ _ _ _ _ E1 H) as ([p Hp] & _ & ?). split; [done|].
        intros q Hq. congruence.
      + destruct (addICEPeer_registers _ _ _ _ _ _ _ E2 H) as ([p [Hp Ho]] & _ & ?). split; [done|].
        intros q _ Hq. congruence. }
  destruct Hg as [Hg Ho]. unfold in_lobby in Hl. rewrite <- Hg in Hl.
  rewrite (connectToPeer_accepts _ _ _ _ _ _ Hc Hl).
  destruct (GetPeer pid (ad_pm a1)) as [p|] eqn:E1; [done|].
  destruct (GetICEPeer pid (ad_pm a1)) as [p|] eqn:E2; [|done].
  rewrite (Ho p eq_refl eq_refl). by destruct offer.
Qed.

Lemma connect_again_witness :
  let a1 := (connectToPeer demo_env (connect_args 8 true) (hosting true)).1 in
  connectToPeer demo_env (connect_args 8 true) a1 = (a1, Ok tt).
Proof.
  exact (connect_again demo_env (connect_args 8 true) (hosting true)
           (connectToPeer demo_env (connect_args 8 true) (hosting true)).1 "b" 8 true
           eq_refl eq_refl eq_refl).
Defined.

(** A refused request has no effect: apart from a peer that cannot be
    created and a message that cannot be written to the game, an error leaves
    the adapter as it was. *)
Theorem refused_request_inert (env : RpcEnv) (req : RpcRequest) (a a' : Adapter) (e : RpcErr) :
  HandleRequest env req a = (a', Err e) -> e <> CreatingPeer -> e <> GameWrite -> a' = a.
Proof.
  intros H H1 H2. unfold HandleRequest in H. cbv zeta in H.
  repeat (destruct (bool_decide _);
    [unfold hostGame, joinGame, connectToPeer, disconnectFromPeer, setLobbyInitMode, iceMsg,
       sendToGpgNet, setIceServers, addRelayPeer, addICEPeer in H; cbv zeta in H;
     repeat case_match; by simplify_eq|]).
  by simplify_eq.
Qed.

Lemma refused_request_inert_witness :
  (joinGame demo_env [str "b"; num (-3)] (hosting true)).1 = hosting true.
Proof.
  apply (refused_request_inert demo_env (MkRpc "joinGame" [str "b"; num (-3)]) (hosting true) _
           InvalidPlayerID); by vm_compute.
Defined.
