(* ===== verification/AdapterRun.v ===== *)
(** * [internal/adapter/adapter.go]: running the adapter

    [Adapter.Run]: the start-up with its failures and deferred closes, the
    goroutines it starts, what ends it, and the shutdown.  The state puts the
    adapter of [RpcHandler] (with its peer manager and GPGNet server) and the
    relay connection of [Transport] under one context.  [Run] is executed
    statement by statement, so that requests of the client, the game, the relay
    goroutines and the cancellation can come at any point. *)

From S2P Require Import Prelude Float GoLib GPGNet RelayConn Peer PeerMgr GpgNetServer.
From S2P Require Import IcePeer IceRestart RpcHandler Transport.

(** [Config] *)
Record AdapterConfig := MkAC {
  PlayerID : Z; GameID : Z; Login : string; RPCPort : Z; GPGNetPort : Z; ac_LobbyPort : Z;
  ac_RelayServer : string; ac_RelayTCPServer : string; RelayHTTP : string; ac_APIKey : string;
  ac_TCPFallback : bool; ac_ForceTCP : bool; DebugWindow : bool; ac_UseOfficialFAF : bool }.

Definition rpcConfig (c : AdapterConfig) : Config :=
  MkCfg (PlayerID c) (GameID c) (Login c) (RelayHTTP c) (ac_UseOfficialFAF c).
Definition transportConfig (c : AdapterConfig) : TransportConfig :=
  MkTC (ac_RelayServer c) (ac_RelayTCPServer c) (ac_TCPFallback c) (ac_ForceTCP c) (ac_UseOfficialFAF c).

(** What [Run] opens with a deferred close.  The log file of [NewAdapter], which
    nothing closes, and the sockets of the peers, which belong to the peer
    manager, are apart. *)
Inductive Res := RRelayConn | RGPGNet | RRPC | RDebug.
#[export] Instance Res_eq_dec : EqDecision Res.
Proof. solve_decision. Defined.

Inductive StartErr := ErrRelayConn | ErrLobbyPort | ErrGPGNet | ErrRPC.

(** The next statement of [Run]. *)
Inductive ARpc :=
| APeerMgr                 (* the context, the channel and the peer manager *)
| ARelayConn
| ALobbyPort
| AGPGNet
| ARPC
| ADebug
| ASpawn                   (* the goroutines *)
| AWait                    (* [<-a.ctx.Done()] *)
| ACloseAll
| ALeave
| AReturned (err : option StartErr).

Record RunState := MkAR {
  ar_cfg : AdapterConfig;
  ar_a : Adapter;
  ar_w : World;
  ar_pc : ARpc;
  ar_logFile : bool;                (* the log file is open *)
  ar_open : list Res;               (* open, the last one first *)
  ar_defer : list Res;              (* the deferred closes, the last one first *)
  ar_closed : list Res;             (* closed, in this order *)
  ar_lobbyPort : Z;
  ar_gone : option bool;            (* [gameDisconnectedCh]: nil, or whether it holds a signal *)
  ar_watching : bool;               (* the goroutine that waits for the game to go *)
  ar_registering : bool;            (* the goroutine [ensureRelayReady] *)
  ar_session : option Z             (* the epoch of the connection [handleConnection] serves *)
}.

(** [NewAdapter]; [logOk]: the path of the program is known and the log file
    next to it could be created. *)
Definition newAdapter (c : AdapterConfig) (logOk : bool) : RunState :=
  MkAR c (NewAdapter (rpcConfig c) NewGPGNetServer)
    (startWorld (transportConfig c) AddrPort_zero (u32 (PlayerID c))) APeerMgr logOk [] [] [] 0 None false false None.

Definition at_pc (pc : ARpc) (s : RunState) : RunState :=
  MkAR (ar_cfg s) (ar_a s) (ar_w s) pc (ar_logFile s) (ar_open s) (ar_defer s) (ar_closed s) (ar_lobbyPort s) (ar_gone s)
    (ar_watching s) (ar_registering s) (ar_session s).
Definition with_a (a : Adapter) (s : RunState) : RunState :=
  MkAR (ar_cfg s) a (ar_w s) (ar_pc s) (ar_logFile s) (ar_open s) (ar_defer s) (ar_closed s) (ar_lobbyPort s) (ar_gone s)
    (ar_watching s) (ar_registering s) (ar_session s).
Definition with_w (w : World) (s : RunState) : RunState :=
  MkAR (ar_cfg s) (ar_a s) w (ar_pc s) (ar_logFile s) (ar_open s) (ar_defer s) (ar_closed s) (ar_lobbyPort s) (ar_gone s)
    (ar_watching s) (ar_registering s) (ar_session s).
(** Opening a resource, with [defer r.Close()]. *)
Definition opens (r : Res) (s : RunState) : RunState :=
  MkAR (ar_cfg s) (ar_a s) (ar_w s) (ar_pc s) (ar_logFile s) (r :: ar_open s) (r :: ar_defer s) (ar_closed s) (ar_lobbyPort s) (ar_gone s)
    (ar_watching s) (ar_registering s) (ar_session s).
Definition set_lobbyPort (p : Z) (s : RunState) : RunState :=
  MkAR (ar_cfg s) (ar_a s) (ar_w s) (ar_pc s) (ar_logFile s) (ar_open s) (ar_defer s) (ar_closed s) p (ar_gone s)
    (ar_watching s) (ar_registering s) (ar_session s).
Definition set_gone (g : option bool) (s : RunState) : RunState :=
  MkAR (ar_cfg s) (ar_a s) (ar_w s) (ar_pc s) (ar_logFile s) (ar_open s) (ar_defer s) (ar_closed s) (ar_lobbyPort s) g
    (ar_watching s) (ar_registering s) (ar_session s).
Definition set_tasks (watching registering : bool) (s : RunState) : RunState :=
  MkAR (ar_cfg s) (ar_a s) (ar_w s) (ar_pc s) (ar_logFile s) (ar_open s) (ar_defer s) (ar_closed s) (ar_lobbyPort s) (ar_gone s)
    watching registering (ar_session s).
Definition set_session (e : option Z) (s : RunState) : RunState :=
  MkAR (ar_cfg s) (ar_a s) (ar_w s) (ar_pc s) (ar_logFile s) (ar_open s) (ar_defer s) (ar_closed s) (ar_lobbyPort s) (ar_gone s)
    (ar_watching s) (ar_registering s) e.

(** The deferred calls run: the closes in reverse order, then [a.cancel()]. *)
Definition returns (err : option StartErr) (s : RunState) : RunState :=
  MkAR (ar_cfg s) (quit (ar_a s)) (cancel (ar_w s)) (AReturned err) (ar_logFile s)
    (filter (fun r => r ∉ ar_defer s) (ar_open s)) [] (ar_closed s ++ ar_defer s)
    (ar_lobbyPort s) (ar_gone s) (ar_watching s) (ar_registering s) (ar_session s).

Definition ctxDone (s : RunState) : bool := ad_cancelled (ar_a s).
(** [a.cancel()]: one context for both parts. *)
Definition a_cancel (s : RunState) : RunState := with_w (cancel (ar_w s)) (with_a (quit (ar_a s)) s).

(** [signalGameDisconnected]: a send that never blocks. *)
Definition signalGameDisconnected (s : RunState) : RunState :=
  match ar_gone s with Some _ => set_gone (Some true) s | None => s end.

(** What the next statement gets from outside: whether the system call
    succeeds, the port it chose, the resolved relay address, the iteration
    order of a map. *)
Record Answer := MkAnswer { an_ok : bool; an_port : Z; an_addr : AddrPort; an_order : Shuffle }.

Definition runStep (an : Answer) (s : RunState) : outcome RunState :=
  let cfg := ar_cfg s in
  match ar_pc s with
  | APeerMgr =>
      Ret (at_pc ARelayConn (set_gone (Some false)
        (with_a (with_pm (NewPeerManager (u32 (PlayerID cfg))) (ar_a s)) s)))
  | ARelayConn =>
      if an_ok an then
        let w := startWorld (transportConfig cfg) (an_addr an) (u32 (PlayerID cfg)) in
        Ret (at_pc ALobbyPort (opens RRelayConn (with_w (if ctxDone s then cancel w else w) s)))
      else Ret (returns (Some ErrRelayConn) s)
  | ALobbyPort =>
      if ac_LobbyPort cfg =? 0 then
        if an_ok an then Ret (at_pc AGPGNet (set_lobbyPort (an_port an) s))
        else Ret (returns (Some ErrLobbyPort) s)
      else Ret (at_pc AGPGNet (set_lobbyPort (ac_LobbyPort cfg) s))
  | AGPGNet =>
      if an_ok an then Ret (at_pc ARPC (opens RGPGNet (with_a (with_gpg NewGPGNetServer (ar_a s)) s)))
      else Ret (returns (Some ErrGPGNet) s)
  | ARPC =>
      if an_ok an then Ret (at_pc ADebug (opens RRPC s)) else Ret (returns (Some ErrRPC) s)
  | ADebug => Ret (at_pc ASpawn (if an_ok an then opens RDebug s else s))
  | ASpawn =>
      w ← (if ac_UseOfficialFAF cfg then setupStep (transportConfig cfg) None true 0 (ar_w s)
           else Ret (ar_w s));
      Ret (at_pc AWait (set_tasks true (negb (ac_UseOfficialFAF cfg)) (with_w w s)))
  | AWait => if ctxDone s then Ret (at_pc ACloseAll s) else Ret s
  | ACloseAll => Ret (at_pc ALeave (with_a (with_pm (CloseAll (an_order an) (ad_pm (ar_a s))) (ar_a s)) s))
  | ALeave => Ret (returns None (with_a (leaveRelay (ar_a s)) s))
  | AReturned _ => Ret s
  end.

(** The goroutines have been started. *)
Definition spawned (pc : ARpc) : bool :=
  match pc with AWait | ACloseAll | ALeave | AReturned None => true | _ => false end.

(** What [onGameState] reads from the adapter. *)
Definition gameConfig (s : RunState) : GameConfig :=
  MkConfig (ad_mode (ar_a s)) (ar_lobbyPort s) (Login (ar_cfg s)) (PlayerID (ar_cfg s)).

(** [GPGNetServer.Run]: the accept loop serves one game at a time, so a
    connection is taken only when none is being served. *)
Definition gpgRun (conn : Conn) (s : RunState) : RunState :=
  match ar_session s with
  | Some _ => s
  | None =>
      let g := gameConnected conn (ad_gpg (ar_a s)) in
      set_session (Some (connEpoch g)) (with_a (with_gpg g (ar_a s)) s)
  end.

(** [handleConnection] ends. *)
Definition gameEnds (myEpoch : Z) (s : RunState) : RunState :=
  let g := gameGone myEpoch (ad_gpg (ar_a s)) in
  let s' := set_session None (with_a (with_gpg g (ar_a s)) s) in
  if connEpoch g =? myEpoch then signalGameDisconnected s' else s'.

Inductive RunEvent :=
| AvRun (an : Answer)
| AvParent                                            (* the parent context is cancelled *)
| AvRpc (env : RpcEnv) (req : RpcRequest)             (* a request of the client *)
| AvTask (env : RpcEnv) (i : nat)                     (* a goroutine waiting for the relay *)
| AvRegister (ans : RelayAnswers)                     (* [ensureRelayReady] *)
| AvTransport (e : Event)                             (* the goroutines of [Transport] *)
| AvGame (conn : Conn)                                (* the game connects *)
| AvGameRead (stream : bytes) (oor : float64 -> Z)    (* the next read on what is left of its stream *)
| AvGameGone                                          (* its connection ends *)
| AvWatch.                                            (* the goroutine of step 9 *)

Definition aStep (e : RunEvent) (s : RunState) : outcome RunState :=
  match e with
  | AvRun an => runStep an s
  | AvParent => Ret (match ar_pc s with APeerMgr => s | _ => a_cancel s end)
  | AvRpc env req =>
      if spawned (ar_pc s) then
        let s := with_a (HandleRequest env req (ar_a s)).1 s in
        Ret (if ctxDone s then a_cancel s else s)
      else Ret s
  | AvTask env i =>
      match ad_tasks (ar_a s) !! i, WaitRelayConfirmed (ctxDone s) (w_rc (ar_w s)) with
      | Some t, Some b => Ret (with_a (taskDone env b t (ar_a s)) s)
      | _, _ => Ret s
      end
  | AvRegister ans =>
      if ar_registering s then
        Ret (set_tasks (ar_watching s) false (with_a (ensureRelayReady ans (ar_a s)) s))
      else Ret s
  | AvTransport ECancel => Ret s
  | AvTransport e =>
      if spawned (ar_pc s) then w ← exec (transportConfig (ar_cfg s)) e (ar_w s); Ret (with_w w s) else Ret s
  | AvGame conn => Ret (if spawned (ar_pc s) then gpgRun conn s else s)
  | AvGameRead stream oor =>
      match ar_session s with
      | Some myEpoch =>
          match ReadMessage stream with
          | ROk (header, chunks) _ =>
              g ← processMessage (gameConfig s) oor header chunks (ad_gpg (ar_a s));
              Ret (with_a (with_gpg g (ar_a s)) s)
          | RErr _ => Ret (gameEnds myEpoch s)
          | RPanic => Panic
          end
      | None => Ret s
      end
  | AvGameGone => Ret (match ar_session s with Some myEpoch => gameEnds myEpoch s | None => s end)
  | AvWatch =>
      if ar_watching s then
        match ar_gone s with
        | Some true => Ret (a_cancel (set_tasks false (ar_registering s) (set_gone (Some false) s)))
        | _ => if ctxDone s then Ret (set_tasks false (ar_registering s) s) else Ret s
        end
      else Ret s
  end.

Fixpoint aRun (es : list RunEvent) (s : RunState) : outcome RunState :=
  match es with [] => Ret s | e :: es' => s' ← aStep e s; aRun es' s' end.

Lemma aRun_app es1 es2 s : aRun (es1 ++ es2) s = s' ← aRun es1 s; aRun es2 s'.
Proof.
  revert s; induction es1 as [|e es1 IH]; intros s; simpl; [done|].
  destruct (aStep e s); simpl; [apply IH|done].
Qed.

(** ** What the client and the waiting goroutines leave alone *)

(** The fields of the GPGNet server that only the game's connection changes. *)
Record same_gpg (g g' : GPGNetServer) : Prop := {
  sg_epoch : connEpoch g' = connEpoch g;
  sg_ready : lobbyReady g' = lobbyReady g;
  sg_once : lobbyOnce g' = lobbyOnce g }.

#[export] Instance same_gpg_refl : Reflexive same_gpg.
Proof. by split. Qed.
#[export] Instance same_gpg_trans : Transitive same_gpg.
Proof. intros ??? [] []. split; congruence. Qed.

Lemma same_gpg_send oor h args g : same_gpg g (SendToGame oor h args g).1.
Proof.
  unfold SendToGame. destruct (g_writer g); [|done]. by destruct (WriteMessage _ _ _ _) as [w e].
Qed.

Lemma same_gpg_queued oor h args g : same_gpg g (SendToGameQueued oor h args g).
Proof.
  unfold SendToGameQueued. destruct (lobbyReady g); [apply same_gpg_send|]. by destruct (_ <=? _).
Qed.

Lemma same_gpg_flush oor ms g :
  same_gpg g (foldl (fun g m => (SendToGame oor (q_header m) (q_args m) g).1) g ms).
Proof.
  revert g; induction ms as [|m ms IH]; intros g; [done|]. cbn [foldl].
  etransitivity; [apply same_gpg_send|apply IH].
Qed.

(** What a request may do to the context and the game's server. *)
Record same_run (a a' : Adapter) : Prop := {
  sr_cfg : ad_cfg a' = ad_cfg a;
  sr_gpg : same_gpg (ad_gpg a) (ad_gpg a');
  sr_ctx : ad_cancelled a = true -> ad_cancelled a' = true }.

#[export] Instance same_run_refl : Reflexive same_run.
Proof. by split. Qed.
#[export] Instance same_run_trans : Transitive same_run.
Proof. intros a b c [C1 G1 X1] [C2 G2 X2]. split; [congruence|by etransitivity|auto]. Qed.

Lemma same_run_queue env h args a : same_run a (queueToGame env h args a).
Proof. split; try done. apply same_gpg_queued. Qed.

Lemma same_run_ready ans a : same_run a (ensureRelayReady ans a).
Proof.
  unfold ensureRelayReady, registerWithRelay. destruct (ad_setupOnce a); [done|].
  destruct (bool_decide _); [done|]. destruct (ans_create ans) as [st|]; [|done].
  destruct (negb _ && _); [done|]. destruct (ans_join ans) as [st'|]; [|done]. by destruct (st' =? 200).
Qed.

Lemma same_run_task env b t a : same_run a (taskDone env b t a).
Proof.
  unfold taskDone, notifyPeerConnectedWhenRelayReady. destruct b, t; try done.
  cbn [negb]. etransitivity; [apply same_run_queue|]. done.
Qed.

Create HintDb run_same discriminated.
#[export] Hint Constants Opaque : run_same.
Lemma sr_refl a : same_run a a. Proof. done. Qed.
Lemma sr_pm pm a b : same_run a b -> same_run a (with_pm pm b). Proof. by intros []. Qed.
Lemma sr_notify ns a b : same_run a b -> same_run a (notify ns b). Proof. by intros []. Qed.
Lemma sr_state id st c a b : same_run a b -> same_run a (notifyState id st c b). Proof. by intros []. Qed.
Lemma sr_spawn ts a b : same_run a b -> same_run a (spawn ts b). Proof. by intros []. Qed.
Lemma sr_host a b : same_run a b -> same_run a (SetHost b). Proof. by intros []. Qed.
Lemma sr_mode r a b : same_run a b -> same_run a (SetRelayMode r b). Proof. by intros []. Qed.
Lemma sr_init m a b : same_run a b -> same_run a (SetLobbyInitMode m b). Proof. by intros []. Qed.
Lemma sr_servers l a b : same_run a b -> same_run a (SetICEServers l b). Proof. by intros []. Qed.
Lemma sr_quit a b : same_run a b -> same_run a (quit b). Proof. by intros []. Qed.
Lemma sr_queue env h args a b : same_run a b -> same_run a (queueToGame env h args b).
Proof. intros H. etransitivity; [exact H|apply same_run_queue]. Qed.
Lemma sr_command env cmd sock login pid a b :
  same_run a b -> same_run a (peerCommand env cmd sock login pid b).
Proof. apply sr_queue. Qed.
Lemma sr_ready ans a b : same_run a b -> same_run a (ensureRelayReady ans b).
Proof. intros H. etransitivity; [exact H|apply same_run_ready]. Qed.
Lemma sr_send oor h args a b :
  same_run a b -> same_run a (with_gpg (SendToGame oor h args (ad_gpg b)).1 b).
Proof. intros H. etransitivity; [exact H|]. split; try done. apply same_gpg_send. Qed.
#[export] Hint Resolve sr_refl sr_pm sr_notify sr_state sr_spawn sr_host sr_mode sr_init sr_servers sr_quit
  sr_queue sr_command sr_ready sr_send : run_same.

Lemma sr_addRelay env cmd id login a b :
  same_run a b -> same_run a (addRelayPeer env cmd id login b).1.
Proof.
  intros H. unfold addRelayPeer. destruct (AddPeer _ _ _ _) as [pm [p|]]; cbn [fst];
    auto 8 with run_same.
Qed.
Lemma sr_addICE env cmd id login off a b :
  same_run a b -> same_run a (addICEPeer env cmd id login off b).1.
Proof.
  intros H. unfold addICEPeer. destruct (AddICEPeer _ _ _ _ _) as [pm [p|]]; cbn [fst];
    auto 8 with run_same.
Qed.
#[export] Hint Resolve sr_addRelay sr_addICE : run_same.

(** A request changes the game's server only by sending to it, and the context
    only by cancelling it. *)
Lemma same_run_request env req a : same_run a (HandleRequest env req a).1.
Proof.
  unfold HandleRequest. cbv zeta.
  repeat match goal with |- context [if bool_decide ?P then _ else _] => destruct (bool_decide P) end.
  all: unfold hostGame, joinGame, connectToPeer, disconnectFromPeer, setLobbyInitMode, iceMsg, sendToGpgNet,
    setIceServers; cbv zeta; auto with run_same.
  all: repeat case_match; cbn [fst]; auto 9 with run_same.
  all: match goal with H : SendToGame ?o ?h ?l ?g = (?g', _) |- _ =>
         replace g' with (SendToGame o h l g).1 by (by rewrite H); auto with run_same end.
Qed.

(** ** The invariant *)

(** What is open at each statement; [dbg]: the debug server could be
    started. *)
Definition opened (pc : ARpc) (dbg : bool) : list Res :=
  match pc with
  | APeerMgr | ARelayConn | AReturned _ => []
  | ALobbyPort | AGPGNet => [RRelayConn]
  | ARPC => [RGPGNet; RRelayConn]
  | ADebug => [RRPC; RGPGNet; RRelayConn]
  | ASpawn | AWait | ACloseAll | ALeave =>
      if dbg then [RDebug; RRPC; RGPGNet; RRelayConn] else [RRPC; RGPGNet; RRelayConn]
  end.

(** What has been closed when [Run] has returned, in this order. *)
Definition closedBy (err : option StartErr) (dbg : bool) : list Res :=
  match err with
  | None => opened ALeave dbg
  | Some ErrRelayConn => []
  | Some ErrLobbyPort | Some ErrGPGNet => [RRelayConn]
  | Some ErrRPC => [RGPGNet; RRelayConn]
  end.

Definition returned (pc : ARpc) : bool := match pc with AReturned _ => true | _ => false end.
(** [Run] waits for the context or is past that. *)
Definition waited (pc : ARpc) : bool :=
  match pc with ACloseAll | ALeave => true | _ => false end.

Record ar_ok (s : RunState) : Prop := {
  aro_open : exists dbg, ar_open s = opened (ar_pc s) dbg;
  aro_defer : ar_defer s = ar_open s;
  aro_closed : match ar_pc s with
               | AReturned err => exists dbg, ar_closed s = closedBy err dbg
               | _ => ar_closed s = []
               end;
  aro_world : w_ok (ar_w s);
  aro_ctx : w_cancelled (ar_w s) = ctxDone s;
  aro_setup : spawned (ar_pc s) = false -> returned (ar_pc s) = false ->
              w_setup (ar_w s) = if ac_UseOfficialFAF (ar_cfg s) then SReturn else SBegin;
  aro_gone : ar_pc s <> APeerMgr -> is_Some (ar_gone s);
  aro_watch : spawned (ar_pc s) = true -> ar_watching s = false -> ctxDone s = true;
  aro_waited : waited (ar_pc s) = true \/ returned (ar_pc s) = true -> ctxDone s = true;
  aro_session : forall e, ar_session s = Some e -> spawned (ar_pc s) = true /\ connEpoch (ad_gpg (ar_a s)) = e;
  aro_lobby : lobbyReady (ad_gpg (ar_a s)) = lobbyOnce (ad_gpg (ar_a s)) }.

Lemma ar_ok_new c logOk : ar_ok (newAdapter c logOk).
Proof.
  split; simpl; try done; [apply w_ok_start|by intros [?|?]].
Qed.

Lemma w_ok_cancel w : w_ok w -> w_ok (cancel w).
Proof. by intros []. Qed.

(** A change of the adapter that the goroutines may make. *)
Lemma ar_ok_same a s : ar_ok s -> same_run (ar_a s) a -> ad_cancelled a = ctxDone s -> ar_ok (with_a a s).
Proof.
  intros [] [Hc [He Hr Ho] Hx] Hd. unfold ctxDone in *. split; simpl; unfold ctxDone; simpl; try done.
  - by rewrite Hd.
  - intros. rewrite Hd. auto.
  - intros. rewrite Hd. auto.
  - intros e H. destruct (aro_session0 e H). split; [done|congruence].
  - congruence.
Qed.

Lemma ar_ok_cancel s : ar_ok s -> ar_ok (a_cancel s).
Proof.
  intros []. split; simpl; try done. by apply w_ok_cancel.
Qed.

Lemma ar_ok_request a s :
  ar_ok s -> same_run (ar_a s) a ->
  ar_ok (if ctxDone (with_a a s) then a_cancel (with_a a s) else with_a a s).
Proof.
  intros Hs Hr. destruct (ctxDone (with_a a s)) eqn:E.
  - destruct Hs, Hr as [Hc [He Hr Ho] Hx]. split; simpl; try done; [by apply w_ok_cancel| |].
    + intros e H. destruct (aro_session0 e H). split; [done|congruence].
    + congruence.
  - apply ar_ok_same; [done|done|]. unfold ctxDone in *. simpl in E. rewrite E. symmetry.
    destruct (ad_cancelled (ar_a s)) eqn:Ec; [|done]. rewrite (sr_ctx _ _ Hr Ec) in E. done.
Qed.

(** The game's messages. *)
Lemma processMessage_lobby cfg oor header chunks g :
  lobbyReady g = lobbyOnce g ->
  exists g', processMessage cfg oor header chunks g = Ret g' /\ connEpoch g' = connEpoch g /\
    lobbyReady g' = lobbyOnce g'.
Proof.
  intros Hl. unfold processMessage. set (g1 := note _ g).
  destruct (bool_decide _); [|by exists g1]. destruct chunks as [|[n|state] chunks]; [by exists g1..|].
  unfold onGameState. set (g2 := set_state state g1).
  destruct (bool_decide _).
  { eexists. split; [done|]. destruct (same_gpg_send oor CmdCreateLobby
      [ArgInt32 (i32 (LobbyInitMode cfg)); ArgInt32 (i32 (LobbyPort cfg)); ArgString (cfg_Login cfg);
       ArgInt32 (i32 (cfg_PlayerID cfg)); ArgInt32 1] g2) as [H1 H2 H3].
    split; [exact H1|]. rewrite H2, H3. done. }
  destruct (bool_decide _); [|by exists g2].
  change (lobbyOnce g2) with (lobbyOnce g). change (lobbyReady g2) with (lobbyReady g).
  destruct (lobbyOnce g) eqn:Ho.
  - eexists. split; [done|]. unfold flushQueue.
    destruct (same_gpg_flush oor (messageQueue g2) (set_queue [] g2)) as [H1 H2 H3].
    split; [exact H1|]. rewrite H2, H3. simpl. by rewrite Hl, Ho.
  - rewrite Hl. eexists. split; [done|]. unfold flushQueue. set (g3 := set_lobby true true g2).
    destruct (same_gpg_flush oor (messageQueue g3) (set_queue [] g3)) as [H1 H2 H3].
    split; [exact H1|]. by rewrite H2, H3.
Qed.

Lemma filter_own (l : list Res) : filter (fun r => r ∉ l) l = [].
Proof.
  assert (H : forall l', l' ⊆ l -> filter (fun r => r ∉ l) l' = []).
  { induction l' as [|r l' IH]; intros Hl; [done|]. rewrite filter_cons_False by (intros Hn; apply Hn; set_solver).
    apply IH. set_solver. }
  by apply H.
Qed.

(** What is open where [Run] can return is what that return closes. *)
Definition ends (pc : ARpc) (err : option StartErr) : bool :=
  match pc, err with
  | ARelayConn, Some ErrRelayConn | ALobbyPort, Some ErrLobbyPort | AGPGNet, Some ErrGPGNet
  | ARPC, Some ErrRPC | ALeave, None => true
  | _, _ => false
  end.

Lemma ar_ok_returns err s : ar_ok s -> ends (ar_pc s) err = true -> ar_ok (returns err s).
Proof.
  intros [[dbg Ho] Hdf Hc Hw Hx Hu Hg Hwt Hv Hs Hl] He.
  split; simpl; try done.
  - exists dbg. rewrite Hdf. apply filter_own.
  - rewrite Hdf. symmetry. apply filter_own.
  - exists dbg. rewrite Hdf, Ho. destruct (ar_pc s), err as [[]|]; try done; by rewrite Hc.
  - by apply w_ok_cancel.
  - intros _. apply Hg. by destruct (ar_pc s).
  - intros e Hse. destruct (Hs e Hse) as [Hs1 Hs2]. split; [|done]. by destruct (ar_pc s), err as [[]|].
Qed.

(** The clauses of the invariant after a statement of the start-up. *)
Ltac start_solve Hs Hpc Ho :=
  destruct Hs as [_ Hdf Hc Hw Hx Hu Hg Hwt Hv Hss Hl]; rewrite Hpc in *; simpl in *;
  split; simpl; try done; try (by exists false); try (exists false; by rewrite Ho);
  try (by intros [?|?]); try (intros e He; by destruct (Hss e He)); try (intros _; by apply Hg); try (by rewrite Hdf).

(** A failing call of the start-up. *)
Lemma ar_ok_fails err s :
  ar_ok s -> ends (ar_pc s) (Some err) = true -> exists s', Ret (returns (Some err) s) = Ret s' /\ ar_ok s'.
Proof. intros Hs He. eexists. split; [done|]. by apply ar_ok_returns. Qed.

(** The relay goroutines do not touch the context. *)
Lemma exec_cancelled cfg e w w' :
  exec cfg e w = Ret w' -> e <> ECancel -> w_cancelled w = w_cancelled w'.
Proof.
  intros H Hne. destruct e; simpl in H; try done;
    unfold setupStep, setupAborts, probeStep, ReceiveLoop, recvStops, recvUDP, recvTCPFrame, recvTCPLost,
      RunKeepalive, RunHealthMonitor, send in H;
    repeat (case_match || (unfold mbind, outcome_bind in H)); by simplify_eq/=.
Qed.

Lemma ar_ok_startup an s :
  ar_ok s -> match ar_pc s with ASpawn => False | _ => True end -> spawned (ar_pc s) = false ->
  exists s', runStep an s = Ret s' /\ ar_ok s'.
Proof.
  intros Hs Hn Hsp. pose proof (aro_open s Hs) as [dbg Ho]. unfold runStep.
  destruct (ar_pc s) as [| | | | | | | | | |err] eqn:Hpc; try done; rewrite ?Hpc in Ho; simpl in Ho.
  - eexists. split; [done|]. start_solve Hs Hpc Ho.
  - destruct (an_ok an); [|by apply ar_ok_fails; rewrite ?Hpc].
    eexists. split; [done|].
    pose proof (w_ok_start (transportConfig (ar_cfg s)) (an_addr an) (u32 (PlayerID (ar_cfg s)))) as Hn0.
    start_solve Hs Hpc Ho.
    + destruct (ctxDone s); [by apply w_ok_cancel|done].
    + unfold ctxDone in *. simpl. by destruct (ad_cancelled (ar_a s)).
    + intros _ _. by destruct (ctxDone s).
  - destruct (ac_LobbyPort (ar_cfg s) =? 0).
    + destruct (an_ok an); [|by apply ar_ok_fails; rewrite ?Hpc].
      eexists. split; [done|]. start_solve Hs Hpc Ho.
    + eexists. split; [done|]. start_solve Hs Hpc Ho.
  - destruct (an_ok an); [|by apply ar_ok_fails; rewrite ?Hpc].
    eexists. split; [done|]. start_solve Hs Hpc Ho.
  - destruct (an_ok an); [|by apply ar_ok_fails; rewrite ?Hpc].
    eexists. split; [done|]. start_solve Hs Hpc Ho.
  - eexists. split; [done|]. destruct (an_ok an); start_solve Hs Hpc Ho.
    exists true. by rewrite Ho.
  - by exists s.
Qed.

Lemma ar_ok_spawn an s :
  ar_ok s -> ar_pc s = ASpawn -> exists s', runStep an s = Ret s' /\ ar_ok s' /\ ar_pc s' = AWait.
Proof.
  intros Hs Hpc. pose proof (aro_open s Hs) as [dbg Ho]. unfold runStep. rewrite Hpc in *.
  assert (Hw : exists w, (if ac_UseOfficialFAF (ar_cfg s)
            then setupStep (transportConfig (ar_cfg s)) None true 0 (ar_w s) else Ret (ar_w s)) = Ret w /\
            w_ok w /\ w_cancelled w = w_cancelled (ar_w s)).
  { pose proof (aro_setup s Hs) as Hu. rewrite Hpc in Hu. specialize (Hu eq_refl eq_refl).
    destruct (ac_UseOfficialFAF (ar_cfg s)); [|exists (ar_w s); by split; [|split; [apply Hs|]]].
    unfold setupStep. rewrite Hu.
    destruct (w_ok_mark (ar_w s) (aro_world s Hs)) as (rc & -> & Hok & _); [by rewrite Hu|].
    simpl. eexists. split; [done|]. by split. }
  destruct Hw as (w & -> & Hw & Hcc). simpl. eexists. split; [done|]. split; [|done].
  destruct Hs as [_ Hdf Hc _ Hx Hu Hg Hwt Hv Hss Hl]; rewrite Hpc in *; simpl in *.
  split; simpl; unfold ctxDone in *; simpl; try done; try congruence;
    [by exists dbg|intros _; by apply Hg|intros e He; by destruct (Hss e He)].
Qed.

Lemma ar_ok_later an s :
  ar_ok s -> spawned (ar_pc s) = true -> exists s', runStep an s = Ret s' /\ ar_ok s'.
Proof.
  intros Hs Hsp. pose proof (aro_open s Hs) as [dbg Ho]. unfold runStep.
  destruct (ar_pc s) as [| | | | | | | | | |err] eqn:Hpc; try done; simpl in Ho.
  - destruct (ctxDone s) eqn:Hd; [|by exists s]. eexists. split; [done|].
    destruct Hs as [_ Hdf Hc Hw Hx Hu Hg Hwt Hv Hss Hl]; rewrite Hpc in *; simpl in *.
    split; simpl; unfold ctxDone in *; simpl; try done; [by exists dbg|intros _; by apply Hg].
  - eexists. split; [done|].
    assert (Hs1 : ar_ok (with_a (with_pm (CloseAll (an_order an) (ad_pm (ar_a s))) (ar_a s)) s))
      by by apply ar_ok_same.
    destruct Hs1 as [_ Hdf Hc Hw Hx Hu Hg Hwt Hv Hss Hl]; simpl in *; rewrite Hpc in *; simpl in *.
    split; simpl; try done; [by exists dbg|intros _; by apply Hg].
  - eexists. split; [done|].
    assert (Hs1 : ar_ok (with_a (leaveRelay (ar_a s)) s)).
    { apply ar_ok_same; [done|..]; unfold leaveRelay; by destruct (_ || _). }
    apply ar_ok_returns; [done|]. simpl. by rewrite Hpc.
  - by exists s.
Qed.

Lemma ar_ok_runStep an s : ar_ok s -> exists s', runStep an s = Ret s' /\ ar_ok s'.
Proof.
  intros Hs. destruct (spawned (ar_pc s)) eqn:Hsp; [by apply ar_ok_later|].
  destruct (ar_pc s) eqn:Hpc; try (by apply ar_ok_startup; rewrite ?Hpc).
  destruct (ar_ok_spawn an s Hs Hpc) as (s' & E & H & _). by eauto.
Qed.

(** The relay goroutines. *)
Lemma ar_ok_transport e s :
  ar_ok s -> e <> ECancel -> spawned (ar_pc s) = true ->
  exists w, exec (transportConfig (ar_cfg s)) e (ar_w s) = Ret w /\ ar_ok (with_w w s).
Proof.
  intros Hs Hne Hsp.
  destruct (w_ok_exec (transportConfig (ar_cfg s)) e (ar_w s) (aro_world s Hs)) as (w & E & Hw).
  exists w. split; [done|]. destruct Hs as [Ho Hdf Hc _ Hxx Hu Hg Hwt Hv Hss Hl]. split; simpl; try done.
  - rewrite <- (exec_cancelled _ _ _ _ E Hne). done.
  - intros Hsp'. congruence.
Qed.

(** The game comes and goes. *)
Lemma ar_ok_game conn s : ar_ok s -> spawned (ar_pc s) = true -> ar_ok (gpgRun conn s).
Proof.
  intros Hs Hsp. unfold gpgRun. destruct (ar_session s) eqn:He; [done|].
  destruct Hs as [Ho Hdf Hc Hw Hxx Hu Hg Hwt Hv Hss Hl]. split; simpl; try done. by intros e [= <-].
Qed.

Lemma ar_ok_gone e s : ar_ok s -> ar_ok (gameEnds e s).
Proof.
  intros Hs. unfold gameEnds. set (g := gameGone e (ad_gpg (ar_a s))).
  set (s' := set_session None (with_a (with_gpg g (ar_a s)) s)). cbv zeta.
  assert (Hs1 : ar_ok s').
  { destruct Hs as [Ho Hdf Hc Hw Hxx Hu Hg Hwt Hv Hss Hl]. split; simpl; try done.
    unfold g, gameGone. by destruct (_ =? _). }
  destruct (connEpoch g =? e); [|done]. unfold signalGameDisconnected. unfold s'. simpl.
  destruct (ar_gone s) eqn:Eg; [|done]. destruct Hs1 as [Ho Hdf Hc Hw Hxx Hu Hg Hwt Hv Hss Hl].
  split; simpl in *; try done.
Qed.

(** The goroutine that waits for that. *)
Lemma ar_ok_watch s : ar_ok s -> exists s', aStep AvWatch s = Ret s' /\ ar_ok s'.
Proof.
  intros Hs. cbn [aStep]. destruct (ar_watching s) eqn:Ewt; [|by exists s].
  assert (Hs1 : ctxDone s = true -> ar_ok (set_tasks false (ar_registering s) s)).
  { intros Hd. destruct Hs as [Ho Hdf Hc Hw Hxx Hu Hg Hwt Hv Hss Hl]. by split; simpl. }
  destruct (ar_gone s) as [[]|] eqn:Eg.
  - eexists. split; [done|]. destruct Hs as [Ho Hdf Hc Hw Hxx Hu Hg Hwt Hv Hss Hl].
    split; simpl; try done. by apply w_ok_cancel.
  - destruct (ctxDone s) eqn:Hd; [|by exists s]. eexists. split; [done|by apply Hs1].
  - destruct (ctxDone s) eqn:Hd; [|by exists s]. eexists. split; [done|by apply Hs1].
Qed.

(** Reading the game's stream does not panic. *)
Definition readable (e : RunEvent) : Prop :=
  match e with AvGameRead stream _ => ReadMessage stream <> RPanic | _ => True end.

Lemma ar_ok_step e s :
  ar_ok s -> readable e \/ ar_session s = None -> exists s', aStep e s = Ret s' /\ ar_ok s'.
Proof.
  intros Hs Hrd. destruct e as [an| |env req|env i|ans|e|conn|stream oor| |];
    [cbn [aStep]..|by apply ar_ok_watch].
  - by apply ar_ok_runStep.
  - eexists. split; [done|]. destruct (ar_pc s); try done; by apply ar_ok_cancel.
  - destruct (spawned (ar_pc s)); [|by exists s]. eexists. split; [done|].
    apply ar_ok_request; [done|apply same_run_request].
  - destruct (ad_tasks (ar_a s) !! i) as [t|]; [|by exists s].
    destruct (WaitRelayConfirmed (ctxDone s) (w_rc (ar_w s))) as [b|]; [|by exists s].
    eexists. split; [done|]. apply ar_ok_same; [done|apply same_run_task|].
    unfold taskDone, ctxDone. by destruct b, t.
  - destruct (ar_registering s); [|by exists s]. eexists. split; [done|].
    assert (Hs1 : ar_ok (with_a (ensureRelayReady ans (ar_a s)) s)).
    { apply ar_ok_same; [done|apply same_run_ready|]. unfold ctxDone, ensureRelayReady, registerWithRelay.
      by repeat case_match; simplify_eq. }
    by destruct Hs1.
  - destruct (spawned (ar_pc s)) eqn:Hsp; [|by exists s; destruct e].
    destruct e; try (by exists s);
      match goal with |- context [exec _ ?ev _] =>
        destruct (ar_ok_transport ev s Hs ltac:(done) Hsp) as (w & -> & Hw) end; by eexists.
  - eexists. split; [done|]. destruct (spawned (ar_pc s)) eqn:Hsp; [by apply ar_ok_game|done].
  - destruct (ar_session s) as [e|] eqn:He; [|by exists s]. destruct Hrd as [Hrd|]; [|done]. simpl in Hrd.
    destruct (ReadMessage stream) as [[header chunks] rest|err|]; [|eexists; split; [done|by apply ar_ok_gone]|done].
    destruct (processMessage_lobby (gameConfig s) oor header chunks (ad_gpg (ar_a s)) (aro_lobby s Hs))
      as (g & -> & Hep & Hlb). eexists. split; [done|].
    destruct Hs as [Ho Hdf Hc Hw Hxx Hu Hg Hwt Hv Hss Hl]. split; simpl; try done.
    intros e' He'. destruct (Hss e' He') as [? <-]. by rewrite Hep.
  - eexists. split; [done|]. destruct (ar_session s) as [e|]; [by apply ar_ok_gone|done].
Qed.

(** A run ends in a state with the invariant, or the reader of the game's stream
    has panicked. *)
Lemma ar_ok_run es s :
  ar_ok s ->
  (exists s', aRun es s = Ret s' /\ ar_ok s') \/
  (exists es1 stream oor es2 s', es = es1 ++ AvGameRead stream oor :: es2 /\ aRun es1 s = Ret s' /\
     is_Some (ar_session s') /\ ReadMessage stream = RPanic /\ aRun es s = Panic).
Proof.
  revert s; induction es as [|e es IH]; intros s Hs; [left; by eauto|].
  assert (Hd : (readable e \/ ar_session s = None) \/
               exists stream oor, e = AvGameRead stream oor /\ is_Some (ar_session s) /\ ReadMessage stream = RPanic).
  { destruct e as [| | | | | | |stream oor| |]; try (by left; left). destruct (ar_session s); [|by left; right]. simpl.
    destruct (ReadMessage stream) eqn:E; [by left; left..|]. right. by exists stream, oor. }
  destruct Hd as [Hd|(stream & oor & -> & Hse & Hp)].
  - destruct (ar_ok_step e s Hs Hd) as (s1 & E & Hs1). cbn [aRun]. rewrite E. cbn [mbind outcome_bind].
    destruct (IH s1 Hs1) as [H|(es1 & st & oor & es2 & s' & -> & H1 & H2 & H3 & H4)]; [by left|right].
    exists (e :: es1), st, oor, es2, s'. split_and!; try done. cbn [aRun]. by rewrite E.
  - right. exists [], stream, oor, es, s. split_and!; try done. cbn [aRun aStep]. destruct Hse as [e ->]. by rewrite Hp.
Qed.

Lemma ar_ok_reach es s s' : ar_ok s -> aRun es s = Ret s' -> ar_ok s'.
Proof.
  intros Hs E. destruct (ar_ok_run es s Hs) as [(s1 & E1 & H)|(? & ? & ? & ? & ? & _ & _ & _ & _ & E1)]; congruence.
Qed.

(** ** Closing all peers *)

Lemma foldl_delete_peers (f : PeerManager -> Z * Peer -> PeerManager) l pm :
  (forall pm x, pm_peers (f pm x) = delete x.1 (pm_peers pm)) ->
  pm_peers (foldl f pm l) = foldl (fun t x => delete x.1 t) (pm_peers pm) l.
Proof.
  intros Hf. revert pm; induction l as [|x l IH]; intros pm; [done|]. cbn [foldl]. by rewrite IH, Hf.
Qed.

Lemma foldl_delete_all {A} (l : list (Z * A)) (t : gmap Z A) :
  (forall k x, t !! k = Some x -> (k, x) ∈ l) -> foldl (fun t x => delete x.1 t) t l = ∅.
Proof.
  revert t; induction l as [|[k x] l IH]; intros t Hl; cbn [foldl].
  - apply map_eq. intros k. rewrite lookup_empty. destruct (t !! k) eqn:E; [|done].
    apply Hl in E. by apply elem_of_nil in E.
  - apply IH. intros k' x' H. apply lookup_delete_Some in H as [Hne H].
    apply Hl, elem_of_cons in H as [[= <- <-]|H]; done.
Qed.

Lemma CloseAll_empty ρ pm :
  pm_peers (CloseAll ρ pm) = ∅ /\ pm_ice (CloseAll ρ pm) = ∅.
Proof.
  unfold CloseAll.
  set (pm1 := foldl (fun pm '(id, p) => with_peers (delete id) (close_sock (p_conn p) pm)) pm _).
  assert (H1 : pm_peers pm1 = ∅).
  { unfold pm1. rewrite foldl_delete_peers by by intros ? [].
    apply foldl_delete_all. intros k x H. by rewrite shuf_elem_of, elem_of_map_to_list. }
  assert (Hp : forall l pm0, pm_peers (foldl (fun pm '(id, p) => with_ice (delete id) (iceClose p pm)) pm0 l) =
                             pm_peers pm0).
  { induction l as [|[k x] l IH]; intros pm0; [done|]. cbn [foldl]. rewrite IH. unfold iceClose.
    by destruct (ownsConn x). }
  assert (Hi : forall l pm0, pm_ice (foldl (fun pm '(id, p) => with_ice (delete id) (iceClose p pm)) pm0 l) =
                             foldl (fun t x => delete x.1 t) (pm_ice pm0) l).
  { induction l as [|[k x] l IH]; intros pm0; [done|]. cbn [foldl]. rewrite IH. unfold iceClose.
    by destruct (ownsConn x). }
  rewrite Hp, Hi. split; [done|]. apply foldl_delete_all. intros k x H.
  by rewrite shuf_elem_of, elem_of_map_to_list.
Qed.

(** ** Theorems *)

(** Nothing closes the log file. *)
Lemma logFile_step e s s' : aStep e s = Ret s' -> ar_logFile s' = ar_logFile s.
Proof.
  destruct e; cbn [aStep]; unfold runStep, gpgRun, gameEnds, signalGameDisconnected;
    repeat (case_match || (unfold mbind, outcome_bind)); intros; by simplify_eq/=.
Qed.
Lemma logFile_run es s s' : aRun es s = Ret s' -> ar_logFile s' = ar_logFile s.
Proof.
  revert s; induction es as [|e es IH]; intros s H; cbn [aRun] in H; [by simplify_eq|].
  destruct (aStep e s) as [s1|] eqn:E; [|done]. rewrite (IH _ H). by eapply logFile_step.
Qed.

(** C20. The only panic of the adapter, and what it closes.  Whatever the
    interleaving of [Run], requests, the game's connection, the relay
    goroutines and cancellation: the run panics only when the game sends a
    message whose chunk count is negative, and then in the read of that message.
    Otherwise, while [Run] waits, the relay connection, the GPGNet and the RPC
    server are open, and unless it is cancelled the goroutine that waits for the
    game to go is there; once [Run] has returned, its context is cancelled and
    exactly the resources it had opened before the error, or all of them, have
    been closed, in the reverse order; the log file stays open.  (The sockets of
    the peers belong to the peer manager.) *)
Theorem adapter_run_safe (c : AdapterConfig) (logOk : bool) (es : list RunEvent) :
  (exists s, aRun es (newAdapter c logOk) = Ret s /\ ar_logFile s = logOk /\
    match ar_pc s with
    | AWait =>
        (exists dbg, ar_open s = opened AWait dbg) /\ ar_closed s = [] /\
        (ctxDone s = false -> ar_watching s = true)
    | AReturned err =>
        ar_open s = [] /\ ctxDone s = true /\ w_cancelled (ar_w s) = true /\
        exists dbg, ar_closed s = closedBy err dbg
    | _ => True
    end) \/
  (exists es1 stream oor es2 s h n tl,
     es = es1 ++ AvGameRead stream oor :: es2 /\ aRun es1 (newAdapter c logOk) = Ret s /\
     is_Some (ar_session s) /\ stream = enc_str h ++ le_encode 4 n ++ tl /\ - 2 ^ 31 <= n < 0 /\
     aRun es (newAdapter c logOk) = Panic).
Proof.
  destruct (ar_ok_run es _ (ar_ok_new c logOk))
    as [(s & E & [Ho Hdf Hc Hw Hx Hu Hg Hwt Hv Hss Hl])|(es1 & st & oor & es2 & s & H1 & H2 & H3 & H4 & H5)].
  - left. exists s. split; [done|]. split; [apply (logFile_run _ _ _ E)|].
    destruct (ar_pc s) eqn:Hpc; try done; simpl in *.
    + split; [done|]. split; [done|]. intros Hd. destruct (ar_watching s) eqn:Ew; [done|].
      rewrite (Hwt eq_refl eq_refl) in Hd. done.
    + destruct Ho as [? ->]. split; [done|]. assert (Hd : ctxDone s = true) by (apply Hv; by right).
      split; [done|]. split; [congruence|done].
  - right. apply ReadMessage_panic in H4 as (h & n & tl & _ & Hn & ->). by exists es1, (enc_str h ++ le_encode 4 n ++ tl), oor, es2, s, h, n, tl.
Qed.

(** In official mode [Run] itself marks the transport as ready. *)
Lemma official_setup cfg w b :
  w_setup w = SReturn -> transportReady (w_rc w) = Some b -> rc_ok (w_rc w) ->
  exists w', setupStep cfg None true 0 w = Ret w' /\ transportReady (w_rc w') = Some true /\
    relayAddr (w_rc w') = relayAddr (w_rc w).
Proof.
  intros Hs Hr Hok. unfold setupStep. rewrite Hs.
  destruct (ready_spec (w_rc w) b Hok Hr) as (rc & -> & _ & E). simpl. eexists. split; [done|].
  simpl. by rewrite E.
Qed.

(** The first four calls. *)
Lemma runStep_at pc an s :
  ar_pc s = pc ->
  runStep an s =
  match pc with
  | ARelayConn =>
      if an_ok an then
        let w := startWorld (transportConfig (ar_cfg s)) (an_addr an) (u32 (PlayerID (ar_cfg s))) in
        Ret (at_pc ALobbyPort (opens RRelayConn (with_w (if ctxDone s then cancel w else w) s)))
      else Ret (returns (Some ErrRelayConn) s)
  | ALobbyPort =>
      if ac_LobbyPort (ar_cfg s) =? 0 then
        if an_ok an then Ret (at_pc AGPGNet (set_lobbyPort (an_port an) s))
        else Ret (returns (Some ErrLobbyPort) s)
      else Ret (at_pc AGPGNet (set_lobbyPort (ac_LobbyPort (ar_cfg s)) s))
  | AGPGNet =>
      if an_ok an then Ret (at_pc ARPC (opens RGPGNet (with_a (with_gpg NewGPGNetServer (ar_a s)) s)))
      else Ret (returns (Some ErrGPGNet) s)
  | ARPC =>
      if an_ok an then Ret (at_pc ADebug (opens RRPC s)) else Ret (returns (Some ErrRPC) s)
  | _ => runStep an s
  end.
Proof. intros <-. unfold runStep. by destruct (ar_pc s). Qed.

(** The state after the part of the start-up that cannot fail any more. *)
Lemma startup_tail c dbg nop s :
  ar_cfg s = c -> ar_pc s = ADebug -> ar_open s = [RRPC; RGPGNet; RRelayConn] -> rc_ok (w_rc (ar_w s)) ->
  w_setup (ar_w s) = (if ac_UseOfficialFAF c then SReturn else SBegin) ->
  transportReady (w_rc (ar_w s)) = Some false ->
  exists s', aRun (AvRun <$> [dbg; nop]) s = Ret s' /\ ar_pc s' = AWait /\
    ar_open s' = opened AWait (an_ok dbg) /\ ar_lobbyPort s' = ar_lobbyPort s /\
    ar_registering s' = negb (ac_UseOfficialFAF c) /\
    transportReady (w_rc (ar_w s')) = Some (ac_UseOfficialFAF c) /\
    relayAddr (w_rc (ar_w s')) = relayAddr (w_rc (ar_w s)).
Proof.
  intros Hc Hp Ho Hok Hu Hr. cbn [fmap list_fmap aRun aStep].
  set (s1 := at_pc ASpawn (if an_ok dbg then opens RDebug s else s)).
  replace (runStep dbg s) with (Ret s1) by (unfold runStep; by rewrite Hp). cbn [mbind outcome_bind].
  assert (Hs1 : ar_cfg s1 = c /\ ar_w s1 = ar_w s /\ ar_pc s1 = ASpawn /\
                ar_open s1 = opened AWait (an_ok dbg) /\ ar_lobbyPort s1 = ar_lobbyPort s).
  { unfold s1. destruct (an_ok dbg); simpl; rewrite ?Ho; done. }
  clearbody s1. destruct Hs1 as (H1 & H2 & H3 & H4 & H5). unfold runStep. rewrite H3, H1, H2.
  destruct (ac_UseOfficialFAF c).
  - destruct (official_setup (transportConfig c) (ar_w s) false Hu Hr Hok) as (w & -> & Hw1 & Hw2).
    eexists. split; [done|]. simpl. done.
  - eexists. split; [done|]. simpl. rewrite H4, Hr. done.
Qed.

(** The five answers the start-up gets. *)
Definition startEvents (c1 c2 c3 c4 c5 : Answer) (nop : Answer) : list RunEvent :=
  AvRun <$> [nop; c1; c2; c3; c4; c5; nop].

Lemma run_cons an ans s :
  aRun (AvRun <$> (an :: ans)) s = s' ← runStep an s; aRun (AvRun <$> ans) s'.
Proof. done. Qed.

Lemma run_step an ans s s' :
  runStep an s = Ret s' -> aRun (AvRun <$> (an :: ans)) s = aRun (AvRun <$> ans) s'.
Proof. intros H. by rewrite run_cons, H. Qed.

(** Nothing runs after the return. *)
Lemma run_returned ans err s : ar_pc s = AReturned err -> aRun (AvRun <$> ans) s = Ret s.
Proof.
  intros H. induction ans as [|an ans IH]; [done|]. rewrite (run_step _ _ _ s); [done|].
  unfold runStep. by rewrite H.
Qed.

Lemma run_fails_returned ans err s (P : RunState -> Prop) :
  P (returns err s) -> exists s', aRun (AvRun <$> ans) (returns err s) = Ret s' /\ P s'.
Proof. intros H. exists (returns err s). split; [by apply (run_returned _ err)|done]. Qed.

Local Ltac run_fails Hcl Hdf := apply run_fails_returned; simpl; by rewrite ?Hcl, ?Hdf.

(** The servers, once the lobby port is chosen. *)
Lemma startup_servers c gpg rpc dbg nop s p (addr : AddrPort) :
  ar_cfg s = c -> ar_pc s = AGPGNet -> ar_open s = [RRelayConn] -> ar_defer s = [RRelayConn] -> ar_closed s = [] ->
  ar_lobbyPort s = p -> rc_ok (w_rc (ar_w s)) -> w_setup (ar_w s) = (if ac_UseOfficialFAF c then SReturn else SBegin) ->
  transportReady (w_rc (ar_w s)) = Some false -> relayAddr (w_rc (ar_w s)) = addr ->
  exists s', aRun (AvRun <$> [gpg; rpc; dbg; nop]) s = Ret s' /\
    if negb (an_ok gpg) then ar_pc s' = AReturned (Some ErrGPGNet) /\ ar_closed s' = [RRelayConn]
    else if negb (an_ok rpc) then ar_pc s' = AReturned (Some ErrRPC) /\ ar_closed s' = [RGPGNet; RRelayConn]
    else ar_pc s' = AWait /\ ar_open s' = opened AWait (an_ok dbg) /\ ar_lobbyPort s' = p /\
         ar_registering s' = negb (ac_UseOfficialFAF c) /\
         transportReady (w_rc (ar_w s')) = Some (ac_UseOfficialFAF c) /\
         relayAddr (w_rc (ar_w s')) = addr.
Proof.
  intros Hc Hp Ho Hdf Hcl <- H1 H2 H3 <-. rewrite run_cons, (runStep_at _ _ _ Hp). cbv beta iota.
  destruct (an_ok gpg); cbn [negb mbind outcome_bind]; [|run_fails Hcl Hdf].
  rewrite run_cons, (runStep_at ARPC) by done. cbv beta iota.
  destruct (an_ok rpc); cbn [negb mbind outcome_bind]; [|run_fails Hcl Hdf].
  set (s3 := at_pc ADebug _).
  assert (Hs3 : ar_cfg s3 = c /\ ar_pc s3 = ADebug /\ ar_open s3 = [RRPC; RGPGNet; RRelayConn] /\
                ar_w s3 = ar_w s /\ ar_lobbyPort s3 = ar_lobbyPort s) by (unfold s3; simpl; by rewrite Ho).
  clearbody s3. destruct Hs3 as (Hc3 & Hp3 & Ho3 & Hw3 & <-). rewrite <-Hw3 in *.
  by apply startup_tail.
Qed.

Lemma startup_exact (c : AdapterConfig) (logOk : bool) (relay lobby gpg rpc dbg nop : Answer) :
  exists s, aRun (startEvents relay lobby gpg rpc dbg nop) (newAdapter c logOk) = Ret s /\
    if negb (an_ok relay) then ar_pc s = AReturned (Some ErrRelayConn) /\ ar_closed s = []
    else if (ac_LobbyPort c =? 0) && negb (an_ok lobby)
    then ar_pc s = AReturned (Some ErrLobbyPort) /\ ar_closed s = [RRelayConn]
    else if negb (an_ok gpg) then ar_pc s = AReturned (Some ErrGPGNet) /\ ar_closed s = [RRelayConn]
    else if negb (an_ok rpc) then ar_pc s = AReturned (Some ErrRPC) /\ ar_closed s = [RGPGNet; RRelayConn]
    else ar_pc s = AWait /\ ar_open s = opened AWait (an_ok dbg) /\
         ar_lobbyPort s = (if ac_LobbyPort c =? 0 then an_port lobby else ac_LobbyPort c) /\
         ar_registering s = negb (ac_UseOfficialFAF c) /\
         transportReady (w_rc (ar_w s)) = Some (ac_UseOfficialFAF c) /\
         relayAddr (w_rc (ar_w s)) = an_addr relay.
Proof.
  unfold startEvents. set (s1 := at_pc ARelayConn (set_gone (Some false)
    (with_a (with_pm (NewPeerManager (u32 (PlayerID c))) (ar_a (newAdapter c logOk))) (newAdapter c logOk)))).
  rewrite (run_step nop _ _ s1) by done.
  assert (Hs1 : ar_cfg s1 = c /\ ar_pc s1 = ARelayConn /\ ar_open s1 = [] /\ ar_defer s1 = [] /\ ar_closed s1 = [] /\
                ctxDone s1 = false) by done.
  clearbody s1. destruct Hs1 as (Hc & Hp & Ho & Hdf & Hcl & Hd).
  rewrite run_cons, (runStep_at _ _ _ Hp). cbv beta iota. rewrite Hc, Hd.
  destruct (an_ok relay); cbn [negb mbind outcome_bind]; [|run_fails Hcl Hdf].
  set (w := startWorld (transportConfig c) (an_addr relay) (u32 (PlayerID c))).
  assert (Hw : rc_ok (w_rc w) /\ w_setup w = (if ac_UseOfficialFAF c then SReturn else SBegin) /\
               transportReady (w_rc w) = Some false /\ relayAddr (w_rc w) = an_addr relay)
    by (split; [apply rc_ok_new|done]).
  clearbody w. destruct Hw as (Hw1 & Hw2 & Hw3 & Hw4).
  set (s2 := at_pc ALobbyPort _).
  assert (Hs2 : ar_cfg s2 = c /\ ar_pc s2 = ALobbyPort /\ ar_open s2 = [RRelayConn] /\
                ar_defer s2 = [RRelayConn] /\ ar_closed s2 = [] /\ ar_w s2 = w)
    by (unfold s2; simpl; by rewrite Ho, Hdf).
  clearbody s2. clear s1 Hc Hp Ho Hdf Hcl Hd. destruct Hs2 as (Hc & Hp & Ho & Hdf & Hcl & Hw).
  rewrite run_cons, (runStep_at _ _ _ Hp). cbv beta iota. rewrite Hc.
  destruct (ac_LobbyPort c =? 0); [destruct (an_ok lobby)|]; cbn [andb negb mbind outcome_bind];
    [|run_fails Hcl Hdf|]; apply startup_servers; simpl; congruence.
Qed.

(** C22. The start-up on every branch.  [Run] returns the error of the first
    call that fails (a failing debug server is no error) with everything
    before it closed; otherwise it gets to wait, with the configured lobby port
    or the one the system chose, the registration started unless the official
    mode is configured, in which case the receive loop may start at once. *)
Theorem adapter_startup_exact (c : AdapterConfig) (logOk : bool) (relay lobby gpg rpc dbg nop : Answer) :
  exists s, aRun (startEvents relay lobby gpg rpc dbg nop) (newAdapter c logOk) = Ret s /\
    if negb (an_ok relay) then ar_pc s = AReturned (Some ErrRelayConn) /\ ar_closed s = []
    else if (ac_LobbyPort c =? 0) && negb (an_ok lobby)
    then ar_pc s = AReturned (Some ErrLobbyPort) /\ ar_closed s = [RRelayConn]
    else if negb (an_ok gpg) then ar_pc s = AReturned (Some ErrGPGNet) /\ ar_closed s = [RRelayConn]
    else if negb (an_ok rpc) then ar_pc s = AReturned (Some ErrRPC) /\ ar_closed s = [RGPGNet; RRelayConn]
    else ar_pc s = AWait /\ ar_open s = opened AWait (an_ok dbg) /\
         ar_lobbyPort s = (if ac_LobbyPort c =? 0 then an_port lobby else ac_LobbyPort c) /\
         ar_registering s = negb (ac_UseOfficialFAF c) /\
         transportReady (w_rc (ar_w s)) = Some (ac_UseOfficialFAF c) /\
         relayAddr (w_rc (ar_w s)) = an_addr relay.
Proof. apply startup_exact. Qed.

(** The statements that end [Run] once its context is cancelled. *)
Definition shutdown (an1 an2 an3 : Answer) : list RunEvent := AvRun <$> [an1; an2; an3].

Lemma shutdown_run an1 an2 an3 s :
  ar_pc s = AWait -> ctxDone s = true ->
  aRun (shutdown an1 an2 an3) s =
  Ret (returns None (with_a (leaveRelay (with_pm (CloseAll (an_order an2) (ad_pm (ar_a s))) (ar_a s)))
         (at_pc ALeave (with_a (with_pm (CloseAll (an_order an2) (ad_pm (ar_a s))) (ar_a s))
            (at_pc ACloseAll s))))).
Proof.
  intros Hp Hd. unfold shutdown. rewrite (run_step _ _ _ (at_pc ACloseAll s)); [done|].
  unfold runStep. by rewrite Hp, Hd.
Qed.

Lemma returned_closed s err :
  ar_ok s -> ar_pc s = AReturned err -> ar_open s = [] /\ exists dbg, ar_closed s = closedBy err dbg.
Proof. intros [[dbg Ho] _ Hc _ _ _ _ _ _ _ _] Hp. by rewrite Hp in *. Qed.

(** The shutdown.  Once the context is cancelled, three statements of
    [Run] end it without an error: all peers are gone, and the last thing the
    adapter asks of the relay server is to leave its session, if the lobby runs
    over the relay and a relay server is configured; otherwise it asks
    nothing. *)
Theorem adapter_shutdown_exact (c : AdapterConfig) (logOk : bool) (es : list RunEvent) (s : RunState)
    (an1 an2 an3 : Answer) :
  aRun es (newAdapter c logOk) = Ret s -> ar_pc s = AWait -> ctxDone s = true ->
  exists s', aRun (shutdown an1 an2 an3) s = Ret s' /\ ar_pc s' = AReturned None /\ ar_open s' = [] /\
    pm_peers (ad_pm (ar_a s')) = ∅ /\ pm_ice (ad_pm (ar_a s')) = ∅ /\
    ad_reqs (ar_a s') = ad_reqs (ar_a s) ++
      (if bool_decide (cfg_RelayHTTP (ad_cfg (ar_a s)) = "") || negb (ad_relayMode (ar_a s)) then []
       else [ReqLeave (sessionID (ar_a s)) (cfg_playerID (ad_cfg (ar_a s)))]).
Proof.
  intros H Hp Hd. rewrite shutdown_run by done. eexists. split; [done|].
  destruct (CloseAll_empty (an_order an2) (ad_pm (ar_a s))) as [H1 H2].
  split; [done|]. split.
  { eapply returned_closed; [|done]. eapply (ar_ok_reach (shutdown an1 an2 an3)); [|by rewrite shutdown_run].
    by eapply ar_ok_reach; [apply ar_ok_new|]. }
  unfold leaveRelay. simpl.
  destruct (_ || _); simpl; rewrite ?app_nil_r; done.
Qed.

(** C9. The adapter stops with the game.  In any state in which [Run] waits
    and the game is connected, the end of the game's connection, one step of the
    goroutine that waits for it, and three statements of [Run] end the adapter
    without an error, with the relay connection and the GPGNet, RPC and debug
    servers closed in the reverse order; so does the [quit] request. *)
Theorem adapter_stops_with_game (c : AdapterConfig) (logOk : bool) (es : list RunEvent) (s : RunState)
    (an1 an2 an3 : Answer) :
  aRun es (newAdapter c logOk) = Ret s -> ar_pc s = AWait ->
  (is_Some (ar_session s) ->
   exists s', aRun ([AvGameGone; AvWatch] ++ shutdown an1 an2 an3) s = Ret s' /\
     ar_pc s' = AReturned None /\ ar_open s' = [] /\ exists dbg, ar_closed s' = closedBy None dbg) /\
  (forall env params,
   exists s', aRun (AvRpc env (MkRpc "quit" params) :: shutdown an1 an2 an3) s = Ret s' /\
     ar_pc s' = AReturned None /\ ar_open s' = [] /\ exists dbg, ar_closed s' = closedBy None dbg).
Proof.
  intros H Hp. assert (Hok : ar_ok s) by (eapply ar_ok_reach; [apply ar_ok_new|exact H]).
  assert (Hend : forall es', (exists s', aRun es' s = Ret s' /\ ar_pc s' = AReturned None) ->
    exists s', aRun es' s = Ret s' /\ ar_pc s' = AReturned None /\ ar_open s' = [] /\
      exists dbg, ar_closed s' = closedBy None dbg).
  { intros es' (s' & E & Hp'). exists s'. split; [done|]. split; [done|].
    apply returned_closed; [by eapply ar_ok_reach|done]. }
  split.
  - intros [epoch He]. apply Hend. rewrite aRun_app. cbn [aRun aStep]. rewrite He. unfold gameEnds.
    assert (Hep : connEpoch (gameGone epoch (ad_gpg (ar_a s))) =? epoch = true).
    { apply Z.eqb_eq. destruct (aro_session s Hok epoch He) as [_ <-]. unfold gameGone. by rewrite Z.eqb_refl. }
    rewrite Hep. unfold signalGameDisconnected. cbn [ar_gone set_session with_a].
    destruct (aro_gone s Hok) as [g Hg]; [by rewrite Hp|]. rewrite Hg. cbn [mbind outcome_bind].
    cbn [ar_watching set_gone set_session with_a ar_gone].
    destruct (ar_watching s) eqn:Hw; cbn [mbind outcome_bind].
    + rewrite shutdown_run by done. by eexists.
    + rewrite shutdown_run; [by eexists|done|]. change (ctxDone s = true).
      apply (aro_watch s Hok); [by rewrite Hp|done].
  - intros env params. apply Hend. cbn [aRun aStep]. rewrite Hp. cbn [spawned].
    assert (Hr : (HandleRequest env (MkRpc "quit" params) (ar_a s)).1 = quit (ar_a s)) by done.
    rewrite Hr. cbn [mbind outcome_bind]. rewrite shutdown_run by done. by eexists.
Qed.

(** ** A run of the adapter *)

Definition demo_run_cfg : AdapterConfig :=
  MkAC 7 1234 "me" 7236 0 0 "relay:10000" "" "http://relay" "" true false false false.
Definition demo_answer : Answer := MkAnswer true 6112 AddrPort_zero id_shuffle.
Definition demo_answers : RelayAnswers := MkAnswers (Some 201) (Some 200) None.
Definition demo_start : list RunEvent :=
  startEvents demo_answer demo_answer demo_answer demo_answer demo_answer demo_answer ++
  [AvRegister demo_answers].
Definition after (es : list RunEvent) : RunState :=
  match aRun es (newAdapter demo_run_cfg true) with Ret s => s | Panic => newAdapter demo_run_cfg true end.

Lemma adapter_shutdown_exact_witness :
  let es := demo_start ++ [AvRpc demo_env host_req; AvParent] in
  exists s', aRun (shutdown demo_answer demo_answer demo_answer) (after es) = Ret s' /\
    ar_pc s' = AReturned None /\ ar_open s' = [] /\
    pm_peers (ad_pm (ar_a s')) = ∅ /\ pm_ice (ad_pm (ar_a s')) = ∅ /\
    ad_reqs (ar_a s') = ad_reqs (ar_a (after es)) ++
      (if bool_decide (cfg_RelayHTTP (ad_cfg (ar_a (after es))) = "") || negb (ad_relayMode (ar_a (after es)))
       then []
       else [ReqLeave (sessionID (ar_a (after es))) (cfg_playerID (ad_cfg (ar_a (after es))))]).
Proof.
  intros es. apply (adapter_shutdown_exact demo_run_cfg true es); [vm_compute; reflexivity..].
Defined.

Lemma adapter_stops_with_game_witness :
  let es := demo_start ++ [AvGame (MkConn 3 None)] in
  exists s', aRun ([AvGameGone; AvWatch] ++ shutdown demo_answer demo_answer demo_answer) (after es) = Ret s' /\
    ar_pc s' = AReturned None /\ ar_open s' = [] /\ exists dbg, ar_closed s' = closedBy None dbg.
Proof.
  intros es. refine (proj1 (adapter_stops_with_game demo_run_cfg true es (after es) demo_answer demo_answer
    demo_answer _ _) _); [vm_compute; reflexivity..|]. vm_compute. by eexists.
Defined.

(** The registration made at start-up is not always given back: in a lobby
    that runs over ICE (here because the lobby's mode is the matchmaker's) the
    adapter ends without leaving the session it joined. *)
Theorem ice_lobby_keeps_registration :
  let es := demo_start ++ [AvRpc demo_env (MkRpc "setLobbyInitMode" [str "auto"]);
                           AvRpc demo_env host_req; AvParent] ++
            shutdown demo_answer demo_answer demo_answer in
  exists s, aRun es (newAdapter demo_run_cfg true) = Ret s /\ ar_pc s = AReturned None /\
    ReqJoin "1234" 7 "me" ∈ ad_reqs (ar_a s) /\ ReqLeave "1234" 7 ∉ ad_reqs (ar_a s).
Proof.
  intros es. exists (after es). split; [vm_compute; reflexivity|]. split; [vm_compute; reflexivity|].
  assert (E : ad_reqs (ar_a (after es)) = [ReqHealth; ReqCreate "1234"; ReqJoin "1234" 7 "me"; ReqHello])
    by (vm_compute; reflexivity).
  rewrite E. split; [set_solver|]. intros H. repeat (apply elem_of_cons in H as [H|H]; [done|]).
  by apply elem_of_nil in H.
Qed.
