(* ===== verification/RpcServer.v ===== *)
(** * [internal/adapter/rpcserver.go]: the JSON-RPC server

    The server accepts connections of the FAF client, up to a limit, and runs
    one goroutine per connection, [handleConnection]; notifications are written
    to all registered connections by whichever goroutine calls
    [SendNotification].  Each function below is one atomic step of a goroutine;
    [rpc_step] interleaves them.  A connection is the stream of bytes its peer
    sends before it closes. *)

From S2P Require Import Prelude Float GoLib GoText GPGNet JsonRpc Json RpcMessage.
From S2P Require Import RelayWire TcpFrame RelayConn Peer PeerMgr GpgNetServer IcePeer IceText IceRestart.
From S2P Require Import RpcHandler.

Definition maxRPCClients : Z := 4.

(** ** Notifications ([internal/adapter/adapter.go]) *)

Inductive Notification :=
| OnRelayConnectionStateChanged (state : string)
| OnConnectionStateChanged (state : string)
| OnGpgNetMessageReceived (header : string) (chunks : list Chunk)
| OnIceConnectionStateChanged (localID remoteID : Z) (state : string)
| OnConnected (localID remoteID : Z) (connected : bool)
| OnIceMsg (localID remoteID : Z) (msg : bytes).

Section Server.
(** The literal of a number decoded to [float64] and encoded again. *)
Variable float_lit : bytes -> option bytes.
(** The [float64] of a literal. *)
Variable parse_float : bytes -> option float64.
(** The text of the status report (that of [Status], which also depends on
    the clock and the sockets) and of an error (which quotes the JSON decoder's
    own messages). *)
Variable statusText : Adapter -> bytes.
Variable errText : RpcRequest -> RpcErr -> bytes.

(** [float64(id)] as a JSON number. *)
Definition jfloat (z : Z) : JSON := JNum (default (Itoa z) (float_lit (Itoa z))).
Definition chunkJSON (c : Chunk) : JSON :=
  match c with CInt z => jint z | CStr s => jstr s end.

Definition noteJSON (n : Notification) : JSON :=
  match n with
  | OnRelayConnectionStateChanged st => notificationJSON (B "onRelayConnectionStateChanged") [jstr st]
  | OnConnectionStateChanged st => notificationJSON (B "onConnectionStateChanged") [jstr st]
  | OnGpgNetMessageReceived h cs =>
      notificationJSON (B "onGpgNetMessageReceived") [jstr h; JArr (chunkJSON <$> cs)]
  | OnIceConnectionStateChanged l r st =>
      notificationJSON (B "onIceConnectionStateChanged") [jfloat l; jfloat r; jstr st]
  | OnConnected l r c => notificationJSON (B "onConnected") [jfloat l; jfloat r; JBool c]
  | OnIceMsg l r m => notificationJSON (B "onIceMsg") [jfloat l; jfloat r; JStr m]
  end.

(** The notifications a handler recorded. *)
Definition noteOf (me : Z) (n : FafNote) : Notification :=
  match n with
  | NoteIceState l r st => OnIceConnectionStateChanged l r st
  | NoteConnected l r c => OnConnected l r c
  | NoteIceMsg r m => OnIceMsg me r (iceText m)
  end.

(** ** Requests *)

(** A parameter for the handlers.  Its text is only ever decoded again, so the
    compact text of its value stands for it. *)
Definition toRaw (v : JSON) : RawMessage :=
  MkRaw (bytes_str (Marshal v))
    (match v with
     | JNull => RNull
     | JBool b => RBool b
     | JNum n => RNum (parse_float n)
     | JStr s => RStr (bytes_str s)
     | JArr _ | JObj _ => RComposite
     end).
Definition toRpc (req : JSONRPCRequest) : RpcRequest :=
  MkRpc (bytes_str (rq_Method req)) (toRaw <$> rq_Params req).

(** The result of [HandleRequest]: nil, the status report, or the error's
    text. *)
Definition Handled := result bytes JSON.
Definition handle (env : RpcEnv) (req : JSONRPCRequest) (a : Adapter) : Adapter * Handled :=
  let '(a', res) := HandleRequest env (toRpc req) a in
  (a', match res with
       | Err e => Err (errText (toRpc req) e)
       | Ok _ => Ok (if bool_decide (rpc_method (toRpc req) = "status") then JStr (statusText a) else JNull)
       end).

(** What the loop writes for a request; a request without an identifier gets
    no answer. *)
Definition replyTo (req : JSONRPCRequest) (res : Handled) : option JSON :=
  match rq_ID req with
  | JNull => None
  | id => Some match res with
               | Err msg => errorJSON id (-32603) msg
               | Ok v => responseJSON id v
               end
  end.

(** ** State *)

(** Where the goroutine of a connection is.  While it answers it may have
    notifications to send first: [todo] are the writes left of the current
    [SendNotification]. *)
Inductive Phase :=
| Accepted
| Serving
| Replying (notes : list JSON) (todo : list (nat * JSON)) (reply : option JSON) (isErr : bool)
| Leaving
| Closing.

(** [cl_input], [cl_handled] and [cl_log] are histories: the whole stream, the
    requests handled with their results, the messages written. *)
Record Client := MkClient {
  cl_phase : Phase;
  cl_in : bytes;
  cl_w : BufWriter;
  cl_input : bytes;
  cl_handled : list (JSONRPCRequest * Handled);
  cl_log : list (bool * JSON);
}.
Definition newClient (input : bytes) : Client := MkClient Accepted input NewBufWriter input [] [].
Definition set_phase (ph : Phase) (c : Client) : Client :=
  MkClient ph (cl_in c) (cl_w c) (cl_input c) (cl_handled c) (cl_log c).
Definition break_conn (c : Client) : Client :=
  let w := cl_w c in
  MkClient (cl_phase c) (cl_in c) (MkBufWriter (bw_out w) (bw_buf w) (bw_err w) true)
    (cl_input c) (cl_handled c) (cl_log c).

Record RPCServer := MkRPC {
  rs_active : Z;
  rs_clients : list nat;
  rs_conns : gmap nat Client;
  rs_next : nat;
  rs_adapter : Adapter;
  rs_done : bool;
  rs_open : bool;
  (** Calls of [SendNotification] under way: the message, the writes left
      ([None] before the copy of the list is made). *)
  rs_calls : list (JSON * option (list nat));
}.
Definition NewRPCServer (a : Adapter) : RPCServer := MkRPC 0 [] ∅ 0 a false true [].

Definition upd (id : nat) (f : Client -> Client) (s : RPCServer) : RPCServer :=
  MkRPC (rs_active s) (rs_clients s) (alter f id (rs_conns s)) (rs_next s) (rs_adapter s)
    (rs_done s) (rs_open s) (rs_calls s).
Definition with_clients (l : list nat) (s : RPCServer) : RPCServer :=
  MkRPC (rs_active s) l (rs_conns s) (rs_next s) (rs_adapter s) (rs_done s) (rs_open s)
    (rs_calls s).
Definition with_adapter (a : Adapter) (s : RPCServer) : RPCServer :=
  MkRPC (rs_active s) (rs_clients s) (rs_conns s) (rs_next s) a (rs_done s || ad_cancelled a)
    (rs_open s) (rs_calls s).
Definition with_calls (l : list (JSON * option (list nat))) (s : RPCServer) : RPCServer :=
  MkRPC (rs_active s) (rs_clients s) (rs_conns s) (rs_next s) (rs_adapter s) (rs_done s) (rs_open s) l.

(** A message on a client's writer; the flag says whether it is an answer. *)
Definition writeClient (reply : bool) (v : JSON) (c : Client) : Client :=
  let '(w, err) := writeJSON (Some (Marshal v)) (cl_w c) in
  MkClient (cl_phase c) (cl_in c) w (cl_input c) (cl_handled c)
    (match err with None => cl_log c ++ [(reply, v)] | Some _ => cl_log c end).
Definition writeFails (v : JSON) (c : Client) : bool :=
  match (writeJSON (Some (Marshal v)) (cl_w c)).2 with None => false | Some _ => true end.

(** ** [Run] *)

(** One connection accepted; [input] is what its client will send. *)
Definition accept (input : bytes) (s : RPCServer) : RPCServer :=
  if negb (rs_open s) then s
  else if maxRPCClients <=? rs_active s then s
  else MkRPC (rs_active s + 1) (rs_clients s) (<[rs_next s := newClient input]> (rs_conns s))
         (S (rs_next s)) (rs_adapter s) (rs_done s) (rs_open s) (rs_calls s).
(** The goroutine that closes the listener once the context is done. *)
Definition closeListener (s : RPCServer) : RPCServer :=
  if rs_done s then MkRPC (rs_active s) (rs_clients s) (rs_conns s) (rs_next s) (rs_adapter s) true
                      false (rs_calls s)
  else s.

(** ** [handleConnection] *)

Definition register (id : nat) (s : RPCServer) : RPCServer :=
  match cl_phase <$> rs_conns s !! id with
  | Some Accepted => with_clients (rs_clients s ++ [id]) (upd id (set_phase Serving) s)
  | _ => s
  end.

(** One turn of the loop up to the return of [HandleRequest]. *)
Definition serve (env : RpcEnv) (id : nat) (s : RPCServer) : RPCServer :=
  match rs_conns s !! id with
  | Some c =>
      match cl_phase c with
      | Serving =>
          if rs_done s then upd id (set_phase Leaving) s
          else match ReadRequest float_lit (cl_in c) with
               | Err _ => upd id (set_phase Leaving) s
               | Ok (req, rest) =>
                   let '(a, res) := handle env req (rs_adapter s) in
                   let me := cfg_playerID (ad_cfg a) in
                   let notes := (fun n => noteJSON (noteOf me n)) <$>
                                  drop (length (ad_notes (rs_adapter s))) (ad_notes a) in
                   let isErr := match res with Err _ => true | Ok _ => false end in
                   upd id (fun c => MkClient (Replying notes [] (replyTo req res) isErr) rest (cl_w c)
                                      (cl_input c) (cl_handled c ++ [(req, res)]) (cl_log c))
                     (with_adapter a s)
               end
      | _ => s
      end
  | None => s
  end.

(** The rest of the turn: the handler's notifications, then the answer.  The
    loop ends when a response cannot be written, not when an error cannot. *)
Definition reply (id : nat) (s : RPCServer) : RPCServer :=
  match rs_conns s !! id with
  | Some c =>
      match cl_phase c with
      | Replying (n :: ns) [] r e =>
          upd id (set_phase (Replying ns ((fun c => (c, n)) <$> rs_clients s) r e)) s
      | Replying ns ((target, v) :: todo) r e =>
          upd id (set_phase (Replying ns todo r e)) (upd target (writeClient false v) s)
      | Replying [] [] None _ => upd id (set_phase Serving) s
      | Replying [] [] (Some v) isErr =>
          upd id (fun c => set_phase (if negb isErr && writeFails v c then Leaving else Serving)
                             (writeClient true v c)) s
      | _ => s
      end
  | None => s
  end.

(** The deferred calls: the connection is taken from the list, closed, and
    counted out. *)
Fixpoint remove1 (id : nat) (l : list nat) : list nat :=
  match l with
  | [] => []
  | x :: l' => if bool_decide (x = id) then l' else x :: remove1 id l'
  end.
Definition unregister (id : nat) (s : RPCServer) : RPCServer :=
  match cl_phase <$> rs_conns s !! id with
  | Some Leaving =>
      with_clients (remove1 id (rs_clients s)) (upd id (break_conn ∘ set_phase Closing) s)
  | _ => s
  end.
Definition finish (id : nat) (s : RPCServer) : RPCServer :=
  match cl_phase <$> rs_conns s !! id with
  | Some Closing =>
      MkRPC (rs_active s - 1) (rs_clients s) (delete id (rs_conns s)) (rs_next s) (rs_adapter s)
        (rs_done s) (rs_open s) (rs_calls s)
  | _ => s
  end.

(** ** [SendNotification] from another goroutine *)

Definition sendCall (n : Notification) (s : RPCServer) : RPCServer :=
  with_calls (rs_calls s ++ [(noteJSON n, None)]) s.
(** The next step of the [i]-th call under way. *)
Definition callStep (i : nat) (s : RPCServer) : RPCServer :=
  match rs_calls s !! i with
  | Some (v, None) => with_calls (<[i := (v, Some (rs_clients s))]> (rs_calls s)) s
  | Some (v, Some (target :: todo)) =>
      with_calls (<[i := (v, Some todo)]> (rs_calls s)) (upd target (writeClient false v) s)
  | _ => s
  end.
(** The call without interruption. *)
Definition SendNotification (n : Notification) (s : RPCServer) : RPCServer :=
  foldl (fun s id => upd id (writeClient false (noteJSON n)) s) s (rs_clients s).

(** ** Interleaving *)

Inductive rpc_step : RPCServer -> RPCServer -> Prop :=
| rs_accept input s : rpc_step s (accept input s)
| rs_close s : rpc_step s (closeListener s)
| rs_register id s : rpc_step s (register id s)
| rs_serve env id s : rpc_step s (serve env id s)
| rs_reply id s : rpc_step s (reply id s)
| rs_unregister id s : rpc_step s (unregister id s)
| rs_finish id s : rpc_step s (finish id s)
| rs_send n s : rpc_step s (sendCall n s)
| rs_call i s : rpc_step s (callStep i s)
(** The peer closes or the network fails: further writes are refused. *)
| rs_break id s : rpc_step s (upd id break_conn s)
(** The rest of the adapter acts, or its context ends. *)
| rs_other a s : rpc_step s (with_adapter a s).

(** ** The writers *)

(** The text of the messages on a connection. *)
Definition stream (vs : list JSON) : bytes := concat ((fun v => Marshal v ++ [newline]) <$> vs).

Lemma stream_snoc vs v : stream (vs ++ [v]) = stream vs ++ Marshal v ++ [newline].
Proof. unfold stream. rewrite fmap_app, concat_app. simpl. by rewrite app_nil_r. Qed.

(** Between writes nothing is buffered, unless the writer has failed. *)
Definition writer_ok (w : BufWriter) : Prop := bw_err w = false -> bw_buf w = [].

(** A write puts the whole message on the connection or fails for good. *)
Lemma writeJSON_atomic m w w' e :
  writer_ok w -> writeJSON (Some m) w = (w', e) ->
  writer_ok w' /\
  match e with
  | None => bw_err w = false /\ bw_err w' = false /\ bw_out w' = bw_out w ++ m ++ [newline]
  | Some _ => bw_err w' = true /\ bw_out w' = bw_out w
  end.
Proof.
  intros Hw H. destruct (bw_err w) eqn:He.
  { unfold writeJSON, Write in H. rewrite He in H. simpl in H. simplify_eq.
    unfold writer_ok. by rewrite He. }
  specialize (Hw He). destruct (bw_broken w) eqn:Hb.
  - destruct w as [out buf err broken]. simpl in *. subst.
    assert (bw_err w' = true /\ bw_out w' = out /\ e = Some JsonIO) as (E1 & E2 & ->).
    { unfold writeJSON, Write in H. simpl bw_err in H. cbv iota in H.
      destruct (len m <=? _) eqn:L; simpl in H; [|by simplify_eq/=].
      unfold WriteByte in H. simpl in H. destruct (_ <=? 0) eqn:A; simpl in H.
      - destruct m; [by vm_compute in A|]. unfold Flush in H. simpl in H. by simplify_eq/=.
      - unfold Flush in H. simpl in H. destruct (m ++ [newline]) eqn:M; [by destruct m|].
        simpl in H. by simplify_eq/=. }
    unfold writer_ok. by rewrite E1.
  - destruct (writeJSON_ok m w (conj He Hb) Hw) as (w1 & E & [H1 H2] & H3 & H4).
    rewrite E in H. simplify_eq. unfold writer_ok. by rewrite H1.
Qed.

(** ** Invariant *)

(** [reads r qs r']: the requests [qs] come first on [r], [r'] is left. *)
Inductive reads : bytes -> list JSONRPCRequest -> bytes -> Prop :=
| reads_nil r : reads r [] r
| reads_cons r q r1 qs r' :
    ReadRequest float_lit r = Ok (q, r1) -> reads r1 qs r' -> reads r (q :: qs) r'.

Lemma reads_snoc r qs r1 q r2 :
  reads r qs r1 -> ReadRequest float_lit r1 = Ok (q, r2) -> reads r (qs ++ [q]) r2.
Proof.
  induction 1 as [r|r q' r1 qs r' H1 H2 IH]; intros H; [|by econstructor; [|apply IH]].
  eapply reads_cons; [done|constructor].
Qed.

(** The answers among the messages, and the answer still to be written. *)
Definition answers (l : list (bool * JSON)) : list JSON := (filter (fun x => x.1 = true) l).*2.
Definition owed (ph : Phase) : list JSON :=
  match ph with Replying _ _ (Some v) _ => [v] | _ => [] end.
(** The answers due for the requests handled so far. *)
Definition due (l : list (JSONRPCRequest * Handled)) : list JSON :=
  omap (fun p => replyTo p.1 p.2) l.

Definition registered (ph : Phase) : bool :=
  match ph with Serving | Replying _ _ _ _ | Leaving => true | Accepted | Closing => false end.

Definition left (ph : Phase) : bool := match ph with Leaving | Closing => true | _ => false end.

(** [d] says whether the context is done. *)
Record client_ok (d : bool) (c : Client) : Prop := {
  co_writer : writer_ok (cl_w c);
  co_out : bw_out (cl_w c) = stream (cl_log c).*2;
  co_reads : reads (cl_input c) (cl_handled c).*1 (cl_in c);
  co_answers : bw_err (cl_w c) = false -> answers (cl_log c) ++ owed (cl_phase c) = due (cl_handled c);
  co_left : left (cl_phase c) = true ->
    d = true \/ bw_err (cl_w c) = true \/ exists e, ReadRequest float_lit (cl_in c) = Err e;
}.

Record rpc_ok (s : RPCServer) : Prop := {
  ro_count : rs_active s = Z.of_nat (size (rs_conns s));
  ro_limit : rs_active s <= maxRPCClients;
  ro_nodup : NoDup (rs_clients s);
  ro_reg : forall id, id ∈ rs_clients s <->
    exists c, rs_conns s !! id = Some c /\ registered (cl_phase c) = true;
  ro_fresh : forall id c, rs_conns s !! id = Some c -> (id < rs_next s)%nat;
  ro_clients : forall id c, rs_conns s !! id = Some c -> client_ok (rs_done s) c;
}.

Lemma answers_app a b : answers (a ++ b) = answers a ++ answers b.
Proof. unfold answers. by rewrite filter_app, fmap_app. Qed.

(** Writing on a connection. *)
Lemma writeClient_ok d r v c :
  client_ok d c -> r = false \/ owed (cl_phase c) = [v] ->
  let c' := writeClient r v c in
  cl_phase c' = cl_phase c /\ writer_ok (cl_w c') /\ bw_out (cl_w c') = stream (cl_log c').*2 /\
  reads (cl_input c') (cl_handled c').*1 (cl_in c') /\
  (bw_err (cl_w c') = false ->
    answers (cl_log c') ++ (if r then [] else owed (cl_phase c)) = due (cl_handled c')) /\
  (left (cl_phase c) = true ->
    d = true \/ bw_err (cl_w c') = true \/ exists e, ReadRequest float_lit (cl_in c') = Err e).
Proof.
  intros [H1 H2 H3 H4 H5] Hr c'. subst c'. unfold writeClient.
  destruct (writeJSON (Some (Marshal v)) (cl_w c)) as [w e] eqn:E. simpl.
  apply writeJSON_atomic in E as [Hw He]; [|done]. split; [done|]. split; [done|].
  destruct e as [e|]; destruct He as (He & Ho).
  - split; [by rewrite Ho|]. split; [done|]. rewrite He. split; [done|]. auto.
  - destruct Ho as [He' Ho]. rewrite Ho, H2, fmap_app. simpl. split; [by rewrite stream_snoc|].
    split; [done|]. split; [|intros [?|[?|?]]%H5; [by left|congruence|by right; right]].
    intros _. rewrite answers_app. specialize (H4 He).
    destruct r; [change (answers [(true, v)]) with [v]|change (answers [(false, v)]) with (@nil JSON)];
      rewrite app_nil_r; [|done]. destruct Hr as [|Hr]; [done|]. by rewrite Hr in H4.
Qed.

Lemma upd_ok id f s :
  rpc_ok s ->
  (forall c, rs_conns s !! id = Some c ->
    client_ok (rs_done s) (f c) /\ registered (cl_phase (f c)) = registered (cl_phase c)) ->
  rpc_ok (upd id f s).
Proof.
  intros [R1 R2 R3 R4 R5 R6] Hf. split; simpl; try done.
  - rewrite R1. f_equal. rewrite <- !(size_dom (D := gset nat)). by rewrite dom_alter_L.
  - intros id'. rewrite R4. destruct (decide (id = id')) as [<-|Hne].
    + rewrite lookup_alter_eq. split.
      * intros (c & E & Hc). exists (f c). rewrite E. split; [done|]. by rewrite (proj2 (Hf c E)).
      * intros (c' & E & Hc). apply fmap_Some in E as (c & E & ->). exists c. split; [done|].
        by rewrite (proj2 (Hf c E)) in Hc.
    + by rewrite lookup_alter_ne.
  - intros id' c. destruct (decide (id = id')) as [<-|Hne].
    + rewrite lookup_alter_eq. intros (c' & E & _)%fmap_Some. by apply R5 in E.
    + rewrite lookup_alter_ne by done. apply R5.
  - intros id' c. destruct (decide (id = id')) as [<-|Hne].
    + rewrite lookup_alter_eq. intros (c' & E & ->)%fmap_Some. by apply Hf.
    + rewrite lookup_alter_ne by done. apply R6.
Qed.

(** A change of phase that owes the same answers. *)
Lemma phase_ok d ph c :
  client_ok d c -> owed ph = owed (cl_phase c) ->
  left ph = false \/ left (cl_phase c) = true -> client_ok d (set_phase ph c).
Proof.
  intros [H1 H2 H3 H4 H5] E Hl. split; try done; simpl; [by rewrite E|].
  destruct Hl as [->|Hl]; [done|]. auto.
Qed.

Lemma set_phase_ok id ph s c0 :
  rpc_ok s -> rs_conns s !! id = Some c0 -> owed ph = owed (cl_phase c0) ->
  registered ph = registered (cl_phase c0) -> left ph = false -> rpc_ok (upd id (set_phase ph) s).
Proof.
  intros Hs E Ho Hr Hl. apply upd_ok; [done|]. intros c Hc. simplify_eq.
  split; [|done]. apply phase_ok; [by eapply ro_clients|done|by left].
Qed.

Lemma note_ok id v s : rpc_ok s -> rpc_ok (upd id (writeClient false v) s).
Proof.
  intros Hs. apply upd_ok; [done|]. intros c Hc.
  destruct (writeClient_ok (rs_done s) false v c) as (E & H1 & H2 & H3 & H4 & H5);
    [by eapply ro_clients|by left|]. split; [|by rewrite E].
  split; try done; by rewrite E.
Qed.

Lemma break_ok d c : client_ok d c -> client_ok d (break_conn c).
Proof. intros [H1 H2 H3 H4 H5]. by split. Qed.

Lemma elem_of_remove1 id l x : NoDup l -> x ∈ remove1 id l <-> x ∈ l /\ x <> id.
Proof.
  induction 1 as [|y l Hy Hl IH]; simpl; [set_solver|]. case_bool_decide as E; set_solver.
Qed.
Lemma NoDup_remove1 id l : NoDup l -> NoDup (remove1 id l).
Proof.
  induction 1 as [|y l Hy Hl IH]; simpl; [constructor|]. case_bool_decide as E; [done|].
  constructor; [|done]. rewrite elem_of_remove1 by done. tauto.
Qed.

Lemma rpc_ok_accept input s : rpc_ok s -> rpc_ok (accept input s).
Proof.
  intros Hs. unfold accept. destruct (negb _); [done|].
  destruct (Z.leb_spec maxRPCClients (rs_active s)); [done|]. destruct Hs as [R1 R2 R3 R4 R5 R6].
  assert (Hn : rs_conns s !! rs_next s = None).
  { destruct (rs_conns s !! rs_next s) eqn:E; [|done]. apply R5 in E. lia. }
  split; simpl; try done.
  - rewrite map_size_insert_None by done. lia.
  - lia.
  - intros id. rewrite R4. split; intros (c & E & Hc); exists c.
    + split; [|done]. rewrite lookup_insert_ne; [done|]. congruence.
    + split; [|done]. apply lookup_insert_Some in E as [[<- <-]|[_ E]]; [done|done].
  - intros id c. rewrite lookup_insert_Some. intros [[<- _]|[_ E]]; [lia|]. apply R5 in E. lia.
  - intros id c. rewrite lookup_insert_Some. intros [[_ <-]|[_ E]]; [|by eapply R6].
    split; simpl; [done|done|constructor|done|done].
Qed.

Lemma rpc_ok_register id s : rpc_ok s -> rpc_ok (register id s).
Proof.
  intros Hs. unfold register. destruct (rs_conns s !! id) as [c|] eqn:E; [|done]. simpl.
  destruct (cl_phase c) eqn:P; try done. pose proof Hs as [R1 R2 R3 R4 R5 R6].
  assert (Hni : id ∉ rs_clients s).
  { rewrite R4. intros (c' & E' & Hc). simplify_eq. by rewrite P in Hc. }
  split; simpl.
  - rewrite R1. f_equal. rewrite <- !(size_dom (D := gset nat)). by rewrite dom_alter_L.
  - done.
  - apply NoDup_app. split; [done|]. split; [|apply NoDup_singleton].
    intros x Hx ->%list_elem_of_singleton. done.
  - intros x. rewrite elem_of_app, list_elem_of_singleton, R4.
    destruct (decide (id = x)) as [<-|Hne].
    + rewrite lookup_alter_eq, E. simpl. split; [|by right]. intros _. by eexists.
    + rewrite lookup_alter_ne by done. split; [|by left]. intros [?|?]; [done|congruence].
  - intros x c'. rewrite lookup_alter_Some. intros [(-> & c1 & E1 & ->)|[_ E1]]; by eapply R5.
  - intros x c'. rewrite lookup_alter_Some. intros [(-> & c1 & E1 & ->)|[_ E1]]; [|by eapply R6].
    simplify_eq. apply phase_ok; [by eapply R6|by rewrite P|by left].
Qed.

Lemma rpc_ok_finish id s : rpc_ok s -> rpc_ok (finish id s).
Proof.
  intros Hs. unfold finish. destruct (rs_conns s !! id) as [c|] eqn:E; [|done]. simpl.
  destruct (cl_phase c) eqn:P; try done. destruct Hs as [R1 R2 R3 R4 R5 R6]. split; simpl; try done.
  - rewrite map_size_delete_Some by done. rewrite R1.
    assert (size (rs_conns s) <> 0%nat); [|lia]. rewrite map_size_ne_0_lookup. by exists id, c.
  - lia.
  - intros x. rewrite R4. split; intros (c' & E' & Hc); exists c'; (split; [|done]).
    + rewrite lookup_delete_ne; [done|]. intros <-. simplify_eq. by rewrite P in Hc.
    + by apply lookup_delete_Some in E' as [_ E'].
  - intros x c'. rewrite lookup_delete_Some. intros [_ E']. by eapply R5.
  - intros x c'. rewrite lookup_delete_Some. intros [_ E']. by eapply R6.
Qed.

Lemma rpc_ok_unregister id s : rpc_ok s -> rpc_ok (unregister id s).
Proof.
  intros Hs. unfold unregister. destruct (rs_conns s !! id) as [c|] eqn:E; [|done]. simpl.
  destruct (cl_phase c) eqn:P; try done. pose proof Hs as [R1 R2 R3 R4 R5 R6]. split; simpl.
  - rewrite R1. f_equal. rewrite <- !(size_dom (D := gset nat)). by rewrite dom_alter_L.
  - done.
  - by apply NoDup_remove1.
  - intros x. rewrite elem_of_remove1 by done. destruct (decide (id = x)) as [<-|Hne].
    + rewrite lookup_alter_eq, E. simpl. split; [by intros []|]. intros (c' & [= <-] & Hc). done.
    + rewrite lookup_alter_ne by done. rewrite R4. split; [by intros []|]. intros H. by split.
  - intros x c'. rewrite lookup_alter_Some. intros [(-> & c1 & E1 & ->)|[_ E1]]; by eapply R5.
  - intros x c'. rewrite lookup_alter_Some. intros [(-> & c1 & E1 & ->)|[_ E1]]; [|by eapply R6].
    simplify_eq. apply break_ok, phase_ok; [by eapply R6|by rewrite P|right; by rewrite P].
Qed.

(** Changes outside the connections. *)
Lemma rpc_ok_same s s' :
  rs_active s' = rs_active s -> rs_clients s' = rs_clients s -> rs_conns s' = rs_conns s ->
  rs_next s' = rs_next s -> (rs_done s = true -> rs_done s' = true) -> rpc_ok s -> rpc_ok s'.
Proof.
  intros E1 E2 E3 E4 Hd [R1 R2 R3 R4 R5 R6]. split; rewrite ?E1, ?E2, ?E3, ?E4; try done.
  intros id c [H1 H2 H3 H4 H5]%R6. split; try done. intros [?|?]%H5; auto.
Qed.

Lemma due_snoc l q res : due (l ++ [(q, res)]) = due l ++ option_list (replyTo q res).
Proof. unfold due. rewrite omap_app. simpl. by destruct (replyTo q res). Qed.

Lemma rpc_ok_serve env id s : rpc_ok s -> rpc_ok (serve env id s).
Proof.
  intros Hs. unfold serve. destruct (rs_conns s !! id) as [c|] eqn:E; [|done].
  destruct (cl_phase c) eqn:P; try done.
  assert (Hleave : rs_done s = true \/ (exists e, ReadRequest float_lit (cl_in c) = Err e) ->
    rpc_ok (upd id (set_phase Leaving) s)).
  { intros Hl. apply upd_ok; [done|]. intros c' Hc'. rewrite E in Hc'. injection Hc' as <-.
    split; [|by rewrite P]. destruct (ro_clients _ Hs id c E) as [H1 H2 H3 H4 H5].
    split; try done; simpl; [by rewrite P in H4|]. intros _. destruct Hl; auto. }
  destruct (rs_done s) eqn:Hd; [apply Hleave; by left|].
  destruct (ReadRequest float_lit (cl_in c)) as [[req rest]|err] eqn:R; [|apply Hleave; right; by exists err].
  destruct (handle env req (rs_adapter s)) as [a res]. apply upd_ok.
  { apply (rpc_ok_same s); try done. simpl. by intros ->. }
  simpl. intros c' Hc'. rewrite E in Hc'. injection Hc' as <-. split; [|by rewrite P].
  destruct (ro_clients _ Hs id c E) as [H1 H2 H3 H4 H5]. split; simpl; try done.
  - rewrite fmap_app. by eapply reads_snoc.
  - intros He. rewrite due_snoc, <- (H4 He), P. simpl. rewrite app_nil_r. by destruct (replyTo req res).
Qed.

Lemma note_phase_ok id ph target v s c :
  rpc_ok s -> rs_conns s !! id = Some c -> owed ph = owed (cl_phase c) ->
  registered ph = registered (cl_phase c) -> left ph = false ->
  rpc_ok (upd id (set_phase ph) (upd target (writeClient false v) s)).
Proof.
  intros Hs E Ho Hr Hl. pose proof (note_ok target v s Hs) as Hn. destruct (decide (target = id)) as [->|Hne].
  - destruct (writeClient_ok _ false v c (ro_clients s Hs id c E)) as (P & _); [by left|].
    apply (set_phase_ok id ph _ (writeClient false v c) Hn); [|by rewrite ?P..].
    cbn [rs_conns upd]. by rewrite lookup_alter_eq, E.
  - apply (set_phase_ok id ph _ c Hn); [|done..]. cbn [rs_conns upd]. by rewrite lookup_alter_ne.
Qed.

Lemma rpc_ok_reply id s : rpc_ok s -> rpc_ok (reply id s).
Proof.
  intros Hs. unfold reply. destruct (rs_conns s !! id) as [c|] eqn:E; [|done].
  destruct (cl_phase c) as [| |ns todo r e| |] eqn:P; try done.
  destruct todo as [|[target v] todo]; destruct ns as [|n ns];
    try (eapply note_phase_ok; [done|done|by rewrite ?P..]);
    try (eapply set_phase_ok; [done|done|by rewrite ?P..]).
  destruct r as [v|]; [|eapply set_phase_ok; [done|done|by rewrite ?P..]].
  apply upd_ok; [done|]. intros c' Hc'. rewrite E in Hc'. injection Hc' as <-.
  destruct (writeClient_ok (rs_done s) true v c) as (E1 & H1 & H2 & H3 & H4 & _);
    [by eapply ro_clients|right; by rewrite P|]. split; [|rewrite P; simpl; by destruct (_ && _)].
  split; simpl; try done; [by destruct (_ && _)|]. destruct (negb e && writeFails v c) eqn:F; [|done].
  intros _. right; left. apply andb_prop in F as [_ F]. unfold writeFails in F. unfold writeClient.
  destruct (writeJSON (Some (Marshal v)) (cl_w c)) as [w [x|]] eqn:W; [|done]. simpl.
  by apply writeJSON_atomic in W as [_ [? _]]; [|eapply (co_writer _ c), ro_clients].
Qed.

Lemma rpc_ok_call i s : rpc_ok s -> rpc_ok (callStep i s).
Proof.
  intros Hs. unfold callStep. destruct (rs_calls s !! i) as [[v [[|target todo]|]]|]; try done.
  - apply (rpc_ok_same (upd target (writeClient false v) s)); try done. by apply note_ok.
  - by apply (rpc_ok_same s).
Qed.

Lemma rpc_ok_step s s' : rpc_step s s' -> rpc_ok s -> rpc_ok s'.
Proof.
  destruct 1 as [input s|s|id s|env id s|id s|id s|id s|n s|i s|id s|a s]; intros Hs.
  - by apply rpc_ok_accept.
  - unfold closeListener. destruct (rs_done s) eqn:E; [by apply (rpc_ok_same s)|done].
  - by apply rpc_ok_register.
  - by apply rpc_ok_serve.
  - by apply rpc_ok_reply.
  - by apply rpc_ok_unregister.
  - by apply rpc_ok_finish.
  - by apply (rpc_ok_same s).
  - by apply rpc_ok_call.
  - apply upd_ok; [done|]. intros c Hc. split; [|done]. by eapply break_ok, ro_clients.
  - apply (rpc_ok_same s); try done. simpl. by intros ->.
Qed.

Lemma rpc_ok_new a : rpc_ok (NewRPCServer a).
Proof.
  split; simpl; try done; [constructor|set_solver].
Qed.

(** ** A connection ends *)

(** The next step of the goroutine of a connection. *)
Definition own (env : RpcEnv) (id : nat) (s : RPCServer) : RPCServer :=
  match cl_phase <$> rs_conns s !! id with
  | Some Accepted => register id s
  | Some Serving => serve env id s
  | Some (Replying _ _ _ _) => reply id s
  | Some Leaving => unregister id s
  | Some Closing => finish id s
  | None => s
  end.
(** Its first [n] steps; [envs i] is the environment of step [i]. *)
Fixpoint ownRun (envs : nat -> RpcEnv) (n : nat) (id : nat) (s : RPCServer) : RPCServer :=
  match n with
  | O => s
  | S n' => ownRun (fun i => envs (S i)) n' id (own (envs O) id s)
  end.

Lemma own_step env id s : rpc_step s (own env id s) \/ own env id s = s.
Proof.
  unfold own. destruct (rs_conns s !! id) as [c|]; [|by right]. simpl.
  destruct (cl_phase c); left; by constructor.
Qed.

Lemma own_ok env id s : rpc_ok s -> rpc_ok (own env id s).
Proof. intros Hs. destruct (own_step env id s) as [H| ->]; [by eapply rpc_ok_step|done]. Qed.

Lemma ownRun_rtc envs n id s : rtc rpc_step s (ownRun envs n id s).
Proof.
  revert envs s; induction n as [|n IH]; intros envs s; simpl; [done|].
  destruct (own_step (envs O) id s) as [H| ->]; [by eapply rtc_l|apply IH].
Qed.

(** How far a connection is from its end. *)
Definition rank (ph : Phase) : nat :=
  match ph with
  | Closing => 0
  | Leaving => 1
  | Serving => 2
  | Accepted => 3
  | Replying ns todo _ _ => 3 + 5 * length ns + length todo
  end.
Definition closer (c1 c2 : Client) : Prop :=
  (length (cl_in c1) < length (cl_in c2))%nat \/
  (length (cl_in c1) = length (cl_in c2) /\ (rank (cl_phase c1) < rank (cl_phase c2))%nat).

Lemma clients_few s : rpc_ok s -> (length (rs_clients s) <= 4)%nat.
Proof.
  intros [R1 R2 R3 R4 _ _]. assert (length (rs_clients s) <= size (rs_conns s))%nat.
  { rewrite <- (size_list_to_set (C := gset nat)) by done. rewrite <- (size_dom (D := gset nat)).
    apply subseteq_size. intros id. rewrite elem_of_list_to_set, R4, elem_of_dom.
    intros (c & E & _). by exists c. }
  unfold maxRPCClients in R2. lia.
Qed.

Lemma writeClient_keeps r v c :
  cl_phase (writeClient r v c) = cl_phase c /\ cl_in (writeClient r v c) = cl_in c.
Proof. unfold writeClient. by destruct (writeJSON _ _). Qed.

(** The connection after a step of its goroutine, if it is still there. *)
Lemma own_closer env id s c :
  rpc_ok s -> rs_conns s !! id = Some c ->
  match rs_conns (own env id s) !! id with Some c' => closer c' c | None => True end.
Proof.
  intros Hs E. unfold own, closer. rewrite E. simpl. destruct (cl_phase c) as [| |ns todo r e| |] eqn:P.
  - unfold register. rewrite E. simpl. rewrite P. simpl. rewrite lookup_alter_eq, E. simpl. lia.
  - unfold serve. rewrite E, P. destruct (rs_done s); [simpl; rewrite lookup_alter_eq, E; simpl; lia|].
    destruct (ReadRequest float_lit (cl_in c)) as [[req rest]|] eqn:R.
    + destruct (handle env req (rs_adapter s)) as [a res]. simpl. rewrite lookup_alter_eq, E. simpl.
      apply ReadRequest_length in R. lia.
    + simpl. rewrite lookup_alter_eq, E. simpl. lia.
  - unfold reply. rewrite E, P. pose proof (clients_few s Hs).
    destruct todo as [|[target v] todo].
    + destruct ns as [|n ns]; [destruct r as [v|]|]; simpl; rewrite lookup_alter_eq, E; simpl.
      * destruct (writeClient_keeps true v c) as [_ ->]. destruct (_ && _); simpl; lia.
      * lia.
      * rewrite length_fmap. lia.
    + assert (G : match alter (set_phase (Replying ns todo r e)) id
                     (alter (writeClient false v) target (rs_conns s)) !! id with
                  | Some c' => (length (cl_in c') < length (cl_in c))%nat \/
                     length (cl_in c') = length (cl_in c) /\ (rank (cl_phase c') <
                       rank (Replying ns ((target, v) :: todo) r e))%nat
                  | None => True
                  end).
      { rewrite lookup_alter_eq. destruct (decide (target = id)) as [->|Hne].
        - rewrite lookup_alter_eq, E. simpl. destruct (writeClient_keeps false v c) as [_ ->]. lia.
        - rewrite lookup_alter_ne, E by done. simpl. lia. }
      by destruct ns.
  - unfold unregister. rewrite E. simpl. rewrite P. simpl. rewrite lookup_alter_eq, E. simpl. lia.
  - unfold finish. rewrite E. simpl. rewrite P. simpl. by rewrite lookup_delete_eq.
Qed.

Lemma own_gone env id s : rs_conns s !! id = None -> own env id s = s.
Proof. intros E. unfold own. by rewrite E. Qed.

Lemma closer_wf : well_founded closer.
Proof.
  assert (G : forall n m c, (length (cl_in c) < n)%nat \/
    (length (cl_in c) = n /\ (rank (cl_phase c) < m)%nat) -> Acc closer c).
  { induction n as [n IHn] using lt_wf_ind. induction m as [m IHm] using lt_wf_ind.
    intros c [Hc|[Hc Hm]].
    - apply (IHn (length (cl_in c)) Hc (S (rank (cl_phase c)))). right. lia.
    - constructor. intros c' [H|[H1 H2]].
      + apply (IHn (length (cl_in c')) ltac:(lia) (S (rank (cl_phase c')))). right. lia.
      + apply (IHm (rank (cl_phase c)) Hm). right. lia. }
  intros c. apply (G (length (cl_in c)) (S (rank (cl_phase c)))). right. lia.
Qed.

(** The RPC server's book-keeping.  However connections, requests,
    notifications and closes interleave: the counter equals the connections
    being served and is at most 4, the list that notifications go to holds each
    connection once and exactly those between their registration and their
    end, and at the limit a new connection changes nothing. *)
Theorem rpc_clients_bounded (a : Adapter) (s : RPCServer) :
  rtc rpc_step (NewRPCServer a) s ->
  rs_active s = Z.of_nat (size (rs_conns s)) /\ rs_active s <= maxRPCClients /\
  NoDup (rs_clients s) /\
  (forall id, id ∈ rs_clients s <->
     exists c, rs_conns s !! id = Some c /\ registered (cl_phase c) = true) /\
  (forall input, rs_active s = maxRPCClients -> accept input s = s).
Proof.
  intros H. apply (rtc_invariant _ _ rpc_ok_step) in H as [R1 R2 R3 R4 _ _]; [|apply rpc_ok_new].
  split_and!; try done. intros input Hf. unfold accept. rewrite Hf. by destruct (negb _).
Qed.

(** What a connection has handled and written.  At any time the requests
    handled are the first ones of the stream, in order; as long as no write
    failed, the answers written and the one still owed are exactly those due for
    them; the loop is left only when the context is done, a write failed or the
    stream has no further request; and what was written reads back as the
    messages of the log, notifications included. *)
Theorem rpc_answers_exact (a : Adapter) (s : RPCServer) (id : nat) (c : Client) :
  rtc rpc_step (NewRPCServer a) s -> rs_conns s !! id = Some c ->
  reads (cl_input c) (cl_handled c).*1 (cl_in c) /\
  (bw_err (cl_w c) = false -> answers (cl_log c) ++ owed (cl_phase c) = due (cl_handled c)) /\
  (left (cl_phase c) = true ->
     rs_done s = true \/ bw_err (cl_w c) = true \/ exists e, ReadRequest float_lit (cl_in c) = Err e) /\
  (Forall sendable (cl_log c).*2 ->
   ReadAllJSON (S (length (cl_log c))) (bw_out (cl_w c)) = (cl_log c).*2).
Proof.
  intros H E. apply (rtc_invariant _ _ rpc_ok_step) in H as Hs; [|apply rpc_ok_new].
  destruct (ro_clients s Hs id c E) as [H1 H2 H3 H4 H5]. split_and!; [done|done|done|].
  intros Hl. rewrite H2. apply (ReadAllJSON_messages _ Hl _ []); [rewrite length_fmap; lia|apply not_elem_of_nil].
Qed.

(** A connection ends.  From any reachable state the goroutine of a
    connection, left to run, comes to its end: the connection is closed and
    counted out and no longer among those that get notifications. *)
Theorem rpc_connection_ends (a : Adapter) (s : RPCServer) (id : nat) (envs : nat -> RpcEnv) :
  rtc rpc_step (NewRPCServer a) s ->
  exists n, rs_conns (ownRun envs n id s) !! id = None /\ id ∉ rs_clients (ownRun envs n id s).
Proof.
  intros H. apply (rtc_invariant _ _ rpc_ok_step) in H as Hs; [|apply rpc_ok_new]. clear H.
  assert (G : forall c, forall s envs, rpc_ok s -> rs_conns s !! id = Some c ->
    exists n, rs_conns (ownRun envs n id s) !! id = None /\ rpc_ok (ownRun envs n id s)).
  { intros c. induction (closer_wf c) as [c _ IH]. clear s envs Hs. intros s envs Hs E.
    pose proof (own_closer (envs O) id s c Hs E) as Hc. pose proof (own_ok (envs O) id s Hs) as Hs'.
    destruct (rs_conns (own (envs O) id s) !! id) as [c'|] eqn:E'; [|by exists 1%nat].
    destruct (IH c' Hc _ (fun i => envs (S i)) Hs' E') as (n & Hn). by exists (S n). }
  assert (exists n, rs_conns (ownRun envs n id s) !! id = None /\ rpc_ok (ownRun envs n id s))
    as (n & Hn & Hok).
  { destruct (rs_conns s !! id) as [c|] eqn:E; [by eapply G|]. by exists O. }
  exists n. split; [done|]. rewrite (ro_reg _ Hok). intros (c & E & _). congruence.
Qed.

(** ** A client's session *)

(** A request as the client sends it and as the server sees it. *)
Record Call := MkCall { call_id : JSON; call_id' : JSON; call_method : bytes; call_params : list JSON }.
Definition callJSON (q : Call) : JSON := requestJSON (call_id q) (call_method q) (call_params q).
Definition callReq (q : Call) : JSONRPCRequest :=
  MkReq (B "2.0") (call_id' q) (call_method q) (call_params q).
Definition call_ok (q : Call) : Prop :=
  sendable (callJSON q) /\ iface float_lit (call_id q) = Some (call_id' q).

Lemma reads_calls l : Forall call_ok l -> forall g qs rest e,
  no_open g -> reads (g ++ stream (callJSON <$> l)) qs rest -> ReadRequest float_lit rest = Err e ->
  qs = callReq <$> l.
Proof.
  induction 1 as [|q l [Hq Hi] Hl IH]; intros g qs rest e Hg Hr He.
  - inversion Hr as [|? ? ? ? ? H1 H2]; [done|]. rewrite ReadRequest_skip in H1 by done.
    apply ReadRequest_length in H1. simpl in H1. lia.
  - change (stream (callJSON <$> q :: l)) with ((Marshal (callJSON q) ++ [newline]) ++ stream (callJSON <$> l)) in Hr.
    rewrite <- app_assoc in Hr. remember (g ++ _) as r0 eqn:Er.
    assert (Hread : ReadRequest float_lit r0 = Ok (callReq q, [newline] ++ stream (callJSON <$> l))).
    { subst r0. rewrite ReadRequest_skip by done. by apply ReadRequest_call. }
    destruct Hr as [r|r q' r1 qs r' H1 H2]; [congruence|]. rewrite Hread in H1. simplify_eq.
    rewrite fmap_cons. f_equal. eapply (IH [newline]); [|done|done].
    apply not_elem_of_cons. split; [done|apply not_elem_of_nil].
Qed.

(** The answer to a request: a result or an error, with its identifier. *)
Definition answer_for (q : Call) (v : JSON) : Prop :=
  (exists r, v = responseJSON (call_id' q) r) \/ (exists msg, v = errorJSON (call_id' q) (-32603) msg).

Definition is_null (v : JSON) : bool := match v with JNull => true | _ => false end.

Lemma due_answers hs l :
  hs.*1 = callReq <$> l -> Forall2 answer_for (filter (fun q => is_null (call_id' q) = false) l) (due hs).
Proof.
  revert l; induction hs as [|[q res] hs IH]; intros [|k l] Hh; try done.
  rewrite !fmap_cons in Hh. injection Hh as Hq Hh. simpl in Hq. subst q. specialize (IH l Hh).
  unfold due; simpl. unfold replyTo at 1; simpl. rewrite filter_cons.
  destruct (call_id' k) eqn:I; [rewrite decide_False by done; done|..]; rewrite decide_True by done;
    (constructor; [|done]); unfold answer_for; rewrite I; destruct res; eauto.
Qed.

(** C28. A session of the FAF client.  A client writes calls one after the
    other, whose text is one balanced object each for a reader that counts braces
    without looking for strings; however its connection interleaves with other
    connections and with notifications, when the server's loop has left off at the
    end of the stream, no write has failed and the server has not been stopped, it
    has handled exactly these calls, in order, and has answered exactly those
    with an identifier, in order, each with a response or an error that carries
    its identifier. *)
Theorem rpc_session (a : Adapter) (s : RPCServer) (id : nat) (c : Client) (l : list Call) :
  rtc rpc_step (NewRPCServer a) s -> rs_conns s !! id = Some c ->
  Forall call_ok l -> cl_input c = stream (callJSON <$> l) ->
  left (cl_phase c) = true -> rs_done s = false -> bw_err (cl_w c) = false ->
  (cl_handled c).*1 = callReq <$> l /\
  Forall2 answer_for (filter (fun q => is_null (call_id' q) = false) l) (answers (cl_log c)).
Proof.
  intros H E Hl Hin Hleft Hd He. apply (rtc_invariant _ _ rpc_ok_step) in H as Hs; [|apply rpc_ok_new].
  destruct (ro_clients s Hs id c E) as [H1 H2 H3 H4 H5].
  destruct (H5 Hleft) as [?|[?|[e Hr]]]; [congruence..|].
  assert (Hh : (cl_handled c).*1 = callReq <$> l).
  { rewrite Hin in H3. by eapply (reads_calls l Hl []); [apply not_elem_of_nil| |]. }
  split; [done|]. replace (answers (cl_log c)) with (due (cl_handled c)); [by apply due_answers|].
  specialize (H4 He). destruct (cl_phase c); try done; by rewrite app_nil_r in H4.
Qed.

(** ** Notifications reach every connection *)

(** The connection after a message was written to it. *)
Lemma writeClient_log v c :
  writer_ok (cl_w c) -> bw_healthy (cl_w c) ->
  cl_log (writeClient false v c) = cl_log c ++ [(false, v)] /\ bw_healthy (cl_w (writeClient false v c)) /\
  writer_ok (cl_w (writeClient false v c)).
Proof.
  intros Hw Hh. unfold writeClient.
  destruct (writeJSON_ok (Marshal v) (cl_w c) Hh (Hw (proj1 Hh))) as (w & -> & H1 & H2 & _). simpl.
  split_and!; [done|done|]. intros _. done.
Qed.

Lemma foldl_upd_lookup (f : Client -> Client) l s id :
  NoDup l ->
  rs_conns (foldl (fun s i => upd i f s) s l) !! id =
  (if decide (id ∈ l) then f <$> rs_conns s !! id else rs_conns s !! id).
Proof.
  intros Hl. revert s. induction Hl as [|i l Hi Hl IH]; intros s; simpl; [done|].
  rewrite IH. simpl. destruct (decide (id = i)) as [->|Hne].
  - rewrite decide_False, decide_True by set_solver. by rewrite lookup_alter_eq.
  - rewrite lookup_alter_ne by done. by destruct (decide (id ∈ l)); destruct (decide (id ∈ i :: l)); set_solver.
Qed.

(** A notification is written once to every connection that is registered
    when it is sent, and to no other; a connection whose writer is intact
    receives it whole. *)
Theorem notification_broadcast (a : Adapter) (s : RPCServer) (n : Notification) (id : nat) (c : Client) :
  rtc rpc_step (NewRPCServer a) s -> rs_conns s !! id = Some c ->
  exists c', rs_conns (SendNotification n s) !! id = Some c' /\
    if registered (cl_phase c)
    then c' = writeClient false (noteJSON n) c /\
         (bw_healthy (cl_w c) -> cl_log c' = cl_log c ++ [(false, noteJSON n)])
    else c' = c.
Proof.
  intros H E. apply (rtc_invariant _ _ rpc_ok_step) in H as Hs; [|apply rpc_ok_new].
  pose proof (ro_reg s Hs id) as Hreg. unfold SendNotification.
  rewrite foldl_upd_lookup by apply (ro_nodup s Hs). rewrite E.
  destruct (registered (cl_phase c)) eqn:R.
  - rewrite decide_True by (apply Hreg; eauto). eexists. split; [done|]. split; [done|]. intros Hh.
    apply writeClient_log; [|done]. apply (co_writer _ _ (ro_clients s Hs id c E)).
  - rewrite decide_False; [by eexists|]. rewrite Hreg. intros (c' & E' & Hr). congruence.
Qed.

(** ** ICE messages between two adapters *)

(** The handlers decode ICE messages as [HandleIceMsg] does. *)
Definition ice_decoding (env : RpcEnv) : Prop :=
  forall text, e_iceMsg env (bytes_str text) = decodeIceMsg text.
(** The number of a player survives the conversions to [float64] and back. *)
Definition float_id (env : RpcEnv) (id : Z) : Prop :=
  exists f, parse_float (Itoa id) = Some f /\ float_int env f = id.

(** C10. ICE messages from adapter to adapter.  The text of an ICE message that
    one adapter puts into an [onIceMsg] notification, passed on by the client as
    an [iceMsg] request to the other adapter, is split off the stream, parsed
    and decoded to the message it was made of, and handed to the ICE peer of the
    sender. *)
Theorem ice_text_exchange (env : RpcEnv) (a : Adapter) (me remote : Z) (m : fafIceMsg) (peer : ICEPeer)
    (id id' : JSON) (rest : bytes) :
  msg_ok m -> float_lit (Itoa me) = Some (Itoa me) -> float_lit (Itoa remote) = Some (Itoa remote) ->
  iface float_lit id = Some id' ->
  let text := iceText m in
  let note := noteJSON (OnIceMsg me remote text) in
  let request := requestJSON id (B "iceMsg") [JNum (Itoa me); JStr text] in
  len (Marshal note) <= MaxJSONRPCMessageSize -> sendable request ->
  ice_decoding env -> float_id env me -> GetICEPeer me (ad_pm a) = Some peer ->
  ReadRaw (Marshal note ++ rest) = Ok (Marshal note, rest) /\
  Unmarshal (Marshal note) =
    Some (notificationJSON (B "onIceMsg") [JNum (Itoa me); JNum (Itoa remote); JStr text]) /\
  exists req, ReadRequest float_lit (Marshal request ++ rest) = Ok (req, rest) /\
    HandleRequest env (toRpc req) a =
    (let '(peer', acts, _) := HandleIceMsg (Some m) peer in
     let a := spawn (restartTasks me (spawned acts)) a in
     (with_pm (with_ice (fun t => <[me := peer']> t) (ad_pm a)) a, Ok tt)).
Proof.
  intros Hm Hme Hrem Hid text note request Hlen Hsend Henv [f [Hf Hfi]] Hpeer.
  destruct (iceText_string m Hm) as [W S].
  assert (En : note = notificationJSON (B "onIceMsg") [JNum (Itoa me); JNum (Itoa remote); JStr text]).
  { subst note. unfold noteJSON, jfloat. by rewrite Hme, Hrem. }
  assert (Hok : sendable note).
  { rewrite En. split; [by eexists|]. split_and!.
    - cbn [wf notificationJSON foldr fst snd]. split_and!; try done; try apply Itoa_valid;
        apply valid_ascii; repeat constructor.
    - cbn [safe notificationJSON foldr fst snd]. split_and!; try done; apply Itoa_valid.
    - by cbn.
    - by rewrite <- En. }
  destruct Hok as (_ & Wn & Sn & Dn & Ln). split_and!.
  - apply ReadRaw_object; [|done]. rewrite En in *. by apply safe_object.
  - rewrite unmarshal_marshal by done. by rewrite En.
  - exists (MkReq (B "2.0") id' (B "iceMsg") [JNum (Itoa me); JStr text]).
    split; [by apply ReadRequest_call|]. unfold toRpc. cbn [rq_Method rq_Params fmap list_fmap].
    unfold HandleRequest. cbn [rpc_method rpc_params]. change (bytes_str (B "iceMsg")) with "iceMsg"%string.
    cbn -[HandleIceMsg iceText Marshal float_int]. rewrite Hf. cbn -[HandleIceMsg iceText Marshal float_int].
    rewrite Hfi, Hpeer, (Henv text). subst text. rewrite iceText_roundtrip by done. done.
Qed.

End Server.

(** ** A concrete session *)

(** Three requests: a good one, an unknown method, one without identifier. *)
Definition demo_calls : list Call :=
  [MkCall (JNum (B "1")) (JNum (B "1")) (B "setLobbyInitMode") [JStr (B "auto")];
   MkCall (JStr (B "x")) (JStr (B "x")) (B "fly") [];
   MkCall JNull JNull (B "setLobbyInitMode") [JStr (B "normal")]].
Definition demo_status (a : Adapter) : bytes := B "{}".
Definition demo_errText (r : RpcRequest) (e : RpcErr) : bytes := B "unknown method".
Definition demo_server : RPCServer :=
  accept (stream (callJSON <$> demo_calls)) (NewRPCServer (NewAdapter (demo_cfg false) NewGPGNetServer)).
Definition demo_rpc (n : nat) : RPCServer :=
  ownRun Some (fun _ => None) demo_status demo_errText (fun _ => demo_env) n 0 demo_server.

Lemma demo_rpc_reach n :
  rtc (rpc_step Some (fun _ => None) demo_status demo_errText)
    (NewRPCServer (NewAdapter (demo_cfg false) NewGPGNetServer)) (demo_rpc n).
Proof. eapply rtc_l; [apply rs_accept|]. apply ownRun_rtc. Qed.

Lemma demo_calls_ok : Forall (call_ok Some) demo_calls.
Proof. do 3 (constructor; [split; [apply plain_sendable; by vm_compute|done]|]). constructor. Qed.

Lemma rpc_session_witness : exists c,
  rs_conns (demo_rpc 8) !! 0%nat = Some c /\ (cl_handled c).*1 = callReq <$> demo_calls /\
  Forall2 answer_for (filter (fun q => is_null (call_id' q) = false) demo_calls) (answers (cl_log c)).
Proof.
  destruct (rs_conns (demo_rpc 8) !! 0%nat) as [c|] eqn:E; [|by vm_compute in E].
  exists c. split; [done|].
  apply (rpc_session Some (fun _ => None) demo_status demo_errText _ (demo_rpc 8) 0 c demo_calls
    (demo_rpc_reach 8) E demo_calls_ok); vm_compute in E; injection E as <-; reflexivity.
Defined.
Example demo_answers :
  answers (default [] (cl_log <$> rs_conns (demo_rpc 8) !! 0%nat)) =
  [responseJSON (JNum (B "1")) JNull; errorJSON (JStr (B "x")) (-32603) (B "unknown method")].
Proof. vm_compute. reflexivity. Qed.

Lemma rpc_clients_bounded_witness :
  rs_active (demo_rpc 2) = 1 /\ rs_active (demo_rpc 2) <= maxRPCClients /\
  NoDup (rs_clients (demo_rpc 2)) /\
  (forall id, id ∈ rs_clients (demo_rpc 2) <->
     exists c, rs_conns (demo_rpc 2) !! id = Some c /\ registered (cl_phase c) = true) /\
  (forall input, rs_active (demo_rpc 2) = maxRPCClients -> accept input (demo_rpc 2) = demo_rpc 2).
Proof.
  exact (rpc_clients_bounded Some (fun _ => None) demo_status demo_errText _ (demo_rpc 2) (demo_rpc_reach 2)).
Defined.

Lemma rpc_connection_ends_witness :
  exists n, rs_conns (demo_rpc n) !! 0%nat = None /\ 0%nat ∉ rs_clients (demo_rpc n).
Proof.
  exact (rpc_connection_ends Some (fun _ => None) demo_status demo_errText _ demo_server 0 (fun _ => demo_env)
           (demo_rpc_reach 0)).
Defined.

(** After registration the client gets a notification. *)
Lemma notification_broadcast_witness : exists c c',
  rs_conns (demo_rpc 1) !! 0%nat = Some c /\ registered (cl_phase c) = true /\
  rs_conns (SendNotification Some (OnConnected 7 8 true) (demo_rpc 1)) !! 0%nat = Some c' /\
  cl_log c' = cl_log c ++ [(false, noteJSON Some (OnConnected 7 8 true))].
Proof.
  destruct (rs_conns (demo_rpc 1) !! 0%nat) as [c|] eqn:E; [|by vm_compute in E].
  destruct (notification_broadcast Some (fun _ => None) demo_status demo_errText _ (demo_rpc 1)
    (OnConnected 7 8 true) 0 c (demo_rpc_reach 1) E) as (c' & E' & H).
  exists c, c'. split; [done|]. vm_compute in E. injection E as <-. split; [done|]. split; [done|].
  apply H. done.
Defined.

(** An offerer (player 8) sends its credentials to player 7. *)
Definition demo_parse (n : bytes) : option float64 := (fun z => MkFloat z 0) <$> Atoi n.
Definition demo_ice_env : RpcEnv :=
  MkRpcEnv (e_peer demo_env) (e_relay demo_env) (e_port demo_env) (e_oor32 demo_env) (e_oor64 demo_env)
    (fun s => decodeIceMsg (str_bytes s)) (e_servers demo_env).
Definition demo_ice_msg : fafIceMsg :=
  MkIceMsg 8 7 "pwd" "frag" [MkCand "1" "udp" 2130706431 "192.168.0.2" 5000 "HOST_CANDIDATE" 0 "0" None 0] false.
Definition demo_ice_adapter : Adapter := (connectToPeer demo_env (connect_args 8 true) (hosting true)).1.

Lemma demo_ice_msg_ok : msg_ok demo_ice_msg.
Proof.
  assert (T : forall s, plain_str (str_bytes s) = true -> text_ok s) by (intros s; apply plain_str_ok).
  split_and!; try (by apply T); try done. constructor; [|constructor]. split_and!; try (by apply T); try done.
Qed.

Lemma ice_text_exchange_witness :
  let text := iceText demo_ice_msg in
  let request := requestJSON (JNum (B "5")) (B "iceMsg") [JNum (Itoa 8); JStr text] in
  exists req peer, ReadRequest Some (Marshal request ++ []) = Ok (req, []) /\
    GetICEPeer 8 (ad_pm demo_ice_adapter) = Some peer /\
    HandleRequest demo_ice_env (toRpc demo_parse req) demo_ice_adapter =
    (let '(peer', acts, _) := HandleIceMsg (Some demo_ice_msg) peer in
     let a := spawn (restartTasks 8 (spawned acts)) demo_ice_adapter in
     (with_pm (with_ice (fun t => <[8 := peer']> t) (ad_pm a)) a, Ok tt)).
Proof.
  intros text request.
  destruct (GetICEPeer 8 (ad_pm demo_ice_adapter)) as [peer|] eqn:E; [|by vm_compute in E].
  destruct (ice_text_exchange Some demo_parse demo_ice_env demo_ice_adapter 8 7 demo_ice_msg peer
    (JNum (B "5")) (JNum (B "5")) [] demo_ice_msg_ok eq_refl eq_refl eq_refl) as (_ & _ & req & H1 & H2).
  - by vm_compute.
  - apply plain_sendable. by vm_compute.
  - intros t. simpl. by rewrite str_bytes_str.
  - exists (MkFloat 8 0). by vm_compute.
  - done.
  - exists req, peer. by split_and!.
Defined.
