(* ===== verification/Commands.v ===== *)
(** * The commands and the configuration file

    [internal/adapter/configfile.go], [cmd/relay-adapter/main.go] and
    [cmd/relay-server/main.go]: from the arguments of the process and the
    optional file beside the executable to the configuration the adapter or the
    server runs with, or the exit status. *)

From S2P Require Import Prelude GoLib GoText Json RpcHandler AdapterRun RelayServer Flags.

(** ** Go's [strings] and [bufio.Scanner] *)

(** [unicode.IsSpace] *)
Definition IsSpace (r : Z) : bool :=
  ((9 <=? r) && (r <=? 13)) || (r =? 32) || (r =? 133) || (r =? 160) || (r =? 5760) ||
  ((8192 <=? r) && (r <=? 8202)) || (r =? 8232) || (r =? 8233) || (r =? 8239) || (r =? 8287) || (r =? 12288).

(** How many bytes of the reversed text [l] continue a rune, [n] at most. *)
Fixpoint lastStart (n : nat) (l : bytes) : nat :=
  match n, l with
  | S n', b :: l' => if (128 <=? byteZ b) && (byteZ b <? 192) then S (lastStart n' l') else O
  | _, _ => O
  end.
(** [utf8.DecodeLastRune] *)
Definition DecodeLastRune (p : bytes) : Z * nat :=
  match rev p with
  | [] => (RuneError, O)
  | b :: l =>
      if byteZ b <? 128 then (byteZ b, 1%nat)
      else
        let back := Nat.min (2 + lastStart 2 l) (length p) in
        let '(r, size) := DecodeRune (drop (length p - back) p) in
        if (size =? back)%nat then (r, size) else (RuneError, 1%nat)
  end.

Fixpoint trimLeft (fuel : nat) (s : bytes) : bytes :=
  match fuel, s with
  | S n, _ :: _ => let '(r, size) := DecodeRune s in if IsSpace r then trimLeft n (drop size s) else s
  | _, _ => s
  end.
Fixpoint trimRight (fuel : nat) (s : bytes) : bytes :=
  match fuel, s with
  | S n, _ :: _ =>
      let '(r, size) := DecodeLastRune s in if IsSpace r then trimRight n (take (length s - size) s) else s
  | _, _ => s
  end.
Definition TrimSpace (s : bytes) : bytes := let s := trimLeft (length s) s in trimRight (length s) s.

(** [strings.ToLower], as runes.  Only the lower cases in ASCII are given
    (U+0130 and U+212A are the two letters outside ASCII that have one): the
    results are compared with ASCII words only. *)
Definition lowerRune (r : Z) : Z :=
  if (65 <=? r) && (r <=? 90) then r + 32 else if r =? 304 then 105 else if r =? 8490 then 107 else r.
Definition ToLower (s : bytes) : list Z := lowerRune <$> runes s.
Definition codes (s : string) : list Z := byteZ <$> str_bytes s.

(** [strings.Cut(s, "=")] *)
Definition Cut (s : bytes) : option (bytes * bytes) :=
  let '(k, v) := cutEq s in (fun v => (k, v)) <$> v.

Definition MaxScanTokenSize : Z := 64 * 1024.
Definition dropCR (line : bytes) : bytes :=
  match rev line with b :: l => if byteZ b =? 13 then rev l else line | [] => [] end.
(** The lines a [bufio.Scanner] yields; a line that fills the buffer ends the
    scan.  [cur]: the line so far, reversed. *)
Fixpoint scan (cur : bytes) (s : bytes) : list bytes :=
  match s with
  | [] => match cur with [] => [] | _ => [dropCR (rev cur)] end
  | b :: s' =>
      if byteZ b =? 10 then dropCR (rev cur) :: scan [] s'
      else if len cur + 1 <? MaxScanTokenSize then scan (b :: cur) s' else []
  end.

(** ** [LoadConfigFile] *)

Definition officialKey : string := "use_official_faf_connections_as_lobby_creator_host".

(** What one line sets. *)
Definition configLine (line : bytes) : option bool :=
  let line := TrimSpace line in
  match line with
  | [] => None
  | b :: _ =>
      if (byteZ b =? 35) || (byteZ b =? 59) then None
      else
        '(key, value) ← Cut line;
        let value := ToLower (TrimSpace value) in
        if bool_decide (ToLower (TrimSpace key) = codes officialKey)
        then Some (bool_decide (value = codes "true") || bool_decide (value = codes "1") ||
                   bool_decide (value = codes "yes"))
        else None
  end.

Definition set_official (b : bool) (c : AdapterConfig) : AdapterConfig :=
  MkAC (PlayerID c) (GameID c) (Login c) (RPCPort c) (GPGNetPort c) (ac_LobbyPort c) (ac_RelayServer c)
    (ac_RelayTCPServer c) (RelayHTTP c) (ac_APIKey c) (ac_TCPFallback c) (ac_ForceTCP c) (DebugWindow c) b.

(** [file]: the contents, if the executable's directory is known and the file
    can be opened; up to the first read error. *)
Definition LoadConfigFile (file : option bytes) (c : AdapterConfig) : AdapterConfig :=
  match file with
  | None => c
  | Some f => foldl (fun c line => match configLine line with Some b => set_official b c | None => c end)
                c (scan [] f)
  end.

(** ** The commands *)

Definition intFlag (fs : FlagSet) (n : string) : Z := match fs !! n with Some (VInt z) => z | _ => 0 end.
Definition boolFlag (fs : FlagSet) (n : string) : bool :=
  match fs !! n with Some (VBool b) => b | _ => false end.
Definition stringFlag (fs : FlagSet) (n : string) : string :=
  match fs !! n with Some (VString s) => s | _ => "" end.

Definition defaultKey : string := "mussfuerproduktiongeandertwerdenxyz45k8".

(** The flags of the adapter with their defaults; the build can replace the
    three addresses and [defaultForceTCP]. *)
Record Defaults := MkDefaults {
  defaultRelayServer : string; defaultRelayTCPServer : string; defaultRelayHTTP : string;
  defaultForceTCP : bool }.
Definition sourceDefaults : Defaults :=
  MkDefaults "91.134.10.126:10000" "91.134.10.126:443" "http://91.134.10.126:8080" false.

Definition adapterFlags (d : Defaults) : FlagSet := list_to_map [
  ("id", VInt 0); ("game-id", VInt 0); ("login", VString "");
  ("rpc-port", VInt 7236); ("gpgnet-port", VInt 0); ("lobby-port", VInt 0);
  ("relay-server", VString (defaultRelayServer d)); ("relay-tcp", VString (defaultRelayTCPServer d));
  ("relay-http", VString (defaultRelayHTTP d)); ("api-key", VString defaultKey);
  ("tcp-fallback", VBool true); ("force-tcp", VBool (defaultForceTCP d));
  ("debug-window", VBool false); ("info-window", VBool false);
  ("force-relay", VBool false); ("delay-ui", VInt 0); ("ping-count", VInt 1);
  ("acceptable-latency", VFloat "250"); ("telemetry-server", VString ""); ("access-token", VString "");
  ("icebreaker-base-url", VString "")].

Definition adapterConfig (fs : FlagSet) : AdapterConfig :=
  MkAC (intFlag fs "id") (intFlag fs "game-id") (stringFlag fs "login") (intFlag fs "rpc-port")
    (intFlag fs "gpgnet-port") (intFlag fs "lobby-port") (stringFlag fs "relay-server")
    (stringFlag fs "relay-tcp") (stringFlag fs "relay-http") (stringFlag fs "api-key")
    (boolFlag fs "tcp-fallback") (boolFlag fs "force-tcp")
    (boolFlag fs "debug-window" || boolFlag fs "info-window") false.

(** [main] of the adapter up to [NewAdapter]: the configuration, or the exit
    status. *)
Definition adapterMain (d : Defaults) (args : list string) (file : option bytes) : result Z AdapterConfig :=
  match Parse (adapterFlags d) args with
  | Err code => Err code
  | Ok (fs, _) =>
      if (intFlag fs "id" =? 0) || bool_decide (stringFlag fs "login" = "") then Err 1
      else Ok (LoadConfigFile file (adapterConfig fs))
  end.

Definition serverFlags : FlagSet := list_to_map [
  ("udp-addr", VString ":10000"); ("tcp-addr", VString ":443"); ("http-addr", VString "0.0.0.0:8080");
  ("api-key", VString defaultKey); ("tls-cert", VString ""); ("tls-key", VString "")].

(** [main] of the relay server up to [NewServer]. *)
Definition serverMain (args : list string) : result Z ServerConfig :=
  match Parse serverFlags args with
  | Err code => Err code
  | Ok (fs, _) =>
      Ok (MkServerConfig (stringFlag fs "udp-addr") (stringFlag fs "tcp-addr") (stringFlag fs "http-addr")
            (stringFlag fs "api-key") (stringFlag fs "tls-cert") (stringFlag fs "tls-key") 0 0)
  end.

(** The exit status of [main] from what [Run] returned: [log.Fatalf] for an
    error. *)
Definition exitStatus {E} (err : option E) : Z := match err with Some _ => 1 | None => 0 end.

(** ** Reading a configuration file *)

Definition is_blank (b : byte) : bool := (byteZ b =? 32) || (byteZ b =? 9).
Definition blanks (s : bytes) : bool := forallb is_blank s.
Definition ascii_text (s : bytes) : bool := forallb (fun b => byteZ b <? 128) s.
(** Text that [TrimSpace] leaves alone. *)
Definition solid (b : byte) : bool := (byteZ b <? 128) && negb (IsSpace (byteZ b)).
Definition trimmed (s : bytes) : bool :=
  match s, rev s with
  | b :: _, e :: _ => solid b && solid e
  | _, _ => true
  end.

Lemma DecodeRune_ascii b s : byteZ b < 128 -> DecodeRune (b :: s) = (byteZ b, 1%nat).
Proof. intros H. rewrite <- (Zbyte_byteZ b) at 1. apply decode_1. pose proof (byteZ_range b). lia. Qed.

Lemma DecodeLastRune_ascii b s : byteZ b < 128 -> DecodeLastRune (s ++ [b]) = (byteZ b, 1%nat).
Proof. intros H. unfold DecodeLastRune. rewrite rev_app_distr. simpl. by decide_guards. Qed.

Lemma blank_space b : is_blank b = true -> byteZ b < 128 /\ IsSpace (byteZ b) = true.
Proof. unfold is_blank, IsSpace. intros H. apply orb_true_iff in H as [H|H]; apply Z.eqb_eq in H; by rewrite H. Qed.

Lemma trimLeft_blanks a fuel b s :
  blanks a = true -> (length a < fuel)%nat -> solid b = true -> trimLeft fuel (a ++ b :: s) = b :: s.
Proof.
  revert fuel; induction a as [|x a IH]; intros fuel Ha Hf Hb; destruct fuel as [|fuel];
    [simpl in Hf; lia| |simpl in Hf; lia|].
  - unfold solid in Hb. bool_facts. cbn [app trimLeft]. rewrite DecodeRune_ascii by lia.
    by destruct (IsSpace (byteZ b)).
  - cbn [blanks forallb] in Ha. apply andb_true_iff in Ha as [Hx Ha]. destruct (blank_space x Hx) as [H1 H2].
    cbn [app trimLeft]. rewrite DecodeRune_ascii, H2 by done. cbn [drop]. apply IH; [done| |done]. simpl in Hf. lia.
Qed.

Lemma trimLeft_all a fuel : blanks a = true -> (length a <= fuel)%nat -> trimLeft fuel a = [].
Proof.
  revert fuel; induction a as [|x a IH]; intros fuel Ha Hf; destruct fuel as [|fuel]; try (simpl in Hf; lia); [done..|].
  cbn [blanks forallb] in Ha. apply andb_true_iff in Ha as [Hx Ha]. destruct (blank_space x Hx) as [H1 H2].
  cbn [trimLeft]. rewrite DecodeRune_ascii, H2 by done. cbn [drop]. apply IH; [done|]. simpl in Hf. lia.
Qed.

Lemma trimRight_blanks a fuel s e :
  blanks a = true -> (length a < fuel)%nat -> solid e = true -> trimRight fuel (s ++ [e] ++ a) = s ++ [e].
Proof.
  revert fuel; induction a as [|x a IH] using rev_ind; intros fuel Ha Hf He; (destruct fuel as [|fuel]; [lia|]).
  - rewrite app_nil_r. unfold solid in He. bool_facts. cbn [trimRight]. rewrite DecodeLastRune_ascii by lia.
    destruct (IsSpace (byteZ e)); [done|]. by destruct (s ++ [e]).
  - unfold blanks in Ha. rewrite forallb_app in Ha. apply andb_true_iff in Ha as [Ha Hx].
    cbn [forallb] in Hx. apply andb_true_iff in Hx as [Hx _]. destruct (blank_space x Hx) as [H1 H2].
    rewrite !app_assoc. cbn [trimRight]. rewrite DecodeLastRune_ascii, H2 by done.
    destruct (((s ++ [e]) ++ a) ++ [x]) as [|b l] eqn:E; [by destruct (((s ++ [e]) ++ a))|].
    rewrite <- E, length_app. cbn [length]. rewrite Nat.add_sub, take_app_length, <- app_assoc.
    apply IH; [done| |done]. rewrite length_app in Hf. simpl in Hf. lia.
Qed.

(** Trimming takes exactly the blanks around solid text. *)
Lemma TrimSpace_blanks a s c :
  blanks a = true -> blanks c = true -> trimmed s = true -> TrimSpace (a ++ s ++ c) = s.
Proof.
  intros Ha Hc Hs. unfold TrimSpace. destruct s as [|b s].
  - rewrite trimLeft_all; [done| |lia]. unfold blanks in *. cbn [app]. by rewrite forallb_app, Ha, Hc.
  - unfold trimmed in Hs. destruct (rev (b :: s)) as [|e l] eqn:E.
    { apply (f_equal length) in E. rewrite length_rev in E. done. }
    apply andb_true_iff in Hs as [Hb He].
    cbn [app]. rewrite trimLeft_blanks; [|done| |done]; [|rewrite length_app; simpl; lia].
    apply (f_equal (@rev byte)) in E. rewrite rev_involutive in E. cbn [rev] in E.
    replace (b :: s ++ c) with ((b :: s) ++ c) by done. rewrite E, <- app_assoc.
    apply trimRight_blanks; [done| |done]. rewrite !length_app. simpl. lia.
Qed.

Lemma runes_ascii s : ascii_text s = true -> runes s = byteZ <$> s.
Proof.
  intros H. unfold ascii_text in H. rewrite forallb_forall in H.
  assert (E : s = utf8 (byteZ <$> s)).
  { unfold utf8. induction s as [|b s IH]; [done|]. cbn [fmap list_fmap concat].
    rewrite EncodeRune_ascii, Zbyte_byteZ.
    - cbn [app]. f_equal. apply IH. intros x Hx. apply H. by right.
    - pose proof (byteZ_range b). specialize (H b (or_introl eq_refl)). lia. }
  rewrite E at 1. apply runes_utf8. apply Forall_fmap, Forall_forall. intros b Hb.
  apply list_elem_of_In in Hb. specialize (H b Hb). pose proof (byteZ_range b). unfold ValidRune. simpl. lia.
Qed.

(** A word in any mixture of cases. *)
Definition spells (word : string) (s : bytes) : bool :=
  ascii_text s && bool_decide ((lowerRune ∘ byteZ) <$> s = codes word).

Lemma ToLower_spells word s : spells word s = true -> ToLower s = codes word.
Proof.
  unfold spells. intros H. apply andb_true_iff in H as [H1 H2]. apply bool_decide_eq_true in H2.
  unfold ToLower. by rewrite runes_ascii, <- list_fmap_compose by done.
Qed.

(** The lines of a configuration file as one writes them. *)
Inductive Entry :=
| Assign (a b c d : bytes) (key value : bytes)      (* [key = value] with blanks around *)
| Comment (a : bytes) (semicolon : bool) (text : bytes)
| Blank (a : bytes).

Definition equalsSign : byte := Byte.x3d.
Definition mark (semicolon : bool) : byte := if semicolon then Byte.x3b else Byte.x23.
Definition line (e : Entry) : bytes :=
  match e with
  | Assign a b c d key value => a ++ key ++ b ++ equalsSign :: c ++ value ++ d
  | Comment a semicolon t => a ++ mark semicolon :: t
  | Blank a => a
  end.

Definition plainByte (b : byte) : bool := negb (byteZ b =? 10) && negb (byteZ b =? 13).
Definition keyword (k : bytes) : bool :=
  match k with
  | [] => false
  | b :: _ => negb (byteZ b =? 35) && negb (byteZ b =? 59) && trimmed k && ascii_text k &&
              forallb (fun b => negb (byteZ b =? 61)) k
  end.
Definition entry_ok (e : Entry) : bool :=
  forallb plainByte (line e) && (len (line e) + 1 <? MaxScanTokenSize) &&
  match e with
  | Assign a b c d key value =>
      blanks a && blanks b && blanks c && blanks d && keyword key && trimmed value && ascii_text value
  | Comment a _ _ | Blank a => blanks a
  end.

(** What an entry sets. *)
Definition sets (e : Entry) : option bool :=
  match e with
  | Assign _ _ _ _ key value =>
      if spells officialKey key
      then Some (spells "true" value || spells "1" value || spells "yes" value) else None
  | _ => None
  end.

Definition eol (crlf : bool) : bytes := if crlf then [Byte.x0d; Byte.x0a] else [Byte.x0a].
Definition configText (es : list (Entry * bool)) : bytes := concat ((fun e => line e.1 ++ eol e.2) <$> es).

Lemma spells_ToLower word s : ascii_text s = true -> spells word s = bool_decide (ToLower s = codes word).
Proof.
  intros H. unfold spells, ToLower. by rewrite H, runes_ascii, <- list_fmap_compose by done.
Qed.

Lemma blanks_noeq s : blanks s = true -> forallb (fun b => negb (byteZ b =? 61)) s = true.
Proof.
  unfold blanks. rewrite !forallb_forall. intros H b Hb. specialize (H b Hb). unfold is_blank in H. lia.
Qed.

Lemma trimmed_solid b s e : trimmed (b :: s ++ [e]) = solid b && solid e.
Proof. unfold trimmed. cbn [rev]. rewrite rev_app_distr. done. Qed.

Lemma trimmed_first b s : trimmed (b :: s) = true -> solid b = true.
Proof.
  unfold trimmed. destruct (rev (b :: s)) eqn:E; [|by intros [? _]%andb_true_iff].
  apply (f_equal length) in E. by rewrite length_rev in E.
Qed.
Lemma trimmed_last s e : trimmed (s ++ [e]) = true -> solid e = true.
Proof.
  destruct s as [|b s]; [by intros [? ?]%andb_true_iff|]. cbn [app]. rewrite trimmed_solid.
  by intros [? ?]%andb_true_iff.
Qed.

(** Only the ends matter. *)
Lemma trimmed_mid s m t :
  s <> [] -> t <> [] -> trimmed s = true -> trimmed t = true -> trimmed (s ++ m ++ t) = true.
Proof.
  intros Hs Ht H1 H2. destruct s as [|b s]; [done|]. destruct t as [|e t _] using rev_ind; [done|].
  rewrite !app_assoc. cbn [app]. rewrite trimmed_solid.
  by rewrite (trimmed_first _ _ H1), (trimmed_last _ _ H2).
Qed.

Lemma configLine_at l key rest :
  TrimSpace l = key ++ rest -> keyword key = true ->
  configLine l = '(k, v) ← Cut (key ++ rest);
    let v := ToLower (TrimSpace v) in
    if bool_decide (ToLower (TrimSpace k) = codes officialKey)
    then Some (bool_decide (v = codes "true") || bool_decide (v = codes "1") || bool_decide (v = codes "yes"))
    else None.
Proof.
  intros E Hk. unfold configLine. cbv zeta. rewrite E. destruct key as [|b key]; [done|]. cbn [app].
  unfold keyword in Hk. rewrite !andb_true_iff, !negb_true_iff in Hk.
  destruct Hk as ((((H1 & H2) & _) & _) & _). by rewrite H1, H2.
Qed.

Lemma keyword_facts key : keyword key = true ->
  key <> [] /\ trimmed key = true /\ ascii_text key = true /\
  forallb (fun b => negb (byteZ b =? 61)) key = true.
Proof. unfold keyword. destruct key; [done|]. rewrite !andb_true_iff. intros (((?&?)&?)&?). done. Qed.

Lemma configLine_assign a b c d key value :
  blanks a = true -> blanks b = true -> blanks c = true -> blanks d = true -> keyword key = true ->
  trimmed value = true -> ascii_text value = true ->
  configLine (a ++ key ++ b ++ equalsSign :: c ++ value ++ d) = sets (Assign a b c d key value).
Proof.
  intros Ha Hb Hc Hd Hk Ht Hv. destruct (keyword_facts key Hk) as (Hne & Hkt & Hka & Hkq).
  assert (Heq : forall s, Cut (key ++ b ++ equalsSign :: s) = Some (key ++ b, s)).
  { intros s. unfold Cut. rewrite app_assoc.
    unfold equalsSign.
    destruct (cutEq_name (key ++ b) s) as [_ ->]; [|done]. by rewrite forallb_app, Hkq, blanks_noeq. }
  assert (Htail : exists s, TrimSpace (a ++ key ++ b ++ equalsSign :: c ++ value ++ d) =
      key ++ b ++ equalsSign :: s /\ TrimSpace s = value).
  { destruct value as [|x value].
    - exists []. split; [|done].
      replace (a ++ key ++ b ++ equalsSign :: c ++ [] ++ d) with (a ++ (key ++ b ++ [equalsSign]) ++ c ++ d)
        by (by rewrite <- !app_assoc).
      apply TrimSpace_blanks; [done|unfold blanks in *; by rewrite forallb_app, Hc, Hd|].
      by apply trimmed_mid.
    - exists (c ++ x :: value).
      split; [|pose proof (TrimSpace_blanks c (x :: value) []) as E; rewrite app_nil_r in E; auto].
      replace (a ++ key ++ b ++ equalsSign :: c ++ (x :: value) ++ d)
        with (a ++ (key ++ (b ++ [equalsSign] ++ c) ++ (x :: value)) ++ d) by (by rewrite <- !app_assoc).
      rewrite TrimSpace_blanks; [by rewrite <- !app_assoc|done..|]. by apply trimmed_mid. }
  destruct Htail as (s & E & Es). rewrite (configLine_at _ _ _ E Hk), Heq. cbn [mbind option_bind].
  cbv zeta. rewrite Es. replace (TrimSpace (key ++ b)) with key by (symmetry; by apply (TrimSpace_blanks [] key b)).
  cbn [sets]. rewrite !spells_ToLower by done. done.
Qed.

(** The last rune does not reach back over an ASCII byte. *)
Lemma DecodeLastRune_head b s :
  byteZ b < 128 -> s <> [] -> ((DecodeLastRune (b :: s)).2 <= length s)%nat.
Proof.
  intros Hb Hs. unfold DecodeLastRune. destruct (rev (b :: s)) as [|e l] eqn:E; [simpl; lia|].
  assert (Hl : (1 <= length s)%nat) by (destruct s; simpl; [done|lia]).
  destruct (byteZ e <? 128); [done|]. cbv zeta.
  set (back := Nat.min _ _). destruct (Nat.eq_dec back (length (b :: s))) as [Hbk|Hbk].
  - rewrite Hbk, Nat.sub_diag, drop_0, DecodeRune_ascii by done. simpl.
    destruct (length s) eqn:El; [lia|]. simpl. lia.
  - destruct (DecodeRune _) as [r size]. destruct (Nat.eqb_spec size back) as [->|]; [|simpl; lia]. simpl.
    pose proof (Nat.le_min_r (2 + lastStart 2 l) (length (b :: s))) as Hle. fold back in Hle.
    clearbody back. simpl in Hbk, Hle. lia.
Qed.

(** Trimming on the right keeps a first byte that is not a space. *)
Lemma trimRight_head fuel b s : solid b = true -> exists s', trimRight fuel (b :: s) = b :: s'.
Proof.
  intros Hb. unfold solid in Hb. apply andb_true_iff in Hb as [H1 H2]. apply Z.ltb_lt in H1. apply negb_true_iff in H2.
  revert s; induction fuel as [|fuel IH]; intros s; [by exists s|]. cbn [trimRight].
  destruct s as [|x s].
  - pose proof (DecodeLastRune_ascii b [] H1) as E. cbn [app] in E. rewrite E, H2. by exists [].
  - pose proof (DecodeLastRune_head b (x :: s) H1 ltac:(done)) as Hsz.
    destruct (DecodeLastRune (b :: x :: s)) as [r size]. destruct (IsSpace r); [|by eexists].
    cbn [length snd] in *. destruct (S (S (length s)) - size)%nat as [|n] eqn:E; [lia|]. cbn [take]. apply IH.
Qed.

Lemma configLine_comment a semicolon t : blanks a = true -> configLine (a ++ mark semicolon :: t) = None.
Proof.
  intros Ha. unfold configLine, TrimSpace. cbv zeta.
  rewrite trimLeft_blanks; [|done|rewrite length_app; simpl; lia|by destruct semicolon].
  destruct (trimRight_head (length (mark semicolon :: t)) (mark semicolon) t) as [s' ->]; by destruct semicolon.
Qed.

Lemma configLine_entry e : entry_ok e = true -> configLine (line e) = sets e.
Proof.
  unfold entry_ok. intros [_ H]%andb_true_iff. destruct e as [a b c d key value|a semicolon t|a]; simpl line.
  - rewrite !andb_true_iff in H. destruct H as ((((((?&?)&?)&?)&?)&?)&?). by apply configLine_assign.
  - by apply configLine_comment.
  - unfold configLine. pose proof (TrimSpace_blanks a [] []) as E. cbn [app] in E.
    rewrite app_nil_r in E. by rewrite E.
Qed.

Lemma scan_line cur l rest :
  forallb (fun b => negb (byteZ b =? 10)) l = true -> len cur + len l < MaxScanTokenSize ->
  scan cur (l ++ Byte.x0a :: rest) = dropCR (rev cur ++ l) :: scan [] rest.
Proof.
  revert cur; induction l as [|b l IH]; intros cur Hl Hn; cbn [app scan].
  - by rewrite app_nil_r.
  - cbn [forallb] in Hl. apply andb_true_iff in Hl as [Hb Hl]. apply negb_true_iff in Hb. rewrite Hb.
    cbn [length] in Hn. decide_guards. rewrite IH; [|done|cbn [length]; lia]. cbn [rev]. by rewrite <- app_assoc.
Qed.

Lemma dropCR_plain l : forallb plainByte l = true -> dropCR l = l /\ dropCR (l ++ [Byte.x0d]) = l.
Proof.
  intros H. split.
  - unfold dropCR. destruct l as [|b l _] using rev_ind; [done|]. rewrite rev_app_distr. simpl.
    rewrite forallb_app in H. apply andb_true_iff in H as [_ H]. cbn [forallb] in H. unfold plainByte in H.
    by destruct (byteZ b =? 13); [rewrite andb_false_r in H|].
  - unfold dropCR. rewrite rev_app_distr. simpl. apply rev_involutive.
Qed.

Lemma scan_entry e crlf rest :
  entry_ok e = true -> scan [] ((line e ++ eol crlf) ++ rest) = line e :: scan [] rest.
Proof.
  unfold entry_ok. intros [[Hp Hn]%andb_true_iff _]%andb_true_iff. apply Z.ltb_lt in Hn.
  destruct (dropCR_plain _ Hp) as [E1 E2].
  assert (Hl : forallb (fun b => negb (byteZ b =? 10)) (line e) = true).
  { rewrite forallb_forall in *. intros b Hb. specialize (Hp b Hb). unfold plainByte in Hp.
    by apply andb_true_iff in Hp as [? _]. }
  destruct crlf; cbn [eol].
  - replace ((line e ++ [Byte.x0d; Byte.x0a]) ++ rest) with ((line e ++ [Byte.x0d]) ++ Byte.x0a :: rest)
      by (by rewrite <- !app_assoc).
    rewrite scan_line; [cbn [rev]; by rewrite app_nil_l, E2|by rewrite forallb_app, Hl|].
    rewrite length_app. simpl. lia.
  - rewrite <- app_assoc. cbn [app]. rewrite scan_line; [cbn [rev]; by rewrite app_nil_l, E1|done|simpl; lia].
Qed.

(** The value of the switch after the entries, [b] before them. *)
Definition switched (es : list Entry) (b : bool) : bool := default b (last (omap sets es)).

Lemma set_official_set b b' c : set_official b (set_official b' c) = set_official b c.
Proof. done. Qed.

Lemma load_entries es c :
  Forall (fun e => entry_ok e = true) es ->
  foldl (fun c l => match configLine l with Some b => set_official b c | None => c end) c (line <$> es) =
  set_official (switched es (ac_UseOfficialFAF c)) c.
Proof.
  unfold switched. intros H. revert c. induction H as [|e es He Hes IH]; intros c; [by destruct c|].
  cbn [fmap list_fmap foldl omap list_omap]. rewrite configLine_entry by done.
  destruct (sets e) as [b|]; [|apply IH]. rewrite IH, set_official_set. f_equal. rewrite last_cons.
  by destruct (last _).
Qed.

Lemma load_config es c :
  Forall (fun e => entry_ok e.1 = true) es ->
  LoadConfigFile (Some (configText es)) c = set_official (switched es.*1 (ac_UseOfficialFAF c)) c.
Proof.
  intros H. unfold LoadConfigFile. rewrite <- load_entries by (by apply Forall_fmap).
  f_equal. unfold configText. induction H as [|[e crlf] es He Hes IH]; [done|].
  cbn [fmap list_fmap concat fst snd]. by rewrite scan_entry, IH.
Qed.

(** The configuration file means what is written in it.  For a file of
    comments, blank lines and assignments, with any blanks around key and
    value, letters of either case, and lines ending in LF or CRLF, loading it
    sets the switch to the value of its last assignment (true, 1 and yes are
    true, anything else false) and changes nothing else. *)
Theorem config_file_exact (es : list (Entry * bool)) (c : AdapterConfig) :
  Forall (fun e => entry_ok e.1 = true) es ->
  LoadConfigFile (Some (configText es)) c = set_official (switched es.*1 (ac_UseOfficialFAF c)) c.
Proof. apply load_config. Qed.

Definition demo_file : list (Entry * bool) :=
  [(Comment [] false (str_bytes " relay"), true); (Blank [Byte.x20], true);
   (Assign [Byte.x20] [Byte.x09] [Byte.x20] []
      (str_bytes "Use_official_FAF_connections_as_lobby_creator_host") (str_bytes "YES"), true)].

Lemma config_file_exact_witness :
  LoadConfigFile (Some (configText demo_file)) demo_run_cfg = set_official true demo_run_cfg.
Proof.
  rewrite (config_file_exact demo_file demo_run_cfg); [|repeat constructor]. reflexivity.
Defined.

(** ** The command line *)

(** The value a list of settings gives a flag: the last one, or the default. *)
Definition given (fs : FlagSet) (ss : list Setting) (n : string) : option Value :=
  match last (filter (fun s => st_name s = n) ss) with
  | Some s => Some (st_value s)
  | None => fs !! n
  end.

Lemma apply_all_given fs ss n : apply_all ss fs !! n = given fs ss n.
Proof.
  unfold given. revert fs; induction ss as [|s ss IH]; intros fs; [done|].
  change (apply_all (s :: ss) fs) with (apply_all ss (apply_setting fs s)). rewrite IH. unfold apply_setting.
  destruct (decide (st_name s = n)) as [<-|Hn].
  - rewrite filter_cons_True by done. rewrite last_cons, lookup_insert_eq. by destruct (last _).
  - rewrite filter_cons_False by done. by rewrite lookup_insert_ne.
Qed.

Definition asInt (v : option Value) : Z := match v with Some (VInt z) => z | _ => 0 end.
Definition asBool (v : option Value) : bool := match v with Some (VBool b) => b | _ => false end.
Definition asString (v : option Value) : string := match v with Some (VString s) => s | _ => "" end.

(** The configuration that settings ask for. *)
Definition askedConfig (d : Defaults) (ss : list Setting) : AdapterConfig :=
  let g := given (adapterFlags d) ss in
  MkAC (asInt (g "id")) (asInt (g "game-id")) (asString (g "login")) (asInt (g "rpc-port"))
    (asInt (g "gpgnet-port")) (asInt (g "lobby-port")) (asString (g "relay-server"))
    (asString (g "relay-tcp")) (asString (g "relay-http")) (asString (g "api-key"))
    (asBool (g "tcp-fallback")) (asBool (g "force-tcp")) (asBool (g "debug-window") || asBool (g "info-window"))
    false.

Lemma adapterConfig_asked d ss : adapterConfig (apply_all ss (adapterFlags d)) = askedConfig d ss.
Proof.
  unfold adapterConfig, intFlag, boolFlag, stringFlag. by rewrite !apply_all_given.
Qed.

(** The command line of the adapter.  Settings for its flags, in any
    number and order and in any of the three spellings, give the configuration
    they ask for: of several settings of one flag the last one, the default for
    a flag that is not given, and the switch of the configuration file.  The
    process ends with status 1 exactly when no player id or no login is
    given. *)
Theorem command_line_exact (d : Defaults) (ss : list Setting) (file : option bytes) :
  forallb (setting_ok (adapterFlags d)) ss = true ->
  adapterMain d (concat (render <$> ss)) file =
    if (PlayerID (askedConfig d ss) =? 0) || bool_decide (Login (askedConfig d ss) = "") then Err 1
    else Ok (LoadConfigFile file (askedConfig d ss)).
Proof.
  intros H. unfold adapterMain. rewrite <- (app_nil_r (concat _)), Parse_settings by done.
  cbn [Parse]. by rewrite adapterConfig_asked, <- adapterConfig_asked.
Qed.

(** A flag the adapter does not know ends the process with status 2, whatever
    valid settings come before and whatever follows. *)
Theorem unknown_flag_exits (d : Defaults) (ss : list Setting) (name : string) (rest : list string)
    (file : option bytes) :
  forallb (setting_ok (adapterFlags d)) ss = true ->
  adapterFlags d !! name = None -> name_ok name = true -> name <> "help" -> name <> "h" ->
  adapterMain d (concat (render <$> ss) ++ ("--" +:+ name) :: rest) file = Err 2.
Proof.
  intros H Hn Ho H1 H2. unfold adapterMain. rewrite Parse_settings by done. cbn [Parse].
  rewrite classify_dashes, apply_all_given by done. unfold given.
  destruct (last (filter _ ss)) as [s|] eqn:E.
  - exfalso. assert (Hin : s ∈ filter (fun s => st_name s = name) ss) by (apply last_Some_elem_of; exact E).
    apply list_elem_of_filter in Hin as [<- Hin]. apply list_elem_of_In in Hin. rewrite forallb_forall in H.
    specialize (H s Hin). unfold setting_ok in H. by rewrite Hn in H.
  - rewrite Hn. by rewrite !bool_decide_false.
Qed.

(** The server's flags. *)
Theorem server_line_exact (ss : list Setting) :
  forallb (setting_ok serverFlags) ss = true ->
  serverMain (concat (render <$> ss)) =
    let g n := asString (given serverFlags ss n) in
    Ok (MkServerConfig (g "udp-addr") (g "tcp-addr") (g "http-addr") (g "api-key") (g "tls-cert") (g "tls-key") 0 0).
Proof.
  intros H. unfold serverMain. rewrite <- (app_nil_r (concat _)), Parse_settings by done.
  cbn [Parse]. unfold stringFlag. by rewrite !apply_all_given.
Qed.

Definition demo_settings : list Setting :=
  [MkSetting Separate "id" (VInt 5); MkSetting Equals "login" (VString "a=b"); MkSetting Bare "force-tcp" (VBool true);
   MkSetting Equals "tcp-fallback" (VBool false); MkSetting Separate "id" (VInt 7)].

Lemma command_line_exact_witness :
  adapterMain sourceDefaults ["--id"; "5"; "-login=a=b"; "--force-tcp"; "-tcp-fallback=false"; "--id"; "7"] None =
  Ok (MkAC 7 0 "a=b" 7236 0 0 "91.134.10.126:10000" "91.134.10.126:443" "http://91.134.10.126:8080" defaultKey
        false true false false).
Proof.
  change (_ :: _) with (concat (render <$> demo_settings)).
  rewrite (command_line_exact sourceDefaults demo_settings None); [|vm_compute; reflexivity].
  vm_compute. reflexivity.
Defined.

Lemma unknown_flag_exits_witness :
  adapterMain sourceDefaults ["--id"; "7"; "--new-flag"; "1"; "-login=me"] None = Err 2.
Proof.
  change (_ :: _) with (concat (render <$> [MkSetting Separate "id" (VInt 7)]) ++
                        ("--" +:+ "new-flag") :: ["1"; "-login=me"]).
  rewrite (unknown_flag_exits sourceDefaults); [reflexivity|vm_compute; reflexivity..|done|done].
Defined.

(** C21. From the files and arguments to the running adapter.  With a player id
    and a login on the command line, a configuration file, and an operating
    system that opens what is asked for, the process gets to wait for its work;
    it registers with the relay unless the file's last assignment switches
    to the official connections, and in that case the receive loop may start at
    once. *)
Theorem process_starts (d : Defaults) (ss : list Setting) (es : list (Entry * bool))
    (logOk : bool) (relay lobby gpg rpc dbg nop : Answer) :
  forallb (setting_ok (adapterFlags d)) ss = true -> Forall (fun e => entry_ok e.1 = true) es ->
  PlayerID (askedConfig d ss) <> 0 -> Login (askedConfig d ss) <> "" ->
  an_ok relay = true -> an_ok lobby = true -> an_ok gpg = true -> an_ok rpc = true ->
  exists c s, adapterMain d (concat (render <$> ss)) (Some (configText es)) = Ok c /\
    aRun (startEvents relay lobby gpg rpc dbg nop) (newAdapter c logOk) = Ret s /\ ar_pc s = AWait /\
    ar_registering s = negb (switched es.*1 false) /\
    RelayConn.transportReady (Transport.w_rc (ar_w s)) = Some (switched es.*1 false) /\
    RelayConn.relayAddr (Transport.w_rc (ar_w s)) = an_addr relay.
Proof.
  intros Hss Hes Hid Hlog H1 H2 H3 H4.
  set (c := set_official (switched es.*1 false) (askedConfig d ss)).
  destruct (startup_exact c logOk relay lobby gpg rpc dbg nop) as (s & E & H). exists c, s.
  rewrite H1, H2, H3, H4, andb_false_r in H. cbn [negb] in H. destruct H as (Hp & _ & _ & Hr & Ht & Ha).
  split; [|done]. unfold adapterMain. rewrite <- (app_nil_r (concat _)), Parse_settings by done.
  cbn [Parse]. rewrite adapterConfig_asked.
  change (intFlag _ "id") with (PlayerID (adapterConfig (apply_all ss (adapterFlags d)))).
  change (stringFlag _ "login") with (Login (adapterConfig (apply_all ss (adapterFlags d)))).
  rewrite adapterConfig_asked, (proj2 (Z.eqb_neq _ _) Hid), bool_decide_false by done.
  cbn [orb]. f_equal. by apply load_config.
Qed.

Lemma process_starts_witness :
  exists c s, adapterMain sourceDefaults (concat (render <$> demo_settings)) (Some (configText demo_file)) = Ok c /\
    aRun (startEvents demo_answer demo_answer demo_answer demo_answer demo_answer demo_answer) (newAdapter c true) =
      Ret s /\ ar_pc s = AWait /\ ar_registering s = false /\
    RelayConn.transportReady (Transport.w_rc (ar_w s)) = Some true /\
    RelayConn.relayAddr (Transport.w_rc (ar_w s)) = AddrPort_zero.
Proof.
  apply (process_starts sourceDefaults demo_settings demo_file true demo_answer demo_answer demo_answer demo_answer
    demo_answer demo_answer); [vm_compute; reflexivity|repeat constructor|vm_compute; discriminate..|reflexivity|
    reflexivity|reflexivity|reflexivity].
Defined.
