(* ===== verification/Status.v ===== *)
(** * [internal/adapter/status.go]: the status report

    [BuildStatus] lists the relay peers and the ICE peers, in the order of the
    maps they are kept in, and sorts the list by insertion order. *)

From Stdlib Require Import Sorted.
From stdpp Require Import sorting.
From S2P Require Import Prelude GoLib GPGNet RelayWire TcpFrame RelayConn Peer PeerMgr GpgNetServer.
From S2P Require Import IcePeer IceRestart RpcHandler GoText Json IceText.

(** ** [sort.Slice]

    An unspecified algorithm that is not stable: any function that permutes
    the list and sorts it by the key. *)
Record Sorter := {
  srt :> forall A : Type, (A -> Z) -> list A -> list A;
  srt_perm : forall (A : Type) (key : A -> Z) (l : list A), srt A key l ≡ₚ l;
  srt_sorted : forall (A : Type) (key : A -> Z) (l : list A),
    StronglySorted (fun x y => key x <= key y) (srt A key l);
}.
Arguments srt _ {A} key l : rename.

(** ** The report *)

Record StatusRelayICE := MkStICE {
  st_Offerer : bool; st_State : string; GatheringState : string; DatachannelState : string;
  st_Connected : bool; st_ConnectedMs : Z; LocCandAddr : string; RemCandAddr : string;
  st_LocCandType : string; st_RemCandType : string; TimeToConnected : bytes;   (* a number's text *)
  st_RttMs : Z; st_RttEstimated : bool; st_Dedicated : bool; st_Transport : string }.
Record StatusRelay := MkStRelay {
  RemotePlayerID : Z; RemotePlayerLogin : string; LocalGameUDPPort : Z; addedOrder : Z;
  st_ICE : StatusRelayICE }.
Record StatusOptions := MkStOptions {
  st_PlayerID : Z; st_PlayerLogin : string; st_RPCPort : Z; st_GPGNetPort : Z }.
Record StatusGPGPNet := MkStGPG {
  st_LocalPort : Z; st_GameConnected : bool; st_GameState : string; TaskString : string }.
Record StatusResponse := MkStatus {
  Version : string; IceServersSize : Z; st_LobbyPort : Z; InitMode : string; Options : StatusOptions;
  GPGPNet : StatusGPGPNet; Relays : list StatusRelay; RelayConnected : bool }.

(** What the report reads outside the state of the handlers: the ports of the
    sockets and of the adapter's servers, the clock, the agents' statistics and
    selected pairs. *)
Record StatusEnv := MkStEnv {
  se_port : nat -> Z;
  se_lobbyPort : Z; se_rpcPort : Z; se_gpgnetPort : Z;
  se_now : Z;
  se_stats : nat -> option PairStats;
  se_pair : nat -> option CandPair;
}.

Definition orUnknown (s : string) : string := if bool_decide (s = "") then "unknown" else s.

Definition relayRow (env : StatusEnv) (rc : RelayConnection) (peer : Peer) : StatusRelay :=
  MkStRelay (PlayerID peer) (p_Login peer) (se_port env (p_conn peer)) (AddedOrder peer)
    (MkStICE false "Connected" "" "" true 0 "" "" "relay" "relay" (str_bytes "0") (RttMs peer (Some rc)) true
       true (Transport rc)).

Definition iceRow (env : StatusEnv) (peer : ICEPeer) : StatusRelay :=
  let state := ICEState peer in
  let iceConnected := bool_decide (state = "Connected") in
  let '(locType, remType) := SelectedCandTypes (se_pair env (ip_ptr peer)) peer in
  let connAt := connectedAt (ip_dyn peer) in
  let connectedMs := if iceConnected && negb (Time.IsZero connAt)
                     then Z.quot (Time.Sub (se_now env) connAt) Time.Millisecond else 0 in
  MkStRelay (ip_PlayerID peer) (ip_Login peer) (se_port env (ip_conn peer)) (ip_AddedOrder peer)
    (MkStICE (ip_Offerer peer) state "" "" iceConnected connectedMs "" "" (orUnknown locType)
       (orUnknown remType) (str_bytes "0") (iceRttMs (se_stats env (ip_ptr peer)) peer) true false
       (SelectedTransport (se_pair env (ip_ptr peer)) peer)).

(** The rows before sorting. *)
Definition statusRows (ρ : Shuffle) (env : StatusEnv) (rc : RelayConnection) (pm : PeerManager)
    : list StatusRelay :=
  (relayRow env rc <$> GetAllPeers ρ pm) ++ (iceRow env <$> GetAllICEPeers ρ pm).

Definition BuildStatus (ρ : Shuffle) (srt : Sorter) (env : StatusEnv) (rc : RelayConnection)
    (a : Adapter) : StatusResponse :=
  MkStatus "faf-udp-relay-0.1.0" (len (ad_iceServers a)) (se_lobbyPort env)
    (if ad_mode a =? 1 then "auto" else "normal")
    (MkStOptions (cfg_playerID (ad_cfg a)) (cfg_login (ad_cfg a)) (se_rpcPort env) (se_gpgnetPort env))
    (MkStGPG (se_gpgnetPort env) (connected (ad_gpg a)) (gameState (ad_gpg a)) "-")
    (srt _ addedOrder (statusRows ρ env rc (ad_pm a)))
    (IsHealthy (se_now env) rc).

(** ** The text of the report *)

Definition iceJSON (i : StatusRelayICE) : JSON := JObj
  [(B "offerer", JBool (st_Offerer i)); (B "state", jstr (st_State i));
   (B "gathering_state", jstr (GatheringState i)); (B "datachannel_state", jstr (DatachannelState i));
   (B "connected", JBool (st_Connected i)); (B "connected_ms", jint (st_ConnectedMs i));
   (B "loc_cand_addr", jstr (LocCandAddr i)); (B "rem_cand_addr", jstr (RemCandAddr i));
   (B "loc_cand_type", jstr (st_LocCandType i)); (B "rem_cand_type", jstr (st_RemCandType i));
   (B "time_to_connected", JNum (TimeToConnected i)); (B "rtt_ms", jint (st_RttMs i));
   (B "rtt_estimated", JBool (st_RttEstimated i)); (B "dedicated", JBool (st_Dedicated i));
   (B "transport", jstr (st_Transport i))].
Definition relayJSON (r : StatusRelay) : JSON := JObj
  [(B "remote_player_id", jint (RemotePlayerID r)); (B "remote_player_login", jstr (RemotePlayerLogin r));
   (B "local_game_udp_port", jint (LocalGameUDPPort r)); (B "ice", iceJSON (st_ICE r))].
Definition statusJSON (s : StatusResponse) : JSON := JObj
  [(B "version", jstr (Version s)); (B "ice_servers_size", jint (IceServersSize s));
   (B "lobby_port", jint (st_LobbyPort s)); (B "init_mode", jstr (InitMode s));
   (B "options", JObj [(B "player_id", jint (st_PlayerID (Options s)));
      (B "player_login", jstr (st_PlayerLogin (Options s))); (B "rpc_port", jint (st_RPCPort (Options s)));
      (B "gpgnet_port", jint (st_GPGNetPort (Options s)))]);
   (B "gpgpnet", JObj [(B "local_port", jint (st_LocalPort (GPGPNet s)));
      (B "connected", JBool (st_GameConnected (GPGPNet s))); (B "game_state", jstr (st_GameState (GPGPNet s)));
      (B "task_string", jstr (TaskString (GPGPNet s)))]);
   (B "relays", JArr (relayJSON <$> Relays s)); (B "relay_connected", JBool (RelayConnected s))].

(** The result of the [status] request and the body of [/api/status]. *)
Definition statusText (s : StatusResponse) : bytes := Marshal (statusJSON s).

(** ** Lemmas *)

(** Sorting by a key without duplicates has only one result. *)
Lemma sorted_unique {A} (key : A -> Z) (l1 l2 : list A) :
  StronglySorted (fun x y => key x <= key y) l1 -> StronglySorted (fun x y => key x <= key y) l2 ->
  l1 ≡ₚ l2 -> NoDup (key <$> l1) -> l1 = l2.
Proof.
  revert l2. induction l1 as [|x l1 IH]; intros l2 H1 H2 Hp Hn.
  { by apply Permutation_nil_l in Hp. }
  destruct l2 as [|y l2]; [by apply symmetry, Permutation_nil_l in Hp|].
  apply StronglySorted_inv in H1 as [H1 Hx]. apply StronglySorted_inv in H2 as [H2 Hy].
  simpl in Hn. apply NoDup_cons in Hn as [Hni Hn].
  assert (x = y) as ->.
  { assert (Hxin : x ∈ y :: l2) by (rewrite <- Hp; left).
    assert (Hyin : y ∈ x :: l1) by (rewrite Hp; left).
    apply elem_of_cons in Hxin as [?|Hxin], Hyin as [?|Hyin]; try done.
    rewrite Forall_forall in Hx, Hy. apply Hy in Hxin as E1. apply Hx in Hyin as E2.
    exfalso. apply Hni, list_elem_of_fmap. exists y. split; [lia|done]. }
  f_equal. apply IH; try done. by apply Permutation_cons_inv in Hp.
Qed.

Lemma statusRows_orders ρ env rc pm :
  addedOrder <$> statusRows ρ env rc pm ≡ₚ (holders pm).*2.
Proof.
  unfold statusRows, GetAllPeers, GetAllICEPeers, holders. rewrite !fmap_app.
  apply Permutation_app; rewrite <- !list_fmap_compose.
  - rewrite (shuf_perm ρ). done.
  - rewrite (shuf_perm ρ). apply Permutation_refl'. apply list_fmap_ext. intros i [id p] _. simpl.
    unfold iceRow. by destruct (SelectedCandTypes _ _).
Qed.

Lemma statusRows_shuffle ρ1 ρ2 env rc pm :
  statusRows ρ1 env rc pm ≡ₚ statusRows ρ2 env rc pm.
Proof.
  unfold statusRows, GetAllPeers, GetAllICEPeers.
  apply Permutation_app; by rewrite (shuf_perm ρ1), (shuf_perm ρ2).
Qed.

(** ** Theorem *)

(** The report does not depend on the iteration order of the maps or on
    how the unstable sort breaks ties.  In every adapter the client's requests
    can lead to, two reports made with different orders are equal, their rows
    are one per peer, and they are strictly in insertion order. *)
Theorem status_deterministic (cfg : Config) (g : GPGNetServer) (a : Adapter) (ρ1 ρ2 : Shuffle)
    (s1 s2 : Sorter) (env : StatusEnv) (rc : RelayConnection) :
  rtc adapter_step (NewAdapter cfg g) a ->
  BuildStatus ρ1 s1 env rc a = BuildStatus ρ2 s2 env rc a /\
  Relays (BuildStatus ρ1 s1 env rc a) ≡ₚ statusRows id_shuffle env rc (ad_pm a) /\
  StronglySorted Z.lt (addedOrder <$> Relays (BuildStatus ρ1 s1 env rc a)).
Proof.
  intros Hr. apply (rtc_invariant _ _ adapter_ok_step) in Hr as [Hpm _ _]; [|apply adapter_ok_new].
  assert (Hn : forall ρ (s : Sorter), NoDup (addedOrder <$> s _ addedOrder (statusRows ρ env rc (ad_pm a)))).
  { intros ρ s. rewrite (srt_perm s), statusRows_orders. apply Hpm. }
  split_and!.
  - unfold BuildStatus. f_equal. apply (sorted_unique addedOrder); try apply srt_sorted; [|apply Hn].
    rewrite !srt_perm. apply statusRows_shuffle.
  - simpl. rewrite srt_perm. apply statusRows_shuffle.
  - simpl. specialize (Hn ρ1 s1).
    pose proof (srt_sorted s1 _ addedOrder (statusRows ρ1 env rc (ad_pm a))) as Hs. revert Hs Hn.
    generalize (s1 _ addedOrder (statusRows ρ1 env rc (ad_pm a))). intros l.
    induction l as [|x l IH]; intros Hs Hn; [constructor|].
    apply StronglySorted_inv in Hs as [Hs Hx]. simpl in Hn. apply NoDup_cons in Hn as [Hni Hn].
    constructor; [by apply IH|]. apply Forall_fmap, Forall_forall. intros y Hy. simpl.
    rewrite Forall_forall in Hx. specialize (Hx y Hy).
    assert (addedOrder x <> addedOrder y); [|lia]. intros E. apply Hni. rewrite E.
    by apply list_elem_of_fmap_2.
Qed.

(** Merge sort is such a sorter. *)
Definition key_le {A} (key : A -> Z) : relation A := fun x y => key x <= key y.
#[export] Instance key_le_dec {A} (key : A -> Z) : RelDecision (key_le key).
Proof. intros x y. unfold key_le. apply _. Defined.
#[export] Instance key_le_total {A} (key : A -> Z) : Total (key_le key).
Proof. intros x y. unfold key_le. lia. Qed.
#[export] Instance key_le_trans {A} (key : A -> Z) : Transitive (key_le key).
Proof. intros x y z. unfold key_le. lia. Qed.
Definition merge_sorter : Sorter := {|
  srt := fun A key l => merge_sort (key_le key) l;
  srt_perm := fun A key l => merge_sort_Permutation (key_le key) l;
  srt_sorted := fun A key l => StronglySorted_merge_sort (key_le key) l;
|}.

(** A host with a relay peer for player 8 and one for player 9. *)
Definition demo_two : Adapter :=
  run_requests [(demo_env, MkRpc "connectToPeer" (connect_args 9 true));
                (demo_env, MkRpc "connectToPeer" (connect_args 8 true))] (hosting false).
Definition demo_status_env : StatusEnv :=
  MkStEnv (fun s => 5000 + Z.of_nat s) 6112 7236 7237 0 (fun _ => None) (fun _ => None).

Lemma status_deterministic_witness :
  let rc := NewRelayConnection AddrPort_zero 7 in
  BuildStatus id_shuffle merge_sorter demo_status_env rc demo_two =
  BuildStatus rev_shuffle merge_sorter demo_status_env rc demo_two /\
  Relays (BuildStatus id_shuffle merge_sorter demo_status_env rc demo_two) ≡ₚ
    statusRows id_shuffle demo_status_env rc (ad_pm demo_two) /\
  StronglySorted Z.lt
    (addedOrder <$> Relays (BuildStatus id_shuffle merge_sorter demo_status_env rc demo_two)).
Proof.
  intros rc. apply (status_deterministic (demo_cfg false) NewGPGNetServer demo_two).
  eapply rtc_l; [apply (as_request demo_env host_req)|].
  eapply rtc_l; [apply (as_request demo_env (MkRpc "connectToPeer" (connect_args 9 true)))|].
  apply rtc_once, (as_request demo_env (MkRpc "connectToPeer" (connect_args 8 true))).
Defined.

Example status_order :
  RemotePlayerID <$> Relays (BuildStatus rev_shuffle merge_sorter demo_status_env
    (NewRelayConnection AddrPort_zero 7) demo_two) = [9; 8].
Proof. reflexivity. Qed.

(** Strings the encoder does not have to repair. *)
Definition plain (s : string) : Prop := valid_utf8 (str_bytes s).
Definition row_ok (r : StatusRelay) : Prop :=
  let i := st_ICE r in
  plain (RemotePlayerLogin r) /\ plain (st_State i) /\ plain (GatheringState i) /\
  plain (DatachannelState i) /\ plain (LocCandAddr i) /\ plain (RemCandAddr i) /\ plain (st_LocCandType i) /\
  plain (st_RemCandType i) /\ plain (st_Transport i) /\ valid_num (TimeToConnected i) = true.
Definition report_ok (s : StatusResponse) : Prop :=
  plain (Version s) /\ plain (InitMode s) /\ plain (st_PlayerLogin (Options s)) /\
  plain (st_GameState (GPGPNet s)) /\ plain (TaskString (GPGPNet s)) /\ Forall row_ok (Relays s).

Lemma wf_row r : row_ok r -> wf (relayJSON r).
Proof.
  unfold row_ok, plain. cbv zeta. intros. destruct_and!.
  cbn -[valid_utf8 valid_num]. split_and!; try done; try apply Itoa_valid; apply valid_ascii;
    repeat constructor.
Qed.

(** The text of a report is JSON that reads back as the report. *)
Theorem status_reads_back (s : StatusResponse) :
  report_ok s -> Unmarshal (statusText s) = Some (statusJSON s).
Proof.
  unfold report_ok, plain. intros. destruct_and!. apply unmarshal_marshal.
  - cbn -[valid_utf8 valid_num relayJSON]. split_and!; try done; try apply Itoa_valid;
      try (apply valid_ascii; by repeat constructor).
    match goal with H : Forall row_ok _ |- _ => induction H as [|r l Hr Hl IH] end; [done|]. simpl.
    split; [by apply wf_row|done].
  - assert (Hh : foldr (fun x d => Z.max (height x) d) 0 (relayJSON <$> Relays s) <= 2).
    { generalize (Relays s). induction l as [|r l IH]; cbn [fmap list_fmap foldr]; [lia|].
      assert (height (relayJSON r) <= 2) by (cbn; lia). lia. }
    unfold statusJSON, maxNestingDepth. cbn [height foldr snd jstr jint] in *. lia.
Qed.

(** ASCII text is enough, and easy to check. *)
Definition asciib (s : string) : bool := forallb (fun b => byteZ b <? 128) (str_bytes s).
Definition row_okb (r : StatusRelay) : bool :=
  let i := st_ICE r in
  forallb asciib [RemotePlayerLogin r; st_State i; GatheringState i; DatachannelState i; LocCandAddr i;
                  RemCandAddr i; st_LocCandType i; st_RemCandType i; st_Transport i] &&
  valid_num (TimeToConnected i).
Definition report_okb (s : StatusResponse) : bool :=
  forallb asciib [Version s; InitMode s; st_PlayerLogin (Options s); st_GameState (GPGPNet s);
                  TaskString (GPGPNet s)] && forallb row_okb (Relays s).

Lemma asciib_plain s : asciib s = true -> plain s.
Proof.
  unfold asciib. intros H. apply valid_ascii, Forall_forall. intros b Hb. rewrite forallb_forall in H.
  apply Z.ltb_lt, H. by apply list_elem_of_In.
Qed.
Lemma row_okb_ok r : row_okb r = true -> row_ok r.
Proof.
  unfold row_okb, row_ok. cbv zeta. cbn [forallb]. rewrite !andb_true_iff. intros.
  destruct_and!. split_and!; try done; by apply asciib_plain.
Qed.
Lemma report_okb_ok s : report_okb s = true -> report_ok s.
Proof.
  unfold report_okb, report_ok. cbn [forallb]. rewrite !andb_true_iff. intros.
  destruct_and!. split_and!; try (by apply asciib_plain). apply Forall_forall. intros r Hr.
  apply row_okb_ok. apply list_elem_of_In in Hr.
  match goal with H : forallb row_okb _ = true |- _ => rewrite forallb_forall in H; by apply H end.
Qed.

Lemma status_reads_back_witness :
  let s := BuildStatus id_shuffle merge_sorter demo_status_env (NewRelayConnection AddrPort_zero 7) demo_two in
  Unmarshal (statusText s) = Some (statusJSON s).
Proof. intros s. apply (status_reads_back s), report_okb_ok. vm_compute. reflexivity. Defined.
