(* ===== verification/DebugServer.v ===== *)
(** * [internal/adapter/debugserver.go]: the debug page

    The three handlers of the page and [ForceICEReconnect]: the status report
    of [Status], the button that restarts the ICE connection to a player, whose
    callback is the one of [IceRestart], and the page itself. *)

From stdpp Require Import pretty.
From S2P Require Import Prelude GoLib GoText Json PeerMgr IcePeer IceRestart RpcHandler RelayConn HttpApi Status.
From S2P Require Import Flags.

(** ** [url.ParseQuery] *)

Fixpoint unescape (s : bytes) : option bytes :=
  match s with
  | [] => Some []
  | b :: s' =>
      if byteZ b =? 37 then
        match s' with
        | x :: y :: r =>
            hi ← hexVal x; lo ← hexVal y; t ← unescape r; Some (Zbyte (hi * 16 + lo) :: t)
        | _ => None
        end
      else cons (if byteZ b =? 43 then Byte.x20 else b) <$> unescape s'
  end.

Fixpoint splitAmp (cur s : bytes) : list bytes :=
  match s with
  | [] => [rev cur]
  | b :: s' => if byteZ b =? 38 then rev cur :: splitAmp [] s' else splitAmp (b :: cur) s'
  end.

Definition queryPair (p : bytes) : option (bytes * bytes) :=
  if existsb (fun b => byteZ b =? 59) p then None
  else match p with
       | [] => None
       | _ => let '(k, v) := cutEq p in
              k ← unescape k; v ← unescape (default [] v); Some (k, v)
       end.
Definition ParseQuery (q : bytes) : list (bytes * bytes) := omap queryPair (splitAmp [] q).
(** [Values.Get] *)
Definition QueryGet (name : string) (q : bytes) : bytes :=
  default [] (snd <$> head (filter (fun kv => kv.1 = str_bytes name) (ParseQuery q))).

(** ** The handlers *)

Record DebugRequest := MkDebugReq { dr_method : Method; dr_path : string; dr_query : bytes }.

Inductive DebugBody := BStatus (r : StatusResponse) | BPage | BText (s : string) | BNothing.
Record DebugResponse := MkDebugResp { d_status : Z; d_body : DebugBody }.

(** The error says that there is no ICE peer; otherwise what the peer does. *)
Definition ForceICEReconnect (playerID : Z) (a : Adapter) : result string (list IceAction) :=
  match GetICEPeer playerID (ad_pm a) with
  | None => Err ("no ICE peer for player " +:+ pretty playerID)
  | Some icePeer => Ok (ForceRestart icePeer)
  end.

Definition handleReconnect (r : DebugRequest) (a : Adapter) : DebugResponse * option (Z * list IceAction) :=
  if negb (bool_decide (dr_method r = POST)) then (MkDebugResp 405 (BText "method not allowed"), None)
  else
    match Atoi (QueryGet "player_id" (dr_query r)) with
    | None => (MkDebugResp 400 (BText "invalid player_id"), None)
    | Some pid =>
        if pid <=? 0 then (MkDebugResp 400 (BText "invalid player_id"), None)
        else match ForceICEReconnect pid a with
             | Err msg => (MkDebugResp 404 (BText msg), None)
             | Ok acts => (MkDebugResp 204 BNothing, Some (pid, acts))
             end
    end.

(** [http.ServeMux] with the three patterns of [NewDebugServer]; the second
    result: the peer that is told to restart, with its actions. *)
Definition debugServe (ρ : Shuffle) (srt : Sorter) (env : StatusEnv) (rc : RelayConnection) (r : DebugRequest)
    (a : Adapter) : DebugResponse * option (Z * list IceAction) :=
  if negb (bool_decide (dr_method r = OtherMethod "CONNECT")) && negb (canonical (dr_path r))
  then (MkDebugResp 301 BNothing, None)
  else if bool_decide (dr_path r = "/api/status")
  then (MkDebugResp 200 (BStatus (BuildStatus ρ srt env rc a)), None)
  else if bool_decide (dr_path r = "/api/reconnect") then handleReconnect r a
  else (MkDebugResp 200 BPage, None).

(** ** Lemmas *)

(** Text that needs no escapes. *)
Definition plain_query (b : byte) : bool :=
  negb (byteZ b =? 37) && negb (byteZ b =? 38) && negb (byteZ b =? 43) && negb (byteZ b =? 59) &&
  negb (byteZ b =? 61).

Lemma unescape_plain s : forallb plain_query s = true -> unescape s = Some s.
Proof.
  induction s as [|b s IH]; [done|]. cbn [forallb unescape]. intros [Hb Hs]%andb_true_iff.
  unfold plain_query in Hb. rewrite !andb_true_iff, !negb_true_iff in Hb. destruct Hb as ((((H1&_)&H2)&_)&_).
  by rewrite H1, H2, IH.
Qed.

Lemma splitAmp_plain cur s : forallb (fun b => negb (byteZ b =? 38)) s = true -> splitAmp cur s = [rev cur ++ s].
Proof.
  revert cur; induction s as [|b s IH]; intros cur; [by rewrite app_nil_r|]. cbn [forallb splitAmp].
  intros [Hb Hs]%andb_true_iff. apply negb_true_iff in Hb. rewrite Hb, IH by done. cbn [rev].
  by rewrite <- app_assoc.
Qed.

Lemma Itoa_plain z : forallb plain_query (Itoa z) = true.
Proof.
  assert (Hd : forall l, Forall is_digitb l -> forallb plain_query l = true).
  { intros l Hl. apply forallb_forall. intros b Hb. apply list_elem_of_In in Hb.
    rewrite Forall_forall in Hl. specialize (Hl b Hb). unfold is_digitb, plain_query in *. lia. }
  assert (Hpos : forall p, forallb plain_query (str_bytes (pretty (N.pos p))) = true).
  { intros p. destruct (pretty_N_go_digits (N.pos p) "" ltac:(lia)) as (b & l & E & Hb & Hl).
    unfold pretty, pretty_N. rewrite decide_False by lia. rewrite E. apply Hd. constructor; [unfold is_digitb; lia|].
    by rewrite app_nil_r. }
  unfold Itoa. destruct z as [|p|p]; [done|apply Hpos|].
  change (pretty (Z.neg p)) with (String (Ascii.ascii_of_byte Byte.x2d) (pretty (N.pos p))).
  rewrite str_bytes_cons. cbn [forallb]. rewrite Hpos. done.
Qed.

Lemma QueryGet_itoa name z :
  forallb plain_query (str_bytes name) = true -> str_bytes name <> [] ->
  QueryGet name (str_bytes name ++ Byte.x3d :: Itoa z) = Itoa z.
Proof.
  intros Hn Hne. pose proof (Itoa_plain z) as Hz.
  assert (Hw : forall (f : byte -> bool) l, (forall b, plain_query b = true -> f b = true) ->
                 forallb plain_query l = true -> forallb f l = true).
  { intros f l Hf. rewrite !forallb_forall. auto. }
  unfold QueryGet, ParseQuery. rewrite splitAmp_plain.
  2: { rewrite forallb_app. cbn [forallb].
       rewrite (Hw _ (str_bytes name)), (Hw _ (Itoa z)); [done|..]; unfold plain_query; try done; lia. }
  cbn [rev app omap list_omap]. unfold queryPair.
  replace (existsb _ _) with false.
  2: { symmetry. apply not_true_is_false. rewrite existsb_exists. intros (b & Hb & H59).
       apply in_app_or in Hb as [Hb|[<-|Hb]]; [|done|].
       - rewrite forallb_forall in Hn. specialize (Hn b Hb). unfold plain_query in Hn. lia.
       - rewrite forallb_forall in Hz. specialize (Hz b Hb). unfold plain_query in Hz. lia. }
  destruct (str_bytes name) as [|c n] eqn:E; [done|]. cbn [app].
  destruct (cutEq_name (c :: n) (Itoa z)) as [_ Ec]; [apply Hw; [unfold plain_query; lia|done]|].
  cbn [app] in Ec. rewrite Ec, (unescape_plain (c :: n)) by done. cbn [mbind option_bind default from_option id].
  rewrite unescape_plain by done. cbn [mbind option_bind]. rewrite filter_cons_True by done. done.
Qed.

(** A manual restart is never refused: it resets the failure counter and goes
    on to replace the peer at once. *)
Lemma manual_replaces playerID pid now w :
  exists snap, (cbBegin playerID pid manualMsg now w).2 = [PReplace snap manualMsg] /\
    consecutiveFailures (w_clo (cbBegin playerID pid manualMsg now w).1) = 1.
Proof.
  unfold cbBegin, cbProtected. cbn [Manual manualMsg]. destruct (stableAfter <=? _); by eexists.
Qed.

(** The reconnect button.  A request to the debug server touches a peer
    exactly when it is a POST to [/api/reconnect] whose [player_id] is the
    number of a player with an ICE peer; then it is answered 204 and starts one
    manual restart of that peer, which the limit on restarts never refuses. *)
Theorem debug_reconnect_exact (ρ : Shuffle) (srt : Sorter) (env : StatusEnv) (rc : RelayConnection)
    (r : DebugRequest) (a : Adapter) (pid : Z) (acts : list IceAction) :
  ((debugServe ρ srt env rc r a).2 = Some (pid, acts) <->
     dr_method r = POST /\ dr_path r = "/api/reconnect" /\
     Atoi (QueryGet "player_id" (dr_query r)) = Some pid /\ 0 < pid /\
     is_Some (GetICEPeer pid (ad_pm a)) /\ acts = [ARestart manualMsg]) /\
  ((debugServe ρ srt env rc r a).2 = Some (pid, acts) ->
     (debugServe ρ srt env rc r a).1 = MkDebugResp 204 BNothing /\ spawned acts = [PBegin manualMsg] /\
     forall playerID now w, exists snap,
       (cbBegin playerID pid manualMsg now w).2 = [PReplace snap manualMsg]).
Proof.
  assert (Hcan : dr_path r = "/api/reconnect" -> canonical (dr_path r) = true) by (by intros ->).
  unfold debugServe. split.
  - split.
    + destruct (_ && _); [done|]. destruct (bool_decide_reflect (dr_path r = "/api/status")); [done|].
      destruct (bool_decide_reflect (dr_path r = "/api/reconnect")); [|done].
      unfold handleReconnect, ForceICEReconnect. destruct (bool_decide_reflect (dr_method r = POST)); [|done].
      simpl. destruct (Atoi _) as [p|]; [|done]. destruct (Z.leb_spec p 0); [done|].
      destruct (GetICEPeer p (ad_pm a)) eqn:E; [|done]. simpl. intros [= -> <-]. rewrite E. eauto 10.
    + intros (Hm & Hp & Hq & Hpos & [peer Hg] & ->). rewrite Hp, Hm. simpl.
      unfold handleReconnect, ForceICEReconnect. rewrite Hm, Hq. simpl.
      destruct (Z.leb_spec pid 0); [lia|]. by rewrite Hg.
  - destruct (_ && _); [done|]. destruct (bool_decide _); [done|]. destruct (bool_decide _); [|done].
    unfold handleReconnect, ForceICEReconnect. destruct (negb _); [done|].
    destruct (Atoi _) as [p|]; [|done]. destruct (_ <=? _); [done|].
    destruct (GetICEPeer p (ad_pm a)); [|done]. simpl. intros [= -> <-]. split; [done|]. split; [done|].
    intros playerID now w. destruct (manual_replaces playerID pid now w) as (snap & E & _). by exists snap.
Qed.

(** The request the page sends. *)
Definition reconnectRequest (pid : Z) : DebugRequest :=
  MkDebugReq POST "/api/reconnect" (str_bytes "player_id" ++ Byte.x3d :: Itoa pid).

Lemma debug_reconnect_exact_witness :
  let a := (HandleRequest demo_env (MkRpc "connectToPeer" (connect_args 8 true)) (hosting true)).1 in
  (debugServe id_shuffle merge_sorter demo_status_env (NewRelayConnection AddrPort_zero 7)
     (reconnectRequest 8) a).1 = MkDebugResp 204 BNothing.
Proof.
  intros a.
  refine (proj1 (proj2 (debug_reconnect_exact id_shuffle merge_sorter demo_status_env
    (NewRelayConnection AddrPort_zero 7) (reconnectRequest 8) a 8 [ARestart manualMsg]) _)).
  vm_compute. reflexivity.
Defined.

(** The page's own request finds the player it names. *)
Lemma reconnectRequest_finds pid :
  - 2 ^ 63 <= pid < 2 ^ 63 -> Atoi (QueryGet "player_id" (dr_query (reconnectRequest pid))) = Some pid.
Proof. intros H. cbn [dr_query reconnectRequest]. by rewrite QueryGet_itoa, Atoi_Itoa. Qed.
