(* ===== verification/Registration.v ===== *)
(** * An adapter registers with the relay server

    The HTTP requests of [internal/adapter/adapter.go] ([registerWithRelay],
    [leaveRelay], [isHostOnRelay]) as the server of [internal/relay/httpapi.go]
    receives them, and what the two do together: a player that registers is
    the player another adapter finds. *)

From stdpp Require Import pretty.
From Stdlib Require Import Ascii.
From S2P Require Import Prelude GoLib Metrics Session SessionManager ManagerSpec HttpApi.
From S2P Require Import GPGNet PeerMgr GpgNetServer IcePeer IceRestart RpcHandler.
Import Chars.

(** ** The requests on the wire *)

(** An integer as [json.Marshal] writes it. *)
Definition jsonInt (n : Z) : JSON := JNum (n <? 0) (Some (Z.abs n)).

(** [doRelayHTTP]: the key is sent when one is configured; [remote] is the
    address the server sees.  [json.Marshal] writes the keys of a map in
    alphabetical order. *)
Definition bearer (key : string) : string :=
  if bool_decide (key = "") then "" else ("Bearer " +:+ key)%string.
Definition doRelayHTTP (key remote path : string) (body : list (string * JSON)) : Request :=
  MkRequest POST path remote (bearer key) (MkBody (Some (JObj body)) []).

Definition createRequest (key remote sid : string) : Request :=
  doRelayHTTP key remote "/sessions" [("max_players", jsonInt 32); ("session_id", JStr sid)].
Definition joinRequest (key remote sid : string) (playerID : Z) (login : string) : Request :=
  doRelayHTTP key remote ("/sessions/" +:+ (sid +:+ "/join"))
    [("login", JStr login); ("player_id", jsonInt playerID)].
(** The same request, made under a context with a deadline. *)
Definition doRelayHTTPWithCtx (key remote path : string) (body : list (string * JSON)) : Request :=
  MkRequest POST path remote (bearer key) (MkBody (Some (JObj body)) []).
Definition leaveRequest (key remote sid : string) (playerID : Z) : Request :=
  doRelayHTTPWithCtx key remote ("/sessions/" +:+ (sid +:+ "/leave")) [("player_id", jsonInt playerID)].
(** The lookup of [isHostOnRelay], which sends no key. *)
Definition lookupRequest (remote sid : string) : Request :=
  MkRequest GET ("/sessions/" +:+ sid)%string remote "" (MkBody None []).

(** [GET /health], and what [checkRelayHealth] makes of the answer: [None] is a
    request that failed. *)
Definition healthRequest (remote : string) : Request := MkRequest GET "/health" remote "" (MkBody None []).
Inductive HealthErr := Unreachable | Unhealthy (code : Z).
Definition checkRelayHealth (answer : option Response) : result HealthErr unit :=
  match answer with
  | None => Err Unreachable
  | Some r => if negb (status r =? 200) then Err (Unhealthy (status r)) else Ok tt
  end.

(** What [isHostOnRelay] decodes from the answer. *)
Definition sessionAnswer (r : Response) : Z * option (list Z) :=
  (status r, match r_body r with RSession _ _ _ ids => Some ids | _ => None end).

(** ** Lemmas: paths *)

Lemma chars_app s t : chars (s +:+ t)%string = chars s ++ chars t.
Proof. induction s as [|c s IH]; [done|]. exact (f_equal (cons c) IH). Qed.

Lemma of_chars_chars s : of_chars (chars s) = s.
Proof. apply String.string_of_list_ascii_of_string. Qed.

(** The characters of a session identifier are neither slashes nor dots. *)
Lemma pattern_chars sid :
  sessionIDPattern sid = true ->
  Forall (fun c => c <> "/"%char /\ c <> "."%char) (chars sid) /\ chars sid <> [].
Proof.
  unfold sessionIDPattern. intros [[H1 H2]%andb_prop _]%andb_prop. split.
  - apply Forall_forall. intros c Hc. rewrite forallb_forall in H1.
    specialize (H1 c (proj1 (list_elem_of_In _ _) Hc)). by split; intros ->.
  - intros E. rewrite E in H2. done.
Qed.

Lemma index_slash l rest :
  Forall (fun c => c <> "/"%char /\ c <> "."%char) l ->
  index "/" (l ++ "/"%char :: rest) = Some (length l).
Proof.
  induction 1 as [|c l [Hc _] _ IH]; [done|]. simpl. rewrite bool_decide_eq_false_2 by congruence.
  by rewrite IH.
Qed.

Lemma index_no_slash l :
  Forall (fun c => c <> "/"%char /\ c <> "."%char) l -> index "/" l = None.
Proof.
  induction 1 as [|c l [Hc _] _ IH]; [done|]. simpl. rewrite bool_decide_eq_false_2 by congruence.
  by rewrite IH.
Qed.

Lemma segments_slash l rest cur :
  Forall (fun c => c <> "/"%char /\ c <> "."%char) l ->
  segments (l ++ "/"%char :: rest) cur = (rev cur ++ l) :: segments rest [].
Proof.
  intros H. revert cur. induction H as [|c l [Hc _] _ IH]; intros cur; simpl.
  - by rewrite app_nil_r.
  - rewrite bool_decide_eq_false_2 by congruence. rewrite IH. simpl. by rewrite <- app_assoc.
Qed.

Lemma segments_end l cur :
  Forall (fun c => c <> "/"%char /\ c <> "."%char) l -> segments l cur = [rev cur ++ l].
Proof.
  intros H. revert cur. induction H as [|c l [Hc _] _ IH]; intros cur; simpl.
  - by rewrite app_nil_r.
  - rewrite bool_decide_eq_false_2 by congruence. rewrite IH. simpl. by rewrite <- app_assoc.
Qed.

(** How the server reads the path of a session and of an action on it. *)
Section Paths.
Variable sid : string.
Hypothesis Hsid : sessionIDPattern sid = true.
Let Hchars := proj1 (pattern_chars sid Hsid).
Let Hne := proj2 (pattern_chars sid Hsid).

Lemma no_dots l : l = chars "." \/ l = chars ".." -> chars sid <> l.
Proof.
  intros Hl E. rewrite E in Hchars.
  destruct Hl as [-> | ->]; apply Forall_cons in Hchars as [[_ H] _]; done.
Qed.

Lemma path_root :
  splitPath ("/sessions/" +:+ sid)%string = (sid, "") /\
  canonical ("/sessions/" +:+ sid)%string = true.
Proof.
  split.
  - unfold splitPath. rewrite chars_app. unfold prefix_of.
    rewrite take_app_length, bool_decide_eq_true_2, drop_app_length by done.
    rewrite index_no_slash by done. by rewrite of_chars_chars.
  - unfold canonical. rewrite chars_app.
    change (chars "/sessions/") with ("/"%char :: chars "sessions" ++ ["/"%char]).
    cbn [app]. rewrite <- app_assoc. cbn [app].
    change (segments ("/"%char :: ?l) []) with ([] :: segments l []).
    rewrite (segments_slash (chars "sessions")) by (repeat constructor; done).
    rewrite segments_end by done. cbn [rev app tail removelast forallb].
    rewrite (bool_decide_eq_false_2 (chars sid = chars ".")) by (apply no_dots; auto).
    rewrite (bool_decide_eq_false_2 (chars sid = chars "..")) by (apply no_dots; auto). done.
Qed.

Lemma path_action (act : string) :
  act = "join" \/ act = "leave" ->
  splitPath ("/sessions/" +:+ (sid +:+ String "/" act))%string = (sid, act) /\
  canonical ("/sessions/" +:+ (sid +:+ String "/" act))%string = true.
Proof.
  intros Hact. assert (Ha : Forall (fun c => c <> "/"%char /\ c <> "."%char) (chars act)).
  { destruct Hact as [-> | ->]; repeat constructor; done. }
  split.
  - unfold splitPath. rewrite !chars_app. unfold prefix_of.
    rewrite take_app_length, bool_decide_eq_true_2, drop_app_length by done.
    change (chars (String "/" act)) with ("/"%char :: chars act).
    rewrite index_slash by done. rewrite take_app_length, of_chars_chars. f_equal.
    replace (drop (S (length (chars sid))) _) with (chars act); [apply of_chars_chars|].
    rewrite (drop_app_ge (chars sid)) by lia.
    by replace (S (length (chars sid)) - length (chars sid))%nat with 1%nat by lia.
  - unfold canonical. rewrite !chars_app.
    change (chars "/sessions/") with ("/"%char :: chars "sessions" ++ ["/"%char]).
    change (chars (String "/" act)) with ("/"%char :: chars act).
    cbn [app]. rewrite <- app_assoc. cbn [app].
    change (segments ("/"%char :: ?l) []) with ([] :: segments l []).
    rewrite (segments_slash (chars "sessions")) by (repeat constructor; done).
    rewrite segments_slash, segments_end by done. cbn [rev app tail removelast forallb].
    rewrite (bool_decide_eq_false_2 (chars sid = [])) by done.
    rewrite (bool_decide_eq_false_2 (chars sid = chars ".")) by (apply no_dots; auto).
    rewrite (bool_decide_eq_false_2 (chars sid = chars "..")) by (apply no_dots; auto).
    by destruct Hact as [-> | ->].
Qed.
End Paths.

(** ** Lemmas: what the requests ask for *)

Lemma request_create ρ key remote sid now :
  sessionIDPattern sid = true ->
  request_call ρ (createRequest key remote sid) now = Some (CallCreate sid 32 now).
Proof. intros H. unfold request_call. simpl. by rewrite H. Qed.

Lemma sessions_prefix s : prefix_of (chars "/sessions/") (chars ("/sessions/" +:+ s)%string) = true.
Proof. unfold prefix_of. rewrite chars_app, take_app_length. by apply bool_decide_eq_true_2. Qed.

Lemma not_sessions s : ("/sessions/" +:+ s)%string <> "/sessions".
Proof. intros [=]. Qed.

Lemma decode_join pid login :
  0 < pid < 2 ^ 32 ->
  decodeJSONBody join_fields (0, "")
    (MkBody (Some (JObj [("login", JStr login); ("player_id", jsonInt pid)])) []) = Some (pid, login).
Proof.
  intros Hp. unfold jsonInt. rewrite (proj2 (Z.ltb_ge pid 0)), Z.abs_eq by lia.
  unfold decodeJSONBody, decode_members. cbn [b_value b_rest More].
  assert (E1 : join_fields "login" =
    Some (fun v '(pid, lg) => lg' ← into_string v lg; Some (pid, lg'))) by reflexivity.
  assert (E2 : join_fields "player_id" =
    Some (fun v '(pid, lg) => pid' ← into_uint32 v pid; Some (pid', lg))) by reflexivity.
  rewrite E1, E2. cbn [mbind option_bind into_string]. unfold into_uint32.
  by rewrite (proj2 (Z.ltb_lt pid _)) by lia.
Qed.

Lemma request_join ρ key remote sid pid login now :
  sessionIDPattern sid = true -> 0 < pid < 2 ^ 32 ->
  request_call ρ (joinRequest key remote sid pid login) now = Some (CallJoin sid pid login).
Proof.
  intros Hs Hp. unfold request_call, joinRequest, doRelayHTTP. cbn [rq_path rq_method rq_body].
  destruct (path_action sid Hs "join") as [E1 E2]; [by left|]. rewrite E1, E2, sessions_prefix.
  rewrite (bool_decide_eq_false_2 (_ = "/sessions")) by apply not_sessions.
  rewrite andb_false_r, Hs, decode_join by done. cbn [negb].
  rewrite (bool_decide_eq_false_2 ("join" = "")), (bool_decide_eq_true_2 ("join" = "join")) by done.
  by rewrite (proj2 (Z.eqb_neq pid 0)) by lia.
Qed.

(** The health check reads and changes no session; it fails only when the
    reads are over their limit. *)
Lemma health_check_served ρ remote nowL nowI nowC s s' r :
  ServeHTTP ρ (healthRequest remote) nowL nowI nowC s = (s', r) ->
  a_sm s' = a_sm s /\
  (r = MkResp 200 (RHealth (ActiveSessions (snap (Snapshot 0 (m_metrics (a_sm s)))))
                     (ActivePlayers (snap (Snapshot 0 (m_metrics (a_sm s)))))) /\ checkRelayHealth (Some r) = Ok tt \/
   r = error 429 "rate limit exceeded" /\ checkRelayHealth (Some r) = Err (Unhealthy 429)).
Proof.
  unfold ServeHTTP, healthRequest. cbn [rq_method]. rewrite (bool_decide_eq_true_2 (GET = GET)) by done.
  cbn [negb]. destruct (rl_Allow nowL (a_readRateLimit s)) as [rl [|]]; cbn [negb]; intros [= <- <-]; simpl;
    split; [done|by left|done|by right].
Qed.

(** The lookup of a session, when it is let through. *)
Lemma lookup_served ρ remote sid nowL nowI nowC s s' r :
  sessionIDPattern sid = true ->
  ServeHTTP ρ (lookupRequest remote sid) nowL nowI nowC s = (s', r) -> status r <> 429 ->
  a_sm s' = a_sm s /\
  sessionAnswer r =
  match m_sessions (a_sm s) !! sid with
  | Some l => (200, Some (PlayerIDs ρ (deref l (a_sm s))))
  | None => (404, None)
  end.
Proof.
  intros Hs E Hst. pose proof (ServeHTTP_unfold ρ (lookupRequest remote sid) nowL nowI nowC s) as H.
  rewrite E in H. unfold admitted in H. cbn [rq_method lookupRequest] in H. simpl negb in H.
  destruct (rl_Allow nowL (a_readRateLimit s)) as [rl ok] eqn:Er. simpl in H.
  destruct ok; destruct H as [H1 H2].
  - assert (Em : mux ρ (lookupRequest remote sid) nowC (a_sm s) =
                 handleSessionRoot ρ (lookupRequest remote sid) sid (a_sm s)).
    { unfold mux. destruct (path_root sid Hs) as [E1 E2]. cbn [rq_path rq_method lookupRequest].
      rewrite E2, andb_false_r. rewrite (bool_decide_eq_false_2 (_ = "/health")) by (intros [=]).
      rewrite (bool_decide_eq_false_2 (_ = "/sessions")) by apply not_sessions.
      rewrite sessions_prefix. unfold handleSessionByID. cbn [rq_path lookupRequest].
      rewrite E1, Hs, (bool_decide_eq_false_2 (sid = "")) by by apply pattern_nonempty. done. }
    rewrite Em in H1, H2. unfold handleSessionRoot, GetSession in *. simpl in H1, H2.
    destruct (m_sessions (a_sm s) !! sid); simpl in *; by subst.
  - destruct H2 as [H2|H2]; [|done]. exfalso. revert H2 E. unfold ServeHTTP.
    cbn [rq_method lookupRequest]. simpl negb. cbv zeta iota. rewrite Er. intros H2 [= _ <-].
    discriminate H2.
Qed.

(** A request that stands for a call, answered with success. *)
Lemma call_served ρ req nowL nowI nowC s s' r c :
  request_call ρ req nowC = Some c -> ServeHTTP ρ req nowL nowI nowC s = (s', r) ->
  status r <> 401 -> status r <> 429 ->
  a_sm s' = (run_call c (a_sm s)).1 /\ status r = call_status c (run_call c (a_sm s)).2.
Proof.
  intros Hc E H1 H2. pose proof (ServeHTTP_unfold ρ req nowL nowI nowC s) as H. rewrite E in H.
  pose proof (mux_call ρ req nowC (a_sm s)) as Hm. rewrite Hc in Hm.
  destruct (admitted req nowL nowI s); destruct H as [Ha Hr]; [|by destruct Hr].
  destruct Hm as [Hm1 Hm2]. subst r. by rewrite Ha.
Qed.

(** After a successful join the index names the session. *)
Lemma joined_index sid pid login m m' :
  mgr_ok m -> AddPlayerToSession sid pid login m = (m', None) -> m_index m' !! pid = Some sid.
Proof.
  intros Hm E. pose proof (refine_call (CallJoin sid pid login) m Hm) as Hr. simpl in Hr.
  rewrite E in Hr. unfold spec_join in Hr. destruct (a_sessions (abs m) !! sid); [|done].
  destruct (bool_decide_reflect (a_where (abs m) !! pid = Some sid)) as [Hin|_].
  - apply (f_equal (fun x => a_where x.1)) in Hr. simpl in Hr, Hin. by rewrite <- Hr.
  - cbv zeta in Hr. destruct (_ <=? _); [done|]. destruct (_ <=? _); [done|].
    apply (f_equal (fun x => a_where x.1)) in Hr. simpl in Hr. by rewrite <- Hr, lookup_insert_eq.
Qed.

(** ** Theorem *)

(** C6. A player that registers is found.  If the adapter of player [pid]
    registers successfully with a relay server, then an adapter of the same
    game that looks the session up next finds the player on the relay; and it
    finds exactly the players the server has in that session. *)
Theorem registration_visible (ρ ρ' : Shuffle) (s s1 s2 s3 : HTTPAPI) (r1 r2 r3 : Response)
    (a a' b : Adapter) (key ra rb : string) (x : option (Z * option (list Z)))
    (l1 i1 c1 l2 i2 c2 l3 i3 c3 : Z) :
  let sid := sessionID a in
  let pid := cfg_playerID (ad_cfg a) in
  mgr_ok (a_sm s) -> sessionIDPattern sid = true -> 0 < pid < 2 ^ 32 ->
  ServeHTTP ρ (createRequest key ra sid) l1 i1 c1 s = (s1, r1) ->
  ServeHTTP ρ (joinRequest key ra sid pid (cfg_login (ad_cfg a))) l2 i2 c2 s1 = (s2, r2) ->
  registerWithRelay (MkAnswers (Some (status r1)) (Some (status r2)) x) a = (a', true) ->
  sessionID b = sid -> cfg_RelayHTTP (ad_cfg b) <> "" ->
  ServeHTTP ρ' (lookupRequest rb sid) l3 i3 c3 s2 = (s3, r3) -> status r3 <> 429 ->
  isHostOnRelay (MkAnswers None None (Some (sessionAnswer r3))) pid b = true /\
  forall id, isHostOnRelay (MkAnswers None None (Some (sessionAnswer r3))) id b = true <->
             m_index (a_sm s2) !! id = Some sid.
Proof.
  intros sid pid Hm Hs Hp E1 E2 Hreg Hb Hr E3 H3.
  assert (Hst : (status r1 = 201 \/ status r1 = 409) /\ status r2 = 200).
  { unfold registerWithRelay in Hreg. simpl in Hreg.
    destruct (Z.eqb_spec (status r1) 201), (Z.eqb_spec (status r1) 409); simpl in Hreg; try done;
      injection Hreg as _ H; apply Z.eqb_eq in H; auto. }
  destruct Hst as [H1 H2].
  destruct (call_served _ _ _ _ _ _ _ _ _ (request_create ρ key ra sid c1 Hs) E1) as [F1 _]; [lia|lia|].
  assert (Hm1 : mgr_ok (a_sm s1)) by (rewrite F1; by apply mgr_ok_call).
  destruct (call_served _ _ _ _ _ _ _ _ _ (request_join ρ key ra sid pid _ c2 Hs Hp) E2)
    as [F2 G2]; [lia|lia|].
  assert (Hm2 : mgr_ok (a_sm s2)) by (rewrite F2; by apply mgr_ok_call).
  assert (Hidx : m_index (a_sm s2) !! pid = Some sid).
  { rewrite H2 in G2. simpl in F2, G2.
    destruct (AddPlayerToSession sid pid (cfg_login (ad_cfg a)) (a_sm s1)) as [m' [e|]] eqn:Ej; [done|].
    rewrite F2. exact (joined_index _ _ _ _ _ Hm1 Ej). }
  destruct (lookup_served _ _ _ _ _ _ _ _ _ Hs E3 H3) as [_ Ha].
  assert (Hall : forall id, isHostOnRelay (MkAnswers None None (Some (sessionAnswer r3))) id b = true <->
                            m_index (a_sm s2) !! id = Some sid).
  { intros id. unfold isHostOnRelay. rewrite bool_decide_eq_false_2 by done. cbn [ans_session].
    rewrite Ha, (inv_index _ Hm2).
    destruct (m_sessions (a_sm s2) !! sid) as [l|] eqn:El; simpl.
    - pose proof (registered_lookup _ _ _ Hm2 El) as Hreg2. rewrite existsb_exists. split.
      + intros (id' & Hin%list_elem_of_In & ->%Z.eqb_eq). apply elem_of_PlayerIDs in Hin. eauto.
      + intros (l' & s' & Hreg' & Hin). destruct (registered_fun _ _ _ _ _ _ Hreg2 Hreg') as [-> ->].
        exists id. rewrite Z.eqb_refl. split; [|done]. by apply list_elem_of_In, elem_of_PlayerIDs.
    - split; [done|]. intros (l' & s' & [Hl _] & _). congruence. }
  split; [by apply Hall|done].
Qed.

(** Player 7 registers with a fresh server; player 8 looks it up. *)
Definition reg_a : Adapter := NewAdapter (MkCfg 7 1234 "a" "http://relay" false) NewGPGNetServer.
Definition reg_b : Adapter := NewAdapter (MkCfg 8 1234 "b" "http://relay" false) NewGPGNetServer.
Definition reg_1 := ServeHTTP id_shuffle (createRequest "k" "10.0.0.1:9" "1234") 1 1 1 demo_api.
Definition reg_2 := ServeHTTP id_shuffle (joinRequest "k" "10.0.0.1:9" "1234" 7 "a") 2 2 2 reg_1.1.
Definition reg_3 := ServeHTTP id_shuffle (lookupRequest "10.0.0.2:9" "1234") 3 3 3 reg_2.1.

Lemma registration_visible_witness :
  isHostOnRelay (MkAnswers None None (Some (sessionAnswer reg_3.2))) 7 reg_b = true /\
  forall id, isHostOnRelay (MkAnswers None None (Some (sessionAnswer reg_3.2))) id reg_b = true <->
             m_index (a_sm reg_2.1) !! id = Some (sessionID reg_a).
Proof.
  apply (registration_visible id_shuffle id_shuffle demo_api reg_1.1 reg_2.1 reg_3.1 reg_1.2 reg_2.2
           reg_3.2 reg_a (registerWithRelay (MkAnswers (Some 201) (Some 200) None) reg_a).1 reg_b
           "k" "10.0.0.1:9" "10.0.0.2:9" None 1 1 1 2 2 2 3 3 3);
    try (by vm_compute).
  apply mgr_ok_new.
Defined.
