(* ===== verification/StressTest.v ===== *)
(** * [cmd/stress-test/main.go]: the load generator

    The tool starts a relay server or uses an external one, registers players
    over HTTP, gives each a UDP socket, and lets each broadcast at a fixed rate
    while counting what arrives.  The network is the interface [NetOps]: what
    the tool does with it is a function of any implementation, with every
    failure; [StressRun] implements it with the relay server itself.

    The goroutines of the second phase are steps ([stressStep]); an event whose
    goroutine is not running does nothing. *)

From stdpp Require Import pretty.
From Stdlib Require Import QArith Qabs Lqa.
From S2P Require Import Prelude GoLib GoText Float RelayWire Metrics Session SessionManager HttpApi RelayServer Flags Commands Registration.
Open Scope Z_scope.

(** ** Arguments *)

Record StressConfig := MkStress {
  sessions : Z; players : Z; pps : Z; payloadSize : Z; duration : Z; rampUp : Z;
  externalServer : string; externalHTTP : string; apiKey : string }.

Definition stressFlags : FlagSet := list_to_map [
  ("sessions", VInt 50); ("players", VInt 12); ("pps", VInt 30); ("payload", VInt 200);
  ("duration", VDuration (60 * Time.Second)); ("ramp-up", VDuration (10 * Time.Second));
  ("server", VString ""); ("http", VString ""); ("api-key", VString "faf-relay-s3cret-42")].

Definition durationFlag (fs : FlagSet) (n : string) : Z :=
  match fs !! n with Some (VDuration d) => d | _ => 0 end.
Definition stressConfig (fs : FlagSet) : StressConfig :=
  MkStress (intFlag fs "sessions") (intFlag fs "players") (intFlag fs "pps") (intFlag fs "payload")
    (durationFlag fs "duration") (durationFlag fs "ramp-up") (stringFlag fs "server")
    (stringFlag fs "http") (stringFlag fs "api-key").

(** ** [main] up to the ramp-up *)

(** What the system answers: free ports, and the address of the relay. *)
Record StartAnswers := MkStart {
  freeUDP : option Z; freeTCP : option Z; resolve : string -> option AddrPort }.

Record Prepared := MkPrepared {
  pr_server : option ServerConfig;   (* the embedded server that was started *)
  pr_http : string; pr_relay : AddrPort; pr_delay : Z; pr_payload : bytes }.

(** [*rampUp / time.Duration( *sessions)]: [int64] division, truncated. *)
Definition rampDelay (cfg : StressConfig) : outcome Z :=
  if sessions cfg =? 0 then Panic
  else
    let d := i64 (Z.quot (rampUp cfg) (sessions cfg)) in
    Ret (if d <? Time.Millisecond then Time.Millisecond else d).

(** The embedded server has no API key and no TCP address. *)
Definition embeddedConfig (udpPort httpPort : Z) : ServerConfig :=
  MkServerConfig (":" +:+ pretty udpPort) "" (":" +:+ pretty httpPort) "" "" "" 100000 100000.

(** The relay's two addresses, with the embedded server if one was started, or
    the exit status of [log.Fatal]. *)
Definition relayTarget (cfg : StressConfig) (a : StartAnswers) : result Z (option ServerConfig * string * string) :=
  if bool_decide (externalServer cfg = "") then
    match freeUDP a, freeTCP a with
    | Some u, Some h =>
        Ok (Some (embeddedConfig u h), "127.0.0.1:" +:+ pretty u, "http://127.0.0.1:" +:+ pretty h)
    | _, _ => Err 1
    end
  else if bool_decide (externalHTTP cfg = "") then Err 1
  else Ok (None, externalServer cfg, externalHTTP cfg).

(** [random] is what [rand.Read] fills the template with. *)
Definition prepare (cfg : StressConfig) (a : StartAnswers) (random : nat -> bytes) : outcome (result Z Prepared) :=
  if MaxRelayPayload <? payloadSize cfg then Ret (Err 1)
  else match relayTarget cfg a with
  | Err code => Ret (Err code)
  | Ok (srv, udp, http) =>
      match resolve a udp with
      | None => Ret (Err 1)
      | Some relay =>
          if payloadSize cfg <? 0 then Panic
          else
            delay ← rampDelay cfg;
            Ret (Ok (MkPrepared srv http relay delay (random (Z.to_nat (payloadSize cfg)))))
      end
  end.

Definition stressMain (args : list string) (a : StartAnswers) (random : nat -> bytes)
    : outcome (result Z (StressConfig * Prepared)) :=
  match Parse stressFlags args with
  | Err code => Ret (Err code)
  | Ok (fs, _) =>
      r ← prepare (stressConfig fs) a random;
      Ret match r with Ok p => Ok (stressConfig fs, p) | Err code => Err code end
  end.

(** ** Players and counters *)

Record simPlayer := MkSim {
  playerID : Z; sim_sessionID : string; sim_conn : AddrPort; sendBuf : bytes;
  pktsSent : Z; pktsRecv : Z; bytesSent : Z; bytesRecv : Z }.
Definition newSim (pid : Z) (sid : string) (conn : AddrPort) : simPlayer :=
  MkSim pid sid conn (replicate (Z.to_nat MaxRelayPacket) Byte.x00) 0 0 0 0.

Record globalStats := MkGlobal {
  totalPktsSent : Z; totalPktsRecv : Z; totalBytesSent : Z; totalBytesRecv : Z }.

(** ** The network the tool talks to *)

Record NetOps (W : Type) := MkNetOps {
  (** [http.DefaultClient.Do]: the status, unless the request failed *)
  op_do : Request -> W -> W * option Z;
  (** [net.ListenUDP] on a free port of 127.0.0.1 *)
  op_listen : W -> W * option AddrPort;
  (** [WriteToUDP] from a socket to the relay *)
  op_write : AddrPort -> bytes -> W -> W;
  (** [ctx.Err() != nil] *)
  op_done : W -> bool;
  op_sleep : Z -> W -> W }.
Arguments op_do {W}.
Arguments op_listen {W}.
Arguments op_write {W}.
Arguments op_done {W}.
Arguments op_sleep {W}.

Section Client.
Context {W : Type} (ops : NetOps W) (key remote : string).

(** [remote] is the address the server sees. *)
Definition doHTTP (path : string) (body : list (string * JSON)) (w : W) : W * option Z :=
  op_do ops (MkRequest POST path remote (bearer key) (MkBody (Some (JObj body)) [])) w.

(** [true]: no error. *)
Definition httpCreateSession (sid : string) (maxPlayers : Z) (w : W) : W * bool :=
  let '(w, st) := doHTTP "/sessions" [("max_players", jsonInt maxPlayers); ("session_id", JStr sid)] w in
  (w, match st with Some code => (code =? 201) || (code =? 409) | None => false end).
Definition httpJoinSession (sid : string) (pid : Z) (login : string) (w : W) : W * bool :=
  let '(w, st) := doHTTP ("/sessions/" +:+ (sid +:+ "/join"))
                    [("login", JStr login); ("player_id", jsonInt pid)] w in
  (w, match st with Some code => code =? 200 | None => false end).

(** ** The ramp-up *)

(** [nextPlayerID], the players of the current session, all players, and the
    players whose two goroutines have been started. *)
Record Ramp := MkRamp {
  ra_world : W; ra_next : Z; ra_session : list simPlayer; ra_all : list simPlayer;
  ra_started : list simPlayer }.
Definition ra_with (w : W) (r : Ramp) : Ramp :=
  MkRamp w (ra_next r) (ra_session r) (ra_all r) (ra_started r).

(** The body of the loop over players. *)
Definition joinOne (sid : string) (r : Ramp) : Ramp :=
  let pid := ra_next r in
  let r := MkRamp (ra_world r) (u32 (pid + 1)) (ra_session r) (ra_all r) (ra_started r) in
  let '(w, ok) := httpJoinSession sid pid ("Bot" +:+ pretty pid) (ra_world r) in
  if negb ok then ra_with w r
  else match op_listen ops w with
  | (w, None) => ra_with w r
  | (w, Some conn) =>
      let sp := newSim pid sid conn in
      let hello := match EncodeRelayPacket pid pid [] with Ok h => h | Err _ => [] end in
      MkRamp (op_write ops conn hello w) (ra_next r) (ra_session r ++ [sp]) (ra_all r ++ [sp]) (ra_started r)
  end.

Variable cfg : StressConfig.
Variable delay : Z.

Definition sessionName (s : Z) : string := "stress-" +:+ pretty (s + 1).

(** The body of the loop over sessions; [make] with a negative capacity
    panics. *)
Definition rampSession (s : Z) (r : Ramp) : outcome Ramp :=
  let sid := sessionName s in
  let '(w, ok) := httpCreateSession sid (players cfg) (ra_world r) in
  if negb ok then Ret (ra_with w r)
  else if players cfg <? 0 then Panic
  else
    let r := MkRamp w (ra_next r) [] (ra_all r) (ra_started r) in
    let r := Nat.iter (Z.to_nat (players cfg)) (joinOne sid) r in
    let r := MkRamp (ra_world r) (ra_next r) (ra_session r) (ra_all r) (ra_started r ++ ra_session r) in
    Ret (if s + 1 <? sessions cfg then ra_with (op_sleep ops delay (ra_world r)) r else r).

Fixpoint rampLoop (ss : list Z) (r : Ramp) : outcome Ramp :=
  match ss with
  | [] => Ret r
  | s :: ss' => if op_done ops (ra_world r) then Ret r else r ← rampSession s r; rampLoop ss' r
  end.

Definition rampAll (w : W) : outcome Ramp :=
  rampLoop (seqZ 0 (sessions cfg)) (MkRamp w 1 [] [] []).
End Client.
Arguments Ramp W : clear implicits.
Arguments MkRamp {W}.

(** ** The goroutines *)

(** [sendLoop] up to its loop: the interval must be positive for
    [time.NewTicker]; the packet is written into the send buffer once. *)
Definition sendInit (pps : Z) (payload : bytes) (sp : simPlayer) : outcome (simPlayer * Z) :=
  if pps =? 0 then Panic
  else if Z.quot Time.Second pps <=? 0 then Panic
  else
    buf ← EncodeRelayHeader (sendBuf sp) (playerID sp) BroadcastDest;
    Ret (MkSim (playerID sp) (sim_sessionID sp) (sim_conn sp) (copy_at RelayHeaderSize payload buf)
           (pktsSent sp) (pktsRecv sp) (bytesSent sp) (bytesRecv sp),
         RelayHeaderSize + len payload).

(** The counters after a packet has been sent or received. *)
Definition countTx (n : Z) (sp : simPlayer) : simPlayer :=
  MkSim (playerID sp) (sim_sessionID sp) (sim_conn sp) (sendBuf sp) (u64 (pktsSent sp + 1)) (pktsRecv sp)
    (u64 (bytesSent sp + n)) (bytesRecv sp).
Definition countRx (n : Z) (sp : simPlayer) : simPlayer :=
  MkSim (playerID sp) (sim_sessionID sp) (sim_conn sp) (sendBuf sp) (pktsSent sp) (u64 (pktsRecv sp + 1))
    (bytesSent sp) (u64 (bytesRecv sp + n)).
Definition totalTx (n : Z) (g : globalStats) : globalStats :=
  MkGlobal (u64 (totalPktsSent g + 1)) (totalPktsRecv g) (u64 (totalBytesSent g + n)) (totalBytesRecv g).
Definition totalRx (n : Z) (g : globalStats) : globalStats :=
  MkGlobal (totalPktsSent g) (u64 (totalPktsRecv g + 1)) (totalBytesSent g) (u64 (totalBytesRecv g + n)).

(** A player with its two goroutines; [None]: the sender has not started or
    has returned, else the size of its packets. *)
Record Sim := MkRunSim { si_player : simPlayer; si_sender : option Z; si_receiver : bool }.

(** Where [main] is after the ramp-up: waiting for the end, for the senders,
    for the receivers, and in [printSummary]. *)
Inductive MainAt := AtDuration | AtSenders | AtReceivers | AtSummary.
#[export] Instance MainAt_eq_dec : EqDecision MainAt.
Proof. solve_decision. Defined.

Record Stress := MkRun {
  x_sims : list Sim; x_stats : globalStats; x_cancelled : bool; x_closed : bool; x_main : MainAt }.
Definition with_sims (l : list Sim) (x : Stress) : Stress :=
  MkRun l (x_stats x) (x_cancelled x) (x_closed x) (x_main x).

Inductive StressEvent :=
| EvTick (i : nat) (ok : bool)   (* the ticker of a sender fires; whether the write succeeds *)
| EvSendDone (i : nat)           (* a sender sees the cancelled context *)
| EvRecv (i : nat) (n : Z)       (* a receiver reads a datagram of [n] bytes *)
| EvRecvErr (i : nat)            (* its deadline passes, or its socket is closed *)
| EvInterrupt                    (* Ctrl+C *)
| EvDuration                     (* [time.After( *duration)] *)
| EvMain.                        (* [main] goes on, when it can *)

Definition sendersDone (x : Stress) : bool := forallb (fun s => is_nil (si_sender s)) (x_sims x).
Definition receiversDone (x : Stress) : bool := forallb (fun s => negb (si_receiver s)) (x_sims x).

Definition stressStep (e : StressEvent) (x : Stress) : Stress :=
  match e with
  | EvTick i ok =>
      match x_sims x !! i with
      | Some (MkRunSim sp (Some size) rx) =>
          if ok then
            MkRun (<[i := MkRunSim (countTx size sp) (Some size) rx]> (x_sims x)) (totalTx size (x_stats x))
              (x_cancelled x) (x_closed x) (x_main x)
          else with_sims (<[i := MkRunSim sp None rx]> (x_sims x)) x
      | _ => x
      end
  | EvSendDone i =>
      match x_sims x !! i with
      | Some (MkRunSim sp (Some _) rx) =>
          if x_cancelled x then with_sims (<[i := MkRunSim sp None rx]> (x_sims x)) x else x
      | _ => x
      end
  | EvRecv i n =>
      match x_sims x !! i with
      | Some (MkRunSim sp tx true) =>
          if x_closed x then x
          else MkRun (<[i := MkRunSim (countRx n sp) tx true]> (x_sims x)) (totalRx n (x_stats x))
                 (x_cancelled x) (x_closed x) (x_main x)
      | _ => x
      end
  | EvRecvErr i =>
      match x_sims x !! i with
      | Some (MkRunSim sp tx true) =>
          if x_cancelled x then with_sims (<[i := MkRunSim sp tx false]> (x_sims x)) x else x
      | _ => x
      end
  | EvInterrupt => MkRun (x_sims x) (x_stats x) true (x_closed x) (x_main x)
  | EvDuration =>
      match x_main x with
      | AtDuration => MkRun (x_sims x) (x_stats x) true (x_closed x) AtSenders
      | _ => x
      end
  | EvMain =>
      match x_main x with
      | AtDuration => if x_cancelled x then MkRun (x_sims x) (x_stats x) true (x_closed x) AtSenders else x
      | AtSenders =>
          if sendersDone x then MkRun (x_sims x) (x_stats x) (x_cancelled x) true AtReceivers else x
      | AtReceivers =>
          if receiversDone x then MkRun (x_sims x) (x_stats x) (x_cancelled x) (x_closed x) AtSummary else x
      | AtSummary => x
      end
  end.
Definition stressRun (es : list StressEvent) (x : Stress) : Stress := foldl (fun x e => stressStep e x) x es.

(** The goroutines of the players of the ramp-up, once every sender is in its
    loop. *)
Definition startSims (pps : Z) (payload : bytes) (ps : list simPlayer) : outcome Stress :=
  sims ← foldr (fun sp acc => '(sp, size) ← sendInit pps payload sp;
                              rest ← acc; Ret (MkRunSim sp (Some size) true :: rest)) (Ret []) ps;
  Ret (MkRun sims (MkGlobal 0 0 0 0) false false AtDuration).

(** ** Reports *)

Record healthResponse := MkHealth { h_Status : string; h_ActiveSessions : Z; h_ActivePlayers : Z }.
(** The answer to [healthRequest]: the status code is not looked at.  The error
    texts of the server are not JSON; the objects of its other handlers have
    none of the fields, which then stay zero. *)
Definition fetchHealth (answer : option Response) : option healthResponse :=
  match answer with
  | None => None
  | Some r =>
      match r_body r with
      | RHealth s p => Some (MkHealth "ok" s p)
      | RCreated _ _ | RSession _ _ _ _ | RJoined _ _ => Some (MkHealth "" 0 0)
      | RText _ | RMgrErr _ | REmpty => None
      end
  end.

(** What the relay server's answer says: its gauges, or nothing when the reads
    are over their limit. *)
Lemma fetchHealth_server ρ remote nowL nowI nowC s s' r :
  ServeHTTP ρ (healthRequest remote) nowL nowI nowC s = (s', r) ->
  fetchHealth (Some r) = None \/
  fetchHealth (Some r) = Some (MkHealth "ok" (ActiveSessions (snap (Snapshot 0 (m_metrics (a_sm s)))))
                                 (ActivePlayers (snap (Snapshot 0 (m_metrics (a_sm s)))))).
Proof. intros [_ [[-> _] | [-> _]]]%health_check_served; [by right|by left]. Qed.

(** [float64(n)/1024/1024] *)
Definition megabytes (n : Z) : float64 := fdiv (fdiv (float_of n) (float_of 1024)) (float_of 1024).

Definition formatNumber (n : Z) : bytes :=
  if 1000000000 <=? n then fmtF 2 (fdiv (float_of n) (float_of 1000000000)) ++ str_bytes " Mrd"
  else if 1000000 <=? n then fmtF 2 (fdiv (float_of n) (float_of 1000000)) ++ str_bytes " Mio"
  else if 1000 <=? n then fmtF 1 (fdiv (float_of n) (float_of 1000)) ++ str_bytes " K"
  else Itoa n.
Definition formatBytes (b : Z) : bytes :=
  if 1024 * 1024 * 1024 <=? b then fmtF 2 (fdiv (megabytes b) (float_of 1024)) ++ str_bytes " GB"
  else if 1024 * 1024 <=? b then fmtF 2 (megabytes b) ++ str_bytes " MB"
  else if 1024 <=? b then fmtF 1 (fdiv (float_of b) (float_of 1024)) ++ str_bytes " KB"
  else Itoa b ++ str_bytes " B".

(** [Duration.Round] of a duration that is not negative *)
Definition Round (d m : Z) : Z :=
  let r := d mod m in
  if r + r <? m then d - r else if d + m - r <=? Time.maxDuration then d + m - r else Time.maxDuration.

(** One line of [statsReporter]: the counts of the last interval, the texts of
    the rates and sizes, and the server's gauges.  [last] is what it read
    before; [alloc] is [m.Alloc]. *)
Record StatsLine := MkLine {
  ln_elapsed : Z;
  ln_sent : Z; ln_sentPps : bytes; ln_sentMB : bytes;
  ln_recv : Z; ln_recvPps : bytes; ln_recvMB : bytes; ln_mem : bytes; ln_server : option healthResponse }.
Definition statsReporter (gs last : globalStats) (elapsed alloc : Z) (answer : option Response)
    : globalStats * StatsLine :=
  let dpSent := u64 (totalPktsSent gs - totalPktsSent last) in
  let dpRecv := u64 (totalPktsRecv gs - totalPktsRecv last) in
  let dbSent := u64 (totalBytesSent gs - totalBytesSent last) in
  let dbRecv := u64 (totalBytesRecv gs - totalBytesRecv last) in
  (gs, MkLine (Round elapsed Time.Second) dpSent (fmtF 0 (fdiv (float_of dpSent) (float_of 2))) (fmtF 2 (megabytes dbSent))
         dpRecv (fmtF 0 (fdiv (float_of dpRecv) (float_of 2))) (fmtF 2 (megabytes dbRecv))
         (fmtF 1 (megabytes alloc)) (fetchHealth answer)).

(** [Duration.Seconds] *)
Definition Seconds (d : Z) : float64 :=
  fadd (float_of (Z.quot d Time.Second)) (fdiv (float_of (Z.rem d Time.Second)) (float_of 1000000000)).
(** The values of [printSummary]: the rates are there when time has passed. *)
Record Summary := MkSummary {
  su_elapsed : Z; su_players : Z; su_sent : bytes; su_recv : bytes; su_bytesSent : bytes; su_bytesRecv : bytes;
  su_rates : option (bytes * bytes); su_alloc : bytes; su_sys : bytes; su_goroutines : Z;
  su_server : option healthResponse }.
Definition rate (pkts bytes : Z) (secs : float64) : Prelude.bytes :=
  fmtF 0 (fdiv (float_of pkts) secs) ++ str_bytes " pps / " ++
  fmtF 2 (fdiv (fdiv (fdiv (float_of bytes) secs) (float_of 1024)) (float_of 1024)) ++ str_bytes " MB/s".
Definition printSummary (gs : globalStats) (players : list simPlayer) (elapsed alloc sys goroutines : Z)
    (answer : option Response) : Summary :=
  let secs := Seconds elapsed in
  MkSummary (Round elapsed Time.Millisecond) (len players) (formatNumber (totalPktsSent gs))
    (formatNumber (totalPktsRecv gs)) (formatBytes (totalBytesSent gs)) (formatBytes (totalBytesRecv gs))
    (if 0 <? f_mant secs then
       Some (rate (totalPktsSent gs) (totalBytesSent gs) secs, rate (totalPktsRecv gs) (totalBytesRecv gs) secs)
     else None)
    (fmtF 1 (megabytes alloc)) (fmtF 1 (megabytes sys)) goroutines (fetchHealth answer).

(** ** The counters *)

Definition sumOf (f : simPlayer -> Z) (l : list Sim) : Z := foldr (fun s n => f (si_player s) + n) 0 l.

Lemma sumOf_insert f l i s s' :
  l !! i = Some s -> sumOf f (<[i := s']> l) = sumOf f l + f (si_player s') - f (si_player s).
Proof.
  revert i; induction l as [|x l IH]; intros [|i] Hi; simplify_eq/=; [unfold sumOf; simpl; lia|].
  unfold sumOf in *. simpl. rewrite (IH i Hi). lia.
Qed.

Lemma u64_add_l a b : u64 (u64 a + b) = u64 (a + b).
Proof. unfold u64. by rewrite Zplus_mod_idemp_l. Qed.
Lemma u64_add_r a b : u64 (a + u64 b) = u64 (a + b).
Proof. unfold u64. by rewrite Zplus_mod_idemp_r. Qed.

(** One counter of one player and the total move together. *)
Lemma sum_step f l i s s' n t :
  l !! i = Some s -> f (si_player s') = u64 (f (si_player s) + n) -> t = u64 (sumOf f l) ->
  u64 (t + n) = u64 (sumOf f (<[i := s']> l)).
Proof.
  intros Hi Hf ->. rewrite (sumOf_insert f l i s s' Hi), Hf, u64_add_l.
  replace (sumOf f l + u64 (f (si_player s) + n) - f (si_player s))
    with (sumOf f l - f (si_player s) + u64 (f (si_player s) + n)) by lia.
  rewrite u64_add_r. f_equal. lia.
Qed.

Lemma sum_same f l i s s' :
  l !! i = Some s -> f (si_player s') = f (si_player s) -> sumOf f (<[i := s']> l) = sumOf f l.
Proof. intros Hi Hf. rewrite (sumOf_insert f l i s s' Hi), Hf. lia. Qed.

(** The invariant of the counters: the totals are the sums over the players,
    and the bytes sent are the packets sent times their size. *)
Record counted (size : Z) (x : Stress) : Prop := {
  ct_sent : totalPktsSent (x_stats x) = u64 (sumOf pktsSent (x_sims x));
  ct_recv : totalPktsRecv (x_stats x) = u64 (sumOf pktsRecv (x_sims x));
  ct_bytes : totalBytesSent (x_stats x) = u64 (size * totalPktsSent (x_stats x));
  ct_brecv : totalBytesRecv (x_stats x) = u64 (sumOf bytesRecv (x_sims x));
  ct_size : Forall (fun s => si_sender s = Some size \/ si_sender s = None) (x_sims x);
}.

Lemma counted_quiet size x i s s' :
  counted size x -> x_sims x !! i = Some s -> si_player s' = si_player s ->
  si_sender s' = si_sender s \/ si_sender s' = None -> counted size (with_sims (<[i := s']> (x_sims x)) x).
Proof.
  intros [H1 H2 H3 H4 H5] Hi Hp Ht. split; simpl; rewrite ?(sum_same _ _ i s s' Hi) by (by rewrite Hp); try done.
  apply Forall_insert; [done|]. pose proof (Forall_lookup_1 _ _ _ _ H5 Hi) as Hs. simpl in Hs.
  destruct Ht as [-> | ->]; auto.
Qed.

Lemma counted_step size e x : 0 <= size -> counted size x -> counted size (stressStep e x).
Proof.
  intros Hsz Hc. pose proof Hc as [H1 H2 H3 H4 H5].
  destruct e as [i ok|i|i n|i| | |]; cbn [stressStep].
  - destruct (x_sims x !! i) as [[sp [sz|] rx]|] eqn:Ei; [|done..].
    pose proof (Forall_lookup_1 _ _ _ _ H5 Ei) as [[= ->]|]; [|done].
    destruct ok; [|by apply (counted_quiet _ _ _ _ _ Hc Ei); [|right]].
    split; cbn [x_stats x_sims totalTx totalPktsSent totalPktsRecv totalBytesSent totalBytesRecv].
    + by apply (sum_step pktsSent _ i (MkRunSim sp (Some size) rx)).
    + by rewrite (sum_same pktsRecv _ _ _ _ Ei).
    + rewrite H3. unfold u64. rewrite Zplus_mod_idemp_l, Zmult_mod_idemp_r. f_equal. lia.
    + by rewrite (sum_same bytesRecv _ _ _ _ Ei).
    + apply Forall_insert; [done|]. by left.
  - destruct (x_sims x !! i) as [[sp [sz|] rx]|] eqn:Ei; [|done..]. destruct (x_cancelled x); [|done].
    by apply (counted_quiet _ _ _ _ _ Hc Ei); [|right].
  - destruct (x_sims x !! i) as [[sp tx []]|] eqn:Ei; [|done..]. destruct (x_closed x); [done|].
    split; cbn [x_stats x_sims totalRx totalPktsSent totalPktsRecv totalBytesSent totalBytesRecv].
    + by rewrite (sum_same pktsSent _ _ _ _ Ei).
    + by apply (sum_step pktsRecv _ i (MkRunSim sp tx true)).
    + done.
    + by apply (sum_step bytesRecv _ i (MkRunSim sp tx true)).
    + apply Forall_insert; [done|]. exact (Forall_lookup_1 _ _ _ _ H5 Ei).
  - destruct (x_sims x !! i) as [[sp tx []]|] eqn:Ei; [|done..]. destruct (x_cancelled x); [|done].
    by apply (counted_quiet _ _ _ _ _ Hc Ei); [|left].
  - by split.
  - by destruct (x_main x).
  - destruct (x_main x); [destruct (x_cancelled x)|destruct (sendersDone x)|destruct (receiversDone x)|]; by split.
Qed.

Lemma counted_run size es x : 0 <= size -> counted size x -> counted size (stressRun es x).
Proof.
  intros Hsz. revert x; induction es as [|e es IH]; intros x Hx; [done|].
  cbn [stressRun foldl]. apply IH, counted_step; done.
Qed.

(** ** Starting the goroutines *)

(** The packet every tick of a player sends. *)
Definition broadcastPacket (pid : Z) (payload : bytes) : bytes := header pid BroadcastDest ++ payload.

Lemma sendInit_ok pps payload sp :
  1 <= pps <= Time.Second -> len payload <= MaxRelayPayload -> len (sendBuf sp) = MaxRelayPacket ->
  exists buf, sendInit pps payload sp =
      Ret (MkSim (playerID sp) (sim_sessionID sp) (sim_conn sp) buf (pktsSent sp) (pktsRecv sp) (bytesSent sp)
             (bytesRecv sp), RelayHeaderSize + len payload) /\
    take (Z.to_nat (RelayHeaderSize + len payload)) buf = broadcastPacket (playerID sp) payload.
Proof.
  unfold MaxRelayPayload, MaxRelayPacket, RelayHeaderSize. intros Hp Hl Hb. unfold sendInit.
  rewrite (proj2 (Z.eqb_neq pps 0)) by lia.
  assert (Hq : 0 < Z.quot Time.Second pps) by (apply Z.quot_str_pos; lia).
  rewrite (proj2 (Z.leb_gt _ _)) by lia. unfold EncodeRelayHeader. rewrite (proj2 (Z.ltb_ge _ 8)) by lia.
  cbn [mbind outcome_bind]. eexists. split; [done|]. unfold RelayHeaderSize.
  rewrite <- (take_drop 8 (sendBuf sp)), put_header by (rewrite length_take; lia).
  rewrite <- (take_drop (length payload) (drop 8 (sendBuf sp))).
  rewrite copy_at_mid; [|by autorewrite with wire|rewrite length_take, length_drop; lia].
  rewrite app_assoc, take_app_exact; [done|]. autorewrite with wire. lia.
Qed.

(** A player whose packet is ready. *)
Record ready (payload : bytes) (sp : simPlayer) (s : Sim) : Prop := {
  rd_sender : si_sender s = Some (RelayHeaderSize + len payload);
  rd_receiver : si_receiver s = true;
  rd_id : playerID (si_player s) = playerID sp;
  rd_conn : sim_conn (si_player s) = sim_conn sp;
  rd_packet : take (Z.to_nat (RelayHeaderSize + len payload)) (sendBuf (si_player s)) =
              broadcastPacket (playerID sp) payload;
  rd_zero : pktsSent (si_player s) = 0 /\ pktsRecv (si_player s) = 0 /\ bytesRecv (si_player s) = 0 }.

Definition fresh (sp : simPlayer) : Prop := sp = newSim (playerID sp) (sim_sessionID sp) (sim_conn sp).

Lemma startSims_ok pps payload ps :
  1 <= pps <= Time.Second -> len payload <= MaxRelayPayload -> Forall fresh ps ->
  exists sims, startSims pps payload ps = Ret (MkRun sims (MkGlobal 0 0 0 0) false false AtDuration) /\
    Forall2 (ready payload) ps sims.
Proof.
  intros Hp Hl Hf. unfold startSims.
  enough (exists sims, foldr (fun sp acc => '(sp, size) ← sendInit pps payload sp;
      rest ← acc; Ret (MkRunSim sp (Some size) true :: rest)) (Ret []) ps = Ret sims /\
    Forall2 (ready payload) ps sims) as (sims & -> & H) by (exists sims; done).
  induction Hf as [|sp ps Hs Hf IH]; [by exists []|]. destruct IH as (sims & E & H). cbn [foldr].
  destruct (sendInit_ok pps payload sp Hp Hl) as (buf & -> & Hb).
  { rewrite Hs. cbn [newSim sendBuf]. by rewrite length_replicate. }
  cbn [mbind outcome_bind]. rewrite E. cbn [mbind outcome_bind]. eexists. split; [done|].
  constructor; [|done]. by split; try done; rewrite Hs.
Qed.

Lemma counted_start payload ps sims :
  Forall2 (ready payload) ps sims ->
  counted (RelayHeaderSize + len payload) (MkRun sims (MkGlobal 0 0 0 0) false false AtDuration).
Proof.
  intros H. assert (E : sumOf pktsSent sims = 0 /\ sumOf pktsRecv sims = 0 /\ sumOf bytesRecv sims = 0).
  { unfold sumOf. induction H as [|sp s ps sims [_ _ _ _ _ (H1 & H2 & H3)] _ IH]; [done|]. simpl. lia. }
  destruct E as (E1 & E2 & E3). split; simpl; rewrite ?E1, ?E2, ?E3, ?Z.mul_0_r; try done.
  clear -H. induction H as [|sp s ps sims [Hs _ _ _ _ _] _ IH]; constructor; auto.
Qed.

(** ** The end of a run *)

(** Sockets are closed when the senders have returned, and the summary is
    printed when the receivers have too. *)
Record ending (x : Stress) : Prop := {
  en_senders : x_main x = AtReceivers \/ x_main x = AtSummary -> sendersDone x = true;
  en_receivers : x_main x = AtSummary -> receiversDone x = true;
  en_cancelled : x_main x <> AtDuration -> x_cancelled x = true }.

Lemma forallb_insert {A} (f : A -> bool) l i y : forallb f l = true -> f y = true -> forallb f (<[i := y]> l) = true.
Proof.
  revert i; induction l as [|a l IH]; intros [|i] Hl Hy; simpl in *; try done; bool_facts.
  - by rewrite Hy.
  - rewrite H. simpl. auto.
Qed.

Lemma forallb_lookup {A} (f : A -> bool) l i y : forallb f l = true -> l !! i = Some y -> f y = true.
Proof. intros H Hi. rewrite forallb_forall in H. by eapply H, list_elem_of_In, list_elem_of_lookup_2. Qed.

Lemma ending_step e x : ending x -> ending (stressStep e x).
Proof.
  intros He. pose proof He as [H1 H2 H3].
  assert (Hins : forall i s s' g, x_sims x !! i = Some s ->
      (is_nil (si_sender s) = true -> is_nil (si_sender s') = true) ->
      (si_receiver s = false -> si_receiver s' = false) ->
      ending (MkRun (<[i := s']> (x_sims x)) g (x_cancelled x) (x_closed x) (x_main x))).
  { intros i s s' g Hi Hs Hr. split; simpl; try done.
    - intros Hm. specialize (H1 Hm). apply forallb_insert; [done|]. apply Hs.
      exact (forallb_lookup _ _ _ _ H1 Hi).
    - intros Hm. specialize (H2 Hm). apply forallb_insert; [done|]. apply negb_true_iff, Hr, negb_true_iff.
      exact (forallb_lookup (fun s => negb (si_receiver s)) _ _ _ H2 Hi). }
  destruct e as [i ok|i|i n|i| | |]; cbn [stressStep].
  - destruct (x_sims x !! i) as [[sp [sz|] rx]|] eqn:Ei; [|done..].
    destruct ok; by apply (Hins _ _ _ _ Ei).
  - destruct (x_sims x !! i) as [[sp [sz|] rx]|] eqn:Ei; [|done..]. destruct (x_cancelled x) eqn:Ec; [|done].
    unfold with_sims. rewrite Ec. by apply (Hins _ _ _ _ Ei).
  - destruct (x_sims x !! i) as [[sp tx []]|] eqn:Ei; [|done..]. destruct (x_closed x) eqn:Ec; [done|].
    by apply (Hins _ _ _ _ Ei).
  - destruct (x_sims x !! i) as [[sp tx []]|] eqn:Ei; [|done..]. destruct (x_cancelled x) eqn:Ec; [|done].
    unfold with_sims. rewrite Ec. by apply (Hins _ _ _ _ Ei).
  - by split.
  - destruct (x_main x) eqn:Em; [|done..]. split; simpl; naive_solver.
  - destruct (x_main x) eqn:Em; [destruct (x_cancelled x) eqn:E|destruct (sendersDone x) eqn:E|
      destruct (receiversDone x) eqn:E|]; try done; split; simpl; naive_solver.
Qed.

Lemma ending_run es x : ending x -> ending (stressRun es x).
Proof.
  revert x; induction es as [|e es IH]; intros x Hx; [done|]. cbn [stressRun foldl]. by apply IH, ending_step.
Qed.

(** A step that every goroutine of one kind takes, one player after the
    other. *)
Lemma each_returns (ev : nat -> StressEvent) (upd : Sim -> Sim) (d : Sim -> bool) :
  (forall k x s, x_cancelled x = true -> x_sims x !! k = Some s ->
     stressStep (ev k) x = with_sims (<[k := upd s]> (x_sims x)) x) ->
  (forall s, d (upd s) = true) ->
  forall n k x, x_cancelled x = true -> (k + n = length (x_sims x))%nat ->
  forallb d (take k (x_sims x)) = true ->
  exists l, stressRun (ev <$> seq k n) x = with_sims l x /\ length l = length (x_sims x) /\ forallb d l = true.
Proof.
  intros Hev Hd n. induction n as [|n IH]; intros k x Hc Hn Hk.
  { exists (x_sims x). split; [by destruct x|]. split; [done|]. by rewrite take_ge in Hk by lia. }
  destruct (lookup_lt_is_Some_2 (x_sims x) k) as [s Hs]; [lia|].
  change (stressRun (ev <$> seq k (S n)) x) with (stressRun (ev <$> seq (S k) n) (stressStep (ev k) x)).
  rewrite (Hev k x s Hc Hs).
  destruct (IH (S k) (with_sims (<[k := upd s]> (x_sims x)) x)) as (l & -> & Hl & Hdl); simpl;
    [done|rewrite length_insert; lia| |].
  - rewrite (take_S_r _ _ (upd s)) by (rewrite list_lookup_insert_eq; [done|lia]).
    rewrite forallb_app, take_insert_ge, Hk by lia. simpl. by rewrite Hd.
  - exists l. simpl in Hl. rewrite length_insert in Hl. done.
Qed.

Lemma senders_return x : x_cancelled x = true ->
  exists l, stressRun (EvSendDone <$> seq 0 (length (x_sims x))) x = with_sims l x /\
    length l = length (x_sims x) /\ forallb (fun s => is_nil (si_sender s)) l = true.
Proof.
  intros Hc. apply (each_returns _ (fun s => MkRunSim (si_player s) None (si_receiver s))); try done.
  intros k y s Hy Hs. cbn [stressStep]. rewrite Hs. destruct s as [sp [sz|] rx]; simpl; [by rewrite Hy|].
  rewrite list_insert_id by done. by destruct y.
Qed.

Lemma receivers_return x : x_cancelled x = true ->
  exists l, stressRun (EvRecvErr <$> seq 0 (length (x_sims x))) x = with_sims l x /\
    length l = length (x_sims x) /\ forallb (fun s => negb (si_receiver s)) l = true.
Proof.
  intros Hc. apply (each_returns _ (fun s => MkRunSim (si_player s) (si_sender s) false)); try done.
  intros k y s Hy Hs. cbn [stressStep]. rewrite Hs. destruct s as [sp tx []]; simpl; [by rewrite Hy|].
  rewrite list_insert_id by done. by destruct y.
Qed.

(** What is left to happen after the context is cancelled: every sender sees
    it, every receiver's read ends, and [main] goes on in between. *)
Definition finish (n : nat) : list StressEvent :=
  EvMain :: (EvSendDone <$> seq 0 n) ++ EvMain :: (EvRecvErr <$> seq 0 n) ++ [EvMain].

Lemma stressRun_app es1 es2 x : stressRun (es1 ++ es2) x = stressRun es2 (stressRun es1 x).
Proof. apply foldl_app. Qed.

(** How far [main] is, and what lets it go on. *)
Definition rank (m : MainAt) : Z :=
  match m with AtDuration => 0 | AtSenders => 1 | AtReceivers => 2 | AtSummary => 3 end.

Lemma main_goes_on k x :
  x_cancelled x = true -> k <= rank (x_main x) ->
  (k = 1 -> sendersDone x = true) -> (k = 2 -> receiversDone x = true) -> 0 <= k <= 2 ->
  exists g, stressStep EvMain x = MkRun (x_sims x) (x_stats x) true g (x_main (stressStep EvMain x)) /\
    k + 1 <= rank (x_main (stressStep EvMain x)).
Proof.
  intros Hc Hk Hs Hr Hb. destruct x as [sims st c cl main]. simpl in Hc. subst c. cbn [stressStep x_main x_cancelled] in *.
  destruct main; simpl in *.
  - exists cl. split; [done|simpl; lia].
  - destruct (sendersDone _) eqn:E; [exists true; split; [done|simpl; lia]|].
    exists cl. split; [done|]. simpl. destruct (decide (k = 1)) as [H|]; [by apply Hs in H|lia].
  - destruct (receiversDone _) eqn:E; [exists cl; split; [done|simpl; lia]|].
    exists cl. split; [done|]. simpl. destruct (decide (k = 2)) as [H|]; [by apply Hr in H|lia].
  - exists cl. split; [done|simpl; lia].
Qed.

Lemma finish_main x : x_cancelled x = true ->
  x_main (stressRun (finish (length (x_sims x))) x) = AtSummary.
Proof.
  intros Hc. set (n := length (x_sims x)).
  change (stressRun (finish n) x) with
    (stressRun ((EvSendDone <$> seq 0 n) ++ [EvMain] ++ (EvRecvErr <$> seq 0 n) ++ [EvMain]) (stressStep EvMain x)).
  rewrite !stressRun_app.
  destruct (main_goes_on 0 x Hc) as (g1 & E1 & R1); [destruct (x_main x); simpl; lia|lia..|]. rewrite E1.
  set (m1 := x_main (stressStep EvMain x)) in *. clearbody m1.
  destruct (senders_return (MkRun (x_sims x) (x_stats x) true g1 m1) eq_refl) as (l2 & E2 & L2 & D2).
  cbn [x_sims] in *. fold n in E2, L2. rewrite E2.
  set (x2 := with_sims l2 (MkRun (x_sims x) (x_stats x) true g1 m1)).
  destruct (main_goes_on 1 x2) as (g3 & E3 & R3); [done|done|done|lia|lia|].
  change (stressRun [EvMain] x2) with (stressStep EvMain x2). rewrite E3.
  set (m3 := x_main (stressStep EvMain x2)) in *. clearbody m3.
  destruct (receivers_return (MkRun (x_sims x2) (x_stats x2) true g3 m3) eq_refl) as (l4 & E4 & L4 & D4).
  cbn [x_sims] in *. change (x_sims x2) with l2 in *. rewrite L2 in E4. rewrite E4.
  set (x4 := with_sims l4 (MkRun l2 (x_stats x2) true g3 m3)).
  destruct (main_goes_on 2 x4) as (g5 & _ & R5); [done|done|lia|done|lia|].
  change (stressRun [EvMain] x4) with (stressStep EvMain x4). by destruct (x_main (stressStep EvMain x4)).
Qed.

Lemma summary_frozen e x : ending x -> x_main x = AtSummary ->
  x_stats (stressStep e x) = x_stats x /\ x_main (stressStep e x) = AtSummary.
Proof.
  intros [H1 H2 _] Hm. specialize (H1 (or_intror Hm)). specialize (H2 Hm).
  destruct e as [i ok|i|i n|i| | |]; cbn [stressStep]; rewrite ?Hm; try done.
  - destruct (x_sims x !! i) as [[sp [sz|] rx]|] eqn:Ei; [|done..].
    by pose proof (forallb_lookup _ _ _ _ H1 Ei).
  - destruct (x_sims x !! i) as [[sp [sz|] rx]|] eqn:Ei; [|done..]. by destruct (x_cancelled x).
  - destruct (x_sims x !! i) as [[sp tx []]|] eqn:Ei; [|done..].
    by pose proof (forallb_lookup _ _ _ _ H2 Ei).
  - destruct (x_sims x !! i) as [[sp tx []]|] eqn:Ei; [|done..]. by destruct (x_cancelled x).
Qed.

Lemma summary_frozen_run es x : ending x -> x_main x = AtSummary ->
  x_stats (stressRun es x) = x_stats x /\ x_main (stressRun es x) = AtSummary.
Proof.
  revert x; induction es as [|e es IH]; intros x He Hm; [done|]. cbn [stressRun foldl].
  destruct (summary_frozen e x He Hm) as [E1 E2].
  destruct (IH (stressStep e x) (ending_step e x He) E2) as [E3 E4]. unfold stressRun in *. by rewrite E3, E4.
Qed.

(** ** Theorems: counters and end *)

(** The counters of the load generator add up.  Whatever the goroutines
    do, the totals are the sums of the players' counters, and the bytes sent
    are the packets sent times the size of a packet (all modulo 2^64). *)
Theorem stress_counters (pps : Z) (payload : bytes) (ps : list simPlayer) (x : Stress) (es : list StressEvent) :
  Forall fresh ps -> len payload <= MaxRelayPayload -> 1 <= pps <= Time.Second ->
  startSims pps payload ps = Ret x ->
  let x' := stressRun es x in
  totalPktsSent (x_stats x') = u64 (sumOf pktsSent (x_sims x')) /\
  totalPktsRecv (x_stats x') = u64 (sumOf pktsRecv (x_sims x')) /\
  totalBytesRecv (x_stats x') = u64 (sumOf bytesRecv (x_sims x')) /\
  totalBytesSent (x_stats x') = u64 ((RelayHeaderSize + len payload) * totalPktsSent (x_stats x')).
Proof.
  intros Hf Hl Hp E. destruct (startSims_ok pps payload ps Hp Hl Hf) as (sims & E' & Hr).
  rewrite E in E'. simplify_eq. apply counted_start in Hr.
  destruct (counted_run (RelayHeaderSize + len payload) es _ ltac:(unfold RelayHeaderSize; lia) Hr) as [H1 H2 H3 H4 _]. done.
Qed.

Definition demo_sims : list simPlayer :=
  [newSim 1 "stress-1" (MkAddrPort (Addr4 1) 5001); newSim 2 "stress-1" (MkAddrPort (Addr4 1) 5002)].
Definition demo_stress : Stress :=
  match startSims 30 [Byte.x2a] demo_sims with Ret x => x | Panic => MkRun [] (MkGlobal 0 0 0 0) false false AtDuration end.

Lemma stress_counters_witness :
  let x' := stressRun [EvTick 0 true; EvRecv 1 9; EvTick 1 true; EvTick 0 true] demo_stress in
  totalPktsSent (x_stats x') = u64 (sumOf pktsSent (x_sims x')) /\
  totalPktsRecv (x_stats x') = u64 (sumOf pktsRecv (x_sims x')) /\
  totalBytesRecv (x_stats x') = u64 (sumOf bytesRecv (x_sims x')) /\
  totalBytesSent (x_stats x') = u64 ((RelayHeaderSize + len [Byte.x2a]) * totalPktsSent (x_stats x')).
Proof.
  apply (stress_counters 30 [Byte.x2a] demo_sims demo_stress).
  - by repeat constructor.
  - by vm_compute.
  - unfold Time.Second. lia.
  - by vm_compute.
Defined.

(** A run ends, and its summary is final.  After any schedule, once the
    context is cancelled the senders, the receivers and [main] need only take
    their own next steps to reach the summary; and when [main] is there every
    goroutine has returned, so nothing that happens later changes a counter. *)
Theorem stress_shutdown (pps : Z) (payload : bytes) (ps : list simPlayer) (x : Stress) (es es' : list StressEvent) :
  Forall fresh ps -> len payload <= MaxRelayPayload -> 1 <= pps <= Time.Second ->
  startSims pps payload ps = Ret x ->
  let x1 := stressRun es x in
  (x_cancelled x1 = true ->
   x_main (stressRun (finish (length (x_sims x1))) x1) = AtSummary) /\
  (x_main x1 = AtSummary ->
   sendersDone x1 = true /\ receiversDone x1 = true /\ x_stats (stressRun es' x1) = x_stats x1).
Proof.
  intros Hf Hl Hp E x1. split; [apply finish_main|]. intros Hm.
  destruct (startSims_ok pps payload ps Hp Hl Hf) as (sims & E' & Hr). rewrite E in E'. simplify_eq.
  assert (He : ending x1) by (apply ending_run; split; simpl; naive_solver).
  pose proof He as [H1 H2 _]. split; [by apply H1; right|]. split; [by apply H2|].
  by apply summary_frozen_run.
Qed.

Lemma stress_shutdown_witness :
  let x1 := stressRun [EvTick 0 true; EvDuration; EvRecv 1 9] demo_stress in
  (x_cancelled x1 = true -> x_main (stressRun (finish (length (x_sims x1))) x1) = AtSummary) /\
  (x_main x1 = AtSummary ->
   sendersDone x1 = true /\ receiversDone x1 = true /\ x_stats (stressRun [EvTick 1 true] x1) = x_stats x1).
Proof.
  apply (stress_shutdown 30 [Byte.x2a] demo_sims demo_stress _ [EvTick 1 true]).
  - by repeat constructor.
  - by vm_compute.
  - unfold Time.Second. lia.
  - by vm_compute.
Defined.

(** ** Reports *)

(** The text of a quotient is right up to half a unit of its last digit, with
    a further error below 10^-4. *)
Definition shows (txt : bytes) (prec : nat) (n u : Z) (suffix : string) : Prop :=
  exists z, txt = fixed_text prec false z ++ str_bytes suffix /\ 0 <= z /\
    (Qabs (frac z (10 ^ Z.of_nat prec) - frac n u) <=
     (1 # 2) / inject_Z (10 ^ Z.of_nat prec) + (1 # 10000))%Q.

Lemma shows_near f prec n u k suffix :
  0 <= n <= 2 ^ 35 * u -> 0 < u -> 0 <= k <= 7 -> near (f_val f) (frac n u) k -> 0 <= f_mant f ->
  shows (fmtF prec f ++ str_bytes suffix) prec n u suffix.
Proof.
  intros Hn Hu Hk Hf Hm. exists (fixed prec f). rewrite fmtF_nonneg by done. split; [done|].
  split; [by apply fixed_sign|]. pose proof (inject_pos u Hu) as Huq.
  assert (Hy : (0 <= frac n u <= inject_Z (2 ^ 35))%Q).
  { split.
    - apply Qle_shift_div_l; [done|]. rewrite Qmult_0_l. apply (inject_le 0). lia.
    - apply Qle_shift_div_r; [done|]. rewrite <- inject_Z_mult. apply inject_le. lia. }
  pose proof (printed_error prec f _ _ k (proj1 Hk) Hf Hy) as He.
  eapply Qle_trans; [exact He|]. apply Qplus_le_r.
  apply Qle_trans with (inject_Z (2 ^ 35) * (inject_Z 7 * ulp))%Q; [|unfold ulp; discriminate].
  pose proof (inject_le k 7 (proj2 Hk)). rewrite !(Qmult_comm (inject_Z (2 ^ 35))).
  apply Qmult_le_compat_r; [|discriminate]. apply Qmult_le_compat_r; [done|discriminate].
Qed.

(** One division by a unit. *)
Lemma float_of_sign z : 0 <= z -> 0 <= f_mant (float_of z).
Proof. intros. apply round64_sign; lia. Qed.

Lemma div_unit x n u v k :
  0 <= k <= 5 -> 0 < u -> 0 < v <= 2 ^ 53 -> 0 <= f_mant x -> near (f_val x) (frac n u) k ->
  near (f_val (fdiv x (float_of v))) (frac n (u * v)) (k + 2) /\ 0 <= f_mant (fdiv x (float_of v)).
Proof.
  intros Hk Hu Hv Hs Hx. split.
  - pose proof (fdiv_int_near x (frac n u) v k ltac:(lia) Hv Hx) as H.
    assert ((frac n (u * v) == frac n u / inject_Z v)%Q) as ->; [|done].
    rewrite inject_Z_mult. pose proof (inject_pos u Hu). pose proof (inject_pos v ltac:(lia)).
    field. split; intros ?; lra.
  - apply fdiv_sign; [done|]. by apply float_of_pos.
Qed.

Lemma float_near_one n : near (f_val (float_of n)) (frac n 1) 1.
Proof.
  assert ((frac n 1 == inject_Z n)%Q) as -> by (unfold Qdiv; by rewrite Qmult_1_r). apply float_of_near.
Qed.

Lemma megabytes_near n : 0 <= n ->
  near (f_val (megabytes n)) (frac n (1024 * 1024)) 5 /\ 0 <= f_mant (megabytes n).
Proof.
  intros Hn. unfold megabytes.
  destruct (div_unit (float_of n) n 1 1024 1) as [H1 S1]; [lia|lia|lia|by apply float_of_sign|apply float_near_one|].
  destruct (div_unit _ n (1 * 1024) 1024 3 ltac:(lia) ltac:(lia) ltac:(lia) S1 H1) as [H2 S2]. done.
Qed.

(** The numbers in the reports are right.  A count below 1000, or a size
    below 1024 bytes, is printed exactly; a larger one is printed in the
    largest unit that fits, with the nearest decimal of one or two digits, up
    to a rounding error below 10^-4. *)
Theorem stress_reports (n : Z) : 0 <= n < 2 ^ 64 ->
  (n < 1000 -> formatNumber n = Itoa n) /\
  (1000 <= n < 1000000 -> shows (formatNumber n) 1 n 1000 " K") /\
  (1000000 <= n < 1000000000 -> shows (formatNumber n) 2 n 1000000 " Mio") /\
  (1000000000 <= n -> shows (formatNumber n) 2 n 1000000000 " Mrd") /\
  (n < 1024 -> formatBytes n = Itoa n ++ str_bytes " B") /\
  (1024 <= n < 1024 * 1024 -> shows (formatBytes n) 1 n 1024 " KB") /\
  (1024 * 1024 <= n < 1024 * 1024 * 1024 -> shows (formatBytes n) 2 n (1024 * 1024) " MB") /\
  (1024 * 1024 * 1024 <= n -> shows (formatBytes n) 2 n (1024 * 1024 * 1024) " GB").
Proof.
  intros Hn. pose proof (float_of_sign n ltac:(lia)) as Hs. pose proof (float_near_one n) as H1.
  assert (Hd : forall u prec suffix, 0 < u <= 2 ^ 53 -> n <= 2 ^ 35 * u ->
    shows (fmtF prec (fdiv (float_of n) (float_of u)) ++ str_bytes suffix) prec n u suffix).
  { intros u prec suffix Hu Hb. destruct (div_unit (float_of n) n 1 u 1 ltac:(lia) ltac:(lia) Hu Hs H1) as [Hf Hf'].
    apply (shows_near _ _ _ _ 3); [lia|lia|lia| |done]. rewrite Z.mul_1_l in Hf. exact Hf. }
  destruct (megabytes_near n ltac:(lia)) as [HM SM].
  unfold formatNumber, formatBytes. repeat split; intros Hr; decide_guards; try done.
  - apply Hd; lia.
  - apply Hd; lia.
  - apply Hd; lia.
  - apply Hd; lia.
  - apply (shows_near _ _ _ _ 5); [lia|lia|lia|done|done].
  - destruct (div_unit _ n (1024 * 1024) 1024 5 ltac:(lia) ltac:(lia) ltac:(lia) SM HM) as [H2 S2].
    apply (shows_near _ _ _ _ 7); [lia|lia|lia|done|done].
Qed.

Lemma stress_reports_witness :
  shows (formatNumber 1234567890123) 2 1234567890123 1000000000 " Mrd" /\
  shows (formatBytes 123456789) 2 123456789 (1024 * 1024) " MB".
Proof.
  split; [apply (stress_reports 1234567890123)|apply (stress_reports 123456789)]; lia.
Defined.

Example stress_reports_texts :
  (formatNumber 999999, formatNumber 1234567890123, formatBytes 123456789) =
  (str_bytes "1000.0 K", str_bytes "1234.57 Mrd", str_bytes "117.74 MB").
Proof. by vm_compute. Qed.

(** ** Bad arguments *)

(** Which arguments crash the load generator.  Before the ramp-up it
    panics exactly when the relay's addresses are known, the payload is not too
    large, and the payload is negative or the number of sessions is zero; the
    goroutine of a sender panics exactly when the rate is not between one
    packet per second and one per nanosecond.  Too large a payload and a
    missing address exit with status 1 instead. *)
Theorem stress_bad_arguments (cfg : StressConfig) (a : StartAnswers) (random : nat -> bytes) (rate : Z)
    (payload : bytes) (sp : simPlayer) :
  (prepare cfg a random = Panic <->
   payloadSize cfg <= MaxRelayPayload /\ (payloadSize cfg < 0 \/ sessions cfg = 0) /\
   exists t udp http relay, relayTarget cfg a = Ok (t, udp, http) /\ resolve a udp = Some relay) /\
  (fresh sp -> sendInit rate payload sp = Panic <-> rate <= 0 \/ Time.Second < rate) /\
  (MaxRelayPayload < payloadSize cfg -> prepare cfg a random = Ret (Err 1)).
Proof.
  split_and!.
  - unfold prepare, rampDelay. destruct (Z.ltb_spec MaxRelayPayload (payloadSize cfg)); [naive_solver lia|].
    destruct (relayTarget cfg a) as [[[t udp] http]|]; [|naive_solver].
    destruct (resolve a udp) as [relay|] eqn:Er; [|naive_solver].
    destruct (Z.ltb_spec (payloadSize cfg) 0); [naive_solver lia|].
    destruct (Z.eqb_spec (sessions cfg) 0); simpl; naive_solver lia.
  - intros Hf. unfold sendInit, EncodeRelayHeader. rewrite Hf. cbn [newSim sendBuf].
    rewrite length_replicate. unfold MaxRelayPacket. cbn [Z.to_nat]. rewrite (proj2 (Z.ltb_ge _ 8)) by (simpl; lia).
    destruct (Z.eqb_spec rate 0); [split; [lia|done]|].
    assert (Hq : Z.quot Time.Second rate <= 0 <-> rate <= 0 \/ Time.Second < rate).
    { destruct (Z.le_gt_cases rate 0) as [Hr|Hr]; [split; [by left|intros _]|].
      - replace rate with (- (- rate)) by lia. rewrite Z.quot_opp_r by lia.
        assert (0 <= Z.quot Time.Second (- rate)) by (apply Z.quot_pos; unfold Time.Second; lia). lia.
      - rewrite Z.quot_div_nonneg by (unfold Time.Second; lia). split; intros H.
        + right. assert (Time.Second / rate = 0) by (pose proof (Z.div_pos Time.Second rate); unfold Time.Second in *; lia).
          apply Z.div_small_iff in H0; unfold Time.Second in *; lia.
        + rewrite Z.div_small by (unfold Time.Second in *; lia). lia. }
    destruct (Z.leb_spec (Z.quot Time.Second rate) 0); simpl; split; try done; try tauto.
    intros H0. apply Hq in H0. lia.
  - intros H. unfold prepare. by rewrite (proj2 (Z.ltb_lt _ _)) by done.
Qed.

Definition demo_answers : StartAnswers :=
  MkStart (Some 5000) (Some 5001) (fun _ => Some (MkAddrPort (Addr4 2130706433) 5000)).
Lemma stress_bad_arguments_witness :
  sendInit 0 [] (newSim 1 "s" AddrPort_zero) = Panic <-> 0 <= 0 \/ Time.Second < 0.
Proof.
  apply (stress_bad_arguments (MkStress 0 12 30 200 1 1 "" "" "") demo_answers (fun n => replicate n Byte.x00) 0 []
           (newSim 1 "s" AddrPort_zero)). done.
Defined.

(** [-sessions=0] crashes the tool. *)
Example stress_zero_sessions :
  stressMain ["-sessions=0"] demo_answers (fun n => replicate n Byte.x00) = Panic.
Proof. by vm_compute. Qed.

(** ** The players, whatever the network does *)

Section Ids.
Context {W : Type} (ops : NetOps W) (key remote : string) (cfg : StressConfig) (delay : Z).

(** After [k] players have been tried. *)
Record ramp_ok (k : Z) (r : Ramp W) : Prop := {
  rk_next : ra_next r = k + 1;
  rk_ids : Forall (fun sp => 1 <= playerID sp <= k) (ra_all r);
  rk_nodup : NoDup (playerID <$> ra_all r);
  rk_fresh : Forall fresh (ra_all r) }.

Lemma joinOne_ok sid k r :
  0 <= k < 2 ^ 32 - 2 -> ramp_ok k r -> ra_all r = ra_started r ++ ra_session r ->
  ramp_ok (k + 1) (joinOne ops key remote sid r) /\
  ra_all (joinOne ops key remote sid r) =
    ra_started (joinOne ops key remote sid r) ++ ra_session (joinOne ops key remote sid r).
Proof.
  intros Hk [H1 H2 H3 H4] Hs. unfold joinOne. cbn [ra_world].
  assert (Hn : u32 (ra_next r + 1) = k + 1 + 1) by (rewrite H1, u32_small; lia). rewrite Hn.
  assert (H2' : Forall (fun sp => 1 <= playerID sp <= k + 1) (ra_all r))
    by (eapply Forall_impl; [exact H2|]; simpl; lia).
  destruct (httpJoinSession ops key remote sid (ra_next r) _ (ra_world r)) as [w ok].
  destruct ok; simpl; [destruct (op_listen ops w) as [w' [conn|]]; simpl|]; split; try done.
  - split; cbn [ra_next ra_all]; [done| | |].
    + apply Forall_app. split; [done|]. apply Forall_singleton. simpl. lia.
    + rewrite fmap_app. apply NoDup_app. split; [done|]. split; [|apply NoDup_singleton].
      intros x Hx Hx'. apply list_elem_of_singleton in Hx'. simpl in Hx'. subst x.
      apply list_elem_of_fmap in Hx as (sp & E & Hin). rewrite Forall_forall in H2. specialize (H2 sp Hin). simpl in H2. lia.
    + apply Forall_app. split; [done|]. by apply Forall_singleton.
  - by rewrite Hs, app_assoc.
Qed.

Lemma joinMany_ok sid n k r :
  0 <= k -> k + Z.of_nat n < 2 ^ 32 - 1 -> ramp_ok k r -> ra_all r = ra_started r ++ ra_session r ->
  let r' := Nat.iter n (joinOne ops key remote sid) r in
  ramp_ok (k + Z.of_nat n) r' /\ ra_all r' = ra_started r' ++ ra_session r'.
Proof.
  intros Hk. induction n as [|n IH]; intros Hn Hr Hs; [by rewrite Z.add_0_r|].
  destruct (IH ltac:(lia) Hr Hs) as [H1 H2]. cbn [Nat.iter].
  replace (k + Z.of_nat (S n)) with (k + Z.of_nat n + 1) by lia. apply joinOne_ok; [lia|done|done].
Qed.

(** Fewer players have been tried when a session could not be created. *)
Lemma rampLoop_ok ss k r r' :
  0 <= k -> k + len ss * Z.max 0 (players cfg) < 2 ^ 32 - 1 -> ramp_ok k r -> ra_started r = ra_all r ->
  rampLoop ops key remote cfg delay ss r = Ret r' ->
  exists k', k <= k' <= k + len ss * Z.max 0 (players cfg) /\ ramp_ok k' r' /\ ra_started r' = ra_all r'.
Proof.
  revert k r; induction ss as [|s ss IH]; intros k r Hk Hb Hr Hs; cbn [rampLoop].
  { intros [= <-]. exists k. split; [|done]. simpl. lia. }
  destruct (op_done ops (ra_world r)); [intros [= <-]; exists k; split; [lia|done]|].
  unfold rampSession. destruct (httpCreateSession _ _ _ _ _ _) as [w ok]. destruct ok; cbn [negb].
  - destruct (Z.ltb_spec (players cfg) 0) as [|Hp]; [done|]. cbn [mbind outcome_bind].
    destruct (joinMany_ok (sessionName s) (Z.to_nat (players cfg)) k (MkRamp w (ra_next r) [] (ra_all r) (ra_started r)))
      as [H1 H2]; [done| |by destruct Hr|simpl; by rewrite Hs, app_nil_r|].
    { cbn [length] in Hb. lia. }
    set (r1 := Nat.iter _ _ _) in *. intros H.
    destruct (IH (k + players cfg)
      (if s + 1 <? sessions cfg then ra_with (op_sleep ops delay (ra_world
          (MkRamp (ra_world r1) (ra_next r1) (ra_session r1) (ra_all r1) (ra_started r1 ++ ra_session r1))))
         (MkRamp (ra_world r1) (ra_next r1) (ra_session r1) (ra_all r1) (ra_started r1 ++ ra_session r1))
       else MkRamp (ra_world r1) (ra_next r1) (ra_session r1) (ra_all r1) (ra_started r1 ++ ra_session r1)))
      as (k' & Hk' & H3 & H4); [lia| | | |done|].
    + cbn [length] in Hb. lia.
    + rewrite Z2Nat.id in H1 by lia. destruct H1. by destruct (_ <? _).
    + by destruct (_ <? _); simpl; rewrite H2.
    + exists k'. split; [cbn [length]; lia|done].
  - intros H. destruct (IH k (ra_with w r)) as (k' & Hk' & H3 & H4); [done| |by destruct Hr|done|done|].
    + cbn [length] in Hb. lia.
    + exists k'. split; [cbn [length]; lia|done].
Qed.
End Ids.

(** Player identifiers are unique.  Whatever the network does (requests
    that fail or are refused, sockets that cannot be opened, an interrupt), the
    players of a ramp-up have different identifiers between 1 and the number
    asked for, and each of them has been given its two goroutines. *)
Theorem stress_ids_unique {W} (ops : NetOps W) (key remote : string) (cfg : StressConfig) (delay : Z) (w : W)
    (r : Ramp W) :
  sessions cfg * Z.max 0 (players cfg) < 2 ^ 32 - 1 -> rampAll ops key remote cfg delay w = Ret r ->
  NoDup (playerID <$> ra_all r) /\ ra_started r = ra_all r /\ Forall fresh (ra_all r) /\
  Forall (fun sp => 1 <= playerID sp <= Z.max 0 (sessions cfg) * Z.max 0 (players cfg)) (ra_all r).
Proof.
  intros Hb E. unfold rampAll in E.
  assert (Hl : len (seqZ 0 (sessions cfg)) = Z.max 0 (sessions cfg)) by (rewrite length_seqZ; lia).
  assert (H0 : ramp_ok 0 (MkRamp w 1 [] [] [])) by (split; simpl; [done|constructor..]).
  assert (Hb' : 0 + len (seqZ 0 (sessions cfg)) * Z.max 0 (players cfg) < 2 ^ 32 - 1) by (rewrite Hl; nia).
  destruct (rampLoop_ok ops key remote cfg delay _ 0 _ _ ltac:(lia) Hb' H0 eq_refl E)
    as (k & Hk & [H1 H2 H3 H4] & Hs).
  split; [done|]. split; [done|]. split; [done|]. eapply Forall_impl; [exact H2|]. simpl. rewrite Hl in Hk. lia.
Qed.

(** A network on which every other request fails. *)
Definition flaky : NetOps nat :=
  MkNetOps nat (fun r n => (S n, if Nat.even n then Some (if bool_decide (rq_path r = "/sessions") then 201 else 200) else None))
    (fun n => (n, Some (MkAddrPort (Addr4 1) (Z.of_nat n)))) (fun _ _ n => n) (fun _ => false) (fun _ n => n).
Definition flaky_run : Ramp nat :=
  match rampAll flaky "" "" (MkStress 2 5 30 1 1 1 "" "" "") 1 0%nat with
  | Ret r => r | Panic => MkRamp 0%nat 0 [] [] [] end.
Lemma stress_ids_unique_witness :
  NoDup (playerID <$> ra_all flaky_run) /\ ra_started flaky_run = ra_all flaky_run /\
  Forall fresh (ra_all flaky_run) /\
  Forall (fun sp => 1 <= playerID sp <= Z.max 0 2 * Z.max 0 5) (ra_all flaky_run).
Proof.
  apply (stress_ids_unique flaky "" "" (MkStress 2 5 30 1 1 1 "" "" "") 1 0%nat); [simpl; lia|by vm_compute].
Defined.
