(* ===== verification/StressRun.v ===== *)
(** * The load generator against the relay server

    The network of [StressTest] implemented by the relay server itself
    ([cmd/stress-test/main.go] with its embedded server): requests are served by
    the HTTP API, datagrams by the UDP loop, and while the ramp-up goes on the
    players that are ready already send.  The ramp-up registers everybody, and
    afterwards each player receives what the other players of its session sent,
    less what the server's rate limit refused.  The server's reaper is left
    out. *)

From stdpp Require Import pretty.
From S2P Require Import Prelude GoLib RelayWire Metrics Session SessionManager ManagerSpec Router HttpApi ServerLoop.
From S2P Require Import GoText Registration StressTest.

(** ** One player of the manager *)

(** The record of a player in the session it is registered in. *)
Definition player_of (pid : Z) (m : Manager) : option PlayerInfo :=
  l ← FindSessionByPlayer pid m; Session.players (deref l m) !! pid.

Lemma player_of_same m m' pid : same_sessions m m' -> player_of pid m' = player_of pid m.
Proof.
  intros H. unfold player_of, FindSessionByPlayer. rewrite (same_index _ _ H), (same_map _ _ H).
  destruct (m_index m !! pid); [|done]. destruct (m_sessions m !! s); [|done]. simpl.
  by rewrite (same_deref _ _ _ H).
Qed.

Lemma FindSession_udp l q addr now m pid :
  FindSessionByPlayer pid (udpUpdate l q addr now m).1 = FindSessionByPlayer pid m.
Proof. unfold udpUpdate, FindSessionByPlayer. by destruct (UpdatePlayerAddr _ _ _ _). Qed.

(** A packet changes the record of its sender only. *)
Lemma player_of_udp_other l q addr now m pid :
  q <> pid -> player_of pid (udpUpdate l q addr now m).1 = player_of pid m.
Proof.
  intros Hne. unfold player_of. rewrite FindSession_udp. destruct (FindSessionByPlayer pid m) as [l'|]; [|done].
  simpl. destruct (decide (l' = l)) as [->|Hl].
  - destruct (deref_udpUpdate l q addr now m) as [-> _]. by apply UpdatePlayerAddr_other.
  - unfold udpUpdate. destruct (UpdatePlayerAddr q addr now (deref l m)) as [s v]. unfold deref. simpl.
    by rewrite lookup_insert_ne by congruence.
Qed.

Lemma player_of_udp_self l q addr now m :
  FindSessionByPlayer q m = Some l ->
  player_of q (udpUpdate l q addr now m).1 = Session.players (UpdatePlayerAddr q addr now (deref l m)).1 !! q.
Proof.
  intros Hf. unfold player_of. rewrite FindSession_udp, Hf. simpl. by destruct (deref_udpUpdate l q addr now m) as [-> _].
Qed.

Lemma player_of_create id n now m pid :
  mgr_ok m -> m_sessions m !! id = None -> player_of pid (CreateSession id n now m).1 = player_of pid m.
Proof.
  intros Hm Hid. unfold CreateSession. rewrite Hid. case_match; [done|]. unfold player_of, FindSessionByPlayer. simpl.
  destruct (m_index m !! pid) as [sid|] eqn:Ei; [|done].
  apply (inv_index m Hm) in Ei as (l & s & [H1 H2] & _).
  rewrite lookup_insert_ne by congruence. rewrite H1. simpl. unfold deref. simpl.
  rewrite lookup_insert_ne; [done|]. intros E. pose proof (inv_fresh m Hm l ltac:(by eexists)). lia.
Qed.

(** A player that is new to the manager. *)
Lemma player_of_join sid pid login m m' :
  mgr_ok m -> m_index m !! pid = None -> AddPlayerToSession sid pid login m = (m', None) ->
  forall q, player_of q m' = if decide (q = pid) then Some (new_player pid login) else player_of q m.
Proof.
  intros Hm Hi. unfold AddPlayerToSession, leaveOld. rewrite Hi.
  destruct (m_sessions m !! sid) as [l|] eqn:El; [|done].
  destruct (_ <=? _); [done|]. unfold AddPlayer.
  destruct (Session.players (deref l m) !! pid) eqn:Ep; [done|]. destruct (_ <=? _); [done|].
  intros [= <-] q. unfold player_of, FindSessionByPlayer. simpl. rewrite lookup_insert.
  case_decide as Hq; case_decide as Hq'; try congruence.
  - rewrite El. simpl. unfold deref at 1. simpl. rewrite lookup_insert_eq. simpl. by subst; rewrite lookup_insert_eq.
  - destruct (m_index m !! q) as [sid'|]; [|done]. destruct (m_sessions m !! sid') as [l'|]; [|done]. simpl.
    unfold deref at 1. simpl. rewrite lookup_insert. case_decide as Hl; [|done]. subst l'. simpl.
    by rewrite lookup_insert_ne by congruence.
Qed.

(** ** Requests within the limits *)

(** At most [k] requests have been counted, of [R] that are allowed. *)
Record within (key : string) (R k : Z) (a : HTTPAPI) : Prop := {
  wi_key : a_apiKey a = "" \/ a_apiKey a = key;
  wi_max : maxRate (a_rateLimit a) = R /\ a_perIPRate a = R;
  wi_count : 0 <= rl_count (a_rateLimit a) <= k;
  wi_ip : map_Forall (fun _ b => 0 <= ib_count b <= k) (a_perIP a) }.

Lemma rl_Allow_within now rl k R :
  0 <= rl_count rl <= k -> k < R < 2 ^ 64 -> maxRate rl = R ->
  0 <= rl_count (rl_Allow now rl).1 <= k + 1 /\ (rl_Allow now rl).2 = true /\ maxRate (rl_Allow now rl).1 = R.
Proof.
  intros Hc Hk HR. unfold rl_Allow. cbn [fst snd rl_count maxRate]. rewrite HR.
  destruct (negb _); rewrite u64_small by lia; split_and!; try done; try lia; apply Z.leb_le; lia.
Qed.

Lemma ip_Allow_within ip R now (l : perIPLimit) k :
  map_Forall (fun _ b => 0 <= ib_count b <= k) l -> 0 <= k < R -> R < 2 ^ 64 ->
  map_Forall (fun _ b => 0 <= ib_count b <= k + 1) (ip_Allow ip R now l).1 /\ (ip_Allow ip R now l).2 = true.
Proof.
  intros Hl Hk HR. unfold ip_Allow. cbv zeta. set (l' := if _ <? _ then _ else l).
  assert (Hl' : map_Forall (fun _ b => 0 <= ib_count b <= k) l').
  { subst l'. destruct (_ <? _); [|done]. intros i b Hb%map_lookup_filter_Some. by apply (Hl i), Hb. }
  clearbody l'. assert (Hb : 0 <= ib_count (default (MkBucket 0 0) (l' !! ip)) <= k).
  { destruct (l' !! ip) as [b|] eqn:E; simpl; [|lia]. exact (Hl' _ _ E). }
  cbn [fst snd]. destruct (negb _); rewrite u64_small by lia; (split; [|apply Z.leb_le; lia]);
    (apply map_Forall_insert_2; [simpl; lia|eapply map_Forall_impl; [exact Hl'|]; simpl; lia]).
Qed.

Lemma served_within ρ r key R k nowL nowI nowC a :
  rq_method r = POST -> rq_auth r = bearer key -> 0 <= k < R -> R < 2 ^ 64 -> within key R k a ->
  within key R (k + 1) (ServeHTTP ρ r nowL nowI nowC a).1 /\
  a_sm (ServeHTTP ρ r nowL nowI nowC a).1 = (mux ρ r nowC (a_sm a)).1 /\
  (ServeHTTP ρ r nowL nowI nowC a).2 = (mux ρ r nowC (a_sm a)).2.
Proof.
  intros Hm Ha Hk HR [H1 [H2 H2'] H3 H4]. unfold ServeHTTP. rewrite Hm, bool_decide_eq_false_2 by done. cbn [negb].
  assert (Hkey : checkAPIKey r a = true).
  { unfold checkAPIKey. destruct (bool_decide_reflect (a_apiKey a = "")) as [|Hne]; [done|].
    destruct H1 as [|H1]; [done|]. rewrite Ha, H1. unfold bearer. rewrite (bool_decide_eq_false_2 (key = "")) by congruence.
    by apply bool_decide_eq_true_2. }
  rewrite Hkey. cbn [negb]. destruct (rl_Allow_within nowL (a_rateLimit a) k R H3 ltac:(lia) H2) as (C1 & C2 & C3).
  destruct (rl_Allow nowL (a_rateLimit a)) as [rl ok]. simpl in C1, C2, C3. subst ok. cbn [negb].
  cbn [with_limits a_perIPRate a_perIP]. rewrite H2'.
  destruct (ip_Allow_within (extractClientIP r) R nowI (a_perIP a) k H4 Hk HR) as (D1 & D2).
  destruct (ip_Allow _ R nowI (a_perIP a)) as [ip ok]. simpl in D1, D2. subst ok. cbn [negb a_sm with_limits].
  destruct (mux ρ r nowC (a_sm a)) as [m resp]. split; [|done]. by split; simpl.
Qed.

(** The two requests of the ramp-up. *)
Definition createReq (key remote sid : string) (n : Z) : Request :=
  MkRequest POST "/sessions" remote (bearer key)
    (MkBody (Some (JObj [("max_players", jsonInt n); ("session_id", JStr sid)])) []).

Lemma createReq_call ρ key remote sid n now :
  sessionIDPattern sid = true -> 1 <= n <= 32 ->
  request_call ρ (createReq key remote sid n) now = Some (CallCreate sid n now).
Proof.
  intros Hs Hn. unfold request_call, createReq. cbn [rq_path rq_method rq_body].
  assert (Hd : decodeJSONBody create_fields ("", 0)
    (MkBody (Some (JObj [("max_players", jsonInt n); ("session_id", JStr sid)])) []) = Some (sid, n)).
  { unfold jsonInt. rewrite (proj2 (Z.ltb_ge n 0)), Z.abs_eq by lia. unfold decodeJSONBody, decode_members.
    cbn [b_value b_rest More].
    assert (E1 : create_fields "max_players" =
      Some (fun v '(id, n) => n' ← into_int v n; Some (id, n'))) by reflexivity.
    assert (E2 : create_fields "session_id" =
      Some (fun v '(id, n) => id' ← into_string v id; Some (id', n))) by reflexivity.
    rewrite E1, E2. cbn [mbind option_bind into_string]. unfold into_int. by decide_guards. }
  rewrite Hd. simpl. rewrite Hs. unfold maxSessionPlayers. rewrite (proj2 (Z.leb_gt n 0)), Z.min_l by lia. done.
Qed.

(** The size of a map whose keys are an interval. *)
Lemma size_interval {A} (t : gmap Z A) lo n :
  (forall k, is_Some (t !! k) <-> lo <= k < lo + n) -> 0 <= n -> Z.of_nat (size t) = n.
Proof.
  intros H Hn. assert (E : dom t = list_to_set (C := gset Z) (seqZ lo n)).
  { apply set_eq. intros k. rewrite elem_of_dom, H, elem_of_list_to_set, elem_of_seqZ. lia. }
  rewrite <- size_dom, E, size_list_to_set, length_seqZ by apply NoDup_seqZ. lia.
Qed.

Lemma sessionName_pattern s : 0 <= s < MaxTotalSessions -> sessionIDPattern (sessionName s) = true.
Proof.
  intros Hs. assert (H : forallb (fun s => sessionIDPattern (sessionName s)) (seqZ 0 MaxTotalSessions) = true)
    by by vm_compute. rewrite forallb_forall in H. apply H, list_elem_of_In, elem_of_seqZ. lia.
Qed.

Lemma sessionName_inj s t : sessionName s = sessionName t -> s = t.
Proof. unfold sessionName. intros E. simplify_eq. lia. Qed.

Lemma short_read (d : bytes) : len d <= 1400 -> take (Z.to_nat readBufSize) d = d.
Proof. intros H. apply take_ge. unfold readBufSize. lia. Qed.

Lemma seqZ_snoc a j : seqZ a (Z.of_nat j) ++ [a + Z.of_nat j] = seqZ a (Z.of_nat (Datatypes.S j)).
Proof.
  replace (Z.of_nat (Datatypes.S j)) with (Z.of_nat j + 1) by lia. by rewrite seqZ_app by lia.
Qed.

(** ** The world of the ramp-up *)

(** The server, the number of sockets opened and of players that have said
    hello, the number of operations so far, and what the server wrote. *)
Record World := MkWorld {
  w_srv : Running; w_socks : nat; w_hello : Z; w_ops : nat; w_mail : list Out; w_crashed : bool }.

Section WithServer.
Variable ρ : Shuffle.
Variable net : Net.
Hypothesis net_good : net_wf net.
(** The socket of the n-th call of [ListenUDP]. *)
Variable sock : nat -> AddrPort.
Hypothesis sock_valid : forall n, IsValid (sock n) = true.
(** The clock of the n-th operation. *)
Variable clock : nat -> Z.
(** The ticks (player and clock) the server handles before the n-th operation,
    and the packets' payload. *)
Variable ticks : nat -> list (Z * Z).
Variable payload : bytes.
Hypothesis payload_fits : len payload <= MaxRelayPayload.

(** A datagram arrives at the server. *)
Definition receive (d : bytes) (from : AddrPort) (now : Z) (w : World) : World :=
  match udpPacket net ρ (take (Z.to_nat readBufSize) d) from now (v_sm (w_srv w)) with
  | Ret (m, outs) => MkWorld (with_mgr m (w_srv w)) (w_socks w) (w_hello w) (w_ops w) (w_mail w ++ outs) (w_crashed w)
  | Panic => MkWorld (w_srv w) (w_socks w) (w_hello w) (w_ops w) (w_mail w) true
  end.

(** A tick of a player that has said hello; the others do not send yet. *)
Definition tick (w : World) (t : Z * Z) : World :=
  if (1 <=? t.1) && (t.1 <=? w_hello w)
  then receive (broadcastPacket t.1 payload) (sock (Z.to_nat (t.1 - 1))) t.2 w else w.

(** The next operation, after the traffic that comes before it. *)
Definition next (w : World) : World :=
  let w := foldl tick w (ticks (w_ops w)) in
  MkWorld (w_srv w) (w_socks w) (w_hello w) (S (w_ops w)) (w_mail w) (w_crashed w).

(** The network of the load generator, served by the embedded server.  The
    server's reaper, which would act every minute of the (arbitrary) clock, is
    not part of this composition: [ServerLoop] says when it spares a player. *)
Definition serverOps : NetOps World :=
  MkNetOps World
    (fun r w =>
       let now := clock (w_ops w) in
       let w := next w in
       let '(a, resp) := ServeHTTP ρ r now now now (v_api (w_srv w)) in
       (MkWorld (MkRunning a (v_pending (w_srv w))) (w_socks w) (w_hello w) (w_ops w) (w_mail w) (w_crashed w),
        Some (status resp)))
    (fun w =>
       let w := next w in
       (MkWorld (w_srv w) (S (w_socks w)) (w_hello w) (w_ops w) (w_mail w) (w_crashed w), Some (sock (w_socks w))))
    (fun conn d w =>
       let now := clock (w_ops w) in
       let w := receive d conn now (next w) in
       MkWorld (w_srv w) (w_socks w) (w_hello w + 1) (w_ops w) (w_mail w) (w_crashed w))
    (fun _ => false)
    (fun _ w => next w).

(** ** The invariant *)

Variable P : Z.
Hypothesis P_range : 1 <= P <= 32.

(** [S] sessions and [n] players are registered, the first [h] of which have
    said hello. *)
Record placed (S n h : Z) (m : Manager) : Prop := {
  pl_ok : mgr_ok m;
  pl_sessions : forall sid c, a_sessions (abs m) !! sid = Some c <->
    exists s, 0 <= s < S /\ sid = sessionName s /\ c = P;
  pl_where : forall pid, m_index m !! pid =
    if (1 <=? pid) && (pid <=? n) then Some (sessionName ((pid - 1) / P)) else None;
  pl_player : forall pid, 1 <= pid <= n -> exists p, player_of pid m = Some p /\ p_TCPConn p = None /\
    if pid <=? h then p_Addr p = sock (Z.to_nat (pid - 1)) else exists login, p = new_player pid login }.

Lemma same_placed S n h m m' : same_sessions m m' -> placed S n h m -> placed S n h m'.
Proof.
  intros Hs [H1 H2 H3 H4]. split.
  - by eapply mgr_ok_same.
  - intros sid c. rewrite <- H2. by rewrite (same_abs _ _ Hs).
  - intros pid. rewrite (same_index _ _ Hs). apply H3.
  - intros pid Hp. rewrite (player_of_same _ _ _ Hs). by apply H4.
Qed.

(** The session of a registered player. *)
Lemma placed_find S n h m pid : placed S n h m -> 1 <= pid <= n -> exists l p,
  FindSessionByPlayer pid m = Some l /\ Session.players (deref l m) !! pid = Some p /\ player_of pid m = Some p.
Proof.
  intros Hp Hr. destruct (pl_player _ _ _ _ Hp pid Hr) as (p & E & _). pose proof E as E'. unfold player_of in E'.
  destruct (FindSessionByPlayer pid m) as [l|]; [|done]. simpl in E'. eauto.
Qed.

(** A packet of a player from its own socket, accepted or not. *)
Lemma placed_udp S n h m pid now l :
  placed S n h m -> 1 <= pid <= h -> h <= n -> FindSessionByPlayer pid m = Some l ->
  placed S n h (udpUpdate l pid (sock (Z.to_nat (pid - 1))) now m).1.
Proof.
  clear payload_fits. intros Hp Hr Hn Hl. pose proof Hp as [H1 H2 H3 H4]. set (a := sock (Z.to_nat (pid - 1))).
  destruct (udpUpdate_abs l pid a now m) as (E1 & E2 & E3). split.
  - apply mgr_ok_udpUpdate; [done|]. by eapply FindSession_alloc.
  - intros sid c. rewrite E1. apply H2.
  - intros q. rewrite E3. apply H3.
  - intros q Hq. destruct (decide (q = pid)) as [->|Hne].
    + rewrite player_of_udp_self by done. destruct (H4 pid Hq) as (p & Ep & Ht & Ha).
      unfold player_of in Ep. rewrite Hl in Ep. simpl in Ep. rewrite (proj2 (Z.leb_le pid h)) in * by lia.
      unfold UpdatePlayerAddr. rewrite Ep. rewrite Ha.
      rewrite (bool_decide_eq_true_2 (_ = ap_addr a)), andb_false_r by done.
      destruct (CheckRate p (Time.Unix now)) as [p1 ok] eqn:Ec. unfold CheckRate in Ec. simplify_eq.
      destruct (_ <=? MaxPacketsPerSecond); simpl; rewrite lookup_insert_eq; eexists; (split; [done|]); done.
    + rewrite player_of_udp_other by congruence. by apply H4.
Qed.

Lemma packet_size pid : len (broadcastPacket pid payload) <= 1400.
Proof.
  unfold broadcastPacket, MaxRelayPayload, MaxRelayPacket, RelayHeaderSize in *. rewrite length_app, length_header. lia.
Qed.

Lemma broadcast_decode pid : 0 <= pid < 2 ^ 32 ->
  DecodeRelayHeader (broadcastPacket pid payload) = Ok (pid, BroadcastDest).
Proof. intros H. apply DecodeRelayHeader_app; [done|unfold BroadcastDest; lia]. Qed.

(** A tick keeps everybody in place. *)
Lemma placed_tick S n h m pid now :
  placed S n h m -> 1 <= pid <= h -> h <= n < 2 ^ 32 - 1 ->
  exists m' outs, udpPacket net ρ (take (Z.to_nat readBufSize) (broadcastPacket pid payload))
      (sock (Z.to_nat (pid - 1))) now m = Ret (m', outs) /\ placed S n h m'.
Proof.
  intros Hp Hr Hn. rewrite short_read by apply packet_size.
  destruct (udpPacket net ρ _ _ now m) as [[m' outs]|] eqn:E.
  - exists m', outs. split; [done|]. destruct (placed_find _ _ _ _ pid Hp ltac:(lia)) as (l & p & Hl & _).
    apply udpPacket_effect in E as [[_ E]|(q & d & l' & Hd & Hl' & E)]; [| |done].
    + by rewrite (E pid BroadcastDest) in Hl by (apply broadcast_decode; lia).
    + rewrite broadcast_decode in Hd by lia. simplify_eq. eapply same_placed; [exact E|].
      apply placed_udp; [done|lia|lia|done].
  - apply udpPacket_Panic in E as [E _]; [|done]. pose proof (packet_size pid). lia.
Qed.

(** The hello of the next player. *)
Lemma placed_hello S n h m now :
  placed S n h m -> 0 <= h < n -> n < 2 ^ 32 - 1 ->
  let pid := h + 1 in
  exists m', udpPacket net ρ (header pid pid) (sock (Z.to_nat h)) now m =
      Ret (m', [SendUDP (sock (Z.to_nat h)) (header pid pid)]) /\ placed S n pid m'.
Proof.
  intros Hp Hh Hn pid. destruct (placed_find _ _ _ _ pid Hp ltac:(subst pid; lia)) as (l & p & Hl & Hpl & Hpo).
  pose proof Hp as [H1 H2 H3 H4]. destruct (H4 pid ltac:(subst pid; lia)) as (p' & Ep & Ht & Ha).
  rewrite Hpo in Ep. simplify_eq. rewrite (proj2 (Z.leb_gt pid h)) in Ha by (subst pid; lia).
  destruct Ha as [login ->]. set (a := sock (Z.to_nat h)).
  assert (Hd : DecodeRelayHeader (header pid pid) = Ok (pid, pid)).
  { rewrite <- (app_nil_r (header pid pid)). apply DecodeRelayHeader_app; subst pid; lia. }
  rewrite udpPacket_unfold, Hd, Hl.
  assert (Hu : exists p2, (UpdatePlayerAddr pid a now (deref l m)) = (put_player pid p2 (deref l m), VerdictFirstAddr) /\
    p_Addr p2 = a /\ p_TCPConn p2 = None).
  { unfold UpdatePlayerAddr. rewrite Hpl. cbn [new_player p_Addr IsValid ap_addr AddrPort_zero Addr_IsValid andb].
    destruct (CheckRate (new_player pid login) (Time.Unix now)) as [p1 ok] eqn:Ec. unfold CheckRate in Ec.
    simpl in Ec. assert (ok = true /\ p_Addr p1 = AddrPort_zero /\ p_TCPConn p1 = None) as (-> & Ha1 & Ht1)
      by (destruct (negb _); simplify_eq; done).
    cbn [negb]. rewrite Ha1, Ht1. simpl. eexists. split; [done|]. done. }
  destruct Hu as (p2 & Hu & Ha2 & Ht2). destruct (udpUpdate_abs l pid a now m) as (E1 & E2 & E3).
  assert (Hm1 : placed S n pid (udpUpdate l pid a now m).1).
  { split.
    - apply mgr_ok_udpUpdate; [done|]. by eapply FindSession_alloc.
    - intros sid c. rewrite E1. apply H2.
    - intros q. rewrite E3. apply H3.
    - intros q Hq. destruct (decide (q = pid)) as [->|Hne].
      + rewrite player_of_udp_self, Hu by done. simpl. rewrite lookup_insert_eq. exists p2. split; [done|].
        rewrite (proj2 (Z.leb_le pid pid)) by lia. split; [done|]. rewrite Ha2. subst a pid. f_equal. lia.
      + rewrite player_of_udp_other by congruence. destruct (H4 q Hq) as (p' & Ep' & Ht' & Ha').
        exists p'. split; [done|]. split; [done|].
        destruct (Z.leb_spec q h), (Z.leb_spec q pid); try done; subst pid; lia. }
  destruct (udpUpdate l pid a now m) as [m1 v] eqn:Eu. unfold udpUpdate in Eu. rewrite Hu in Eu.
  injection Eu as <- <-. cbn [accepts]. rewrite Z.eqb_refl. eexists. split; [done|].
  eapply same_placed; [apply same_routed|exact Hm1].
Qed.

(** ** Creating a session, joining it *)

Lemma placed_nsessions S n h m : 0 <= S -> placed S n h m -> Z.of_nat (size (a_sessions (abs m))) = S.
Proof.
  intros HS [_ H2 _ _].
  assert (E : dom (a_sessions (abs m)) = list_to_set (C := gset string) (sessionName <$> seqZ 0 S)).
  { apply set_eq. intros sid. rewrite elem_of_dom, elem_of_list_to_set, list_elem_of_fmap. split.
    - intros [c Hc]. apply H2 in Hc as (s & Hs & -> & _). exists s. split; [done|]. apply elem_of_seqZ. lia.
    - intros (s & -> & Hs%elem_of_seqZ). exists P. apply H2. exists s. split; [lia|done]. }
  rewrite <- size_dom, E, size_list_to_set, length_fmap, length_seqZ; [lia|].
  apply NoDup_fmap_2; [intros ???; by apply sessionName_inj|apply NoDup_seqZ].
Qed.

Lemma placed_nplayers S n h m : 0 <= n -> placed S n h m -> Z.of_nat (size (m_index m)) = n.
Proof.
  intros Hn [_ _ H3 _]. apply (size_interval _ 1); [|done]. intros k. rewrite H3.
  destruct (_ && _) eqn:E; [bool_facts; split; [lia|by eexists]|].
  apply andb_false_iff in E. split; [by intros [? ?]|]. destruct E; bool_facts; lia.
Qed.

Lemma placed_nmembers S n h m : (S - 1) * P <= n <= S * P -> 1 <= S -> placed S n h m ->
  Z.of_nat (size (a_members (sessionName (S - 1)) (m_index m))) = n - (S - 1) * P.
Proof.
  intros Hn HS [_ _ H3 _]. apply (size_interval _ ((S - 1) * P + 1)); [|lia]. intros k. unfold a_members.
  assert (Hdiv : forall k, (k - 1) / P = S - 1 <-> (S - 1) * P + 1 <= k < S * P + 1)
    by (intros j; split; intros Hj; [pose proof (Z.div_mod (j - 1) P ltac:(lia)); pose proof (Z.mod_pos_bound (j - 1) P); nia|
          symmetry; apply (Z.div_unique_pos _ _ _ (j - 1 - (S - 1) * P)); lia]).
  split.
  - intros [sid [Hk Hs]%map_lookup_filter_Some]. rewrite H3 in Hk. destruct (_ && _) eqn:E; [|done].
    bool_facts. simpl in Hs. assert (Hk' : sessionName ((k - 1) / P) = sessionName (S - 1)) by congruence.
    apply sessionName_inj in Hk'. apply Hdiv in Hk'. lia.
  - intros Hk. exists (sessionName (S - 1)). apply map_lookup_filter_Some. split; [|done].
    rewrite H3, (proj2 (Z.leb_le 1 k)), (proj2 (Z.leb_le k n)) by nia. cbn [andb]. f_equal. f_equal. apply Hdiv. lia.
Qed.

Lemma placed_create S n h m now :
  placed S n h m -> 0 <= S < MaxTotalSessions ->
  (run_call (CallCreate (sessionName S) P now) m).2 = None /\
  placed (S + 1) n h (run_call (CallCreate (sessionName S) P now) m).1.
Proof.
  intros Hp HS. pose proof Hp as [H1 H2 H3 H4]. pose proof (refine_answer (CallCreate (sessionName S) P now) m H1) as E.
  pose proof (mgr_ok_call (CallCreate (sessionName S) P now) m H1) as Hm'.
  assert (Hno : a_sessions (abs m) !! sessionName S = None).
  { destruct (a_sessions (abs m) !! sessionName S) as [c|] eqn:Ec; [|done].
    apply H2 in Ec as (s & Hs & Hn%sessionName_inj & _). lia. }
  assert (Hno' : m_sessions m !! sessionName S = None)
    by (rewrite abs_lookup in Hno; by destruct (m_sessions m !! sessionName S)).
  cbn [spec_call] in E. unfold spec_create in E. rewrite Hno in E.
  rewrite (proj2 (Z.leb_gt _ _)) in E by (rewrite (placed_nsessions _ _ _ _ (proj1 HS) Hp); lia).
  pose proof (fun pid => player_of_create (sessionName S) P now m pid H1 Hno') as Hpo.
  assert (Hpo' : forall pid, player_of pid (run_call (CallCreate (sessionName S) P now) m).1 = player_of pid m).
  { intros pid. rewrite <- (Hpo pid). simpl. by destruct (CreateSession _ _ _ _). }
  destruct (run_call (CallCreate (sessionName S) P now) m) as [m' r]. cbn [fst snd] in *.
  injection E as Es Ew Er. split; [done|]. split; [done| | |].
  - intros sid c. change (a_sessions (abs m')) with ((fun l => MaxPlayers (deref l m')) <$> m_sessions m').
    rewrite <- Es, lookup_insert. case_decide as Hd.
    + subst sid. split; [intros [= <-]; exists S; split; [lia|done]|].
      intros (s & Hs & _ & ->). done.
    + rewrite H2. split; intros (s & Hs & -> & ->); exists s; (split; [|done]); [lia|].
      destruct (decide (s = S)) as [->|]; [done|lia].
  - intros pid. rewrite <- Ew. apply H3.
  - intros pid Hr. rewrite Hpo'. by apply H4.
Qed.

Lemma placed_join S n h m login :
  placed S n h m -> 1 <= S -> (S - 1) * P <= n < S * P -> 0 <= n < MaxTotalPlayers -> h <= n ->
  (run_call (CallJoin (sessionName (S - 1)) (n + 1) login) m).2 = None /\
  placed S (n + 1) h (run_call (CallJoin (sessionName (S - 1)) (n + 1) login) m).1.
Proof.
  intros Hp HS Hn Hlim Hh. pose proof Hp as [H1 H2 H3 H4]. set (sid := sessionName (S - 1)). set (pid := n + 1).
  pose proof (refine_answer (CallJoin sid pid login) m H1) as E. pose proof (mgr_ok_call (CallJoin sid pid login) m H1) as Hm'.
  assert (Hs : a_sessions (abs m) !! sid = Some P) by (apply H2; exists (S - 1); split; [lia|done]).
  assert (Hi : m_index m !! pid = None) by (rewrite H3, (proj2 (Z.leb_gt pid n)), andb_false_r by lia; done).
  cbn [spec_call] in E. unfold spec_join in E. rewrite Hs in E.
  change (a_where (abs m)) with (m_index m) in E. rewrite Hi, bool_decide_eq_false_2 in E by done.
  rewrite delete_id in E by done. cbv zeta in E.
  rewrite (placed_nplayers _ _ _ _ (proj1 Hlim) Hp) in E. rewrite (proj2 (Z.leb_gt _ n)) in E by lia.
  unfold sid in E. rewrite (placed_nmembers S n h m) in E by (done || lia). fold sid in E.
  rewrite (proj2 (Z.leb_gt P _)) in E by lia.
  pose proof (player_of_join sid pid login m (run_call (CallJoin sid pid login) m).1 H1 Hi) as Hpo.
  cbn [run_call] in *. destruct (AddPlayerToSession sid pid login m) as [m' r]. cbn [fst snd] in *.
  injection E as Es Ew Er. subst r. split; [done|]. specialize (Hpo eq_refl). split; [done| | |].
  - intros sid' c. change (a_sessions (abs m')) with ((fun l => MaxPlayers (deref l m')) <$> m_sessions m').
    rewrite <- Es. apply H2.
  - intros q. rewrite <- Ew, lookup_insert. case_decide as Hq.
    + subst q. rewrite (proj2 (Z.leb_le 1 pid)), (proj2 (Z.leb_le pid pid)) by lia. cbn [andb]. unfold sid.
      do 2 f_equal. apply (Z.div_unique_pos _ _ _ (n - (S - 1) * P)); lia.
    + rewrite H3. destruct (Z.leb_spec q n), (Z.leb_spec q pid); try done; lia.
  - intros q Hq. rewrite Hpo. case_decide as Hd.
    + subst q. exists (new_player pid login). split; [done|]. split; [done|].
      rewrite (proj2 (Z.leb_gt pid h)) by lia. by exists login.
    + apply H4. lia.
Qed.

(** ** The world during the ramp-up *)

Variable key : string.
Variable R : Z.
Hypothesis R_small : R < 2 ^ 64.

(** [S] sessions, [n] players, [socks] sockets, [h] hellos, [k] requests. *)
Record world_ok (S n h socks k : Z) (w : World) : Prop := {
  wo_placed : placed S n h (v_sm (w_srv w));
  wo_within : within key R k (v_api (w_srv w));
  wo_counts : w_hello w = h /\ Z.of_nat (w_socks w) = socks /\ w_crashed w = false;
  wo_echo : forall pid, 1 <= pid <= h ->
    SendUDP (sock (Z.to_nat (pid - 1))) (header pid pid) ∈ w_mail w }.

Lemma receive_ok S n h h' socks k d from now w m' outs :
  world_ok S n h socks k w ->
  udpPacket net ρ (take (Z.to_nat readBufSize) d) from now (v_sm (w_srv w)) = Ret (m', outs) ->
  placed S n h' m' -> (forall pid, h < pid <= h' ->
    SendUDP (sock (Z.to_nat (pid - 1))) (header pid pid) ∈ outs) ->
  world_ok S n h' socks k (MkWorld (w_srv (receive d from now w)) (w_socks (receive d from now w)) h'
    (w_ops (receive d from now w)) (w_mail (receive d from now w)) (w_crashed (receive d from now w))).
Proof.
  intros [H1 H2 (H3 & H4 & H5) H6] E Hp Ho. unfold receive. rewrite E. split; simpl; try done.
  - destruct H2. by split.
  - intros pid Hr. apply elem_of_app. destruct (Z.le_gt_cases pid h); [left; apply H6; lia|right; apply Ho; lia].
Qed.

Lemma tick_ok S n h socks k w t :
  h <= n < 2 ^ 32 - 1 -> world_ok S n h socks k w -> world_ok S n h socks k (tick w t).
Proof.
  intros Hn Hw. unfold tick. destruct (_ && _) eqn:E; [|done]. bool_facts.
  pose proof Hw as [Hp _ (Hh & _) _]. rewrite Hh in *.
  destruct (placed_tick S n h _ t.1 t.2 Hp ltac:(lia) Hn) as (m' & outs & Eu & Hp').
  pose proof (receive_ok S n h h _ _ _ _ _ _ _ _ Hw Eu Hp' ltac:(lia)) as Hr.
  destruct Hr as [A B (C & D & F) G]. split; try done.
  split; [|done]. unfold receive. by destruct (udpPacket _ _ _ _ _ _) as [[]|].
Qed.

Lemma next_ok S n h socks k w :
  h <= n < 2 ^ 32 - 1 -> world_ok S n h socks k w -> world_ok S n h socks k (next w).
Proof.
  intros Hn Hw. unfold next. set (ts := ticks (w_ops w)). clearbody ts.
  assert (H : world_ok S n h socks k (foldl tick w ts)).
  { revert w Hw; induction ts as [|t ts IH]; intros w Hw; [done|]. by apply IH, tick_ok. }
  destruct H as [A B (C & D & F) G]. by split.
Qed.

Variable remote : string.

(** A request that stands for a call of the manager. *)
Lemma do_ok S n h socks k w r c S' n' :
  h <= n < 2 ^ 32 - 1 -> 0 <= k < R -> world_ok S n h socks k w -> rq_method r = POST -> rq_auth r = bearer key ->
  request_call ρ r (clock (w_ops w)) = Some c ->
  (forall m, placed S n h m -> (run_call c m).2 = None /\ placed S' n' h (run_call c m).1) ->
  (op_do serverOps r w).2 = Some (call_status c None) /\ world_ok S' n' h socks (k + 1) (op_do serverOps r w).1.
Proof.
  intros Hn Hk Hw Hm Ha Hc Hstep. cbn [op_do serverOps]. pose proof (next_ok _ _ _ _ _ _ Hn Hw) as Hw1.
  set (now := clock (w_ops w)) in *. set (w1 := next w) in *. clearbody w1. destruct Hw1 as [A B (C & D & F) G].
  destruct (served_within ρ r key R k now now now (v_api (w_srv w1)) Hm Ha Hk R_small B) as (W1 & W2 & W3).
  destruct (ServeHTTP ρ r now now now (v_api (w_srv w1))) as [a resp]. cbn [fst snd] in *.
  pose proof (mux_call ρ r now (a_sm (v_api (w_srv w1)))) as Hmx. rewrite Hc in Hmx. destruct Hmx as [M1 M2].
  destruct (Hstep _ A) as [S1 S2]. split.
  - rewrite W3. unfold v_sm in *. by rewrite M2, S1.
  - split; simpl; try done. unfold v_sm in *. simpl. by rewrite W2, M1.
Qed.

(** The player with a given identifier. *)
Definition simOf (pid : Z) : simPlayer :=
  newSim pid (sessionName ((pid - 1) / P)) (sock (Z.to_nat (pid - 1))).

Lemma joinOne_placed S n k r :
  1 <= S <= MaxTotalSessions -> (S - 1) * P <= n < S * P -> 0 <= n < MaxTotalPlayers -> 0 <= k < R ->
  world_ok S n n n k (ra_world r) -> ra_next r = n + 1 ->
  let r' := joinOne serverOps key remote (sessionName (S - 1)) r in
  world_ok S (n + 1) (n + 1) (n + 1) (k + 1) (ra_world r') /\ ra_next r' = n + 2 /\
  ra_session r' = ra_session r ++ [simOf (n + 1)] /\ ra_all r' = ra_all r ++ [simOf (n + 1)] /\
  ra_started r' = ra_started r.
Proof.
  intros HS Hn Hlim Hk Hw Hnext. unfold joinOne, httpJoinSession, doHTTP. rewrite Hnext. cbn [ra_world].
  unfold MaxTotalPlayers in Hlim. set (login := "Bot" +:+ pretty (n + 1)).
  pose proof (sessionName_pattern (S - 1) ltac:(lia)) as Hpat.
  destruct (do_ok S n n n k (ra_world r) (joinRequest key remote (sessionName (S - 1)) (n + 1) login)
    (CallJoin (sessionName (S - 1)) (n + 1) login) S (n + 1)) as [D1 D2]; [lia|done|done|done|done| | |].
  { apply request_join; [done|lia]. }
  { intros m Hm. apply placed_join; [done|lia|done|unfold MaxTotalPlayers; lia|lia]. }
  unfold joinRequest, doRelayHTTP in D1, D2. destruct (op_do serverOps _ (ra_world r)) as [w1 st]. cbn [fst snd] in *.
  subst st. cbn [call_status Z.eqb Pos.eqb negb]. cbn [op_listen serverOps].
  pose proof (next_ok S (n + 1) n n (k + 1) w1 ltac:(lia) D2) as D3. set (w2 := next w1) in *.
  assert (D4 : world_ok S (n + 1) n (n + 1) (k + 1)
    (MkWorld (w_srv w2) (Datatypes.S (w_socks w2)) (w_hello w2) (w_ops w2) (w_mail w2) (w_crashed w2))).
  { destruct D3 as [A B (C & D & F) G]. split; try done.
    cbn [w_hello w_socks w_crashed]. split; [done|]. split; [lia|done]. }
  assert (Hsock : w_socks w2 = Z.to_nat n) by (destruct D3 as [_ _ (_ & D & _) _]; lia).
  rewrite Hsock in *. set (w3 := MkWorld _ _ _ _ _ _) in *. cbn [op_write serverOps].
  rewrite EncodeRelayPacket_Ok by done. rewrite app_nil_r.
  pose proof (next_ok S (n + 1) n (n + 1) (k + 1) w3 ltac:(lia) D4) as D5. set (w4 := next w3) in *.
  destruct (placed_hello S (n + 1) n _ (clock (w_ops w3)) (wo_placed _ _ _ _ _ _ D5) ltac:(lia) ltac:(lia))
    as (m' & Eu & Hp').
  rewrite <- (short_read (header (n + 1) (n + 1))) in Eu at 1 by (rewrite length_header; lia).
  pose proof (receive_ok _ _ _ (n + 1) _ _ _ _ _ _ _ _ D5 Eu Hp') as D6.
  assert (Hh : w_hello (receive (header (n + 1) (n + 1)) (sock (Z.to_nat n)) (clock (w_ops w3)) w4) + 1 = n + 1).
  { unfold receive. rewrite Eu. cbn [w_hello]. destruct D5 as [_ _ (C & _) _]. lia. }
  rewrite Hh. unfold simOf. replace (n + 1 - 1) with n by lia.
  assert (Hdiv : n / P = S - 1) by (symmetry; apply (Z.div_unique_pos _ _ _ (n - (S - 1) * P)); lia).
  rewrite Hdiv. split_and!; try done.
  - apply D6. intros pid Hpid. assert (pid = n + 1) as -> by lia. replace (n + 1 - 1) with n by lia.
    by apply list_elem_of_singleton.
  - cbn [ra_next]. rewrite u32_small; lia.
Qed.

Lemma joinMany_placed S k r j :
  let n := (S - 1) * P in
  1 <= S <= MaxTotalSessions -> Z.of_nat j <= P -> n + P <= MaxTotalPlayers -> 0 <= k -> k + P <= R ->
  world_ok S n n n k (ra_world r) -> ra_next r = n + 1 ->
  let r' := Nat.iter j (joinOne serverOps key remote (sessionName (S - 1))) r in
  let n' := n + Z.of_nat j in
  world_ok S n' n' n' (k + Z.of_nat j) (ra_world r') /\ ra_next r' = n' + 1 /\
  ra_session r' = ra_session r ++ (simOf <$> seqZ (n + 1) (Z.of_nat j)) /\
  ra_all r' = ra_all r ++ (simOf <$> seqZ (n + 1) (Z.of_nat j)) /\ ra_started r' = ra_started r.
Proof.
  intros n HS Hj Hlim Hk HkR Hw Hn. induction j as [|j IH]; cbv zeta in *.
  { simpl. rewrite !Z.add_0_r, !app_nil_r. done. }
  destruct (IH ltac:(lia)) as (H1 & H2 & H3 & H4 & H5).
  change (Nat.iter (Datatypes.S j) ?f r) with (f (Nat.iter j f r)).
  set (r1 := Nat.iter j _ r) in *.
  destruct (joinOne_placed S (n + Z.of_nat j) (k + Z.of_nat j) r1) as (G1 & G2 & G3 & G4 & G5);
    [done|subst n; lia|subst n; nia|lia|done|done|]. cbv zeta in *.
  replace (n + Z.of_nat (Datatypes.S j)) with (n + Z.of_nat j + 1) by lia.
  replace (k + Z.of_nat (Datatypes.S j)) with (k + Z.of_nat j + 1) by lia.
  rewrite <- seqZ_snoc, fmap_app, !app_assoc, <- H3, <- H4. cbn [fmap list_fmap].
  replace (n + 1 + Z.of_nat j) with (n + Z.of_nat j + 1) by lia.
  split; [done|].
  split; [rewrite G2; lia|]. by rewrite G5.
Qed.

Variable cfg : StressConfig.
Hypothesis cfg_players : StressTest.players cfg = P.
Variable delay : Z.

Lemma rampSession_placed s r :
  0 <= s < MaxTotalSessions -> (s + 1) * P <= MaxTotalPlayers -> (s + 1) * (P + 1) <= R ->
  world_ok s (s * P) (s * P) (s * P) (s * (P + 1)) (ra_world r) -> ra_next r = s * P + 1 ->
  ra_started r = ra_all r ->
  exists r', rampSession serverOps key remote cfg delay s r = Ret r' /\
    world_ok (s + 1) ((s + 1) * P) ((s + 1) * P) ((s + 1) * P) ((s + 1) * (P + 1)) (ra_world r') /\
    ra_next r' = (s + 1) * P + 1 /\ ra_all r' = ra_all r ++ (simOf <$> seqZ (s * P + 1) P) /\
    ra_started r' = ra_all r'.
Proof.
  intros Hs Hp HR Hw Hn Hst. unfold rampSession, httpCreateSession, doHTTP. rewrite cfg_players.
  destruct (do_ok s (s * P) (s * P) (s * P) (s * (P + 1)) (ra_world r) (createReq key remote (sessionName s) P)
    (CallCreate (sessionName s) P (clock (w_ops (ra_world r)))) (s + 1) (s * P)) as [D1 D2];
    [unfold MaxTotalPlayers in *; nia|nia|done|done|done| | |].
  { apply createReq_call; [by apply sessionName_pattern|done]. }
  { intros m Hm. by apply placed_create. }
  unfold createReq in D1, D2. destruct (op_do serverOps _ (ra_world r)) as [w1 st]. cbn [fst snd] in *. subst st.
  cbn [call_status Z.eqb Pos.eqb orb negb]. rewrite (proj2 (Z.ltb_ge P 0)) by lia.
  destruct (joinMany_placed (s + 1) (s * (P + 1) + 1) (MkRamp w1 (ra_next r) [] (ra_all r) (ra_started r)) (Z.to_nat P))
    as (H1 & H2 & H3 & H4 & H5); replace (s + 1 - 1) with s in * by lia; [lia|lia|lia|nia|lia|done|done|].
  cbv zeta in *. rewrite Z2Nat.id in * by lia. set (r1 := Nat.iter _ _ _) in *.
  replace (s * P + P) with ((s + 1) * P) in * by lia. replace (s * (P + 1) + 1 + P) with ((s + 1) * (P + 1)) in * by lia.
  eexists. split; [done|]. cbn [ra_all ra_session ra_started] in *.
  assert (Hall : ra_started r1 ++ ra_session r1 = ra_all r1) by (rewrite H5, H3, H4; by f_equal).
  assert (Hb : (s + 1) * P <= (s + 1) * P < 2 ^ 32 - 1) by (unfold MaxTotalPlayers in *; lia).
  destruct (_ <? _); cbn [ra_world ra_next ra_all ra_started ra_with op_sleep serverOps];
    (split; [try (apply next_ok; [done|]); done|done]).
Qed.

Lemma rampLoop_placed j s r :
  Z.of_nat j + s <= MaxTotalSessions -> 0 <= s -> (Z.of_nat j + s) * P <= MaxTotalPlayers ->
  (Z.of_nat j + s) * (P + 1) <= R ->
  world_ok s (s * P) (s * P) (s * P) (s * (P + 1)) (ra_world r) -> ra_next r = s * P + 1 ->
  ra_started r = ra_all r -> ra_all r = simOf <$> seqZ 1 (s * P) ->
  let N := (s + Z.of_nat j) * P in
  exists r', rampLoop serverOps key remote cfg delay (seqZ s (Z.of_nat j)) r = Ret r' /\
    (exists k, world_ok (s + Z.of_nat j) N N N k (ra_world r')) /\
    ra_all r' = simOf <$> seqZ 1 N /\ ra_started r' = ra_all r'.
Proof.
  revert s r; induction j as [|j IH]; intros s r HS Hs HP HR Hw Hn Hst Hall; cbv zeta.
  { rewrite seqZ_nil, Z.add_0_r by lia. cbn [rampLoop].
    exists r. split; [done|]. split; [by eexists|done]. }
  rewrite seqZ_cons by lia. cbn [rampLoop op_done serverOps].
  destruct (rampSession_placed s r) as (r1 & E & H1 & H2 & H3 & H4); [lia|nia|nia|done|done|done|].
  rewrite E. cbn [mbind outcome_bind]. replace (Z.pred (Z.of_nat (Datatypes.S j))) with (Z.of_nat j) by lia.
  replace (Z.succ s) with (s + 1) by lia.
  destruct (IH (s + 1) r1) as (r' & E' & H); [lia|lia|nia|nia|done|done|done| |].
  - rewrite H3, Hall, <- fmap_app. replace ((s + 1) * P) with (s * P + P) by lia. rewrite seqZ_app by nia.
    do 3 f_equal. lia.
  - exists r'. split; [done|]. by replace (s + Z.of_nat (Datatypes.S j)) with (s + 1 + Z.of_nat j) by lia.
Qed.
End WithServer.

(** ** Theorem: the ramp-up *)

(** The embedded server when the ramp-up starts. *)
Definition embedded (udpPort httpPort : Z) (logOk : bool) : World :=
  MkWorld (RelayServer.sv_run (RelayServer.NewServer (embeddedConfig udpPort httpPort) logOk)) 0 0 0 [] false.

Lemma placed_start sock P : placed sock P 0 0 0 (NewSessionManager zero_metrics).
Proof.
  split; [apply mgr_ok_new| | |lia].
  - intros sid c. simpl. rewrite fmap_empty, lookup_empty. split; [done|]. intros (s & Hs & _). lia.
  - intros pid. simpl. rewrite lookup_empty. destruct (Z.leb_spec 1 pid), (Z.leb_spec pid 0); try done; lia.
Qed.

Lemma embedded_ok sock P key u h logOk :
  world_ok sock P key 100000 0 0 0 0 0 (embedded u h logOk).
Proof.
  split; simpl; [apply placed_start| |done|lia]. split; simpl; [by left|done|done|apply map_Forall_empty].
Qed.

(** A ramp-up within the server's limits. *)
Record fits (cfg : StressConfig) : Prop := {
  fit_players : 1 <= StressTest.players cfg <= 32;
  fit_sessions : 0 <= StressTest.sessions cfg <= MaxTotalSessions;
  fit_total : StressTest.sessions cfg * StressTest.players cfg <= MaxTotalPlayers;
  fit_rate : StressTest.sessions cfg * (StressTest.players cfg + 1) <= 100000 }.

Lemma ramp_up_placed ρ net sock clock ticks payload cfg key remote delay u h logOk :
  net_wf net -> len payload <= MaxRelayPayload -> fits cfg ->
  let P := StressTest.players cfg in
  let N := StressTest.sessions cfg * P in
  exists r, rampAll (serverOps ρ net sock clock ticks payload) key remote cfg delay (embedded u h logOk) = Ret r /\
    (exists k, world_ok sock P key 100000 (StressTest.sessions cfg) N N N k (ra_world r)) /\
    ra_all r = simOf sock P <$> seqZ 1 N /\ ra_started r = ra_all r.
Proof.
  intros Hw Hp [F1 F2 F3 F4] P N. unfold rampAll.
  destruct (rampLoop_placed ρ net Hw sock clock ticks payload Hp P F1 key 100000 ltac:(lia) remote cfg eq_refl delay
    (Z.to_nat (StressTest.sessions cfg)) 0 (MkRamp (embedded u h logOk) 1 [] [] [])) as (r & E & Hk & Ha & Hs);
    rewrite ?Z2Nat.id in * by lia; rewrite ?Z.add_0_r, ?Z.add_0_l in *; try done; try lia.
  - apply embedded_ok.
  - exists r. done.
Qed.

(** C33. The ramp-up registers everybody.  Against its own server, with up to
    32 players in a session, 15000 sessions, 50000 players and 100000 requests,
    the ramp-up succeeds at every step, whatever the clock says, in whatever
    order the server ranges over its maps and whichever players already send
    in the meantime (the reaper of the server does not run): the players are the identifiers from 1 on, session by
    session, the server has exactly these players, each in its session and with
    the player's socket as its route, and has echoed each hello. *)
Theorem stress_ramp_up (ρ : Shuffle) (net : Net) (sock : nat -> AddrPort) (clock : nat -> Z)
    (ticks : nat -> list (Z * Z)) (payload : bytes) (cfg : StressConfig) (key remote : string) (delay u h : Z)
    (logOk : bool) :
  net_wf net -> len payload <= MaxRelayPayload -> fits cfg ->
  let P := StressTest.players cfg in
  let N := StressTest.sessions cfg * P in
  exists r, rampAll (serverOps ρ net sock clock ticks payload) key remote cfg delay (embedded u h logOk) = Ret r /\
    ra_all r = simOf sock P <$> seqZ 1 N /\ ra_started r = ra_all r /\ w_crashed (ra_world r) = false /\
    let m := v_sm (w_srv (ra_world r)) in
    mgr_ok m /\
    (forall pid, m_index m !! pid =
       if (1 <=? pid) && (pid <=? N) then Some (sessionName ((pid - 1) / P)) else None) /\
    Forall (fun sp => (exists p, player_of (playerID sp) m = Some p /\ p_Addr p = sim_conn sp /\ p_TCPConn p = None) /\
                      SendUDP (sim_conn sp) (header (playerID sp) (playerID sp)) ∈ w_mail (ra_world r)) (ra_all r).
Proof.
  intros Hw Hp Hf. cbv zeta.
  destruct (ramp_up_placed ρ net sock clock ticks payload cfg key remote delay u h logOk Hw Hp Hf)
    as (r & E & (k & [H1 H2 (H3 & H4 & H5) H6]) & Ha & Hs).
  exists r. split_and!; try done; try apply H1. rewrite Ha. apply Forall_fmap, Forall_forall.
  intros pid Hpid%elem_of_seqZ. simpl. split; [|apply H6; lia].
  destruct (pl_player _ _ _ _ _ _ H1 pid ltac:(lia)) as (p & Ep & Ht & Hadr).
  rewrite (proj2 (Z.leb_le pid _)) in Hadr by lia. eauto.
Qed.

Definition demo_cfg : StressConfig := MkStress 3 2 30 1 1 1 "" "" "".
Definition demo_sock (n : nat) : AddrPort := MkAddrPort (Addr4 2130706433) (40000 + Z.of_nat n).
Lemma demo_fits : fits demo_cfg.
Proof. split; unfold MaxTotalSessions, MaxTotalPlayers; simpl; lia. Qed.

Lemma stress_ramp_up_witness :
  exists r, rampAll (serverOps id_shuffle good_net demo_sock (fun n => Z.of_nat n) (fun n => [(1, Z.of_nat n); (2, 5)])
      [Byte.x2a]) "k" "127.0.0.1:9" demo_cfg 1 (embedded 5000 5001 true) = Ret r /\
    ra_all r = simOf demo_sock 2 <$> seqZ 1 6 /\ ra_started r = ra_all r /\ w_crashed (ra_world r) = false /\
    let m := v_sm (w_srv (ra_world r)) in
    mgr_ok m /\
    (forall pid, m_index m !! pid =
       if (1 <=? pid) && (pid <=? 6) then Some (sessionName ((pid - 1) / 2)) else None) /\
    Forall (fun sp => (exists p, player_of (playerID sp) m = Some p /\ p_Addr p = sim_conn sp /\ p_TCPConn p = None) /\
                      SendUDP (sim_conn sp) (header (playerID sp) (playerID sp)) ∈ w_mail (ra_world r)) (ra_all r).
Proof.
  apply (stress_ramp_up id_shuffle good_net demo_sock (fun n => Z.of_nat n) (fun n => [(1, Z.of_nat n); (2, 5)])
           [Byte.x2a] demo_cfg "k" "127.0.0.1:9" 1 5000 5001 true); [done|by vm_compute|exact demo_fits].
Defined.

(** ** Traffic *)

(** A datagram of the server arrives at the player whose socket it is for. *)
Definition deliver (x : Stress) (o : Out) : Stress :=
  match o with
  | SendUDP a d =>
      match list_find (fun s => sim_conn (si_player s) = a) (x_sims x) with
      | Some (i, _) => stressStep (EvRecv i (len d)) x
      | None => x
      end
  | _ => x
  end.

(** The ticker of player [i] fires: its packet goes to the server, and what the
    server sends arrives. *)
Definition trafficStep (net : Net) (ρ : Shuffle) (t : nat * Z) (m : Manager) (x : Stress) : outcome (Manager * Stress) :=
  match x_sims x !! t.1 with
  | Some (MkRunSim sp (Some size) _) =>
      '(m, outs) ← udpPacket net ρ (take (Z.to_nat readBufSize) (take (Z.to_nat size) (sendBuf sp))) (sim_conn sp) t.2 m;
      Ret (m, foldl deliver (stressStep (EvTick t.1 true) x) outs)
  | _ => Ret (m, x)
  end.
Fixpoint traffic (net : Net) (ρ : Shuffle) (ts : list (nat * Z)) (m : Manager) (x : Stress) : outcome (Manager * Stress) :=
  match ts with
  | [] => Ret (m, x)
  | t :: ts' => '(m, x) ← trafficStep net ρ t m x; traffic net ρ ts' m x
  end.

Section Traffic.
Variable ρ : Shuffle.
Variable net : Net.
Hypothesis net_good : net_wf net.
Hypothesis net_sends : forall a d, udp_ok net a d = true.
Variable sock : nat -> AddrPort.
Hypothesis sock_valid : forall n, IsValid (sock n) = true.
Variable payload : bytes.
Hypothesis payload_fits : len payload <= MaxRelayPayload.
Variables P S : Z.
Hypothesis P_range : 1 <= P <= 32.
Let N := S * P.
Hypothesis N_small : N < 2 ^ 32 - 1.
Hypothesis sock_inj : forall i j, (i < Z.to_nat N)%nat -> (j < Z.to_nat N)%nat -> sock i = sock j -> i = j.

(** The other players of a player's session. *)
Definition others (pid : Z) : list Z := filter (fun q => q <> pid) (seqZ ((pid - 1) / P * P + 1) P).

Lemma group_range pid : 1 <= pid <= N ->
  let lo := (pid - 1) / P * P + 1 in lo <= pid < lo + P /\ 1 <= lo /\ lo + P <= N + 1.
Proof.
  intros Hp lo. subst lo. pose proof (Z.div_mod (pid - 1) P ltac:(lia)). pose proof (Z.mod_pos_bound (pid - 1) P ltac:(lia)).
  assert (0 <= (pid - 1) / P < S) by (split; [apply Z.div_pos; lia|apply Z.div_lt_upper_bound; unfold N in *; lia]).
  unfold N in *. nia.
Qed.

Lemma others_length pid : 1 <= pid <= N -> Z.of_nat (length (others pid)) = P - 1.
Proof.
  intros Hp. destruct (group_range pid Hp) as [Hr _]. unfold others. set (lo := (pid - 1) / P * P + 1) in *.
  assert (E : seqZ lo P = seqZ lo (pid - lo) ++ [pid] ++ seqZ (pid + 1) (lo + P - pid - 1)).
  { replace P with ((pid - lo) + (1 + (lo + P - pid - 1))) at 1 by lia. rewrite !seqZ_app by lia. f_equal.
    replace (lo + (pid - lo)) with pid by lia. done. }
  assert (Hf : forall l, Forall (fun q => q <> pid) l -> filter (fun q => q <> pid) l = l)
    by (induction 1; [done|]; rewrite filter_cons_True by done; congruence).
  rewrite E, !filter_app, (Hf (seqZ lo _)), (Hf (seqZ (pid + 1) _)).
  - rewrite filter_cons_False, filter_nil, !length_app, !length_seqZ by naive_solver. simpl. lia.
  - apply Forall_forall. intros q Hq%elem_of_seqZ. lia.
  - apply Forall_forall. intros q Hq%elem_of_seqZ. lia.
Qed.

(** The members of a player's session, with their routes. *)
Lemma session_members m pid l :
  placed sock P S N N m -> 1 <= pid <= N -> FindSessionByPlayer pid m = Some l ->
  exists rec, map_to_list (Session.players (deref l m)) ≡ₚ (fun q => (q, rec q)) <$> seqZ ((pid - 1) / P * P + 1) P /\
    forall q, q ∈ seqZ ((pid - 1) / P * P + 1) P -> p_Addr (rec q) = sock (Z.to_nat (q - 1)) /\ p_TCPConn (rec q) = None.
Proof.
  intros [H1 H2 H3 H4] Hp Hl. destruct (group_range pid Hp) as (Hr & Hlo & Hhi).
  set (lo := (pid - 1) / P * P + 1) in *. set (sid := sessionName ((pid - 1) / P)).
  assert (Hsid : m_sessions m !! sid = Some l).
  { unfold FindSessionByPlayer in Hl. rewrite H3 in Hl. rewrite (proj2 (Z.leb_le 1 pid)), (proj2 (Z.leb_le pid N)) in Hl by lia. done. }
  assert (Hmem : forall q, is_Some (Session.players (deref l m) !! q) <-> lo <= q < lo + P).
  { intros q. rewrite <- (in_session_iff m sid l q H1 Hsid), H3. split.
    - destruct (_ && _) eqn:E; [|done]. bool_facts. intros Eq.
      assert (Eq' : sessionName ((q - 1) / P) = sessionName ((pid - 1) / P)) by (unfold sid in Eq; congruence).
      apply sessionName_inj in Eq'. subst lo. rewrite <- Eq'.
      pose proof (Z.div_mod (q - 1) P ltac:(lia)). pose proof (Z.mod_pos_bound (q - 1) P ltac:(lia)). lia.
    - intros Hq. rewrite (proj2 (Z.leb_le 1 q)), (proj2 (Z.leb_le q N)) by lia. cbn [andb]. unfold sid. do 2 f_equal.
      symmetry. apply (Z.div_unique_pos _ _ _ (q - lo)); subst lo; lia. }
  exists (fun q => default (new_player 0 "") (Session.players (deref l m) !! q)). split.
  - apply NoDup_Permutation; [apply NoDup_map_to_list|apply NoDup_fmap_2; [by intros ?? [=]|apply NoDup_seqZ]|].
    intros [q p]. rewrite elem_of_map_to_list, list_elem_of_fmap. split.
    + intros E. exists q. rewrite E. split; [done|]. apply elem_of_seqZ. assert (lo <= q < lo + P); [|lia].
      apply Hmem. by eexists.
    + intros (q' & [= <- ->] & Hq%elem_of_seqZ). destruct (proj2 (Hmem q) ltac:(lia)) as [p' Ep]. by rewrite Ep.
  - intros q Hq%elem_of_seqZ. destruct (H4 q ltac:(lia)) as (p & Ep & Ht & Ha). rewrite (proj2 (Z.leb_le q N)) in Ha by lia.
    unfold player_of in Ep. assert (Hf : FindSessionByPlayer q m = Some l).
    { unfold FindSessionByPlayer. rewrite H3, (proj2 (Z.leb_le 1 q)), (proj2 (Z.leb_le q N)) by lia. cbn [andb].
      replace ((q - 1) / P) with ((pid - 1) / P); [done|]. apply (Z.div_unique_pos _ _ _ (q - lo)); subst lo; lia. }
    rewrite Hf in Ep. simpl in Ep. by rewrite Ep.
Qed.

(** The writes of a broadcast to players that are all on UDP. *)
Lemma broadcast_outs pid data (s : Session) (rec : Z -> PlayerInfo) qs :
  map_to_list (Session.players s) ≡ₚ (fun q => (q, rec q)) <$> qs ->
  (forall q, q ∈ qs -> p_Addr (rec q) = sock (Z.to_nat (q - 1)) /\ p_TCPConn (rec q) = None) ->
  concat ((fun t => send_out t data) <$> ForEachOtherPlayerTarget ρ pid s) ≡ₚ
  (fun q => SendUDP (sock (Z.to_nat (q - 1))) data) <$> filter (fun q => q <> pid) qs.
Proof.
  intros Hl Hq. unfold ForEachOtherPlayerTarget.
  set (f := fun '(id, p) => if negb (id =? pid) then _ else None).
  assert (E : forall l, concat ((fun t => send_out t data) <$> omap f l) =
              l ≫= (fun qp => match f qp with Some t => send_out t data | None => [] end)).
  { induction l as [|x l IH]; [done|]. cbn [omap list_omap mbind list_bind].
    destruct (f x); [|by rewrite <- IH]. cbn [fmap list_fmap concat]. f_equal. exact IH. }
  rewrite E, (shuf_perm ρ), Hl. clear E Hl. induction qs as [|q qs IH]; [done|]. cbn [fmap list_fmap mbind list_bind].
  rewrite IH by (intros; apply Hq; by right). destruct (Hq q ltac:(by left)) as [Ha Ht].
  unfold f. destruct (Z.eqb_spec q pid) as [->|Hne]; cbn [negb].
  - by rewrite filter_cons_False by naive_solver.
  - rewrite Ha, Ht, sock_valid, filter_cons_True by done. unfold send_out. simpl. by rewrite sock_valid.
Qed.

Lemma count_all_metrics ts data m : (forall t, t ∈ ts -> t_TCPConn t = None /\ IsValid (t_UDPAddr t) = true) ->
  PacketsRateLimited (m_metrics (count_all net ts data m)) = PacketsRateLimited (m_metrics m) /\
  u64 (PacketsRouted (m_metrics (count_all net ts data m))) = u64 (PacketsRouted (m_metrics m) + len ts).
Proof.
  revert m; induction ts as [|t ts IH]; intros m Ht; [by rewrite Z.add_0_r|]. unfold count_all. cbn [foldl].
  destruct (Ht t ltac:(by left)) as [H1 H2].
  assert (Hs : send_ok net t data = true) by (unfold send_ok; rewrite H1, H2; apply net_sends). rewrite Hs.
  destruct (IH (count_send true data m) ltac:(intros; apply Ht; by right)) as [E1 E2]. unfold count_all in *.
  rewrite E1, E2. cbn [length]. simpl. split; [done|]. rewrite u64_add_l. f_equal. lia.
Qed.

(** One packet of a registered player. *)
Lemma tick_outs m pid now :
  placed sock P S N N m -> 1 <= pid <= N ->
  exists m' outs, udpPacket net ρ (broadcastPacket pid payload) (sock (Z.to_nat (pid - 1))) now m = Ret (m', outs) /\
    placed sock P S N N m' /\
    ((outs = [] /\ u64 (PacketsRateLimited (m_metrics m')) = u64 (PacketsRateLimited (m_metrics m) + 1) /\
      PacketsRouted (m_metrics m') = PacketsRouted (m_metrics m)) \/
     (outs ≡ₚ (fun q => SendUDP (sock (Z.to_nat (q - 1))) (broadcastPacket pid payload)) <$> others pid /\
      PacketsRateLimited (m_metrics m') = PacketsRateLimited (m_metrics m) /\
      u64 (PacketsRouted (m_metrics m')) = u64 (PacketsRouted (m_metrics m) + (P - 1)))).
Proof.
  intros Hp Hr. destruct (placed_tick ρ net net_good sock payload payload_fits P S N N m pid now Hp ltac:(lia) ltac:(lia))
    as (m' & outs & E & Hp'). rewrite short_read in E by by apply packet_size.
  exists m', outs. split; [done|]. split; [done|].
  rewrite udpPacket_unfold, broadcast_decode in E by lia.
  destruct (placed_find _ _ _ _ _ _ pid Hp Hr) as (l & p & Hl & Hpl & Hpo). rewrite Hl in E.
  set (a := sock (Z.to_nat (pid - 1))) in *.
  assert (Hm1 : placed sock P S N N (udpUpdate l pid a now m).1) by (apply placed_udp; [done|done|lia|done]).
  assert (Hme : m_metrics (udpUpdate l pid a now m).1 = m_metrics m)
    by (unfold udpUpdate; by destruct (UpdatePlayerAddr _ _ _ _)).
  pose proof (FindSession_udp l pid a now m pid) as Hl1. rewrite Hl in Hl1.
  assert (Hv : (udpUpdate l pid a now m).2 = VerdictOK \/ (udpUpdate l pid a now m).2 = VerdictRateLimited).
  { destruct (deref_udpUpdate l pid a now m) as [_ ->]. unfold UpdatePlayerAddr. rewrite Hpl.
    destruct (pl_player _ _ _ _ _ _ Hp pid Hr) as (p' & Ep' & Ht & Ha). rewrite Hpo in Ep'.
    injection Ep' as <-. rewrite (proj2 (Z.leb_le pid N)) in Ha by lia. fold a in Ha. rewrite Ha, bool_decide_eq_true_2, andb_false_r by done.
    destruct (CheckRate p (Time.Unix now)) as [p1 ok] eqn:Ec. unfold CheckRate in Ec. injection Ec as <- <-. simpl.
    rewrite Ha, (sock_valid (Z.to_nat (pid - 1)) : IsValid a = true). simpl. destruct (_ <=? _); auto. }
  destruct (udpUpdate l pid a now m) as [m1 v]. cbn [fst snd] in *. destruct Hv as [-> | ->]; cbn [accepts] in E.
  - rewrite (proj2 (Z.eqb_neq BroadcastDest pid)) in E by (unfold BroadcastDest; lia).
    unfold route in E. rewrite Z.eqb_refl in E. unfold broadcast in E. apply sendAll_Ret in E as [-> ->]; [|done].
    destruct (session_members m1 pid l Hm1 Hr Hl1) as (rec & Hlist & Hrec).
    pose proof (broadcast_outs pid (broadcastPacket pid payload) (deref l m1) rec _ Hlist Hrec) as Hout.
    fold (others pid) in Hout. right. split; [exact Hout|]. rewrite <- Hme.
    destruct (count_all_metrics (ForEachOtherPlayerTarget ρ pid (deref l m1)) (broadcastPacket pid payload) m1) as [E1 E2].
    + intros t Ht. apply elem_of_targets in Ht as (q & Hq & _ & Hu & Htc & _). apply elem_of_map_to_list in Hq.
      rewrite Hlist in Hq. apply list_elem_of_fmap in Hq as (q' & [= _ ->] & Hq').
      destruct (Hrec _ Hq') as [Ha' Ht']. rewrite Htc, Hu, Ha', Ht'. split; [done|apply sock_valid].
    + split; [done|]. rewrite E2. f_equal. f_equal. rewrite <- (others_length pid Hr).
      apply Permutation_length in Hout. rewrite broadcast_writes, length_fmap in Hout. by rewrite Hout.
  - simplify_eq. left. split; [done|]. simpl. rewrite Hme. split; [|done]. unfold u64. by rewrite Z.mod_mod by lia.
Qed.

(** ** The players while they send *)

Let size := RelayHeaderSize + len payload.

Record flying (x : Stress) : Prop := {
  fl_len : length (x_sims x) = Z.to_nat N;
  fl_sim : forall i s, x_sims x !! i = Some s -> si_sender s = Some size /\ si_receiver s = true /\
    sim_conn (si_player s) = sock i /\
    take (Z.to_nat size) (sendBuf (si_player s)) = broadcastPacket (Z.of_nat i + 1) payload;
  fl_open : x_closed x = false }.

Lemma flying_insert x i s sp g :
  flying x -> x_sims x !! i = Some s -> sim_conn sp = sim_conn (si_player s) -> sendBuf sp = sendBuf (si_player s) ->
  flying (MkRun (<[i := MkRunSim sp (si_sender s) (si_receiver s)]> (x_sims x)) g (x_cancelled x) (x_closed x) (x_main x)).
Proof.
  intros [H1 H2 H3] Hi Hc Hb. split; simpl; [by rewrite length_insert| |done].
  intros j s'. rewrite list_lookup_insert. case_decide as Hd; [|apply H2].
  intros [= <-]. destruct Hd as [-> _]. simpl. rewrite Hc, Hb. by apply H2.
Qed.

Lemma deliver_ok x pid d : flying x -> 1 <= pid <= N ->
  let i := Z.to_nat (pid - 1) in
  let x' := deliver x (SendUDP (sock i) d) in
  flying x' /\ x_stats x' = totalRx (len d) (x_stats x) /\
  exists sp tx, x_sims x !! i = Some (MkRunSim sp tx true) /\
    x_sims x' = <[i := MkRunSim (countRx (len d) sp) tx true]> (x_sims x).
Proof.
  intros Hf Hp. pose proof Hf as [H1 H2 H3]. cbv zeta. unfold deliver. set (i := Z.to_nat (pid - 1)).
  destruct (lookup_lt_is_Some_2 (x_sims x) i) as [s Hs]; [rewrite H1; lia|].
  destruct (list_find _ (x_sims x)) as [[j s']|] eqn:Ef.
  - apply list_find_Some in Ef as (Hj & Hc & _). destruct (H2 j s' Hj) as (Ht & Hr & Hc' & _).
    assert (j = i) as ->.
    { apply lookup_lt_Some in Hj. apply sock_inj; [lia|lia|congruence]. }
    rewrite Hs in Hj. injection Hj as <-. cbn [stressStep]. rewrite Hs, H3.
    destruct s as [sp tx rx]. simpl in Ht, Hr. subst rx. split; [|split; [done|by exists sp, tx]].
    rewrite <- H3. by apply (flying_insert x i (MkRunSim sp tx true)).
  - exfalso. eapply list_find_None in Ef. rewrite Forall_lookup in Ef.
    apply (Ef i s Hs). by destruct (H2 i s Hs) as (_ & _ & -> & _).
Qed.

(** How often player [i] is among the receivers. *)
Definition copies (i : nat) (qs : list Z) : Z := len (filter (fun q => Z.to_nat (q - 1) = i) qs).

(** What a player has counted, before and after [n] packets of [b] bytes. *)
Definition counts_more (s s' : Sim) (n b : Z) : Prop :=
  pktsSent (si_player s') = pktsSent (si_player s) /\
  u64 (pktsRecv (si_player s')) = u64 (pktsRecv (si_player s) + n) /\
  u64 (bytesRecv (si_player s')) = u64 (bytesRecv (si_player s) + b * n).

Lemma deliver_all x d qs outs :
  flying x -> Forall (fun q => 1 <= q <= N) qs ->
  outs ≡ₚ (fun q => SendUDP (sock (Z.to_nat (q - 1))) d) <$> qs ->
  let x' := foldl deliver x outs in
  flying x' /\ totalPktsSent (x_stats x') = totalPktsSent (x_stats x) /\
  u64 (totalPktsRecv (x_stats x')) = u64 (totalPktsRecv (x_stats x) + len qs) /\
  u64 (totalBytesRecv (x_stats x')) = u64 (totalBytesRecv (x_stats x) + len d * len qs) /\
  forall i s', x_sims x' !! i = Some s' ->
    exists s, x_sims x !! i = Some s /\ counts_more s s' (copies i qs) (len d).
Proof.
  intros Hf Hq Ho. cbv zeta. apply Permutation_map_inv in Ho as (rs & -> & Ho).
  assert (Hc : forall i, copies i qs = copies i rs) by (intros i; unfold copies; by rewrite Ho).
  setoid_rewrite Hc. rewrite Ho in Hq. rewrite (Permutation_length Ho). clear Ho Hc qs.
  revert x Hf. induction Hq as [|q rs Hr _ IH]; intros x Hf; cbn [map foldl].
  { rewrite Z.mul_0_r, !Z.add_0_r. split_and!; try done. intros i s' Hs. exists s'. split; [done|].
    unfold counts_more, copies. rewrite filter_nil, Z.mul_0_r, !Z.add_0_r. done. }
  destruct (deliver_ok x q d Hf Hr) as (Hf' & Es & sp & tx & Hs & Ex).
  destruct (IH _ Hf') as (A & B & C & D & F). split; [done|].
  rewrite B, C, D, Es. cbn [totalRx totalPktsSent totalPktsRecv totalBytesRecv length].
  rewrite !u64_add_l. split_and!; [done|f_equal; lia|f_equal; lia|].
  intros i s' (s1 & Hs1 & G1 & G2 & G3)%F. rewrite Ex in Hs1. apply list_lookup_insert_Some in Hs1.
  unfold copies in *. rewrite filter_cons. destruct Hs1 as [(<- & <- & _)|[Hne Hs1]].
  - exists (MkRunSim sp tx true). split; [done|]. rewrite decide_True by done. cbn [length].
    unfold counts_more. simpl in *. rewrite G1, G2, G3, !u64_add_l. split_and!; [done|f_equal; lia..].
  - exists s1. split; [done|]. rewrite decide_False by done. done.
Qed.

Lemma others_range pid : 1 <= pid <= N -> Forall (fun q => 1 <= q <= N) (others pid).
Proof.
  intros Hp. destruct (group_range pid Hp) as (_ & H1 & H2). apply Forall_forall. unfold others.
  intros q [_ Hq%elem_of_seqZ]%list_elem_of_filter. lia.
Qed.

(** Two players of one session, by their numbers from 0 on. *)
Definition mates (i j : nat) : Prop := i <> j /\ Z.of_nat i / P = Z.of_nat j / P.
#[export] Instance mates_dec i j : Decision (mates i j).
Proof. unfold mates. apply _. Defined.

Lemma copies_NoDup i qs : NoDup qs -> Forall (fun q => 1 <= q) qs ->
  copies i qs = if decide (Z.of_nat i + 1 ∈ qs) then 1 else 0.
Proof.
  intros Hnd. induction Hnd as [|q qs Hq _ IH]; intros Hr.
  { unfold copies. by rewrite filter_nil, decide_False by apply not_elem_of_nil. }
  apply Forall_cons in Hr as [Hq1 Hr]. specialize (IH Hr). unfold copies in *. rewrite filter_cons.
  destruct (decide (Z.to_nat (q - 1) = i)) as [Hqi|Hqi].
  - assert (q = Z.of_nat i + 1) as -> by lia. rewrite decide_False in IH by done.
    rewrite decide_True by (by left). cbn [length]. lia.
  - rewrite IH. apply decide_ext. rewrite elem_of_cons. split; [by right|]. intros [<-|]; [lia|done].
Qed.

Lemma copies_others i j : (j < Z.to_nat N)%nat ->
  copies i (others (Z.of_nat j + 1)) = if decide (mates i j) then 1 else 0.
Proof.
  intros Hj. set (pid := Z.of_nat j + 1). assert (Hp : 1 <= pid <= N) by lia. rewrite copies_NoDup.
  - apply decide_ext. unfold others, mates. rewrite list_elem_of_filter, elem_of_seqZ.
    replace (Z.of_nat j) with (pid - 1) by lia. destruct (group_range pid Hp) as (H1 & H2 & H3).
    set (lo := (pid - 1) / P * P + 1) in *.
    assert (Hdiv : Z.of_nat i / P = (pid - 1) / P <-> lo <= Z.of_nat i + 1 < lo + P).
    { subst lo. split; intros H; [|symmetry; apply (Z.div_unique_pos _ _ _ (Z.of_nat i - (pid - 1) / P * P)); lia].
      pose proof (Z.div_mod (Z.of_nat i) P ltac:(lia)). pose proof (Z.mod_pos_bound (Z.of_nat i) P ltac:(lia)).
      rewrite H in *. lia. }
    rewrite Hdiv. lia.
  - apply NoDup_filter, NoDup_seqZ.
  - eapply Forall_impl; [by apply others_range|]. simpl. lia.
Qed.

(** ** The balance *)

(** After the packets of [senders], of which the server let those of [passed]
    through. *)
Record balance (m0 : Manager) (senders passed : list nat) (m : Manager) (x : Stress) : Prop := {
  ba_placed : placed sock P S N N m;
  ba_flying : flying x;
  ba_passed : passed `sublist_of` senders;
  ba_sent : u64 (totalPktsSent (x_stats x)) = u64 (len senders);
  ba_recv : u64 (totalPktsRecv (x_stats x)) = u64 ((P - 1) * len passed);
  ba_bytes : u64 (totalBytesRecv (x_stats x)) = u64 (size * ((P - 1) * len passed));
  ba_limited : u64 (PacketsRateLimited (m_metrics m)) =
               u64 (PacketsRateLimited (m_metrics m0) + (len senders - len passed));
  ba_routed : u64 (PacketsRouted (m_metrics m)) = u64 (PacketsRouted (m_metrics m0) + (P - 1) * len passed);
  ba_each : forall i s, x_sims x !! i = Some s ->
    let n := len (filter (mates i) passed) in
    u64 (pktsSent (si_player s)) = u64 (len (filter (eq i) senders)) /\
    u64 (pktsRecv (si_player s)) = u64 n /\ u64 (bytesRecv (si_player s)) = u64 (size * n) }.

Lemma u64_idem a : u64 (u64 a) = u64 a.
Proof. unfold u64. by rewrite Z.mod_mod by lia. Qed.

Lemma u64_shift a b d : u64 a = u64 b -> u64 (a + d) = u64 (b + d).
Proof. intros H. by rewrite <- u64_add_l, H, u64_add_l. Qed.

Lemma size_packet pid : len (broadcastPacket pid payload) = size.
Proof. unfold broadcastPacket, size, RelayHeaderSize. rewrite length_app, length_header. lia. Qed.

Lemma balance_step m0 senders passed m x i now :
  balance m0 senders passed m x -> (i < Z.to_nat N)%nat ->
  exists m' x' more, trafficStep net ρ (i, now) m x = Ret (m', x') /\ more `sublist_of` [i] /\
    balance m0 (senders ++ [i]) (passed ++ more) m' x'.
Proof.
  intros [H1 H2 H3 H4 H5 H6 H7 H8 H9] Hi. pose proof H2 as [F1 F2 F3]. unfold trafficStep. cbn [fst snd].
  destruct (lookup_lt_is_Some_2 (x_sims x) i) as [s Hs]; [lia|]. rewrite Hs.
  destruct (F2 i s Hs) as (Ht & Hr & Hc & Hb). destruct s as [sp tx rx]. simpl in Ht, Hr, Hc, Hb. subst tx rx.
  set (pid := Z.of_nat i + 1) in *. assert (Hpid : 1 <= pid <= N) by lia.
  assert (Hsi : sock i = sock (Z.to_nat (pid - 1))) by (f_equal; lia).
  rewrite Hb, Hc, Hsi, short_read by by apply packet_size.
  destruct (tick_outs m pid now H1 Hpid) as (m' & outs & E & Hp' & Hcase). rewrite E. cbn [mbind outcome_bind].
  assert (Hx1 : stressStep (EvTick i true) x = MkRun (<[i := MkRunSim (countTx size sp) (Some size) true]> (x_sims x))
    (totalTx size (x_stats x)) (x_cancelled x) (x_closed x) (x_main x)) by (cbn [stressStep]; by rewrite Hs).
  rewrite Hx1. set (x1 := MkRun _ _ _ _ _).
  assert (Hf1 : flying x1) by (by apply (flying_insert x i (MkRunSim sp (Some size) true))).
  assert (Hlen : len (senders ++ [i]) = len senders + 1) by (rewrite length_app; simpl; lia).
  assert (Heach : forall j s, x_sims x1 !! j = Some s ->
    u64 (pktsSent (si_player s)) = u64 (len (filter (eq j) (senders ++ [i]))) /\
    u64 (pktsRecv (si_player s)) = u64 (len (filter (mates j) passed)) /\
    u64 (bytesRecv (si_player s)) = u64 (size * len (filter (mates j) passed))).
  { intros j s. cbn [x1 x_sims]. rewrite filter_app, length_app. intros [(<- & <- & _)|[Hne Hj]]%list_lookup_insert_Some.
    - destruct (H9 i _ Hs) as (G1 & G2 & G3). rewrite filter_cons_True by done. simpl in *. split; [|done].
      rewrite u64_idem, (u64_shift _ _ 1 G1). f_equal. simpl. lia.
    - destruct (H9 j _ Hj) as (G1 & G2 & G3). rewrite filter_cons_False by congruence. split; [|done].
      rewrite G1. f_equal. simpl. lia. }
  destruct Hcase as [(-> & L1 & L2)|(Ho & L1 & L2)].
  - exists m', x1, []. split; [done|]. split; [by apply sublist_nil_l|]. rewrite app_nil_r.
    split; rewrite ?Hlen, ?L2; try done.
    + by apply sublist_inserts_r.
    + cbn [x1 x_stats totalTx totalPktsSent]. rewrite u64_idem. by apply u64_shift.
    + rewrite L1, (u64_shift _ _ 1 H7). f_equal. lia.
  - destruct (deliver_all x1 (broadcastPacket pid payload) (others pid) outs Hf1 (others_range pid Hpid) Ho)
      as (A & B & C & D & F). rewrite (others_length pid Hpid) in C, D. rewrite size_packet in D.
    exists m', (foldl deliver x1 outs), [i]. split; [done|]. split; [done|].
    assert (Hlp : len (passed ++ [i]) = len passed + 1) by (rewrite length_app; simpl; lia).
    split; rewrite ?Hlen, ?Hlp; try done; rewrite ?B, ?C, ?D, ?L1, ?L2;
      cbn [x1 x_stats totalTx totalPktsSent totalPktsRecv totalBytesRecv].
    + by apply sublist_app.
    + rewrite u64_idem. by apply u64_shift.
    + rewrite (u64_shift _ _ _ H5). f_equal. lia.
    + rewrite (u64_shift _ _ _ H6). f_equal. lia.
    + rewrite H7. f_equal. lia.
    + rewrite (u64_shift _ _ _ H8). f_equal. lia.
    + intros j s' Hj. cbv zeta. destruct (F j s' Hj) as (s & Hjs & M1 & M2 & M3). destruct (Heach j s Hjs) as (G1 & G2 & G3).
      rewrite M1, M2, M3, size_packet. unfold pid. rewrite copies_others by done.
      rewrite (u64_shift _ _ _ G2), (u64_shift _ _ _ G3), (filter_app (mates j)), length_app, filter_cons.
      split; [done|]. destruct (decide (mates j i)); simpl; split; f_equal; lia.
Qed.

Lemma balance_run m0 ts senders passed m x :
  balance m0 senders passed m x -> Forall (fun t => (t.1 < Z.to_nat N)%nat) ts ->
  exists m' x' more, traffic net ρ ts m x = Ret (m', x') /\
    balance m0 (senders ++ (fst <$> ts)) (passed ++ more) m' x'.
Proof.
  intros Hb Hts. revert senders passed m x Hb.
  induction Hts as [|[i now] ts Hi _ IH]; intros senders passed m x Hb; cbn [traffic].
  { exists m, x, []. by rewrite !app_nil_r. }
  destruct (balance_step m0 senders passed m x i now Hb Hi) as (m1 & x1 & l1 & E & _ & Hb1). rewrite E.
  cbn [mbind outcome_bind]. destruct (IH _ _ _ _ Hb1) as (m' & x' & l' & E' & Hb').
  exists m', x', (l1 ++ l'). split; [done|]. rewrite <- !app_assoc in Hb'. done.
Qed.
End Traffic.

Lemma flying_start sock P S payload sims :
  Forall2 (ready payload) (simOf sock P <$> seqZ 1 (S * P)) sims ->
  flying sock payload P S (MkRun sims (MkGlobal 0 0 0 0) false false AtDuration).
Proof.
  intros H. split; simpl; [| |done].
  - apply Forall2_length in H. by rewrite <- H, length_fmap, length_seqZ.
  - intros i s Hs. destruct (Forall2_lookup_r _ _ _ _ _ H Hs) as (sp & Hsp & [R1 R2 R3 R4 R5 R6]).
    rewrite list_lookup_fmap in Hsp. destruct (seqZ 1 (S * P) !! i) as [pid|] eqn:Ei; [|done]. simpl in Hsp.
    injection Hsp as <-. apply lookup_seqZ in Ei as [-> _]. simpl in *. split_and!; try done.
    + rewrite R4. f_equal. lia.
    + rewrite R5. f_equal. lia.
Qed.


