(* ===== verification/Mock.v ===== *)
(** * [internal/testutil/testutil.go]: the clients of the integration tests

    The helpers the tests and the test harness drive an adapter with: finding a
    free port, waiting for a listener, a mock of the game on the GPGNet port and
    a mock of the FAF client on the JSON-RPC port.  A connection is what has
    arrived and is not read yet; every read takes the bytes that arrive before
    its deadline as an argument. *)

From S2P Require Import Prelude Float GoLib GoText GPGNet JsonRpc Json RpcMessage.
From S2P Require Import GpgNetServer IceText RpcHandler RpcServer.

(** ** Ports *)

Section Ports.
(** The port the system chooses for a listener on port 0, given the ports in
    use; [None] when it has none. *)
Variable pick : gset Z -> option Z.

(** [GetFreeTCPPort] and [GetFreeUDPPort]: listen, look at the port, close.
    The state is the set of ports in use. *)
Definition GetFreeTCPPort (inUse : gset Z) : gset Z * option Z :=
  match pick inUse with
  | None => (inUse, None)
  | Some port =>
      let inUse := {[port]} ∪ inUse in
      (inUse ∖ {[port]}, Some port)
  end.
Definition GetFreeUDPPort (inUse : gset Z) : gset Z * option Z :=
  match pick inUse with
  | None => (inUse, None)
  | Some port =>
      let inUse := {[port]} ∪ inUse in
      (inUse ∖ {[port]}, Some port)
  end.

(** Nothing is reserved: the port is free before and after, so that a second
    call may return it again. *)
Lemma GetFreeTCPPort_free inUse port :
  (forall l p, pick l = Some p -> p ∉ l) -> pick inUse = Some port ->
  GetFreeTCPPort inUse = (inUse, Some port) /\ port ∉ inUse /\
  GetFreeTCPPort (GetFreeTCPPort inUse).1 = (inUse, Some port).
Proof.
  intros Hp E. pose proof (Hp _ _ E) as Hn. unfold GetFreeTCPPort. rewrite E. simpl.
  assert (({[port]} ∪ inUse) ∖ {[port]} = inUse) as Hs.
  { apply set_eq. intros p. rewrite elem_of_difference, elem_of_union, elem_of_singleton.
    split; [tauto|]. intros H. split; [tauto|]. by intros ->. }
  rewrite !Hs. split_and!; [done|done|]. by rewrite E, Hs.
Qed.
End Ports.

(** ** [WaitForTCPPort] *)

Definition dialTimeout : Z := 50 * Time.Millisecond.
Definition pollInterval : Z := 10 * Time.Millisecond.

(** What one turn meets: whether the dial succeeds, how long it takes, and how
    long the sleep after it lasts. *)
Record Dial := MkDial { d_ok : bool; d_took : Z; d_slept : Z }.

(** [None] is a lack of fuel; the result is the time of the return and whether
    the port answered. *)
Fixpoint waitLoop (fuel : nat) (dials : nat -> Dial) (i : nat) (now deadline : Z) : option (Z * bool) :=
  match fuel with
  | O => None
  | S fuel' =>
      if now <? deadline then
        let d := dials i in
        if d_ok d then Some (now + d_took d, true)
        else waitLoop fuel' dials (S i) (now + d_took d + d_slept d) deadline
      else Some (now, false)
  end.
Definition WaitForTCPPort (dials : nat -> Dial) (timeout now : Z) : option (Z * bool) :=
  let deadline := Time.Add now timeout in
  waitLoop (S (S (Z.to_nat (timeout / pollInterval)))) dials 0 now deadline.

(** When the [i]-th dial begins. *)
Fixpoint dialAt (dials : nat -> Dial) (now : Z) (i : nat) : Z :=
  match i with
  | O => now
  | S i' => dialAt dials now i' + d_took (dials i') + d_slept (dials i')
  end.

(** ** [MockGPGNetClient] *)

Record MockGPGNetClient := MkGame { mg_in : bytes; mg_w : BufWriter }.

(** [NewMockGPGNetClient]; [dialed] says whether the dial succeeded. *)
Definition NewMockGPGNetClient (dialed : bool) : option MockGPGNetClient :=
  if dialed then Some (MkGame [] NewBufWriter) else None.
Definition SendMessage (oor : float64 -> Z) (header : string) (args : list Arg) (m : MockGPGNetClient)
    : MockGPGNetClient * option WriteErr :=
  let '(w, err) := WriteMessage oor header args (mg_w m) in (MkGame (mg_in m) w, err).
(** [ReadMessage]; what is left of the stream after an error is not followed. *)
Definition ReadGameMessage (arrived : bytes) (m : MockGPGNetClient)
    : rres (MockGPGNetClient * (string * list Chunk)) :=
  match ReadMessage (mg_in m ++ arrived) with
  | ROk msg rest => ROk (MkGame rest (mg_w m), msg) []
  | RErr e => RErr e
  | RPanic => RPanic
  end.

(** ** [MockJSONRPCClient] *)

(** [mc_sent] is what the client has written; writes on a broken connection
    fail, and their errors are ignored. *)
Record MockJSONRPCClient := MkMock { mc_in : bytes; mc_sent : bytes; mc_broken : bool; nextID : Z }.

Definition NewMockJSONRPCClient (dialed : bool) : option MockJSONRPCClient :=
  if dialed then Some (MkMock [] [] false 1) else None.

Definition connWrite (data : bytes) (m : MockJSONRPCClient) : MockJSONRPCClient :=
  MkMock (mc_in m) (if mc_broken m then mc_sent m else mc_sent m ++ data) (mc_broken m) (nextID m).

(** The first half of [Call]: the request. *)
Definition callSend (method : bytes) (params : list JSON) (m : MockJSONRPCClient) : MockJSONRPCClient :=
  let id := nextID m in
  let m := MkMock (mc_in m) (mc_sent m) (mc_broken m) (i64 (nextID m + 1)) in
  let data := Marshal (requestJSON (jint id) method params) in
  connWrite [newline] (connWrite data m).

Inductive CallErr := ReadingResponse (e : RawErr) | ParsingResponse.

(** [protocol.JSONRPCResponse], of which the caller gets the result. *)
Record JSONRPCResponse := MkResponse { rp_JSONRPC : bytes; rp_ID : JSON; rp_Result : JSON }.
Definition zeroResponse : JSONRPCResponse := MkResponse [] JNull JNull.
Definition responseFields : list bytes := [B "jsonrpc"; B "id"; B "result"].

(** The bytes a failed [ReadRaw] leaves: none when it waited for more, those
    behind the first byte too many when the message was too long. *)
Fixpoint fromBrace (r : bytes) : bytes :=
  match r with
  | [] => []
  | b :: r' => if bool_decide (b = lbrace) then r else fromBrace r'
  end.
Definition afterFailure (e : RawErr) (r : bytes) : bytes :=
  match e with
  | RawIO _ => []
  | MessageTooBig => drop (S (Z.to_nat MaxJSONRPCMessageSize)) (fromBrace r)
  end.
Definition set_in (r : bytes) (m : MockJSONRPCClient) : MockJSONRPCClient :=
  MkMock r (mc_sent m) (mc_broken m) (nextID m).

Section Client.
Variable float_lit : bytes -> option bytes.

Definition setResponse (r : JSONRPCResponse) (kv : bytes * JSON) : option JSONRPCResponse :=
  match field responseFields kv.1 with
  | None => Some r
  | Some f =>
      if bool_decide (f = B "jsonrpc") then
        match kv.2 with
        | JStr s => Some (MkResponse s (rp_ID r) (rp_Result r))
        | JNull => Some r
        | _ => None
        end
      else if bool_decide (f = B "id") then
        (fun v => MkResponse (rp_JSONRPC r) v (rp_Result r)) <$> iface float_lit kv.2
      else (fun v => MkResponse (rp_JSONRPC r) (rp_ID r) v) <$> iface float_lit kv.2
  end.
Definition decodeResponse (v : JSON) : option JSONRPCResponse :=
  match v with
  | JObj l => foldl (fun r kv => r ≫= fun r => setResponse r kv) (Some zeroResponse) l
  | JNull => Some zeroResponse
  | _ => None
  end.

(** The second half of [Call]: the next message on the connection, whatever it
    is, is taken for the response. *)
Definition callReceive (arrived : bytes) (m : MockJSONRPCClient)
    : MockJSONRPCClient * result CallErr JSON :=
  let r := mc_in m ++ arrived in
  match ReadRaw r with
  | Err e => (set_in (afterFailure e r) m, Err (ReadingResponse e))
  | Ok (raw, rest) =>
      (set_in rest m,
       match Unmarshal raw ≫= decodeResponse with
       | None => Err ParsingResponse
       | Some resp => Ok (rp_Result resp)
       end)
  end.
Definition Call (method : bytes) (params : list JSON) (arrived : bytes) (m : MockJSONRPCClient)
    : MockJSONRPCClient * result CallErr JSON :=
  callReceive arrived (callSend method params m).

Definition ReadNotification (arrived : bytes) (m : MockJSONRPCClient)
    : MockJSONRPCClient * result ReqErr JSONRPCRequest :=
  let r := mc_in m ++ arrived in
  match ReadRaw r with
  | Err e => (set_in (afterFailure e r) m, Err (ReqRaw e))
  | Ok (raw, rest) =>
      (set_in rest m,
       match Unmarshal raw ≫= decodeRequest float_lit with
       | None => Err ReqParse
       | Some req => Ok req
       end)
  end.

(** ** A sequence of reads *)

(** What a test does with the connection, with what it gets. *)
Inductive MockOp := OpCall (method : bytes) (params : list JSON) | OpNotification.
Inductive MockRes := ResCall (r : result CallErr JSON) | ResNotification (r : result ReqErr JSONRPCRequest).

Definition mockOp (op : MockOp) (arrived : bytes) (m : MockJSONRPCClient) : MockJSONRPCClient * MockRes :=
  match op with
  | OpCall method params => let '(m, r) := Call method params arrived m in (m, ResCall r)
  | OpNotification => let '(m, r) := ReadNotification arrived m in (m, ResNotification r)
  end.
Fixpoint mockOps (ops : list MockOp) (arrivals : list bytes) (m : MockJSONRPCClient)
    : MockJSONRPCClient * list MockRes :=
  match ops, arrivals with
  | op :: ops', arrived :: arrivals' =>
      let '(m, r) := mockOp op arrived m in
      let '(m, rs) := mockOps ops' arrivals' m in (m, r :: rs)
  | _, _ => (m, [])
  end.

(** What an operation makes of a message. *)
Definition readAs (op : MockOp) (v : JSON) : MockRes :=
  match op with
  | OpCall _ _ => ResCall (match decodeResponse v with None => Err ParsingResponse | Some r => Ok (rp_Result r) end)
  | OpNotification =>
      ResNotification (match decodeRequest float_lit v with None => Err ReqParse | Some r => Ok r end)
  end.

(** The connection carries the messages [vs] in segments that may end anywhere,
    but each read finds its message complete. *)
Record in_time (vs : list JSON) (arrivals : list bytes) : Prop := {
  it_all : exists later, concat arrivals ++ later = stream vs;
  it_each : forall k, (k <= length arrivals)%nat ->
    (length (stream (take k vs)) <= length (concat (take k arrivals)))%nat }.

(** A read whose message is at the front. *)
Lemma mockOp_message op arrived m g v t :
  no_open g -> sendable v -> mc_in m ++ arrived = g ++ Marshal v ++ t ->
  exists m', mockOp op arrived m = (m', readAs op v) /\ mc_in m' = t.
Proof.
  intros Hg ([l ->] & W & S & D & L) E.
  assert (R : ReadRaw (mc_in m ++ arrived) = Ok (Marshal (JObj l), t)).
  { rewrite E, ReadRaw_skip by done. apply ReadRaw_object; [by apply safe_object|done]. }
  destruct op as [method params|]; cbn [mockOp readAs]; unfold Call, callReceive, ReadNotification.
  - change (mc_in (callSend method params m)) with (mc_in m). rewrite R, unmarshal_marshal by done.
    cbn [mbind option_bind]. by eexists.
  - rewrite R, unmarshal_marshal by done. cbn [mbind option_bind]. by eexists.
Qed.

Lemma stream_cons v vs : stream (v :: vs) = Marshal v ++ [newline] ++ stream vs.
Proof. unfold stream. rewrite fmap_cons. cbn [concat]. by rewrite <- app_assoc. Qed.

Lemma mockOps_reads vs : Forall sendable vs -> forall ops arrivals m g later,
  (length ops <= length vs)%nat -> length arrivals = length ops -> no_open g ->
  mc_in m ++ concat arrivals ++ later = g ++ stream vs ->
  (forall k, (k <= length arrivals)%nat ->
    (length g + length (stream (take k vs)) <= length (mc_in m) + length (concat (take k arrivals)))%nat) ->
  (mockOps ops arrivals m).2 = zip_with readAs ops vs.
Proof.
  induction 1 as [|v vs Hv Hvs IH]; intros [|op ops] [|arr arrivals] m g later Ho Ha Hg E Hk; try done.
  { simpl in Ho. lia. }
  cbn [concat] in E. rewrite stream_cons, <- (app_assoc arr), app_assoc in E.
  pose proof (Hk 1%nat ltac:(simpl; lia)) as H1. cbn [take concat] in H1. rewrite stream_cons, !app_nil_r in H1.
  assert (exists t, mc_in m ++ arr = g ++ Marshal v ++ [newline] ++ t /\ t ++ concat arrivals ++ later = stream vs)
    as (t & E1 & E2).
  { rewrite !(app_assoc g), !(app_assoc (g ++ Marshal v)) in E.
    apply app_eq_inv in E as [(t & E1 & E2)|(t & E1 & E2)].
    - exists t. rewrite E1, E2. by rewrite <- !app_assoc.
    - assert (t = []) as ->.
      { apply length_zero_iff_nil. apply (f_equal length) in E1. rewrite !length_app in *. simpl in *. lia. }
      rewrite app_nil_r in E1. exists []. split; [rewrite <- E1; by rewrite <- !app_assoc|by rewrite E2]. }
  destruct (mockOp_message op arr m g v ([newline] ++ t) Hg Hv E1) as (m' & E' & Hin).
  cbn [mockOps zip_with]. rewrite E'. destruct (mockOps ops arrivals m') as [m'' rs] eqn:Er. cbn [snd]. f_equal.
  change rs with (m'', rs).2. rewrite <- Er. apply (IH ops arrivals m' [newline] later).
  - simpl in Ho. lia.
  - simpl in Ha. lia.
  - apply not_elem_of_cons. split; [done|apply not_elem_of_nil].
  - rewrite Hin, <- app_assoc. by rewrite E2.
  - intros k Hk'. specialize (Hk (S k) ltac:(simpl; lia)). cbn [take concat] in Hk.
    rewrite stream_cons, !length_app in Hk. rewrite Hin, length_app.
    apply (f_equal length) in E1. rewrite !length_app in E1. simpl in *. lia.
Qed.

Lemma in_time_reads vs ops arrivals m :
  Forall sendable vs -> (length ops <= length vs)%nat -> length arrivals = length ops -> mc_in m = [] ->
  in_time vs arrivals -> (mockOps ops arrivals m).2 = zip_with readAs ops vs.
Proof.
  intros Hv Ho Ha Hm [[later Hall] Heach].
  eapply (mockOps_reads vs Hv ops arrivals m [] later); try done; [apply not_elem_of_nil|by rewrite Hm|].
  intros k Hk. specialize (Heach k Hk). rewrite Hm. simpl. lia.
Qed.

(** ** The requests of a sequence of calls *)

(** The calls as the server sees them: identifiers are counted from [n]. *)
Fixpoint mockCalls (n : Z) (calls : list (bytes * list JSON)) : list RpcServer.Call :=
  match calls with
  | [] => []
  | (method, params) :: calls' =>
      MkCall (jint n) (JNum (default [] (float_lit (Itoa n)))) method params :: mockCalls (i64 (n + 1)) calls'
  end.
Definition callOps (calls : list (bytes * list JSON)) : list MockOp := (fun '(f, ps) => OpCall f ps) <$> calls.

Lemma callReceive_keeps arrived m :
  let m' := (callReceive arrived m).1 in
  mc_sent m' = mc_sent m /\ mc_broken m' = mc_broken m /\ nextID m' = nextID m.
Proof. unfold callReceive. by destruct (ReadRaw _) as [[]|]. Qed.

Lemma mockOps_sent calls : forall arrivals m,
  length arrivals = length calls -> mc_broken m = false ->
  mc_sent (mockOps (callOps calls) arrivals m).1 =
  mc_sent m ++ stream (callJSON <$> mockCalls (nextID m) calls).
Proof.
  induction calls as [|[f ps] calls IH]; intros [|arr arrivals] m Ha Hb; try done.
  { by rewrite app_nil_r. }
  change (callOps ((f, ps) :: calls)) with (OpCall f ps :: callOps calls). cbn [mockOps mockOp]. unfold Call.
  destruct (callReceive_keeps arr (callSend f ps m)) as (E1 & E2 & E3).
  destruct (callReceive arr (callSend f ps m)) as [m1 r]. cbn [fst] in *.
  specialize (IH arrivals m1 ltac:(simpl in Ha; lia) ltac:(by rewrite E2)).
  destruct (mockOps (callOps calls) arrivals m1) as [m2 rs]. cbn [fst] in *. rewrite IH, E1, E3.
  cbn [mockCalls]. rewrite fmap_cons, stream_cons. cbn [callSend connWrite mc_sent mc_broken nextID]. rewrite Hb.
  by rewrite <- !app_assoc.
Qed.

(** What [Call] returns for a handled request. *)
Definition mockResult (res : Handled) : result CallErr JSON :=
  match res with
  | Err _ => Ok JNull
  | Ok v => match iface float_lit v with Some v' => Ok v' | None => Err ParsingResponse end
  end.

Lemma setResponse_id r v :
  setResponse r (B "id", v) = (fun x => MkResponse (rp_JSONRPC r) x (rp_Result r)) <$> iface float_lit v.
Proof. reflexivity. Qed.
Lemma setResponse_result r v :
  setResponse r (B "result", v) = (fun x => MkResponse (rp_JSONRPC r) (rp_ID r) x) <$> iface float_lit v.
Proof. reflexivity. Qed.

Lemma decodeResponse_reply id id' v :
  iface float_lit id = Some id' ->
  decodeResponse (responseJSON id v) = (fun v' => MkResponse (B "2.0") id' v') <$> iface float_lit v.
Proof.
  intros Hi. unfold decodeResponse, responseJSON. cbn [foldl].
  change (Some zeroResponse ≫= _) with (Some (MkResponse (B "2.0") JNull JNull)). cbn [mbind option_bind].
  rewrite setResponse_id, Hi. cbn [fmap option_fmap option_map mbind option_bind]. by rewrite setResponse_result.
Qed.
Lemma decodeResponse_error id id' code msg :
  iface float_lit id = Some id' ->
  decodeResponse (errorJSON id code msg) = Some (MkResponse (B "2.0") id' JNull).
Proof.
  intros Hi. unfold decodeResponse, errorJSON. cbn [foldl].
  change (Some zeroResponse ≫= _) with (Some (MkResponse (B "2.0") JNull JNull)). cbn [mbind option_bind].
  by rewrite setResponse_id, Hi.
Qed.
(** A notification is taken for a response without result. *)
Lemma decodeResponse_notification method params :
  decodeResponse (notificationJSON method params) = Some (MkResponse (B "2.0") JNull JNull).
Proof. done. Qed.

Lemma readAs_reply f ps q res v :
  (exists lit, rq_ID q = JNum lit /\ is_Some (float_lit lit)) -> replyTo q res = Some v ->
  readAs (OpCall f ps) v = ResCall (mockResult res).
Proof.
  intros (lit & E & [lit' Hl]). unfold replyTo. rewrite E. intros [= <-].
  assert (Hi : iface float_lit (JNum lit) = Some (JNum lit')) by (cbn [iface]; by rewrite Hl).
  destruct res as [r|msg]; cbn [readAs].
  - rewrite (decodeResponse_reply _ _ _ Hi). cbn [mockResult]. by destruct (iface float_lit r).
  - by rewrite (decodeResponse_error _ _ _ _ Hi).
Qed.

End Client.

(** ** Sessions with the adapter's server *)

Section Session.
Variable float_lit : bytes -> option bytes.
(** A literal that [json.Marshal] writes for a [float64] is in range. *)
Hypothesis float_again : forall n lit, float_lit n = Some lit -> is_Some (float_lit lit).

(** An identifier that the server reads back and the client reads again. *)
Lemma mockCalls_ids n calls :
  Forall (call_ok float_lit) (mockCalls float_lit n calls) ->
  Forall (fun q => exists lit, call_id' q = JNum lit /\ is_Some (float_lit lit)) (mockCalls float_lit n calls).
Proof using float_again.
  revert n; induction calls as [|[f ps] calls IH]; intros n; cbn [mockCalls]; [constructor|].
  intros [[_ Hi] H]%Forall_cons. constructor; [|by apply IH].
  cbn [call_id call_id'] in *. cbn [iface jint] in Hi. destruct (float_lit (Itoa n)) as [lit|] eqn:E; [|done].
  exists lit. split; [done|]. by eapply float_again.
Qed.

Lemma due_reads calls : forall n (hs : list (JSONRPCRequest * Handled)),
  hs.*1 = callReq <$> mockCalls float_lit n calls ->
  Forall (fun q => exists lit, call_id' q = JNum lit /\ is_Some (float_lit lit)) (mockCalls float_lit n calls) ->
  length (due hs) = length calls /\
  zip_with (readAs float_lit) (callOps calls) (due hs) = (ResCall ∘ mockResult float_lit) <$> hs.*2.
Proof using.
  clear float_again.
  induction calls as [|[f ps] calls IH]; intros n [|[q res] hs] Hh Hid; try done.
  cbn [mockCalls] in Hid. apply Forall_cons in Hid as [(lit & E & Hl) Hid].
  cbn [mockCalls] in Hh. rewrite !fmap_cons in Hh. injection Hh as Hq Hh. cbn [fst] in Hq. subst q.
  destruct (IH _ hs Hh Hid) as [IH1 IH2].
  set (q := callReq (MkCall (jint n) (JNum (default [] (float_lit (Itoa n)))) f ps)).
  assert (exists v, replyTo q res = Some v) as [v Hv].
  { subst q. unfold replyTo. cbn [callReq rq_ID call_id']. by eexists. }
  assert (Hd : due ((q, res) :: hs) = v :: due hs). { unfold due. cbn [omap list_omap fst snd]. by rewrite Hv. }
  rewrite Hd. cbn [length]. rewrite IH1. split; [done|].
  change (callOps ((f, ps) :: calls)) with (OpCall f ps :: callOps calls). cbn [zip_with]. rewrite IH2, !fmap_cons.
  f_equal. cbn [snd compose]. eapply readAs_reply; [|exact Hv]. by exists lit.
Qed.
End Session.

(** Messages that are all answers. *)
Lemma all_answers (l : list (bool * JSON)) : Forall (fun x => x.1 = true) l -> answers l = l.*2.
Proof.
  unfold answers. induction 1 as [|x l Hx Hl IH]; [done|]. rewrite filter_cons, decide_True by done.
  rewrite !fmap_cons. by rewrite IH.
Qed.
Lemma answers_few l : (length (answers l) <= length l.*2)%nat.
Proof. unfold answers. rewrite !length_fmap. apply length_filter. Qed.

(** C31. Calls of the mock client.  A test makes calls one after the other on a
    connection of the adapter's JSON-RPC server, and each response arrives in
    time, however the stream is cut.  The server handles exactly these calls, in
    order; the [k]-th call returns what the [k]-th message on the connection
    holds, whatever it is; and when no notification was sent on the connection,
    that is the result of the [k]-th handler, nil for an error. *)
Theorem mock_session (float_lit : bytes -> option bytes) (parse_float : bytes -> option float64)
    (statusText : Adapter -> bytes) (errText : RpcRequest -> RpcErr -> bytes) (a : Adapter) (s : RPCServer)
    (id : nat) (c : Client) (calls : list (bytes * list JSON)) (arrivals : list bytes) :
  (forall n lit, float_lit n = Some lit -> is_Some (float_lit lit)) ->
  rtc (rpc_step float_lit parse_float statusText errText) (NewRPCServer a) s -> rs_conns s !! id = Some c ->
  left (cl_phase c) = true -> rs_done s = false -> bw_err (cl_w c) = false ->
  Forall (call_ok float_lit) (mockCalls float_lit 1 calls) -> Forall sendable (cl_log c).*2 ->
  let run := mockOps float_lit (callOps calls) arrivals (MkMock [] [] false 1) in
  cl_input c = mc_sent run.1 -> length arrivals = length calls -> in_time (cl_log c).*2 arrivals ->
  (cl_handled c).*1 = callReq <$> mockCalls float_lit 1 calls /\
  run.2 = zip_with (readAs float_lit) (callOps calls) (cl_log c).*2 /\
  (Forall (fun x => x.1 = true) (cl_log c) ->
   run.2 = (ResCall ∘ mockResult float_lit) <$> (cl_handled c).*2).
Proof.
  intros Hf H E Hleft Hd He Hc Hs run Hin Ha Ht. subst run.
  apply (rtc_invariant _ _ (rpc_ok_step float_lit parse_float statusText errText)) in H as Hok;
    [|apply (rpc_ok_new float_lit parse_float statusText)].
  destruct (ro_clients _ s Hok id c E) as [H1 H2 H3 H4 H5].
  destruct (H5 Hleft) as [?|[?|[e Hr]]]; [congruence|congruence|].
  rewrite mockOps_sent in Hin by done. cbn [mc_sent nextID app] in Hin. rewrite Hin in H3.
  assert (Hh : (cl_handled c).*1 = callReq <$> mockCalls float_lit 1 calls).
  { by eapply (reads_calls float_lit _ Hc []); [apply not_elem_of_nil| |]. }
  destruct (due_reads float_lit calls 1 (cl_handled c) Hh (mockCalls_ids _ Hf 1 calls Hc)) as [L R].
  assert (Hans : answers (cl_log c) = due (cl_handled c)).
  { specialize (H4 He). destruct (cl_phase c); try done; by rewrite app_nil_r in H4. }
  pose proof (answers_few (cl_log c)) as Hfew. rewrite Hans, L in Hfew.
  assert (Hz : (mockOps float_lit (callOps calls) arrivals (MkMock [] [] false 1)).2 =
    zip_with (readAs float_lit) (callOps calls) (cl_log c).*2).
  { unfold callOps in *. apply in_time_reads; rewrite ?length_fmap in *; done. }
  split_and!; [done|done|]. intros Hall. rewrite Hz, <- (all_answers _ Hall), Hans. done.
Qed.

(** A client asks for the status and sends an unknown method. *)
Definition mock_calls : list (bytes * list JSON) := [(B "status", []); (B "fly", [jint 3])].
Definition mock_sent : bytes := stream (callJSON <$> mockCalls Some 1 mock_calls).
Definition mock_rpc (n : nat) : RPCServer :=
  ownRun Some (fun _ => None) demo_status demo_errText (fun _ => demo_env) n 0
    (accept mock_sent (NewRPCServer (NewAdapter (demo_cfg false) NewGPGNetServer))).
Definition mock_out : bytes := default [] ((fun c => bw_out (cl_w c)) <$> rs_conns (mock_rpc 6) !! 0%nat).
(** The second response begins in the first segment. *)
Definition mock_arrivals : list bytes := [take 60 mock_out; drop 60 mock_out].

Lemma mock_session_witness : exists c,
  rs_conns (mock_rpc 6) !! 0%nat = Some c /\
  (mockOps Some (callOps mock_calls) mock_arrivals (MkMock [] [] false 1)).2 =
    [ResCall (Ok (JStr (B "{}"))); ResCall (Ok JNull)] /\
  (cl_handled c).*1 = callReq <$> mockCalls Some 1 mock_calls.
Proof.
  destruct (rs_conns (mock_rpc 6) !! 0%nat) as [c|] eqn:E; [|by vm_compute in E].
  exists c. split; [done|].
  assert (Hr : rtc (rpc_step Some (fun _ => None) demo_status demo_errText)
    (NewRPCServer (NewAdapter (demo_cfg false) NewGPGNetServer)) (mock_rpc 6)).
  { eapply rtc_l; [apply rs_accept|]. apply ownRun_rtc. }
  assert (Hc : Forall (call_ok Some) (mockCalls Some 1 mock_calls)).
  { do 2 (apply Forall_cons; split; [split; [apply plain_sendable; by vm_compute|done]|]). constructor. }
  assert (Hl : cl_log <$> rs_conns (mock_rpc 6) !! 0%nat =
    Some [(true, responseJSON (JNum (B "1")) (JStr (B "{}")));
          (true, errorJSON (JNum (B "2")) (-32603) (B "unknown method"))]) by (by vm_compute).
  assert (Hm : cl_input <$> rs_conns (mock_rpc 6) !! 0%nat =
    Some (mc_sent (mockOps Some (callOps mock_calls) mock_arrivals (MkMock [] [] false 1)).1)) by (by vm_compute).
  assert (Hp : (fun c => (left (cl_phase c), bw_err (cl_w c))) <$> rs_conns (mock_rpc 6) !! 0%nat =
    Some (true, false)) by (by vm_compute).
  rewrite E in Hl, Hm, Hp. apply (inj Some) in Hl, Hm. apply (inj Some), pair_eq in Hp as [Hp1 Hp2].
  destruct (mock_session Some (fun _ => None) demo_status demo_errText _ (mock_rpc 6) 0 c mock_calls mock_arrivals
    ltac:(eauto) Hr E Hp1 ltac:(by vm_compute) Hp2 Hc) as (H1 & H2 & _).
  - rewrite Hl. do 2 (apply Forall_cons; split; [apply plain_sendable; by vm_compute|]). constructor.
  - exact Hm.
  - done.
  - rewrite Hl. split; [by exists []; vm_compute|]. intros k Hk. change (length mock_arrivals) with 2%nat in Hk.
    clear -Hk.
    destruct k as [|[|[|k]]]; [apply Nat.leb_le; vm_compute; reflexivity..|lia].
  - rewrite H2, Hl. split; [by vm_compute|done].
Defined.

(** A notification that is pending when [Call] is made is taken for the
    response: the call returns nil, and the response is left for the next
    read. *)
Theorem call_takes_notification (float_lit : bytes -> option bytes) (m : MockJSONRPCClient) (method f : bytes)
    (params ps : list JSON) (answer : JSON) (arrived : bytes) :
  sendable (notificationJSON f ps) -> sendable answer ->
  mc_in m ++ arrived = stream [notificationJSON f ps; answer] ->
  exists m', Call float_lit method params arrived m = (m', Ok JNull) /\
    mc_in m' = [newline] ++ stream [answer].
Proof.
  intros Hn Ha E. rewrite stream_cons in E.
  destruct (mockOp_message float_lit (OpCall method params) arrived m [] (notificationJSON f ps)
    ([newline] ++ stream [answer])) as (m' & H & Hin); [apply not_elem_of_nil|done|done|].
  exists m'. split; [|done]. cbn [mockOp] in H. destruct (Call _ _ _ _ _) as [m1 r].
  cbn [readAs] in H. rewrite decodeResponse_notification in H. by injection H as -> ->.
Qed.

(** The status report asked for is lost when a connection notification came first. *)
Lemma call_takes_notification_witness : exists m',
  Call Some (B "status") []
    (stream [notificationJSON (B "onConnectionStateChanged") [jstr "Connected"];
             responseJSON (JNum (B "1")) (JStr (B "{}"))]) (MkMock [] [] false 1) = (m', Ok JNull) /\
  mc_in m' = [newline] ++ stream [responseJSON (JNum (B "1")) (JStr (B "{}"))].
Proof.
  apply (call_takes_notification Some (MkMock [] [] false 1) (B "status") (B "onConnectionStateChanged") []
    [jstr "Connected"]); [apply plain_sendable; by vm_compute..|done].
Defined.

(** ** Waiting for a port *)

Lemma waitLoop_spec dials start deadline :
  (forall i, 0 <= d_took (dials i)) -> (forall i, pollInterval <= d_slept (dials i)) ->
  forall fuel i,
  (forall j, (j < i)%nat -> d_ok (dials j) = false /\ dialAt dials start j < deadline) ->
  deadline - dialAt dials start i <= Z.of_nat fuel * pollInterval ->
  exists n, (i <= n)%nat /\
    (forall j, (j < n)%nat -> d_ok (dials j) = false /\ dialAt dials start j < deadline) /\
    waitLoop (S fuel) dials i (dialAt dials start i) deadline =
      Some (if dialAt dials start n <? deadline then (dialAt dials start n + d_took (dials n), true)
            else (dialAt dials start n, false)) /\
    (dialAt dials start n < deadline -> d_ok (dials n) = true).
Proof.
  intros Ht Hs. induction fuel as [|fuel IH]; intros i Hi Hf.
  - exists i. split; [done|]. split; [done|]. cbn [waitLoop].
    destruct (Z.ltb_spec (dialAt dials start i) deadline); [lia|]. split; [done|lia].
  - remember (S fuel) as fuel'. cbn [waitLoop].
    destruct (Z.ltb_spec (dialAt dials start i) deadline) as [Hlt|Hge].
    + destruct (d_ok (dials i)) eqn:Ho.
      * exists i. split; [done|]. split; [done|]. rewrite (proj2 (Z.ltb_lt _ _)) by done. by split.
      * subst fuel'. change (dialAt dials start i + d_took (dials i) + d_slept (dials i)) with (dialAt dials start (S i)).
        destruct (IH (S i)) as (n & H1 & H2 & H3 & H4).
        -- intros j Hj. destruct (decide (j = i)) as [->|]; [done|]. apply Hi. lia.
        -- cbn [dialAt]. specialize (Ht i). specialize (Hs i). lia.
        -- exists n. split; [lia|]. done.
    + exists i. split; [done|]. split; [done|]. rewrite (proj2 (Z.ltb_ge _ _)) by done. split; [done|lia].
Qed.

(** [WaitForTCPPort] returns, and exactly when it should.  Whatever the
    dials do, the loop ends within [timeout / 10ms + 2] turns; it reports the
    port as available exactly when some dial that began before the deadline
    succeeded, and then after the first such dial; and with dials of at most
    50 ms it reports success before the deadline plus 50 ms. *)
Theorem wait_for_port (dials : nat -> Dial) (timeout now : Z) :
  0 <= timeout -> (forall i, 0 <= d_took (dials i)) -> (forall i, pollInterval <= d_slept (dials i)) ->
  exists t ok, WaitForTCPPort dials timeout now = Some (t, ok) /\
    (ok = true <-> exists n, d_ok (dials n) = true /\ dialAt dials now n < now + timeout) /\
    (ok = true -> exists n, t = dialAt dials now n + d_took (dials n) /\ d_ok (dials n) = true /\
       forall j, (j < n)%nat -> d_ok (dials j) = false) /\
    (ok = false -> now + timeout <= t) /\
    (ok = true -> (forall i, d_took (dials i) <= dialTimeout) -> t < now + timeout + dialTimeout).
Proof.
  intros Hto Ht Hs. unfold WaitForTCPPort, Time.Add.
  destruct (waitLoop_spec dials now (now + timeout) Ht Hs (S (Z.to_nat (timeout / pollInterval))) 0)
    as (n & _ & H2 & H3 & H4); [lia| |].
  { cbn [dialAt]. unfold pollInterval, Time.Millisecond in *.
    pose proof (Z.div_mod timeout (10 * 1000000)). pose proof (Z.mod_pos_bound timeout (10 * 1000000)).
    pose proof (Z.div_pos timeout (10 * 1000000)). lia. }
  cbn [dialAt] in H3. rewrite H3. clear H3.
  destruct (Z.ltb_spec (dialAt dials now n) (now + timeout)) as [Hlt|Hge].
  - specialize (H4 Hlt). do 2 eexists. split; [done|]. split_and!; [|intros _|done|].
    + split; [|done]. intros _. by exists n.
    + exists n. split_and!; [done|done|]. intros j Hj. by apply H2.
    + intros _ Hd. specialize (Hd n). lia.
  - do 2 eexists. split; [done|]. split_and!; [|done|done|done]. split; [done|].
    intros (k & Hk & Hk'). destruct (decide (k < n)%nat) as [Hkn|Hkn]; [by destruct (H2 k Hkn); congruence|].
    exfalso. assert (dialAt dials now n <= dialAt dials now k); [|lia]. clear -Ht Hs Hkn.
    assert (Hle : (n <= k)%nat) by lia. clear Hkn.
    induction Hle as [|k Hle IH]; [lia|]. cbn [dialAt]. specialize (Ht k). specialize (Hs k).
    unfold pollInterval, Time.Millisecond in Hs. lia.
Qed.

(** The listener comes up during the third dial. *)
Definition demo_dials (i : nat) : Dial := MkDial (2 <=? Z.of_nat i) 1000 pollInterval.
Lemma wait_for_port_witness :
  WaitForTCPPort demo_dials Time.Second 0 = Some (2 * (1000 + pollInterval) + 1000, true) /\
  exists t ok, WaitForTCPPort demo_dials Time.Second 0 = Some (t, ok) /\
    (ok = true <-> exists n, d_ok (demo_dials n) = true /\ dialAt demo_dials 0 n < 0 + Time.Second).
Proof.
  split; [by vm_compute|].
  destruct (wait_for_port demo_dials Time.Second 0) as (t & ok & H1 & H2 & _);
    [done|intros i; simpl; lia|intros i; simpl; lia|]. by exists t, ok.
Defined.
