(* ===== verification/Harness.v ===== *)
(** * [cmd/test-harness/main.go]: the test harness

    The two scenarios of the harness, against any laboratory: the network, the
    relay server and the adapters it starts are the interface [Lab], the mock
    clients are those of [Mock].  A scenario is a computation that can stop
    with a verdict at any statement and then runs its deferred calls.  [System]
    implements the laboratory with the models of the server and the adapters. *)

From stdpp Require Import pretty.
From S2P Require Import Prelude GoLib GoText Float Flags RelayServer Commands GPGNet JsonRpc Json RpcMessage.
From S2P Require Import GpgNetServer RpcHandler AdapterRun Mock.

(** ** The laboratory *)

(** Clients, games and sockets are known by number. *)
Record Lab (W : Type) := MkLab {
  lab_now : W -> Z;
  lab_sleep : Z -> W -> W;
  (** a free port; 0 when there is none, as the error is ignored *)
  lab_udpPort : W -> W * Z;
  lab_tcpPort : W -> W * Z;
  (** [go srv.Run(ctx)] and [go a.Run(ctx)] *)
  lab_server : ServerConfig -> W -> W;
  lab_adapter : AdapterConfig -> W -> W;
  lab_rpc : string -> W -> W * option nat;
  lab_call : nat -> bytes -> list JSON -> W -> W * result CallErr JSON;
  (** [ReadNotification], whose result is never looked at *)
  lab_drain : nat -> Z -> W -> W;
  lab_game : string -> W -> W * option nat;
  lab_send : nat -> string -> list Arg -> W -> W;
  (** [ReadMessage]; the outer sum is a panic of the reader *)
  lab_read : nat -> Z -> W -> W * outcome (result ReadErr (string * list Chunk));
  lab_listen : W -> W * nat;
  lab_write : nat -> bytes -> string -> W -> W;
  lab_receive : nat -> Z -> W -> W * option bytes;
  lab_closeRPC : nat -> W -> W;
  lab_closeGame : nat -> W -> W;
  lab_closeUDP : nat -> W -> W;
  (** [cancel()] of the scenario's context *)
  lab_cancel : W -> W }.
Arguments lab_now {W}.
Arguments lab_sleep {W}.
Arguments lab_udpPort {W}.
Arguments lab_tcpPort {W}.
Arguments lab_server {W}.
Arguments lab_adapter {W}.
Arguments lab_rpc {W}.
Arguments lab_call {W}.
Arguments lab_drain {W}.
Arguments lab_game {W}.
Arguments lab_send {W}.
Arguments lab_read {W}.
Arguments lab_listen {W}.
Arguments lab_write {W}.
Arguments lab_receive {W}.
Arguments lab_closeRPC {W}.
Arguments lab_closeGame {W}.
Arguments lab_closeUDP {W}.
Arguments lab_cancel {W}.

(** ** Scenarios *)

(** Each constructor one [fmt.Errorf]; [who] is the number of the player. *)
Inductive Failure :=
| ConnectingRPC (who : Z)
| StatusCall (who : Z) (e : CallErr)
| ConnectingGame (who : Z)
| ReadingGame (who : Z) (e : ReadErr)
| Expected (who : Z) (want got : string).

(** How a scenario ends before its last statement: an error, or a panic. *)
Inductive Stop := Failed (f : Failure) | Crashed.

(** The state of a scenario: the laboratory and the deferred calls, the last
    one first. *)
Record Bench (W : Type) := MkBench { world : W; defers : list (W -> W) }.
Arguments MkBench {W}.
Arguments world {W}.
Arguments defers {W}.

Definition test (W A : Type) : Type := Bench W -> Bench W * (Stop + A).
#[export] Instance test_ret W : MRet (test W) := fun _ a b => (b, inr a).
#[export] Instance test_bind W : MBind (test W) := fun _ _ f m b =>
  match m b with
  | (b, inl stop) => (b, inl stop)
  | (b, inr a) => f a b
  end.

Definition fails {W A} (f : Failure) : test W A := fun b => (b, inl (Failed f)).
Definition crash {W A} : test W A := fun b => (b, inl Crashed).
Definition on_lab {W A} (f : W -> W * A) : test W A := fun b =>
  let '(w, a) := f (world b) in (MkBench w (defers b), inr a).
Definition does {W} (f : W -> W) : test W unit := on_lab (fun w => (f w, tt)).
Definition defer {W} (f : W -> W) : test W unit := fun b => (MkBench (world b) (f :: defers b), inr tt).
(** [x.( T)]: a panic when the type does not fit. *)
Definition must {W A} (x : option A) : test W A := match x with Some a => mret a | None => crash end.

(** The scenario with its deferred calls, which also run when it panics. *)
Definition perform {W A} (m : test W A) (w : W) : W * (Stop + A) :=
  let '(b, v) := m (MkBench w []) in (foldl (fun w f => f w) (world b) (defers b), v).

(** ** JSON values as maps *)

(** [m[key]] of a [map[string]interface{}]: the last entry counts. *)
Definition entry (key : bytes) (v : JSON) : option JSON :=
  match v with
  | JObj l => snd <$> last (filter (fun kv => kv.1 = key) l)
  | _ => None
  end.
Definition asString (v : JSON) : option bytes := match v with JStr s => Some s | _ => None end.
Definition asMap (v : JSON) : option JSON := match v with JObj l => Some (JObj l) | _ => None end.
Definition asSlice (v : JSON) : option (list JSON) := match v with JArr l => Some l | _ => None end.

Section Scenarios.
Context {W : Type} (lab : Lab W).
Variable parse_float : bytes -> option float64.
(** Out-of-range conversions of a [float64] to [int]. *)
Variable oor64 : float64 -> Z.

Definition asFloat (v : JSON) : option float64 := match v with JNum n => parse_float n | _ => None end.
Definition toInt (f : float64) : Z :=
  let t := f_trunc f in if (- 2 ^ 63 <=? t) && (t <? 2 ^ 63) then t else i64 (oor64 f).

(** [json.Unmarshal([]byte(s), &status)] into a nil map: what is not an object
    leaves it nil, in which every entry is missing. *)
Definition statusMap (s : bytes) : JSON :=
  match Unmarshal s with Some (JObj l) => JObj l | _ => JObj [] end.
(** [int(status["gpgpnet"].(map[string]interface{})["local_port"].(float64))] *)
Definition gpgnetPort (status : JSON) : option Z :=
  g ← entry (B "gpgpnet") status; m ← asMap g;
  p ← entry (B "local_port") m; f ← asFloat p; Some (toInt f).

Definition localhost (port : Z) : string := "127.0.0.1:" +:+ pretty port.

(** The server of both scenarios: no key, no limits, no TCP. *)
Definition serverConfig (udpPort httpPort : Z) : ServerConfig :=
  MkServerConfig (":" +:+ pretty udpPort) "" (":" +:+ pretty httpPort) "" "" "" 0 0.
Definition adapterConfig (id game : Z) (login : string) (rpcPort : Z) (relayUDP relayHTTP : string) : AdapterConfig :=
  MkAC id game login rpcPort 0 0 relayUDP "" relayHTTP "" false false false false.

(** [testutil.NewMockJSONRPCClient] with its deferred [Close]. *)
Definition connectRPC (who port : Z) : test W nat :=
  c ← on_lab (lab_rpc lab (localhost port));
  match c with
  | None => fails (ConnectingRPC who)
  | Some c => _ ← defer (lab_closeRPC lab c); mret c
  end.
Definition connectGame (who port : Z) : test W nat :=
  c ← on_lab (lab_game lab (localhost port));
  match c with
  | None => fails (ConnectingGame who)
  | Some c => _ ← defer (lab_closeGame lab c); mret c
  end.

(** A call of [status()] whose result must be a string. *)
Definition askStatus (who : Z) (c : nat) : test W JSON :=
  r ← on_lab (lab_call lab c (B "status") []);
  match r with Err e => fails (StatusCall who e) | Ok v => mret v end.
Definition readStatus (v : JSON) : test W JSON := s ← must (asString v); mret (statusMap s).

(** [ReadMessage] of a game. *)
Definition readGame (c : nat) (timeout : Z) : test W (result ReadErr (string * list Chunk)) :=
  o ← on_lab (lab_read lab c timeout);
  match o with Ret r => mret r | Panic => crash end.
(** The next message, which must have the header [want]. *)
Definition expect (who : Z) (c : nat) (want : string) : test W (list Chunk) :=
  r ← readGame c (2 * Time.Second);
  match r with
  | Err e => fails (ReadingGame who e)
  | Ok (h, chunks) => if bool_decide (h = want) then mret chunks else fails (Expected who want h)
  end.

Definition gameState (c : nat) (state : string) : test W unit :=
  does (lab_send lab c CmdGameState [ArgString state]).
Definition request (c : nat) (method : string) (params : list JSON) : test W unit :=
  _ ← on_lab (lab_call lab c (str_bytes method) params); mret tt.
Definition jnum (n : Z) : JSON := JNum (Itoa n).
Definition jtext (s : string) : JSON := JStr (str_bytes s).

(** The address a game is told for a peer: [chunks[0].(string)]. *)
Definition peerAddr (chunks : list Chunk) : option string :=
  match chunks with CStr s :: _ => Some s | _ => None end.

(** ** [runBasic2Player] *)

Definition testPayload : bytes := B "Hello from game 1!".
Definition testPayload2 : bytes := B "Hello from game 2!".

(** Steps 1 to 5: the server, two adapters, their clients and games. *)
Definition basicSetup : test W (nat * nat * nat * nat) :=
  _ ← defer (lab_cancel lab);
  udpPort ← on_lab (lab_udpPort lab);
  httpPort ← on_lab (lab_tcpPort lab);
  _ ← does (lab_server lab (serverConfig udpPort httpPort));
  _ ← does (lab_sleep lab (200 * Time.Millisecond));
  let relayUDP := localhost udpPort in
  let relayHTTP := "http://" +:+ localhost httpPort in
  rpcPort1 ← on_lab (lab_tcpPort lab);
  rpcPort2 ← on_lab (lab_tcpPort lab);
  _ ← does (lab_adapter lab (adapterConfig 1 100 "Player1" rpcPort1 relayUDP relayHTTP));
  _ ← does (lab_adapter lab (adapterConfig 2 100 "Player2" rpcPort2 relayUDP relayHTTP));
  _ ← does (lab_sleep lab (500 * Time.Millisecond));
  rpc1 ← connectRPC 1 rpcPort1;
  rpc2 ← connectRPC 2 rpcPort2;
  status1Str ← askStatus 1 rpc1;
  status2Str ← askStatus 2 rpc2;
  status1 ← readStatus status1Str;
  status2 ← readStatus status2Str;
  gpgnetPort1 ← must (gpgnetPort status1);
  gpgnetPort2 ← must (gpgnetPort status2);
  game1 ← connectGame 1 gpgnetPort1;
  game2 ← connectGame 2 gpgnetPort2;
  mret (rpc1, rpc2, game1, game2).

(** Steps 6 and 7: the lobbies come up. *)
Definition basicLobby (rpc1 rpc2 game1 game2 : nat) : test W unit :=
  _ ← does (lab_drain lab rpc1 Time.Second);
  _ ← does (lab_drain lab rpc2 Time.Second);
  _ ← gameState game1 "Idle";
  _ ← gameState game2 "Idle";
  _ ← expect 1 game1 CmdCreateLobby;
  _ ← expect 2 game2 CmdCreateLobby;
  _ ← does (lab_drain lab rpc1 (500 * Time.Millisecond));
  _ ← does (lab_drain lab rpc2 (500 * Time.Millisecond));
  _ ← gameState game1 "Lobby";
  _ ← gameState game2 "Lobby";
  _ ← does (lab_sleep lab (200 * Time.Millisecond));
  _ ← does (lab_drain lab rpc1 (500 * Time.Millisecond));
  does (lab_drain lab rpc2 (500 * Time.Millisecond)).

(** Steps 8 to 10: player 1 hosts, player 2 joins, player 1 connects; the
    arguments of the last two commands. *)
Definition basicConnect (rpc1 rpc2 game1 game2 : nat) : test W (list Chunk * list Chunk) :=
  _ ← request rpc1 "hostGame" [jtext "scmp_009"];
  _ ← expect 1 game1 CmdHostGame;
  _ ← request rpc2 "joinGame" [jtext "Player1"; jnum 1];
  chunks2 ← expect 2 game2 CmdJoinGame;
  _ ← request rpc1 "connectToPeer" [jtext "Player2"; jnum 2; JBool true];
  chunks1 ← expect 1 game1 CmdConnectToPeer;
  mret (chunks1, chunks2).

(** Step 11: datagrams both ways.  The result is what game 2 received; that it
    received nothing is only logged. *)
Definition basicData (chunks1 chunks2 : list Chunk) : test W (option bytes) :=
  peerAddr1 ← must (peerAddr chunks1);
  peerAddr2 ← must (peerAddr chunks2);
  udpConn1 ← on_lab (lab_listen lab);
  _ ← defer (lab_closeUDP lab udpConn1);
  udpConn2 ← on_lab (lab_listen lab);
  _ ← defer (lab_closeUDP lab udpConn2);
  _ ← does (lab_write lab udpConn1 testPayload peerAddr1);
  _ ← does (lab_write lab udpConn2 testPayload2 peerAddr2);
  _ ← does (lab_sleep lab (500 * Time.Millisecond));
  on_lab (lab_receive lab udpConn2 (3 * Time.Second)).

Definition runBasic2Player : test W (option bytes) :=
  '(rpc1, rpc2, game1, game2) ← basicSetup;
  _ ← basicLobby rpc1 rpc2 game1 game2;
  '(chunks1, chunks2) ← basicConnect rpc1 rpc2 game1 game2;
  basicData chunks1 chunks2.

(** ** [run12Player] *)

Definition numPlayers : nat := 12.
Definition playerName (i : nat) : string := "Player" +:+ pretty (Z.of_nat i + 1).

(** Step 2: the adapters; the ports of their RPC servers. *)
Fixpoint startPlayers (n i : nat) (relayUDP relayHTTP : string) : test W (list Z) :=
  match n with
  | O => mret []
  | S n' =>
      rpcPort ← on_lab (lab_tcpPort lab);
      _ ← does (lab_adapter lab (adapterConfig (Z.of_nat i + 1) 200 (playerName i) rpcPort relayUDP relayHTTP));
      rest ← startPlayers n' (S i) relayUDP relayHTTP;
      mret (rpcPort :: rest)
  end.

(** Step 3: client and game of each player. *)
Fixpoint connectPlayers (ports : list Z) (i : nat) : test W (list (nat * nat)) :=
  match ports with
  | [] => mret []
  | port :: ports' =>
      let who := Z.of_nat i + 1 in
      rpc ← connectRPC who port;
      statusStr ← askStatus who rpc;
      status ← readStatus statusStr;
      gport ← must (gpgnetPort status);
      game ← connectGame who gport;
      rest ← connectPlayers ports' (S i);
      mret ((rpc, game) :: rest)
  end.

(** Step 4, for one player; errors of the reads are ignored. *)
Definition enterLobby (p : nat * nat) : test W unit :=
  _ ← does (lab_drain lab p.1 (500 * Time.Millisecond));
  _ ← gameState p.2 "Idle";
  _ ← readGame p.2 (2 * Time.Second);
  _ ← does (lab_drain lab p.1 (500 * Time.Millisecond));
  _ ← gameState p.2 "Lobby";
  does (lab_drain lab p.1 (500 * Time.Millisecond)).

Fixpoint for_each {A} (f : nat -> A -> test W unit) (i : nat) (l : list A) : test W unit :=
  match l with
  | [] => mret tt
  | x :: l' => _ ← f i x; for_each f (S i) l'
  end.

(** A request and the message the game gets for it. *)
Definition requestGame (p : nat * nat) (method : string) (params : list JSON) : test W unit :=
  _ ← request p.1 method params;
  _ ← readGame p.2 (2 * Time.Second);
  mret tt.

(** Step 6: the entries of the status reports.  Errors of the call are ignored,
    and the nil result is then converted. *)
Definition relayEntries (p : nat * nat) : test W Z :=
  r ← on_lab (lab_call lab p.1 (B "status") []);
  status ← readStatus (match r with Ok v => v | Err _ => JNull end);
  relays ← must (v ← entry (B "relays") status; asSlice v);
  mret (len relays).
Fixpoint totalRelays (l : list (nat * nat)) (total : Z) : test W Z :=
  match l with
  | [] => mret total
  | p :: l' => n ← relayEntries p; totalRelays l' (total + n)
  end.

(** Step 7: nothing is sent; the turns of a loop are counted. *)
Fixpoint countLoop (fuel : nat) (deadline n : Z) : test W Z :=
  match fuel with
  | O => mret n
  | S fuel' => fun b =>
      if lab_now lab (world b) <? deadline
      then (_ ← does (lab_sleep lab (100 * Time.Millisecond)); countLoop fuel' deadline (n + 1)) b
      else (b, inr n)
  end.
Definition packetsRouted : test W Z := fun b =>
  countLoop 51 (Time.Add (lab_now lab (world b)) (5 * Time.Second)) 0 b.

(** The result: the relay entries and the number reported as packets. *)
Definition run12Player : test W (Z * Z) :=
  _ ← defer (lab_cancel lab);
  udpPort ← on_lab (lab_udpPort lab);
  httpPort ← on_lab (lab_tcpPort lab);
  _ ← does (lab_server lab (serverConfig udpPort httpPort));
  _ ← does (lab_sleep lab (200 * Time.Millisecond));
  ports ← startPlayers numPlayers 0 (localhost udpPort) ("http://" +:+ localhost httpPort);
  _ ← does (lab_sleep lab Time.Second);
  clients ← connectPlayers ports 0;
  _ ← for_each (fun _ => enterLobby) 0 clients;
  _ ← does (lab_sleep lab (200 * Time.Millisecond));
  host ← must (head clients);
  _ ← requestGame host "hostGame" [jtext "scmp_009"];
  _ ← for_each (fun _ p => requestGame p "joinGame" [jtext (playerName 0); jnum 1]) 1 (tail clients);
  _ ← for_each (fun i _ => requestGame host "connectToPeer"
                             [jtext (playerName i); jnum (Z.of_nat i + 1); JBool true]) 1 (tail clients);
  total ← totalRelays clients 0;
  packets ← packetsRouted;
  mret (total, packets).

(** ** [main] *)

Definition harnessFlags : FlagSet := {[ "scenario" := VString "basic-2player" ]}.

Definition exitCode {A} (v : Stop + A) : Z :=
  match v with inr _ => 0 | inl (Failed _) => 1 | inl Crashed => 2 end.
(** The exit status. *)
Definition harnessMain (args : list string) (w : W) : W * Z :=
  match Parse harnessFlags args with
  | Err code => (w, code)
  | Ok (fs, _) =>
      let scenario := stringFlag fs "scenario" in
      if bool_decide (scenario = "basic-2player") then
        let '(w, v) := perform runBasic2Player w in (w, exitCode v)
      else if bool_decide (scenario = "12player") then
        let '(w, v) := perform run12Player w in (w, exitCode v)
      else (w, 1)
  end.
End Scenarios.

(** ** What a scenario asks and sees *)

(** What a scenario does to the laboratory, with the answers. *)
Inductive Act :=
| AUdpPort (port : Z)
| ATcpPort (port : Z)
| AServer (c : ServerConfig)
| AAdapter (c : AdapterConfig)
| ADialRPC (addr : string) (rpc : option nat)
| ACall (rpc : nat) (method : bytes) (params : list JSON) (answer : result CallErr JSON)
| ADialGame (addr : string) (game : option nat)
| ASend (game : nat) (header : string) (args : list Arg)
| ARead (game : nat) (message : outcome (result ReadErr (string * list Chunk)))
| AListen (sock : nat)
| AWrite (sock : nat) (data : bytes) (to : string)
| AReceive (sock : nat) (data : option bytes).

(** A laboratory that keeps a record of them; the pauses, the notifications
    that are thrown away and the closes are left out. *)
Definition traced {W} (lab : Lab W) : Lab (W * list Act) :=
  let silent (f : W -> W) (x : W * list Act) := (f x.1, x.2) in
  let does (act : Act) (f : W -> W) (x : W * list Act) := (f x.1, x.2 ++ [act]) in
  let asks {A} (act : A -> Act) (f : W -> W * A) (x : W * list Act) :=
    let '(w, a) := f x.1 in ((w, x.2 ++ [act a]), a) in
  MkLab (W * list Act) (fun x => lab_now lab x.1) (fun d => silent (lab_sleep lab d))
    (asks AUdpPort (lab_udpPort lab)) (asks ATcpPort (lab_tcpPort lab))
    (fun c => does (AServer c) (lab_server lab c)) (fun c => does (AAdapter c) (lab_adapter lab c))
    (fun a => asks (ADialRPC a) (lab_rpc lab a))
    (fun c f ps => asks (ACall c f ps) (lab_call lab c f ps))
    (fun c t => silent (lab_drain lab c t)) (fun a => asks (ADialGame a) (lab_game lab a))
    (fun c h args => does (ASend c h args) (lab_send lab c h args))
    (fun c t => asks (ARead c) (lab_read lab c t))
    (asks AListen (lab_listen lab)) (fun c d a => does (AWrite c d a) (lab_write lab c d a))
    (fun c t => asks (AReceive c) (lab_receive lab c t)) (fun c => silent (lab_closeRPC lab c))
    (fun c => silent (lab_closeGame lab c)) (fun c => silent (lab_closeUDP lab c)) (silent (lab_cancel lab)).

Section Traced.
Context {W : Type} (lab : Lab W).
Let tl := traced lab.
Implicit Types b : Bench (W * list Act).

Definition record (b : Bench (W * list Act)) : list Act := (world b).2.

(** A computation that goes on. *)
Lemma run_bind {A B} (m : test (W * list Act) A) (k : A -> test (W * list Act) B) b b' x :
  (m ≫= k) b = (b', inr x) -> exists a b1, m b = (b1, inr a) /\ k a b1 = (b', inr x).
Proof. unfold mbind, test_bind. destruct (m b) as [b1 [|a]]; [done|]. intros H. by exists a, b1. Qed.

(** What the statements leave in the record. *)
Lemma rec_does (f : W * list Act -> W * list Act) tr b b' x :
  (forall w, (f w).2 = w.2 ++ tr) -> does f b = (b', inr x) -> record b' = record b ++ tr.
Proof. intros Hf [= <- _]. apply Hf. Qed.
Lemma rec_silent (f : W * list Act -> W * list Act) b b' x :
  (forall w, (f w).2 = w.2) -> does f b = (b', inr x) -> record b' = record b.
Proof. intros Hf [= <- _]. apply Hf. Qed.
Lemma rec_asks {A} (f : W * list Act -> (W * list Act) * A) (act : A -> Act) b b' x :
  (forall w, (f w).1.2 = w.2 ++ [act (f w).2]) -> on_lab f b = (b', inr x) -> record b' = record b ++ [act x].
Proof.
  intros Hf. unfold on_lab. specialize (Hf (world b)). destruct (f (world b)) as [w a]. intros [= <- <-]. exact Hf.
Qed.
Lemma rec_defer f b b' x : defer (W := W * list Act) f b = (b', inr x) -> record b' = record b.
Proof. by intros [= <- _]. Qed.
Lemma rec_must {A} (o : option A) b b' x : must (W := W * list Act) o b = (b', inr x) -> o = Some x /\ b' = b.
Proof. destruct o; [|done]. by intros [= <- <-]. Qed.

Lemma asked {A} (f : W -> W * A) (act : A -> Act) w :
  let g := fun x : W * list Act => let '(w, a) := f x.1 in ((w, x.2 ++ [act a]), a) in
  (g w).1.2 = w.2 ++ [act (g w).2].
Proof. simpl. by destruct (f w.1). Qed.

Lemma rec_connectRPC who port b b' c :
  connectRPC tl who port b = (b', inr c) -> record b' = record b ++ [ADialRPC (localhost port) (Some c)].
Proof.
  intros (o & b1 & H & H')%run_bind. apply (rec_asks _ (ADialRPC (localhost port))) in H; [|apply asked].
  destruct o as [c'|]; [|done]. by injection H' as <- <-.
Qed.
Lemma rec_connectGame who port b b' c :
  connectGame tl who port b = (b', inr c) -> record b' = record b ++ [ADialGame (localhost port) (Some c)].
Proof.
  intros (o & b1 & H & H')%run_bind. apply (rec_asks _ (ADialGame (localhost port))) in H; [|apply asked].
  destruct o as [c'|]; [|done]. by injection H' as <- <-.
Qed.
Lemma rec_askStatus who c b b' v :
  askStatus tl who c b = (b', inr v) -> record b' = record b ++ [ACall c (B "status") [] (Ok v)].
Proof.
  intros (o & b1 & H & H')%run_bind. apply (rec_asks _ (ACall c (B "status") [])) in H; [|apply asked].
  destruct o as [v'|]; [|done]. by injection H' as <- <-.
Qed.
Lemma rec_readStatus v b b' st :
  readStatus (W := W * list Act) v b = (b', inr st) -> b' = b /\ exists s, v = JStr s /\ st = statusMap s.
Proof.
  intros (s & b1 & [Hs ->]%rec_must & [= <- <-])%run_bind. split; [done|]. exists s. split; [|done].
  destruct v; simpl in Hs; congruence.
Qed.
Lemma rec_request c f ps b b' x :
  request tl c f ps b = (b', inr x) -> exists r, record b' = record b ++ [ACall c (str_bytes f) ps r].
Proof.
  intros (r & b1 & H & [= <- _])%run_bind. apply (rec_asks _ (ACall c (str_bytes f) ps)) in H; [|apply asked]. by exists r.
Qed.
Lemma rec_expect who c want b b' chunks :
  expect tl who c want b = (b', inr chunks) -> record b' = record b ++ [ARead c (Ret (Ok (want, chunks)))].
Proof.
  intros (r & b1 & (o & b2 & H & H1)%run_bind & H')%run_bind.
  apply (rec_asks _ (ARead c)) in H; [|apply asked]. destruct o as [r'|]; [|done]. injection H1 as <- <-.
  destruct r' as [[h cs]|]; [|done]. destruct (bool_decide_reflect (h = want)) as [->|]; [|done].
  by injection H' as <- <-.
Qed.
Lemma rec_state c st b b' x :
  gameState tl c st b = (b', inr x) -> record b' = record b ++ [ASend c CmdGameState [ArgString st]].
Proof. by apply rec_does. Qed.

Lemma record_named b : exists tr, record b = tr.
Proof. by eexists. Qed.

(** One statement of the run [H], whose record so far is [T]: what [L] says it
    adds. *)
Tactic Notation "go" hyp(H) hyp(T) ident(x) uconstr(L) :=
  let b1 := fresh "b" in let Hs := fresh "Hs" in
  apply run_bind in H as (x & b1 & Hs & H); apply L in Hs; [rewrite T in Hs; clear T; rename Hs into T|..];
  try (intros [??]; reflexivity); try apply asked.
Tactic Notation "skip" hyp(H) hyp(T) := let x := fresh "u" in go H T x rec_silent; clear x.

Context (parse_float : bytes -> option float64) (oor64 : float64 -> Z).

(** The record of the set-up. *)
Definition setupRecord (udpPort httpPort rpcPort1 rpcPort2 gpgnetPort1 gpgnetPort2 : Z) (status1 status2 : bytes)
    (rpc1 rpc2 game1 game2 : nat) : list Act :=
  let relayUDP := localhost udpPort in
  let relayHTTP := "http://" +:+ localhost httpPort in
  [AUdpPort udpPort; ATcpPort httpPort; AServer (serverConfig udpPort httpPort); ATcpPort rpcPort1; ATcpPort rpcPort2;
   AAdapter (adapterConfig 1 100 "Player1" rpcPort1 relayUDP relayHTTP);
   AAdapter (adapterConfig 2 100 "Player2" rpcPort2 relayUDP relayHTTP);
   ADialRPC (localhost rpcPort1) (Some rpc1); ADialRPC (localhost rpcPort2) (Some rpc2);
   ACall rpc1 (B "status") [] (Ok (JStr status1)); ACall rpc2 (B "status") [] (Ok (JStr status2));
   ADialGame (localhost gpgnetPort1) (Some game1); ADialGame (localhost gpgnetPort2) (Some game2)].

Lemma rec_setup b b' rpc1 rpc2 game1 game2 :
  basicSetup tl parse_float oor64 b = (b', inr (rpc1, rpc2, game1, game2)) ->
  exists udpPort httpPort rpcPort1 rpcPort2 g1 g2 status1 status2,
    record b' = record b ++ setupRecord udpPort httpPort rpcPort1 rpcPort2 g1 g2 status1 status2 rpc1 rpc2 game1 game2 /\
    gpgnetPort parse_float oor64 (statusMap status1) = Some g1 /\
    gpgnetPort parse_float oor64 (statusMap status2) = Some g2.
Proof.
  intros H. unfold basicSetup in H. destruct (record_named b) as [tr T]. rewrite T.
  go H T u rec_defer. go H T udpPort (rec_asks _ AUdpPort). go H T httpPort (rec_asks _ ATcpPort).
  go H T u1 (rec_does _ [AServer (serverConfig udpPort httpPort)]). skip H T. cbv zeta in H.
  go H T rpcPort1 (rec_asks _ ATcpPort). go H T rpcPort2 (rec_asks _ ATcpPort).
  go H T u2 (rec_does _ [AAdapter (adapterConfig 1 100 "Player1" rpcPort1 (localhost udpPort) ("http://" +:+ localhost httpPort))]).
  go H T u3 (rec_does _ [AAdapter (adapterConfig 2 100 "Player2" rpcPort2 (localhost udpPort) ("http://" +:+ localhost httpPort))]).
  skip H T. go H T c1 rec_connectRPC. go H T c2 rec_connectRPC. go H T v1 rec_askStatus. go H T v2 rec_askStatus.
  apply run_bind in H as (st1 & bb & (-> & status1 & -> & ->)%rec_readStatus & H).
  apply run_bind in H as (st2 & bb & (-> & status2 & -> & ->)%rec_readStatus & H).
  apply run_bind in H as (g1 & bb & (Hg1 & ->)%rec_must & H).
  apply run_bind in H as (g2 & bb & (Hg2 & ->)%rec_must & H).
  go H T d1 rec_connectGame. go H T d2 rec_connectGame. injection H as <- <- <- <- <-.
  exists udpPort, httpPort, rpcPort1, rpcPort2, g1, g2, status1, status2. split; [|done].
  rewrite T, <- !app_assoc. reflexivity.
Qed.

Definition lobbyRecord (game1 game2 : nat) (chunks1 chunks2 : list Chunk) : list Act :=
  [ASend game1 CmdGameState [ArgString "Idle"]; ASend game2 CmdGameState [ArgString "Idle"];
   ARead game1 (Ret (Ok (CmdCreateLobby, chunks1))); ARead game2 (Ret (Ok (CmdCreateLobby, chunks2)));
   ASend game1 CmdGameState [ArgString "Lobby"]; ASend game2 CmdGameState [ArgString "Lobby"]].

Lemma rec_lobby rpc1 rpc2 game1 game2 b b' x :
  basicLobby tl rpc1 rpc2 game1 game2 b = (b', inr x) ->
  exists chunks1 chunks2, record b' = record b ++ lobbyRecord game1 game2 chunks1 chunks2.
Proof.
  intros H. unfold basicLobby in H. destruct (record_named b) as [tr T]. rewrite T.
  do 2 skip H T. go H T u1 rec_state. go H T u2 rec_state. go H T chunks1 rec_expect. go H T chunks2 rec_expect.
  do 2 skip H T. go H T u3 rec_state. go H T u4 rec_state. do 2 skip H T.
  apply rec_silent in H; [|done]. exists chunks1, chunks2. rewrite H, T, <- !app_assoc. reflexivity.
Qed.

Definition connectRecord (rpc1 rpc2 game1 game2 : nat) (r1 r2 r3 : result CallErr JSON)
    (chunks0 chunks1 chunks2 : list Chunk) : list Act :=
  [ACall rpc1 (B "hostGame") [jtext "scmp_009"] r1; ARead game1 (Ret (Ok (CmdHostGame, chunks0)));
   ACall rpc2 (B "joinGame") [jtext "Player1"; jnum 1] r2; ARead game2 (Ret (Ok (CmdJoinGame, chunks2)));
   ACall rpc1 (B "connectToPeer") [jtext "Player2"; jnum 2; JBool true] r3;
   ARead game1 (Ret (Ok (CmdConnectToPeer, chunks1)))].

Lemma rec_connect rpc1 rpc2 game1 game2 b b' chunks1 chunks2 :
  basicConnect tl rpc1 rpc2 game1 game2 b = (b', inr (chunks1, chunks2)) ->
  exists r1 r2 r3 chunks0,
    record b' = record b ++ connectRecord rpc1 rpc2 game1 game2 r1 r2 r3 chunks0 chunks1 chunks2.
Proof.
  intros H. unfold basicConnect in H. destruct (record_named b) as [tr T]. rewrite T.
  apply run_bind in H as (u1 & b1 & [r1 T1]%rec_request & H). rewrite T in T1. clear T. rename T1 into T.
  go H T chunks0 rec_expect.
  apply run_bind in H as (u2 & b3 & [r2 T1]%rec_request & H). rewrite T in T1. clear T. rename T1 into T.
  go H T c2 rec_expect.
  apply run_bind in H as (u3 & b5 & [r3 T1]%rec_request & H). rewrite T in T1. clear T. rename T1 into T.
  go H T c1 rec_expect. injection H as <- <- <-. exists r1, r2, r3, chunks0. rewrite T, <- !app_assoc. reflexivity.
Qed.

Definition dataRecord (sock1 sock2 : nat) (addr1 addr2 : string) (x : option bytes) : list Act :=
  [AListen sock1; AListen sock2; AWrite sock1 testPayload addr1; AWrite sock2 testPayload2 addr2; AReceive sock2 x].

Lemma rec_data chunks1 chunks2 b b' x :
  basicData tl chunks1 chunks2 b = (b', inr x) ->
  exists sock1 sock2 addr1 addr2, peerAddr chunks1 = Some addr1 /\ peerAddr chunks2 = Some addr2 /\
    record b' = record b ++ dataRecord sock1 sock2 addr1 addr2 x.
Proof.
  intros H. unfold basicData in H. destruct (record_named b) as [tr T]. rewrite T.
  apply run_bind in H as (addr1 & bb & (Ha1 & ->)%rec_must & H).
  apply run_bind in H as (addr2 & bb & (Ha2 & ->)%rec_must & H).
  go H T sock1 (rec_asks _ AListen). go H T u1 rec_defer. go H T sock2 (rec_asks _ AListen). go H T u2 rec_defer.
  go H T u3 (rec_does _ [AWrite sock1 testPayload addr1]). go H T u4 (rec_does _ [AWrite sock2 testPayload2 addr2]).
  skip H T. apply (rec_asks _ (AReceive sock2)) in H; [|apply asked].
  exists sock1, sock2, addr1, addr2. split; [done|]. split; [done|]. rewrite H, T, <- !app_assoc. reflexivity.
Qed.
End Traced.

(** C32. What a pass of the two-player scenario means.  Whatever the laboratory
    does, when [runBasic2Player] comes to its end without an error, then up to
    pauses and discarded notifications exactly this happened, in this order: one
    server and two adapters were started, each adapter with an RPC port of its
    own; client 1 connected to the RPC port of adapter 1 and client 2 to that of
    adapter 2; each answered the status call with a report that names a game
    port; game 1 connected to the port from the first report and game 2 to that
    from the second; both told that they are idle and both were told to create
    their lobby; client 1 asked to host and game 1 was told to, client 2 asked to
    join and game 2 was told to with an address for player 1, client 1 asked to
    connect and game 1 was told to with an address for player 2; and each game's
    datagram was sent to the address the game was told.  What game 2 received is
    recorded, but decides nothing. *)
Theorem basic_pass_means {W} (lab : Lab W) (parse_float : bytes -> option float64) (oor64 : float64 -> Z)
    (w : W) (b : Bench (W * list Act)) (x : option bytes) :
  runBasic2Player (traced lab) parse_float oor64 (MkBench (w, []) []) = (b, inr x) ->
  exists udpPort httpPort rpcPort1 rpcPort2 g1 g2 status1 status2 rpc1 rpc2 game1 game2
      c1 c2 r1 r2 r3 chunks0 chunks1 chunks2 sock1 sock2 addr1 addr2,
    (world b).2 =
      setupRecord udpPort httpPort rpcPort1 rpcPort2 g1 g2 status1 status2 rpc1 rpc2 game1 game2 ++
      lobbyRecord game1 game2 c1 c2 ++
      connectRecord rpc1 rpc2 game1 game2 r1 r2 r3 chunks0 chunks1 chunks2 ++
      dataRecord sock1 sock2 addr1 addr2 x /\
    gpgnetPort parse_float oor64 (statusMap status1) = Some g1 /\
    gpgnetPort parse_float oor64 (statusMap status2) = Some g2 /\
    peerAddr chunks1 = Some addr1 /\ peerAddr chunks2 = Some addr2.
Proof.
  intros H. unfold runBasic2Player in H.
  apply run_bind in H as ([[[rpc1 rpc2] game1] game2] & b1 & H1 & H). apply run_bind in H as (u & b2 & H2 & H).
  apply run_bind in H as ([chunks1 chunks2] & b3 & H3 & H4).
  apply rec_setup in H1 as (udpPort & httpPort & rpcPort1 & rpcPort2 & g1 & g2 & status1 & status2 & T1 & Hg1 & Hg2).
  apply rec_lobby in H2 as (c1 & c2 & T2). apply rec_connect in H3 as (r1 & r2 & r3 & chunks0 & T3).
  apply rec_data in H4 as (sock1 & sock2 & addr1 & addr2 & Ha1 & Ha2 & T4).
  exists udpPort, httpPort, rpcPort1, rpcPort2, g1, g2, status1, status2, rpc1, rpc2, game1, game2,
    c1, c2, r1, r2, r3, chunks0, chunks1, chunks2, sock1, sock2, addr1, addr2.
  split; [|done]. change ((world b).2) with (record b). by rewrite T4, T3, T2, T1, <- !app_assoc.
Qed.

(** ** What a scenario does not look at *)

(** The laboratory with another network for the games' datagrams. *)
Definition deaf {W} (receive : nat -> Z -> W -> W * option bytes) (lab : Lab W) : Lab W :=
  MkLab W (lab_now lab) (lab_sleep lab) (lab_udpPort lab) (lab_tcpPort lab) (lab_server lab) (lab_adapter lab)
    (lab_rpc lab) (lab_call lab) (lab_drain lab) (lab_game lab) (lab_send lab) (lab_read lab) (lab_listen lab)
    (lab_write lab) receive (lab_closeRPC lab) (lab_closeGame lab) (lab_closeUDP lab) (lab_cancel lab).

(** Computations that go on or stop alike. *)
Definition alike {W A} (m m' : test W A) : Prop := forall b, exitCode (m b).2 = exitCode (m' b).2.
Lemma alike_bind {W A B} (m : test W A) (f f' : A -> test W B) :
  (forall a, alike (f a) (f' a)) -> alike (m ≫= f) (m ≫= f').
Proof. intros H b. unfold mbind, test_bind. destruct (m b) as [b1 [|a]]; [done|apply H]. Qed.

Lemma alike_perform {W A} (m m' : test W A) w : alike m m' -> exitCode (perform m w).2 = exitCode (perform m' w).2.
Proof.
  intros H. specialize (H (MkBench w [])). unfold perform. destruct (m _) as [b v]. by destruct (m' _) as [b' v'].
Qed.

(** Time passes by at least what a sleep asks for. *)
Definition sleeps {W} (lab : Lab W) : Prop := forall d w, lab_now lab w + d <= lab_now lab (lab_sleep lab d w).

Lemma countLoop_turns {W} (lab : Lab W) : sleeps lab -> forall fuel deadline n b,
  deadline - lab_now lab (world b) <= Z.of_nat fuel * (100 * Time.Millisecond) ->
  exists b' k, countLoop lab (S fuel) deadline n b = (b', inr (n + k)) /\ 0 <= k /\
    (k = 0 \/ (k - 1) * (100 * Time.Millisecond) < deadline - lab_now lab (world b)) /\
    (lab_now lab (world b) < deadline -> 0 < k) /\ deadline <= lab_now lab (world b').
Proof.
  intros Hs. induction fuel as [|fuel IH]; intros deadline n b Hf.
  - cbn [countLoop]. rewrite (proj2 (Z.ltb_ge _ _)) by lia. exists b, 0. rewrite Z.add_0_r.
    split_and!; [done|done|by left|lia|lia].
  - remember (S fuel) as fuel'. cbn [countLoop].
    destruct (Z.ltb_spec (lab_now lab (world b)) deadline) as [Hlt|Hge].
    + unfold mbind, test_bind, does, on_lab. subst fuel'. pose proof (Hs (100 * Time.Millisecond) (world b)) as Hs'.
      set (b1 := MkBench _ _). assert (Hw : world b1 = lab_sleep lab (100 * Time.Millisecond) (world b)) by done.
      clearbody b1. destruct (IH deadline (n + 1) b1) as (b' & k & E & Hk & Hb & _ & Hd); [rewrite Hw; lia|].
      exists b', (1 + k). rewrite E, Z.add_assoc. rewrite Hw in Hb. unfold Time.Millisecond in *.
      split_and!; [done|lia|right; lia|lia|done].
    + exists b, 0. rewrite Z.add_0_r. split_and!; [done|done|by left|lia|done].
Qed.

(** What the harness does not test.  The exit status of the two-player
    scenario is the same whatever becomes of the games' datagrams; and what the
    twelve-player scenario reports as packets is the number of its pauses, from
    1 to 50 in five seconds, in every laboratory. *)
Theorem harness_blind {W} (lab : Lab W) (parse_float : bytes -> option float64) (oor64 : float64 -> Z)
    (receive : nat -> Z -> W -> W * option bytes) (w : W) (b : Bench W) :
  sleeps lab ->
  exitCode (perform (runBasic2Player lab parse_float oor64) w).2 =
    exitCode (perform (runBasic2Player (deaf receive lab) parse_float oor64) w).2 /\
  exists b' n, packetsRouted lab b = (b', inr n) /\ 1 <= n <= 50 /\
    lab_now lab (world b) + 5 * Time.Second <= lab_now lab (world b').
Proof.
  intros Hs. split.
  - apply alike_perform. unfold runBasic2Player. change (basicSetup (deaf receive lab)) with (basicSetup lab).
    apply alike_bind. intros [[[rpc1 rpc2] game1] game2]. apply alike_bind. intros _.
    apply alike_bind. intros [chunks1 chunks2]. unfold basicData.
    do 9 (apply alike_bind; intros ?). intros b0. unfold on_lab. cbn [lab_receive deaf].
    destruct (lab_receive lab _ _ _) as [w1 x]. by destruct (receive _ _ _) as [w2 y].
  - unfold packetsRouted, Time.Add. set (deadline := lab_now lab (world b) + 5 * Time.Second).
    assert (Hd : Time.Second = 10 * (100 * Time.Millisecond)) by done.
    destruct (countLoop_turns lab Hs 50 deadline 0 b ltac:(subst deadline; lia)) as (b' & k & E & H0 & Hk & Hp & Hend).
    exists b', k. split; [exact E|]. split; [|done]. unfold Time.Millisecond, Time.Second in *. lia.
Qed.
