(* ===== verification/System.v ===== *)
(** * The whole system in one process

    The laboratory of [Harness] made of the other models: a relay server
    ([ServerLoop], [HttpApi], [Router]), adapters ([AdapterRun]) with their
    JSON-RPC servers ([RpcServer]), their GPGNet servers and their status reports
    ([Status]), the mock clients ([Mock]) and a loopback network between them.
    Every message crosses it as bytes.  The scenarios of the test harness run on
    it by evaluation.

    The harness sleeps between its steps; here each of its operations lets the
    system come to rest.  The timers of the adapters and of the server are apart
    ([Timer]): none of them is due within a scenario of the harness, and
    [SystemSafe] lets them fire at any point.  Everything is on UDP: no TCP
    connection to the relay and no ICE transport is part of this network. *)

From stdpp Require Import pretty.
From S2P Require Import Prelude GoLib GoText Float RelayWire TcpFrame Metrics Session SessionManager Router HttpApi.
From S2P Require Import ServerLoop RelayConn Transport Peer PeerMgr EndToEnd GPGNet JsonRpc Json RpcMessage.
From S2P Require Import GpgNetServer IceText RpcHandler AdapterRun RpcServer Status Registration RelayServer Mock Harness.

(** ** Addresses and numbers *)

Definition loopback : Addr := Addr4 2130706433.
Definition local_addr (port : Z) : AddrPort := MkAddrPort loopback port.

(** The [float64] of a decimal literal without fraction. *)
Fixpoint digitsVal (acc : Z) (s : bytes) : option Z :=
  match s with
  | [] => Some acc
  | b :: s' => if (48 <=? byteZ b) && (byteZ b <=? 57) then digitsVal (10 * acc + (byteZ b - 48)) s' else None
  end.
Definition intLiteral (s : bytes) : option float64 :=
  match s with [] => None | _ => float_of <$> digitsVal 0 s end.

(** ** State *)

(** An adapter.  The counters say how many of the notifications, tasks and
    packets its parts have recorded have been passed on. *)
Record Node := MkNode {
  nd_base : Z;                 (* its ports lie above this number *)
  nd_run : RunState; nd_rpc : RPCServer;
  nd_gpgNotes : nat; nd_fafNotes : nat; nd_tasks : nat; nd_sent : nat }.
Definition gpgPort (n : Node) : Z := nd_base n + 1.
Definition lobbyPortOf (base : Z) : Z := base + 2.
Definition relaySocket (n : Node) : AddrPort := local_addr (nd_base n + 3).
Definition peerPort (n : Node) (sock : nat) : Z := nd_base n + 10 + Z.of_nat sock.

Record Sys := MkSys {
  sy_now : Z;
  sy_srv : option Running;     (* the relay server, while it runs *)
  sy_udp : AddrPort;           (* its UDP address *)
  sy_nodes : list Node;
  (** the clients: node, connection there, bytes received so far *)
  sy_rpcs : list (nat * nat * nat * MockJSONRPCClient);
  (** the games: node, bytes received so far; [None] after a failed read *)
  sy_games : list (nat * nat * option MockGPGNetClient);
  (** the sockets of the harness: what has arrived *)
  sy_socks : list (list bytes);
  (** datagrams of the harness under way: socket, address, payload *)
  sy_flight : list (nat * string * bytes);
  sy_nextPort : Z;
  sy_crashed : bool }.

Definition with_now (t : Z) (s : Sys) : Sys :=
  MkSys t (sy_srv s) (sy_udp s) (sy_nodes s) (sy_rpcs s) (sy_games s) (sy_socks s) (sy_flight s) (sy_nextPort s) (sy_crashed s).
Definition with_srv (v : option Running) (s : Sys) : Sys :=
  MkSys (sy_now s) v (sy_udp s) (sy_nodes s) (sy_rpcs s) (sy_games s) (sy_socks s) (sy_flight s) (sy_nextPort s) (sy_crashed s).
Definition with_nodes (l : list Node) (s : Sys) : Sys :=
  MkSys (sy_now s) (sy_srv s) (sy_udp s) l (sy_rpcs s) (sy_games s) (sy_socks s) (sy_flight s) (sy_nextPort s) (sy_crashed s).
Definition with_rpcs (l : list (nat * nat * nat * MockJSONRPCClient)) (s : Sys) : Sys :=
  MkSys (sy_now s) (sy_srv s) (sy_udp s) (sy_nodes s) l (sy_games s) (sy_socks s) (sy_flight s) (sy_nextPort s) (sy_crashed s).
Definition with_games (l : list (nat * nat * option MockGPGNetClient)) (s : Sys) : Sys :=
  MkSys (sy_now s) (sy_srv s) (sy_udp s) (sy_nodes s) (sy_rpcs s) l (sy_socks s) (sy_flight s) (sy_nextPort s) (sy_crashed s).
Definition with_socks (l : list (list bytes)) (s : Sys) : Sys :=
  MkSys (sy_now s) (sy_srv s) (sy_udp s) (sy_nodes s) (sy_rpcs s) (sy_games s) l (sy_flight s) (sy_nextPort s) (sy_crashed s).
Definition with_flight (l : list (nat * string * bytes)) (s : Sys) : Sys :=
  MkSys (sy_now s) (sy_srv s) (sy_udp s) (sy_nodes s) (sy_rpcs s) (sy_games s) (sy_socks s) l (sy_nextPort s) (sy_crashed s).
Definition next_port (s : Sys) : Sys :=
  MkSys (sy_now s) (sy_srv s) (sy_udp s) (sy_nodes s) (sy_rpcs s) (sy_games s) (sy_socks s) (sy_flight s) (sy_nextPort s + 1) (sy_crashed s).
Definition crashes (s : Sys) : Sys :=
  MkSys (sy_now s) (sy_srv s) (sy_udp s) (sy_nodes s) (sy_rpcs s) (sy_games s) (sy_socks s) (sy_flight s) (sy_nextPort s) true.
(** A part that panics takes the process down. *)
Definition guarded {A} (o : outcome A) (k : A -> Sys) (s : Sys) : Sys :=
  match o with Ret a => k a | Panic => crashes s end.

Definition upd_node (i : nat) (f : Node -> Node) (s : Sys) : Sys := with_nodes (alter f i (sy_nodes s)) s.
Definition set_run (r : RunState) (n : Node) : Node :=
  MkNode (nd_base n) r (nd_rpc n) (nd_gpgNotes n) (nd_fafNotes n) (nd_tasks n) (nd_sent n).
Definition set_rpc (r : RPCServer) (n : Node) : Node :=
  MkNode (nd_base n) (nd_run n) r (nd_gpgNotes n) (nd_fafNotes n) (nd_tasks n) (nd_sent n).
Definition nodeOf {A} (i : nat) (s : Sys) (none : A) (f : Node -> A) : A :=
  match sy_nodes s !! i with Some n => f n | None => none end.

(** ** The relay server over HTTP *)

Definition httpDo (r : Request) (s : Sys) : Sys * option Response :=
  match sy_srv s with
  | None => (s, None)
  | Some srv =>
      let '(a, resp) := ServeHTTP id_shuffle r (sy_now s) (sy_now s) (sy_now s) (v_api srv) in
      (with_srv (Some (MkRunning a (v_pending srv))) s, Some resp)
  end.
Definition clientAddr : string := "127.0.0.1:50000".

(** The health check and the two requests of the registration; the second of
    these is made when the first is answered. *)
Definition registration (n : Node) (s : Sys) : Sys * RelayAnswers :=
  let a := ar_a (nd_run n) in
  let key := ac_APIKey (ar_cfg (nd_run n)) in
  let '(s, _) := httpDo (healthRequest clientAddr) s in
  let '(s, r1) := httpDo (createRequest key clientAddr (sessionID a)) s in
  match r1 with
  | None => (s, MkAnswers None None None)
  | Some r1 =>
      let '(s, r2) := httpDo (joinRequest key clientAddr (sessionID a) (cfg_playerID (ad_cfg a)) (cfg_login (ad_cfg a))) s in
      (s, MkAnswers (Some (status r1)) (status <$> r2) None)
  end.
Definition lookup (n : Node) (s : Sys) : Sys * RelayAnswers :=
  let '(s, r) := httpDo (lookupRequest clientAddr (sessionID (ar_a (nd_run n)))) s in
  (s, MkAnswers None None (sessionAnswer <$> r)).

(** ** Datagrams *)

Definition act (i : nat) (e : RunEvent) (s : Sys) : Sys :=
  nodeOf i s s (fun n => guarded (aStep e (nd_run n)) (fun r => upd_node i (set_run r) s) s).

(** New packets of a relay connection. *)
Definition set_conn (rc : RelayConnection) (outs : list Out) (pm : PeerManager) (r : RunState) : RunState :=
  with_a (with_pm pm (ar_a r)) (with_w (with_rc rc outs (ar_w r)) r).
(** The hello of [ensureRelayReady]. *)
Definition sayHello (i : nat) (s : Sys) : Sys :=
  nodeOf i s s (fun n =>
    guarded (SendHello true (sy_now s) (w_rc (ar_w (nd_run n))))
      (fun '(rc, outs, _) => upd_node i (set_run (set_conn rc outs (ad_pm (ar_a (nd_run n))) (nd_run n))) s) s).

(** The sockets of the harness. *)
Definition sockAddr (k : nat) : AddrPort := local_addr (60000 + Z.of_nat k).
Definition deliver (s : Sys) (o : AddrPort * bytes) : Sys :=
  match list_find (fun k => sockAddr k = o.1) (seq 0 (length (sy_socks s))) with
  | Some (k, _) => with_socks (alter (fun q => q ++ [o.2]) k (sy_socks s)) s
  | None => s
  end.

(** The peer's goroutine takes a packet off its channel. *)
Definition toGame (i : nat) (s : Sys) (pid : Z) : Sys :=
  nodeOf i s s (fun n =>
    let r := nd_run n in
    match GetPeer pid (ad_pm (ar_a r)) with
    | None => s
    | Some peer =>
        guarded (relayToGame true (sy_now s) peer (w_rc (ar_w r))) (fun '(peer, rc, outs, out) =>
          let pm := with_peers (fun t => <[pid := peer]> t) (ad_pm (ar_a r)) in
          let s := upd_node i (set_run (set_conn rc outs pm r)) s in
          match out with Some o => deliver s o | None => s end) s
    end).

(** A datagram for the relay socket of adapter [j], whose receive loop runs. *)
Definition toAdapter (from : AddrPort) (data : bytes) (j : nat) (s : Sys) : Sys :=
  nodeOf j s s (fun n =>
    let r := nd_run n in
    match w_recv (ar_w r) with
    | RUDP =>
        guarded (receiveUDP [RecvData data from (sy_now s) (sy_now s)] (w_rc (ar_w r)) (ad_pm (ar_a r)))
          (fun '(rc, pm) =>
             foldl (toGame j) (upd_node j (set_run (set_conn rc [] pm r)) s) (fst <$> map_to_list (pm_peers pm))) s
    | _ => s
    end).

(** A datagram of the server arrives: at an adapter, or at a socket of the
    harness. *)
Definition fromServer (s : Sys) (o : AddrPort * bytes) : Sys :=
  match list_find (fun n => relaySocket n = o.1) (sy_nodes s) with
  | Some (j, _) => toAdapter (sy_udp s) o.2 j s
  | None => deliver s o
  end.

(** A datagram for the server, and what it sends. *)
Definition toServer (from : AddrPort) (pkt : bytes) (s : Sys) : Sys :=
  match sy_srv s with
  | Some srv =>
      guarded (udpPacket good_net id_shuffle (take (Z.to_nat readBufSize) pkt) from (sy_now s) (v_sm srv))
        (fun '(m, outs) =>
           foldl fromServer (with_srv (Some (with_mgr m srv)) s)
             (omap (fun o => match o with SendUDP a d => Some (a, d) | _ => None end) outs)) s
  | None => s
  end.

(** Packets of the adapters cross the network one after the other. *)
Definition carried (n : Node) : Node :=
  MkNode (nd_base n) (nd_run n) (nd_rpc n) (nd_gpgNotes n) (nd_fafNotes n) (nd_tasks n) (S (nd_sent n)).
Fixpoint carry (fuel : nat) (s : Sys) : Sys :=
  match fuel with
  | O => s
  | S fuel' =>
      match list_find (fun n => (nd_sent n < length (w_out (ar_w (nd_run n))))%nat) (sy_nodes s) with
      | None => s
      | Some (i, n) =>
          let s := upd_node i carried s in
          carry fuel' match w_out (ar_w (nd_run n)) !! nd_sent n with
                      | Some (SendUDP a pkt) => if bool_decide (a = sy_udp s) then toServer (relaySocket n) pkt s else s
                      | _ => s
                      end
      end
  end.

(** A datagram of the harness: for the socket of a peer, for the server, for
    the relay socket of an adapter, for a socket of the harness; nobody else
    listens. *)
Definition peerAt (addr : string) (n : Node) : option Peer :=
  head (filter (fun p => localhost (peerPort n (p_conn p)) = addr)
          (snd <$> map_to_list (pm_peers (ad_pm (ar_a (nd_run n)))))).
Definition toPeer (k : nat) (data : bytes) (peer : Peer) (i : nat) (s : Sys) : Sys :=
  nodeOf i s s (fun n =>
    let r := nd_run n in
    guarded (gameToRelay true data (sockAddr k) peer (w_rc (ar_w r))) (fun '(peer, rc, outs) =>
      let pm := with_peers (fun t => <[Peer.PlayerID peer := peer]> t) (ad_pm (ar_a r)) in
      upd_node i (set_run (set_conn rc outs pm r)) s) s).
Definition fromGame (s : Sys) (d : nat * string * bytes) : Sys :=
  let '(k, addr, data) := d in
  match list_find (fun n => is_Some (peerAt addr n)) (sy_nodes s) with
  | Some (i, n) => match peerAt addr n with Some peer => toPeer k data peer i s | None => s end
  | None =>
      if bool_decide (addr = localhost (ap_port (sy_udp s))) then toServer (sockAddr k) data s
      else match list_find (fun n => localhost (ap_port (relaySocket n)) = addr) (sy_nodes s) with
           | Some (j, _) => toAdapter (sockAddr k) data j s
           | None =>
               match list_find (fun k => localhost (ap_port (sockAddr k)) = addr) (seq 0 (length (sy_socks s))) with
               | Some (k', _) => deliver s (sockAddr k', data)
               | None => s
               end
           end
  end.

(** ** Timers *)

(** The keepalive and the health monitor of an adapter, the pings of a peer, the
    two phases of the server's reaper. *)
Inductive Timer :=
| TKeepalive (i : nat)
| THealth (i : nat)
| TPing (i : nat) (pid : Z)
| TScan
| TApply.

Definition fires (t : Timer) (s : Sys) : Sys :=
  let onServer (e : SrvEvent) :=
    match sy_srv s with
    | Some srv => guarded (srvStep good_net id_shuffle e srv) (fun srv => with_srv (Some srv) s) s
    | None => s
    end in
  match t with
  | TKeepalive i => act i (AvTransport (EKeepalive true (sy_now s))) s
  | THealth i => act i (AvTransport (EHealth (sy_now s))) s
  | TPing i pid =>
      nodeOf i s s (fun n =>
        let r := nd_run n in
        match GetPeer pid (ad_pm (ar_a r)) with
        | None => s
        | Some peer =>
            guarded (pingTick true (sy_now s) peer (w_rc (ar_w r)))
              (fun '(rc, outs) => upd_node i (set_run (set_conn rc outs (ad_pm (ar_a r)) r)) s) s
        end)
  | TScan => onServer (SvScan (sy_now s) (fun _ => sy_now s))
  | TApply => onServer (SvApply (sy_now s) (fun _ _ => sy_now s))
  end.

(** The order in which datagrams sent together are handled. *)
Inductive Race := InOrder | Reversed | Together.
Definition fuel : nat := 200.
Definition flights (race : Race) (s : Sys) : Sys :=
  let ds := sy_flight s in
  let s := with_flight [] s in
  match race with
  | InOrder => foldl (fun s d => carry fuel (fromGame s d)) s ds
  | Reversed => foldl (fun s d => carry fuel (fromGame s d)) s (reverse ds)
  | Together => carry fuel (foldl fromGame s ds)
  end.

(** ** Notifications and waiting goroutines *)

Definition gpgNote (n : Note) : option Notification :=
  match n with
  | NConnectionState st => Some (OnConnectionStateChanged st)
  | NGpgNetMessage h cs => Some (OnGpgNetMessageReceived h cs)
  | NGameDisconnected => None
  end.
(** What is recorded goes to the clients of the JSON-RPC server. *)
Definition announce (n : Node) : Node :=
  let a := ar_a (nd_run n) in
  let notes := omap gpgNote (drop (nd_gpgNotes n) (g_notes (ad_gpg a))) ++
               (noteOf (cfg_playerID (ad_cfg a)) <$> drop (nd_fafNotes n) (ad_notes a)) in
  MkNode (nd_base n) (nd_run n) (foldl (fun r x => SendNotification Some x r) (nd_rpc n) notes)
    (length (g_notes (ad_gpg a))) (length (ad_notes a)) (nd_tasks n) (nd_sent n).

Definition rpcEnv (n : Node) (ans : RelayAnswers) : RpcEnv :=
  MkRpcEnv all_ok ans (peerPort n) (fun _ => 0) (fun _ => 0) (fun _ => None) (fun _ => None).
Definition noAnswers : RelayAnswers := MkAnswers None None None.

(** The goroutines that wait for the relay go on once it is confirmed. *)
Definition runTasks (s : Sys) (i : nat) : Sys :=
  nodeOf i s s (fun n =>
    let r := nd_run n in
    match WaitRelayConfirmed (ctxDone r) (w_rc (ar_w r)) with
    | Some _ =>
        let all := length (ad_tasks (ar_a r)) in
        let s := foldl (fun s j => act i (AvTask (rpcEnv n noAnswers) j) s) s (seq (nd_tasks n) (all - nd_tasks n)) in
        upd_node i (fun n => MkNode (nd_base n) (nd_run n) (nd_rpc n) (nd_gpgNotes n) (nd_fafNotes n) all (nd_sent n)) s
    | None => s
    end).

Definition okAnswer (port : Z) (addr : AddrPort) : Answer := MkAnswer true port addr id_shuffle.
Definition asked (r : RelayReq -> bool) (n : Node) : bool := existsb r (ad_reqs (ar_a (nd_run n))).
Definition isHello (r : RelayReq) : bool := match r with ReqHello => true | _ => false end.
Definition isLeave (r : RelayReq) : bool := match r with ReqLeave _ _ => true | _ => false end.

(** The rest of [Run] when something has ended its wait, with the request of
    [leaveRelay]. *)
Definition stopAdapter (i : nat) (s : Sys) : Sys :=
  let any := okAnswer 0 AddrPort_zero in
  let s := foldl (fun s e => act i e s) s [AvRun any; AvRun any; AvRun any] in
  nodeOf i s s (fun n =>
    let a := ar_a (nd_run n) in
    if asked isLeave n
    then (httpDo (leaveRequest (ac_APIKey (ar_cfg (nd_run n))) clientAddr (sessionID a) (cfg_playerID (ad_cfg a))) s).1
    else s).
Definition stopDone (s : Sys) (i : nat) : Sys :=
  nodeOf i s s (fun n => if ctxDone (nd_run n) && negb (returned (ar_pc (nd_run n))) then stopAdapter i s else s).

Definition goOn (s : Sys) : Sys :=
  let s := foldl runTasks s (seq 0 (length (sy_nodes s))) in
  let s := foldl stopDone s (seq 0 (length (sy_nodes s))) in
  with_nodes (announce <$> sy_nodes s) s.

(** The system comes to rest. *)
Definition settle (race : Race) (s : Sys) : Sys := goOn (carry fuel (flights race s)).

(** ** Starting and stopping *)

Definition portOf (addr : string) : Z := default 0 (digitsVal 0 (drop 1 (str_bytes addr))).

Definition startServer (cfg : ServerConfig) (s : Sys) : Sys :=
  MkSys (sy_now s) (Some (startRunning (APIKey cfg) (RateLimitGlobal cfg) (RateLimitPerIP cfg)))
    (local_addr (portOf (UDPAddr cfg))) (sy_nodes s) (sy_rpcs s) (sy_games s) (sy_socks s) (sy_flight s)
    (sy_nextPort s) (sy_crashed s).

(** [Run] up to its wait; then the transport is chosen, the receive loop
    starts and the adapter registers. *)
Definition startAdapter (cfg : AdapterConfig) (s : Sys) : Sys :=
  let i := length (sy_nodes s) in
  let base := 20000 + 100 * Z.of_nat i in
  let relay := if bool_decide (ac_RelayServer cfg = localhost (ap_port (sy_udp s))) then sy_udp s else AddrPort_zero in
  let any := okAnswer 0 AddrPort_zero in
  guarded (aRun (startEvents (okAnswer 0 relay) (okAnswer (lobbyPortOf base) relay) any any any any) (newAdapter cfg true))
    (fun r =>
       let s := with_nodes (sy_nodes s ++ [MkNode base r (NewRPCServer (ar_a r)) 0 0 0 0]) s in
       let s := foldl (fun s e => act i (AvTransport e) s) s
                  [ESetup None true (sy_now s); ESetup None true (sy_now s); ESetup None true (sy_now s); EReceive] in
       nodeOf i s s (fun n =>
         let '(s, ans) := registration n s in
         let s := act i (AvRegister ans) s in
         nodeOf i s s (fun n => if asked isHello n then sayHello i s else s))) s.

(** ** The JSON-RPC clients *)

Definition statusEnv (n : Node) (now : Z) : StatusEnv :=
  MkStEnv (peerPort n) (ar_lobbyPort (nd_run n)) (RPCPort (ar_cfg (nd_run n))) (gpgPort n) now
    (fun _ => None) (fun _ => None).
Definition statusOf (n : Node) (now : Z) (a : Adapter) : bytes :=
  Status.statusText (BuildStatus id_shuffle merge_sorter (statusEnv n now) (w_rc (ar_w (nd_run n))) a).

(** The goroutine of a connection, until it waits for input. *)
Fixpoint serveRPC (fuel : nat) (env : RpcEnv) (st : Adapter -> bytes) (id : nat) (r : RPCServer) : RPCServer :=
  match fuel with
  | O => r
  | S fuel' =>
      let waits := match rs_conns r !! id with
                   | None => true
                   | Some c => match cl_phase c, ReadRequest Some (cl_in c) with Serving, Err _ => true | _, _ => false end
                   end in
      if waits then r
      else serveRPC fuel' env st id (own Some intLiteral st (fun _ _ => B "error") env id r)
  end.
Definition feed (data : bytes) (c : Client) : Client :=
  MkClient (cl_phase c) (cl_in c ++ data) (cl_w c) (cl_input c ++ data) (cl_handled c) (cl_log c).

Definition dialRPC (addr : string) (s : Sys) : Sys * option nat :=
  match list_find (fun n => localhost (RPCPort (ar_cfg (nd_run n))) = addr) (sy_nodes s) with
  | None => (s, None)
  | Some (i, n) =>
      match NewMockJSONRPCClient true with
      | None => (s, None)
      | Some m =>
          let id := rs_next (nd_rpc n) in
          let r := register id (accept [] (nd_rpc n)) in
          (with_rpcs (sy_rpcs s ++ [(i, id, O, m)]) (upd_node i (set_rpc r) s), Some (length (sy_rpcs s)))
      end
  end.

(** What has been written to a connection. *)
Definition written (i id : nat) (s : Sys) : bytes :=
  nodeOf i s [] (fun n => default [] ((fun c => bw_out (cl_w c)) <$> rs_conns (nd_rpc n) !! id)).

(** The adapter handles what the client has sent. *)
Definition handleRPC (i id : nat) (method data : bytes) (s : Sys) : Sys :=
  nodeOf i s s (fun n =>
    let '(s, ans) := if bool_decide (method = B "joinGame") then lookup n s else (s, noAnswers) in
    let r := upd id (feed data) (with_adapter (ar_a (nd_run n)) (nd_rpc n)) in
    let r := serveRPC fuel (rpcEnv n ans) (statusOf n (sy_now s)) id r in
    let run := with_a (rs_adapter r) (nd_run n) in
    let run := if ctxDone run then a_cancel run else run in
    upd_node i (fun n => MkNode (nd_base n) run r (nd_gpgNotes n)
                           (length (ad_notes (rs_adapter r))) (nd_tasks n) (nd_sent n)) s).

Definition callRPC (race : Race) (c : nat) (method : bytes) (params : list JSON) (s : Sys) : Sys * result CallErr JSON :=
  match sy_rpcs s !! c with
  | None => (s, Err (ReadingResponse (RawIO EOF)))
  | Some (i, id, got, m) =>
      let m' := callSend method params m in
      let s := settle race (handleRPC i id method (drop (length (mc_sent m)) (mc_sent m')) s) in
      let out := written i id s in
      let '(m', res) := callReceive Some (drop got out) m' in
      (with_rpcs (<[c := (i, id, length out, m')]> (sy_rpcs s)) s, res)
  end.
Definition drainRPC (c : nat) (s : Sys) : Sys :=
  match sy_rpcs s !! c with
  | None => s
  | Some (i, id, got, m) =>
      let out := written i id s in
      let '(m, _) := ReadNotification Some (drop got out) m in
      with_rpcs (<[c := (i, id, length out, m)]> (sy_rpcs s)) s
  end.
(** The server's goroutine sees the end of the stream. *)
Definition hangUp (c : nat) (s : Sys) : Sys :=
  match sy_rpcs s !! c with
  | None => s
  | Some (i, id, _, _) =>
      nodeOf i s s (fun n =>
        let step := own Some intLiteral (statusOf n (sy_now s)) (fun _ _ => B "error") (rpcEnv n noAnswers) id in
        upd_node i (set_rpc (step (step (step (nd_rpc n))))) s)
  end.

(** ** The games *)

Definition dialGame (race : Race) (addr : string) (s : Sys) : Sys * option nat :=
  match list_find (fun n => localhost (gpgPort n) = addr) (sy_nodes s) with
  | None => (s, None)
  | Some (i, _) =>
      let s := settle race (act i (AvGame (MkConn 1 None)) s) in
      (with_games (sy_games s ++ [(i, O, NewMockGPGNetClient true)]) s, Some (length (sy_games s)))
  end.

(** The read has come to the end of what has arrived. *)
Fixpoint waits (e : ReadErr) : bool :=
  match e with
  | ErrIO _ => true
  | ReadingStringLength e | ReadingStringBytes e | ReadingChunkCount e | ReadingChunkType e | ReadingIntChunk e
  | ReadingStringChunk e | ReadingMessageHeader e | ReadingMessageChunks e => waits e
  | InvalidStringLength _ | TooManyChunks _ => false
  end.
(** The adapter's read loop on what the game has sent. *)
Fixpoint hearGame (fuel i : nat) (data : bytes) (s : Sys) : Sys :=
  match fuel with
  | O => s
  | S fuel' =>
      let read := act i (AvGameRead data (fun _ => 0)) s in
      match ReadMessage data with
      | ROk _ rest => hearGame fuel' i rest read
      | RErr e => if waits e then s else read
      | RPanic => read
      end
  end.
Definition gameSends (race : Race) (g : nat) (header : string) (args : list Arg) (s : Sys) : Sys :=
  match sy_games s !! g with
  | Some (i, got, Some m) =>
      let '(m', _) := SendMessage (fun _ => 0) header args m in
      let data := drop (length (bw_out (mg_w m))) (bw_out (mg_w m')) in
      settle race (hearGame fuel i data (with_games (<[g := (i, got, Some m')]> (sy_games s)) s))
  | _ => s
  end.
Definition gameReads (g : nat) (s : Sys) : Sys * outcome (result ReadErr (string * list Chunk)) :=
  match sy_games s !! g with
  | Some (i, got, Some m) =>
      let out := nodeOf i s [] (fun n => default [] (bw_out <$> g_writer (ad_gpg (ar_a (nd_run n))))) in
      match ReadGameMessage (drop got out) m with
      | ROk (m, msg) _ => (with_games (<[g := (i, length out, Some m)]> (sy_games s)) s, Ret (Ok msg))
      | RErr e => (with_games (<[g := (i, length out, None)]> (sy_games s)) s, Ret (Err e))
      | RPanic => (s, Panic)
      end
  | _ => (s, Ret (Err (ErrIO EOF)))
  end.
Definition gameLeaves (g : nat) (s : Sys) : Sys :=
  match sy_games s !! g with
  | Some (i, _, _) => stopDone (act i AvWatch (act i AvGameGone s)) i
  | None => s
  end.

(** ** The laboratory *)

Definition newPort (s : Sys) : Sys * Z := (next_port s, sy_nextPort s).
Definition theLab (race : Race) : Lab Sys :=
  MkLab Sys sy_now (fun d s => settle race (with_now (sy_now s + Z.max 0 d) s)) newPort newPort
    startServer startAdapter dialRPC (callRPC race) (fun c _ => drainRPC c) (dialGame race) (gameSends race)
    (fun g _ => gameReads g) (fun s => (with_socks (sy_socks s ++ [[]]) s, length (sy_socks s)))
    (fun k d a s => with_flight (sy_flight s ++ [(k, a, d)]) s)
    (fun k _ s => match sy_socks s !! k with
                  | Some (d :: q) => (with_socks (<[k := q]> (sy_socks s)) s, Some d)
                  | _ => (s, None)
                  end)
    hangUp gameLeaves (fun _ s => s)
    (fun s => with_srv None (foldl (fun s i => stopDone (act i AvParent s) i) s (seq 0 (length (sy_nodes s))))).

Definition startTime : Z := (Time.unixToInternal + 1700000000) * Time.Second.
Definition noSystem : Sys := MkSys startTime None AddrPort_zero [] [] [] [] [] 10000 false.

(** ** Time passes by sleeping only *)

Lemma now_guarded {A} (o : outcome A) k s : (forall a, sy_now (k a) = sy_now s) -> sy_now (guarded o k s) = sy_now s.
Proof. destruct o; simpl; auto. Qed.
Lemma now_foldl {A} (f : Sys -> A -> Sys) l s :
  (forall s x, sy_now (f s x) = sy_now s) -> sy_now (foldl f s l) = sy_now s.
Proof. intros H. revert s; induction l as [|x l IH]; intros s; [done|]. simpl. by rewrite IH, H. Qed.
Lemma now_node i s (f : Node -> Sys) : (forall n, sy_now (f n) = sy_now s) -> sy_now (nodeOf i s s f) = sy_now s.
Proof. intros H. unfold nodeOf. by destruct (sy_nodes s !! i). Qed.
Lemma now_deliver s o : sy_now (deliver s o) = sy_now s.
Proof. unfold deliver. by destruct (list_find _ _) as [[??]|]. Qed.
Lemma now_act i e s : sy_now (act i e s) = sy_now s.
Proof. unfold act. apply now_node. intros n. by apply now_guarded. Qed.
Lemma now_toGame i s pid : sy_now (toGame i s pid) = sy_now s.
Proof.
  unfold toGame. apply now_node. intros n. destruct (GetPeer pid _) as [p|]; [|done]. apply now_guarded.
  intros [[[p' rc] outs] [o|]]; [by rewrite now_deliver|done].
Qed.
Lemma now_toAdapter from data j s : sy_now (toAdapter from data j s) = sy_now s.
Proof.
  unfold toAdapter. apply now_node. intros n. destruct (w_recv _); try done.
  apply now_guarded. intros [rc pm]. rewrite now_foldl; [done|]. intros. apply now_toGame.
Qed.
Lemma now_fromServer s o : sy_now (fromServer s o) = sy_now s.
Proof. unfold fromServer. destruct (list_find _ _) as [[j n]|]; [apply now_toAdapter|apply now_deliver]. Qed.
Lemma now_toServer from pkt s : sy_now (toServer from pkt s) = sy_now s.
Proof.
  unfold toServer. destruct (sy_srv s) as [srv|]; [|done].
  apply now_guarded. intros [m outs]. rewrite now_foldl; [done|]. intros. apply now_fromServer.
Qed.
Lemma now_carry k s : sy_now (carry k s) = sy_now s.
Proof.
  revert s; induction k as [|k IH]; intros s; cbn [carry]; [done|]. destruct (list_find _ _) as [[i n]|]; [|done].
  rewrite IH. destruct (_ !! _) as [[a pkt|c d|c]|]; try done. case_bool_decide; [|done]. by rewrite now_toServer.
Qed.
Lemma now_fromGame s d : sy_now (fromGame s d) = sy_now s.
Proof.
  unfold fromGame. destruct d as [[k addr] data]. destruct (list_find _ _) as [[i n]|].
  - destruct (peerAt addr n) as [p|]; [|done]. unfold toPeer. apply now_node. intros n'. apply now_guarded.
    by intros [[p' rc] outs].
  - case_bool_decide; [apply now_toServer|]. destruct (list_find _ (sy_nodes s)) as [[j n]|]; [apply now_toAdapter|].
    destruct (list_find _ _) as [[k' ?]|]; [apply now_deliver|done].
Qed.
Lemma now_flights race s : sy_now (flights race s) = sy_now s.
Proof.
  unfold flights. destruct race; rewrite ?now_carry, now_foldl; try done; intros; by rewrite ?now_carry, now_fromGame.
Qed.
Lemma now_runTasks s i : sy_now (runTasks s i) = sy_now s.
Proof.
  unfold runTasks. apply now_node. intros n. destruct (WaitRelayConfirmed _ _); [|done]. cbn [upd_node with_nodes sy_now].
  rewrite now_foldl; [done|]. intros. apply now_act.
Qed.
Lemma now_http r s : sy_now (httpDo r s).1 = sy_now s.
Proof. unfold httpDo. destruct (sy_srv s); [|done]. by destruct (ServeHTTP _ _ _ _ _ _). Qed.
Lemma now_stop i s : sy_now (stopAdapter i s) = sy_now s.
Proof.
  unfold stopAdapter. cbn [foldl]. rewrite now_node; [by rewrite !now_act|]. intros n.
  destruct (asked isLeave n); [apply now_http|done].
Qed.
Lemma now_goOn s : sy_now (goOn s) = sy_now s.
Proof.
  unfold goOn. cbn [with_nodes sy_now]. rewrite !now_foldl; [done|..].
  - intros. apply now_runTasks.
  - intros s' i. unfold stopDone. apply now_node. intros n. destruct (_ && _); [apply now_stop|done].
Qed.
Lemma now_settle race s : sy_now (settle race s) = sy_now s.
Proof. unfold settle. rewrite now_goOn, now_carry, now_flights. reflexivity. Qed.
Lemma lab_sleeps race : sleeps (theLab race).
Proof. intros d s. cbn [theLab lab_sleep lab_now]. rewrite now_settle. cbn [with_now sy_now]. lia. Qed.

(** ** The scenarios *)

Definition basicRun (race : Race) : Sys * (Stop + option bytes) :=
  perform (runBasic2Player (theLab race) intLiteral (fun _ => 0)) noSystem.
Definition twelveRun (race : Race) : Bench Sys * (Stop + (Z * Z)) :=
  run12Player (theLab race) intLiteral (fun _ => 0) (MkBench noSystem []).

(** The state an adapter ends in: it has returned without error, its peers and
    its clients are gone, and it has left its session. *)
Definition wellEnded (n : Node) : bool :=
  match ar_pc (nd_run n) with AReturned None => true | _ => false end &&
  bool_decide (pm_peers (ad_pm (ar_a (nd_run n))) = ∅) && (rs_active (nd_rpc n) =? 0) && asked isLeave n.

(** One evaluation of each scenario. *)
Lemma basic_evaluates race :
  (fun r => (r.2, sy_socks r.1, sy_crashed r.1, length (sy_nodes r.1), forallb wellEnded (sy_nodes r.1))) (basicRun race) =
  (inr (match race with InOrder => None | _ => Some testPayload end),
   [match race with Reversed => [] | _ => [testPayload2] end; []], false, 2%nat, true).
Proof. destruct race; vm_compute; reflexivity. Qed.
Lemma twelve_evaluates race :
  (fun r => (r.2, sy_crashed (world r.1),
     (fun n => size (pm_peers (ad_pm (ar_a (nd_run n))))) <$> sy_nodes (world r.1))) (twelveRun race) =
  (inl Crashed, false, 11%nat :: replicate 11 1%nat).
Proof. destruct race; vm_compute; reflexivity. Qed.

Lemma main_basic race : (harnessMain (theLab race) intLiteral (fun _ => 0) [] noSystem).2 = exitCode (basicRun race).2.
Proof.
  unfold harnessMain. change (Flags.Parse harnessFlags []) with (Ok (E := Z) (harnessFlags, @nil string)).
  cbn [fst snd]. rewrite bool_decide_eq_true_2 by done. unfold basicRun. by destruct (perform _ _).
Qed.
Lemma main_twelve race :
  (harnessMain (theLab race) intLiteral (fun _ => 0) ["-scenario=12player"] noSystem).2 = exitCode (twelveRun race).2.
Proof.
  unfold harnessMain. destruct (Flags.Parse harnessFlags ["-scenario=12player"]) as [[fs rest]|] eqn:E; [|by vm_compute in E].
  assert (Hf : Commands.stringFlag fs "scenario" = "12player").
  { assert (match Flags.Parse harnessFlags ["-scenario=12player"] with
            | Ok (fs, _) => Commands.stringFlag fs "scenario" | Err _ => "" end = "12player") as H by (by vm_compute).
    by rewrite E in H. }
  cbv zeta. rewrite Hf, bool_decide_eq_false_2, bool_decide_eq_true_2 by done. unfold twelveRun, perform.
  by destruct (run12Player _ _ _ _).
Qed.

(** The whole system, end to end: a regression run.  The relay server, two adapters, their
    clients and games run the two-player scenario as it is written, every message
    as bytes: whatever order the games' first datagrams are handled in, the
    scenario passes, no part panics, and in the end both adapters have returned,
    closed their peers and left the session.  Game 2 receives exactly what game
    1 sent unless that packet overtook its own first one, and likewise game 1:
    an adapter learns where its game is from the game's first datagram. *)
Theorem two_players_end_to_end (race : Race) :
  (basicRun race).2 = inr (match race with InOrder => None | _ => Some testPayload end) /\
  sy_socks (basicRun race).1 = [match race with Reversed => [] | _ => [testPayload2] end; []] /\
  sy_crashed (basicRun race).1 = false /\
  length (sy_nodes (basicRun race).1) = 2%nat /\ forallb wellEnded (sy_nodes (basicRun race).1) = true /\
  (harnessMain (theLab race) intLiteral (fun _ => 0) [] noSystem).2 = 0.
Proof.
  rewrite main_basic. pose proof (basic_evaluates race) as H. destruct (basicRun race) as [s v]. cbn [fst snd] in *.
  injection H as -> -> -> -> ->. done.
Qed.

(** The twelve-player scenario fails in the harness, not in the system:
    the host gets a relay peer for each of the eleven others and they one for the
    host, nothing panics in the server or the adapters, yet the harness itself
    panics, because [Call] takes a pending notification for the answer of
    [status()] and the nil result is not a string. *)
Theorem twelve_players_crash_harness (race : Race) :
  (twelveRun race).2 = inl Crashed /\ sy_crashed (world (twelveRun race).1) = false /\
  (fun n => size (pm_peers (ad_pm (ar_a (nd_run n))))) <$> sy_nodes (world (twelveRun race).1) = 11%nat :: replicate 11 1%nat /\
  (harnessMain (theLab race) intLiteral (fun _ => 0) ["-scenario=12player"] noSystem).2 = 2.
Proof.
  rewrite main_twelve. pose proof (twelve_evaluates race) as H. destruct (twelveRun race) as [b v]. cbn [fst snd] in *.
  apply pair_eq in H as [[-> ->]%pair_eq ->]. done.
Qed.

Lemma basic_pass_means_witness : exists b udpPort httpPort rpcPort1 rpcPort2 g1 g2 status1 status2 rpc1 rpc2 game1 game2
    c1 c2 r1 r2 r3 chunks0 chunks1 chunks2 sock1 sock2 addr1 addr2,
  runBasic2Player (traced (theLab Together)) intLiteral (fun _ => 0) (MkBench (noSystem, []) []) =
    (b, inr (Some testPayload)) /\
  (world b).2 =
    setupRecord udpPort httpPort rpcPort1 rpcPort2 g1 g2 status1 status2 rpc1 rpc2 game1 game2 ++
    lobbyRecord game1 game2 c1 c2 ++ connectRecord rpc1 rpc2 game1 game2 r1 r2 r3 chunks0 chunks1 chunks2 ++
    dataRecord sock1 sock2 addr1 addr2 (Some testPayload) /\
  gpgnetPort intLiteral (fun _ => 0) (statusMap status1) = Some g1 /\
  gpgnetPort intLiteral (fun _ => 0) (statusMap status2) = Some g2 /\
  peerAddr chunks1 = Some addr1 /\ peerAddr chunks2 = Some addr2.
Proof.
  destruct (runBasic2Player (traced (theLab Together)) intLiteral (fun _ => 0) (MkBench (noSystem, []) []))
    as [b v] eqn:E.
  assert (Hv : v = inr (Some testPayload)).
  { change v with (b, v).2. rewrite <- E. vm_compute. reflexivity. }
  subst v.
  destruct (basic_pass_means (theLab Together) intLiteral (fun _ => 0) noSystem b _ E)
    as (udpPort & httpPort & rpcPort1 & rpcPort2 & g1 & g2 & status1 & status2 & rpc1 & rpc2 & game1 & game2 &
        c1 & c2 & r1 & r2 & r3 & chunks0 & chunks1 & chunks2 & sock1 & sock2 & addr1 & addr2 & H).
  exists b, udpPort, httpPort, rpcPort1, rpcPort2, g1, g2, status1, status2, rpc1, rpc2, game1, game2,
    c1, c2, r1, r2, r3, chunks0, chunks1, chunks2, sock1, sock2, addr1, addr2.
  split; [reflexivity|exact H].
Defined.

(** With a network that delivers nothing the scenario passes too. *)
Lemma harness_blind_witness :
  exitCode (perform (runBasic2Player (deaf (fun _ _ s => (s, None)) (theLab Together)) intLiteral (fun _ => 0)) noSystem).2 = 0 /\
  exists b' n, packetsRouted (theLab Together) (MkBench noSystem []) = (b', inr n) /\ 1 <= n <= 50 /\
    startTime + 5 * Time.Second <= sy_now (world b').
Proof.
  destruct (harness_blind (theLab Together) intLiteral (fun _ => 0) (fun _ _ s => (s, None)) noSystem
    (MkBench noSystem []) (lab_sleeps Together)) as [H1 H2]. split; [|exact H2]. rewrite <- H1. vm_compute. reflexivity.
Defined.
