(* ===== verification/SystemSafe.v ===== *)
(** * No scenario brings the system down

    The composition of [System] under any sequence of what a test can do:
    starting servers and adapters, calls, messages of the games, datagrams to
    any socket, closing connections, and of the timers of the adapters and the
    server's reaper.  The invariants of the components, each proved in its own
    file, hold of the parts together, and no part panics. *)

From S2P Require Import Prelude GoLib GoText Float RelayWire TcpFrame Metrics Session SessionManager Router HttpApi.
From S2P Require Import ManagerSpec ServerLoop RelayConn Transport Peer PeerMgr EndToEnd GPGNet JsonRpc Json RpcMessage.
From S2P Require Import GpgNetServer IceText RpcHandler AdapterRun RpcServer Status Registration RelayServer Mock Harness.
From S2P Require Import System.

(** ** What a test can do *)

Inductive LabOp :=
| OSleep (d : Z)
| OUdpPort
| OTcpPort
| OServer (cfg : ServerConfig)
| OAdapter (cfg : AdapterConfig)
| ODialRPC (addr : string)
| OCall (c : nat) (method : bytes) (params : list JSON)
| ODrain (c : nat) (timeout : Z)
| ODialGame (addr : string)
| OSend (g : nat) (header : string) (args : list Arg)
| ORead (g : nat) (timeout : Z)
| OListen
| OWrite (k : nat) (data : bytes) (addr : string)
| OReceive (k : nat) (timeout : Z)
| OCloseRPC (c : nat)
| OCloseGame (g : nat)
| OCloseUDP (k : nat)
| OCancel
| OTimer (t : Timer).

Definition labStep (race : Race) (op : LabOp) (w : Sys) : Sys :=
  let lab := theLab race in
  match op with
  | OSleep d => lab_sleep lab d w
  | OUdpPort => (lab_udpPort lab w).1
  | OTcpPort => (lab_tcpPort lab w).1
  | OServer cfg => lab_server lab cfg w
  | OAdapter cfg => lab_adapter lab cfg w
  | ODialRPC addr => (lab_rpc lab addr w).1
  | OCall c method params => (lab_call lab c method params w).1
  | ODrain c t => lab_drain lab c t w
  | ODialGame addr => (lab_game lab addr w).1
  | OSend g header args => lab_send lab g header args w
  | ORead g t => (lab_read lab g t w).1
  | OListen => (lab_listen lab w).1
  | OWrite k d a => lab_write lab k d a w
  | OReceive k t => (lab_receive lab k t w).1
  | OCloseRPC c => lab_closeRPC lab c w
  | OCloseGame g => lab_closeGame lab g w
  | OCloseUDP k => lab_closeUDP lab k w
  | OCancel => lab_cancel lab w
  | OTimer t => settle race (fires t w)
  end.
(** A schedule: each operation with the order its datagrams are handled in. *)
Definition labRun (ops : list (Race * LabOp)) (s : Sys) : Sys :=
  foldl (fun s x => labStep x.1 x.2 s) s ops.

(** The games write messages the protocol can carry; a count out of range in
    the stream of a game stops an adapter ([gpgnet_negative_count_panics]). *)
Definition op_ok (op : LabOp) : Prop :=
  match op with
  | OSend _ header args =>
      Z.of_nat (String.length header) <= MaxStringLength /\ Forall arg_ok args /\ len args <= MaxChunkSize
  | _ => True
  end.

(** ** The invariant *)

(** Nobody is connected to the server over TCP: a datagram of any length is
    harmless then ([udp_panics_iff]). *)
Definition all_udp (m : Manager) : Prop :=
  forall l pid p, players (deref l m) !! pid = Some p -> p_TCPConn p = None.

Definition node_ok (n : Node) : Prop := ar_ok (nd_run n).
Definition game_ok (g : nat * nat * option MockGPGNetClient) : Prop :=
  forall m, g.2 = Some m -> bw_healthy (mg_w m) /\ bw_buf (mg_w m) = [].
Record sys_ok (s : Sys) : Prop := {
  so_up : sy_crashed s = false;
  so_nodes : Forall node_ok (sy_nodes s);
  so_srv : forall srv, sy_srv s = Some srv -> run_ok true srv /\ all_udp (v_sm srv);
  so_games : Forall game_ok (sy_games s) }.

Lemma sys_ok_node i n s : sys_ok s -> sy_nodes s !! i = Some n -> node_ok n.
Proof. intros Hs H. exact (proj1 (Forall_lookup _ _) (so_nodes s Hs) i n H). Qed.

Lemma sys_ok_upd i f s :
  sys_ok s -> (forall n, sy_nodes s !! i = Some n -> node_ok n -> node_ok (f n)) -> sys_ok (upd_node i f s).
Proof.
  intros [H1 H2 H3 H4] Hf. split; try done. cbn [upd_node with_nodes sy_nodes].
  apply Forall_lookup. intros j n. destruct (decide (i = j)) as [<-|Hne].
  - rewrite list_lookup_alter_eq. intros (m & Hm & ->)%fmap_Some. apply Hf; [done|].
    exact (proj1 (Forall_lookup _ _) H2 i m Hm).
  - rewrite list_lookup_alter_ne by done. apply (proj1 (Forall_lookup _ _) H2).
Qed.

(** A new run state for a node. *)
Lemma sys_ok_run i r s : sys_ok s -> ar_ok r -> sys_ok (upd_node i (set_run r) s).
Proof. intros Hs Hr. by apply sys_ok_upd. Qed.

Lemma sys_ok_nodeOf i s (f : Node -> Sys) :
  sys_ok s -> (forall n, sy_nodes s !! i = Some n -> node_ok n -> sys_ok (f n)) -> sys_ok (nodeOf i s s f).
Proof.
  intros Hs Hf. unfold nodeOf. destruct (sy_nodes s !! i) as [n|] eqn:E; [|done].
  apply Hf; [done|]. by eapply sys_ok_node.
Qed.

Lemma sys_ok_foldl {A} (f : Sys -> A -> Sys) l s :
  (forall s x, sys_ok s -> sys_ok (f s x)) -> sys_ok s -> sys_ok (foldl f s l).
Proof. intros Hf. revert s; induction l as [|x l IH]; intros s Hs; [done|]. simpl. by apply IH, Hf. Qed.

(** ** The server's players *)

(** Replacing a session by one whose players are on UDP. *)
Lemma all_udp_set l s m :
  all_udp m -> (forall pid p, players s !! pid = Some p -> p_TCPConn p = None) -> all_udp (SessionManager.set_session l s m).
Proof.
  intros Hm Hs l' pid p. unfold deref. simpl. rewrite lookup_insert. case_decide; [apply Hs|apply Hm].
Qed.
Lemma all_udp_heap m m' : m_heap m' = m_heap m -> all_udp m -> all_udp m'.
Proof. intros E H l pid p. unfold deref. rewrite E. apply H. Qed.
Lemma all_udp_put l pid p m : all_udp m -> p_TCPConn p = None -> all_udp (SessionManager.set_session l (put_player pid p (deref l m)) m).
Proof.
  intros Hm Hp. apply all_udp_set; [done|]. intros q p'. simpl. rewrite lookup_insert. case_decide; [congruence|apply Hm].
Qed.
Lemma all_udp_remove l pid m : all_udp m -> all_udp (SessionManager.set_session l (set_players (delete pid) (deref l m)) m).
Proof.
  intros Hm. apply all_udp_set; [done|]. intros q p'. simpl. intros [_ H]%lookup_delete_Some. by eapply Hm.
Qed.

Lemma all_udp_udp l pid remote now m : all_udp m -> all_udp (udpUpdate l pid remote now m).1.
Proof.
  intros Hm. unfold udpUpdate, UpdatePlayerAddr. destruct (players (deref l m) !! pid) as [p|] eqn:E.
  - destruct (_ && _); [by apply all_udp_set; [|apply Hm]|]. unfold CheckRate.
    destruct (_ <=? MaxPacketsPerSecond); cbn [negb fst]; (apply all_udp_put; [done|]); [done|]. simpl. by eapply Hm.
  - by apply all_udp_set; [|apply Hm].
Qed.

Lemma all_udp_leave id l pid m : all_udp m -> all_udp (leaveOld id l pid m).1.
Proof.
  intros Hm. unfold leaveOld. destruct (m_index m !! pid) as [old|]; [|done]. case_bool_decide; cbn [fst].
  - unfold ResetPlayerTransport. destruct (players (deref l m) !! pid); [by apply all_udp_put|].
    by apply all_udp_set; [|apply Hm].
  - eapply all_udp_heap; [done|]. destruct (m_sessions m !! old) as [lo|]; [|done].
    eapply all_udp_heap; [done|]. by apply (all_udp_remove lo pid m).
Qed.

Lemma all_udp_call c m : all_udp m -> all_udp (run_call c m).1.
Proof.
  intros Hm. destruct c as [id n now|ρ id|id q login|id q]; cbn [run_call].
  - unfold CreateSession. destruct (m_sessions m !! id); [done|]. destruct (_ <=? _); [done|]. simpl.
    intros l pid p. unfold deref. simpl. rewrite lookup_insert. case_decide; [by simpl; rewrite lookup_empty|apply Hm].
  - unfold DeleteSession. by destruct (m_sessions m !! id).
  - unfold AddPlayerToSession. destruct (m_sessions m !! id) as [l|]; [|done].
    pose proof (all_udp_leave id l q m Hm) as H1. destruct (leaveOld id l q m) as [m1 []]; [done|]. cbn [fst] in H1.
    destruct (_ <=? _); [done|]. unfold AddPlayer. destruct (players (deref l m1) !! q); [done|].
    destruct (_ <=? _); [done|]. simpl. eapply all_udp_heap; [done|]. by apply (all_udp_put l q (new_player q login) m1).
  - unfold RemovePlayerFromSession. destruct (m_sessions m !! id) as [l|]; [|done]. simpl.
    destruct (negb _); cbn [fst]; [|eapply all_udp_heap; [done|]]; by apply (all_udp_remove l q m).
Qed.

Lemma all_udp_reap now clk cs m : all_udp m -> all_udp (r_mgr (reapPhase2 now clk cs m)).
Proof.
  unfold reapPhase2. change m with (r_mgr (MkReap m 0 0 [])) at 1. generalize (MkReap m 0 0 []) as st.
  induction cs as [|c cs IH]; intros st Hm; [done|]. cbn [foldl]. apply IH. unfold reapOne.
  assert (Hf : forall pids st', all_udp (r_mgr st') -> all_udp (r_mgr (foldl (reapPlayer clk (c_session c)) st' pids))).
  { intros pids. induction pids as [|pid pids IHp]; intros st' H; [done|]. cbn [foldl]. apply IHp.
    unfold reapPlayer, RemovePlayerIfStale. destruct (players _ !! pid) as [p|].
    - destruct (negb _); simpl; [by apply all_udp_set; [|apply H]|].
      eapply all_udp_heap; [done|]. by apply (all_udp_remove (c_session c) pid (r_mgr st')).
    - simpl. by apply all_udp_set; [|apply H]. }
  specialize (Hf (c_stalePIDs c) st Hm). destruct (foldl _ st _) as [m1 np ns cl]. cbn [r_mgr] in *.
  by destruct (_ && _).
Qed.

(** The steps of the server that the system takes. *)
Lemma run_ok_weaken b srv : run_ok b srv -> run_ok true srv.
Proof. intros []. by split. Qed.

Lemma server_udp pkt from now srv :
  run_ok true srv -> all_udp (v_sm srv) ->
  exists m outs, udpPacket good_net id_shuffle (take (Z.to_nat readBufSize) pkt) from now (v_sm srv) = Ret (m, outs) /\
    run_ok true (with_mgr m srv) /\ all_udp m.
Proof.
  intros Hr Hu. destruct (udpPacket _ _ _ _ _ _) as [[m outs]|] eqn:E.
  - exists m, outs. split; [done|]. split.
    + apply (run_ok_udp_ret good_net id_shuffle pkt from now true srv); [done|done|]. cbn [srvStep]. by rewrite E.
    + apply udpPacket_effect in E as [[Hs _]|(q & d & l & _ & _ & Hs)]; [..|done].
      * eapply all_udp_heap; [apply Hs|done].
      * eapply all_udp_heap; [apply Hs|by apply all_udp_udp].
  - exfalso. apply udpPacket_Panic in E as [_ (q & d & l & pid & p & _ & _ & _ & _ & _ & Hp & [c Hc])]; [|done].
    pose proof (all_udp_udp l q from now _ Hu l pid p Hp). congruence.
Qed.

Lemma server_http r now srv :
  rq_method r <> DELETE -> run_ok true srv -> all_udp (v_sm srv) ->
  let a := (ServeHTTP id_shuffle r now now now (v_api srv)).1 in
  run_ok true (MkRunning a (v_pending srv)) /\ all_udp (a_sm a).
Proof.
  intros Hm Hr Hu a.
  assert (Hd : deletes id_shuffle (SvHttp r now now now) = false).
  { cbn [deletes]. unfold request_call. destruct (_ && _); [done|]. destruct (bool_decide _).
    { destruct (rq_method r); try done. by destruct (decodeJSONBody _ _ _) as [[]|]; [destruct (sessionIDPattern _)|]. }
    destruct (prefix_of _ _); [|done]. destruct (splitPath _) as [id action]. destruct (negb _); [done|].
    repeat (destruct (bool_decide _)); destruct (rq_method r); try done;
      repeat case_match; by simplify_eq. }
  destruct (run_ok_step good_net id_shuffle (SvHttp r now now now) true srv) as (srv' & E & H); [done|done|done|done|].
  cbn [srvStep pend_after] in E, H. injection E as <-. split; [done|].
  destruct (ServeHTTP_effect id_shuffle r now now now (v_api srv)) as [E|(c & _ & E)]; subst a; rewrite E; [done|].
  by apply all_udp_call.
Qed.

Lemma server_timer e srv :
  match e with SvScan _ _ | SvApply _ _ => True | _ => False end -> run_ok true srv -> all_udp (v_sm srv) ->
  exists srv', srvStep good_net id_shuffle e srv = Ret srv' /\ run_ok true srv' /\ all_udp (v_sm srv').
Proof.
  intros He Hr Hu. destruct (run_ok_step good_net id_shuffle e true srv) as (srv' & E & H); [done|by destruct e..|done|].
  exists srv'. split; [done|]. split; [by eapply run_ok_weaken|].
  destruct e as [| | |now clk|now clk]; try done; cbn [srvStep] in E; destruct (v_pending srv); simplify_eq; try done.
  by apply all_udp_reap.
Qed.

(** ** The adapters *)

(** The relay connection and the peers change. *)
Lemma node_ok_conn rc outs pm r : ar_ok r -> same (w_rc (ar_w r)) rc -> ar_ok (set_conn rc outs pm r).
Proof.
  intros Hr Hs.
  assert (Hr1 : ar_ok (with_w (with_rc rc outs (ar_w r)) r)).
  { destruct Hr. split; simpl; try done. by apply w_ok_same. }
  apply (ar_ok_same (with_pm pm (ar_a r)) _ Hr1); [by split|done].
Qed.

Lemma sys_ok_conn i n rc outs pm s :
  sys_ok s -> node_ok n -> same (w_rc (ar_w (nd_run n))) rc ->
  sys_ok (upd_node i (set_run (set_conn rc outs pm (nd_run n))) s).
Proof. intros Hs Hr H1. apply sys_ok_run; [done|]. by apply node_ok_conn. Qed.

Lemma node_rc n : node_ok n -> rc_ok (w_rc (ar_w (nd_run n))).
Proof. intros Hr. apply (wo_rc _ (aro_world _ Hr)). Qed.

Lemma sys_ok_act i e s : readable e -> sys_ok s -> sys_ok (act i e s).
Proof.
  intros Ht Hs. unfold act. apply sys_ok_nodeOf; [done|]. intros n _ Hr.
  destruct (ar_ok_step e (nd_run n) Hr (or_introl Ht)) as (r & E & Hr'). rewrite E. cbn [guarded].
  by apply sys_ok_run.
Qed.

(** ** Datagrams *)

Lemma sys_ok_hello i s : sys_ok s -> sys_ok (sayHello i s).
Proof.
  intros Hs. unfold sayHello. apply sys_ok_nodeOf; [done|]. intros n _ Hn.
  destruct (same_hello true (sy_now s) _ (node_rc n Hn)) as (rc & out & -> & H1 & _). by apply sys_ok_conn.
Qed.

Lemma sys_ok_deliver s o : sys_ok s -> sys_ok (deliver s o).
Proof. intros []. unfold deliver. by destruct (list_find _ _) as [[??]|]. Qed.

Lemma sys_ok_toGame i s pid : sys_ok s -> sys_ok (toGame i s pid).
Proof.
  intros Hs. unfold toGame. apply sys_ok_nodeOf; [done|]. intros n _ Hn. pose proof (node_rc n Hn) as Hrc.
  destruct (GetPeer pid _) as [peer|]; [|done].
  assert (exists peer' rc outs out,
    relayToGame true (sy_now s) peer (w_rc (ar_w (nd_run n))) = Ret (peer', rc, outs, out) /\
    same (w_rc (ar_w (nd_run n))) rc) as (peer' & rc & outs & out & -> & H1).
  { unfold relayToGame. destruct (fromCh peer) as [|data rest].
    { do 4 eexists. split; [done|]. by apply same_refl. }
    assert (Hf : exists peer' rc (outs : list Out) out, match gameAddr (set_fromCh rest peer) with
        | None => Ret (set_fromCh rest peer, w_rc (ar_w (nd_run n)), [], None)
        | Some addr => Ret (set_fromCh rest peer, w_rc (ar_w (nd_run n)), [], Some (addr, data)) end =
        Ret (peer', rc, outs, out) /\ same (w_rc (ar_w (nd_run n))) rc).
    { destruct (gameAddr _); do 4 eexists; (split; [done|]); by apply same_refl. }
    destruct (len data =? echoFrameSize); [|exact Hf]. destruct (bool_decide _).
    - destruct (same_send true (u32 (Peer.PlayerID (set_fromCh rest peer)))
        (copy_at 0 echoMagicPong (copy_at 4 (drop 4 data) (replicate 12 Byte.x00))) _ Hrc)
        as (rc & outs & res & -> & H1 & _). by do 4 eexists.
    - destruct (bool_decide _); [|exact Hf]. do 4 eexists. split; [done|]. by apply same_refl. }
  cbn [guarded]. destruct out; [apply sys_ok_deliver|]; by apply sys_ok_conn.
Qed.

Lemma sys_ok_toAdapter from data j s : sys_ok s -> sys_ok (toAdapter from data j s).
Proof.
  intros Hs. unfold toAdapter. apply sys_ok_nodeOf; [done|]. intros n _ Hn.
  destruct (w_recv _); try done. cbn [receiveUDP].
  destruct (same_udp data from (sy_now s) (sy_now s) _ (node_rc n Hn)) as (rc & x & -> & H1). cbn [mbind outcome_bind].
  assert (exists rc' pm', match x with
     | Some (sender, payload, k) => dispatchTopeer sender payload k rc (ad_pm (ar_a (nd_run n)))
     | None => (rc, ad_pm (ar_a (nd_run n))) end = (rc', pm') /\ same (w_rc (ar_w (nd_run n))) rc')
    as (rc' & pm' & -> & H2).
  { destruct x as [[[sender payload] k]|]; [|by do 2 eexists]. unfold dispatchTopeer.
    destruct (GetPeer sender _); do 2 eexists; (split; [done|]); [by apply same_count|done]. }
  cbn [guarded]. apply sys_ok_foldl; [intros; by apply sys_ok_toGame|]. by apply sys_ok_conn.
Qed.

Lemma sys_ok_fromServer s o : sys_ok s -> sys_ok (fromServer s o).
Proof.
  intros Hs. unfold fromServer. destruct (list_find _ _) as [[j n]|]; [by apply sys_ok_toAdapter|by apply sys_ok_deliver].
Qed.

Lemma sys_ok_srv srv s : sys_ok s -> run_ok true srv -> all_udp (v_sm srv) -> sys_ok (with_srv (Some srv) s).
Proof. intros [] H1 H2. split; try done. by intros ? [= <-]. Qed.

Lemma sys_ok_toServer from pkt s : sys_ok s -> sys_ok (toServer from pkt s).
Proof.
  intros Hs. unfold toServer. destruct (sy_srv s) as [srv|] eqn:E; [|done]. destruct (so_srv s Hs srv E) as [Hr Hu].
  destruct (server_udp pkt from (sy_now s) srv Hr Hu) as (m & outs & -> & H1 & H2). cbn [guarded].
  apply sys_ok_foldl; [intros; by apply sys_ok_fromServer|]. by apply sys_ok_srv.
Qed.

Lemma sys_ok_carry k s : sys_ok s -> sys_ok (carry k s).
Proof.
  revert s; induction k as [|k IH]; intros s Hs; cbn [carry]; [done|].
  destruct (list_find _ _) as [[i n]|]; [|done].
  assert (Hs' : sys_ok (upd_node i carried s)) by (by apply sys_ok_upd).
  apply IH. destruct (w_out (ar_w (nd_run n)) !! nd_sent n) as [[a pkt|c d|c]|]; try done.
  case_bool_decide; [by apply sys_ok_toServer|done].
Qed.

Lemma sys_ok_toPeer k data peer i s : sys_ok s -> sys_ok (toPeer k data peer i s).
Proof.
  intros Hs. unfold toPeer. apply sys_ok_nodeOf; [done|]. intros n _ Hn. unfold gameToRelay.
  set (p := match gameAddr peer with None => _ | _ => _ end).
  destruct (same_send true (u32 (Peer.PlayerID p)) (take 1500 data) _ (node_rc n Hn)) as (rc & outs & res & -> & H1 & _).
  cbn [mbind outcome_bind guarded]. by apply sys_ok_conn.
Qed.

Lemma sys_ok_fromGame s d : sys_ok s -> sys_ok (fromGame s d).
Proof.
  intros Hs. unfold fromGame. destruct d as [[k addr] data]. destruct (list_find _ _) as [[i n]|].
  { destruct (peerAt addr n); [by apply sys_ok_toPeer|done]. }
  case_bool_decide; [by apply sys_ok_toServer|].
  destruct (list_find _ (sy_nodes s)) as [[j n]|]; [by apply sys_ok_toAdapter|].
  destruct (list_find _ _) as [[k' ?]|]; [by apply sys_ok_deliver|done].
Qed.

Lemma sys_ok_fires t s : sys_ok s -> sys_ok (fires t s).
Proof.
  intros Hs. destruct t as [i|i|i pid| |]; cbn [fires].
  - by apply sys_ok_act.
  - by apply sys_ok_act.
  - apply sys_ok_nodeOf; [done|]. intros n _ Hn. destruct (GetPeer pid _) as [peer|]; [|done]. unfold pingTick.
    destruct (same_send true (u32 (Peer.PlayerID peer)) (pingFrame (sy_now s)) _ (node_rc n Hn)) as (rc & outs & res & -> & H1 & _).
    cbn [mbind outcome_bind guarded]. by apply sys_ok_conn.
  - destruct (sy_srv s) as [srv|] eqn:E; [|done]. destruct (so_srv s Hs srv E) as [Hr Hu].
    destruct (server_timer (SvScan (sy_now s) (fun _ => sy_now s)) srv I Hr Hu) as (srv' & -> & H1 & H2).
    by apply sys_ok_srv.
  - destruct (sy_srv s) as [srv|] eqn:E; [|done]. destruct (so_srv s Hs srv E) as [Hr Hu].
    destruct (server_timer (SvApply (sy_now s) (fun _ _ => sy_now s)) srv I Hr Hu) as (srv' & -> & H1 & H2).
    by apply sys_ok_srv.
Qed.

Lemma sys_ok_flights race s : sys_ok s -> sys_ok (flights race s).
Proof.
  intros Hs. unfold flights. assert (H0 : sys_ok (with_flight [] s)) by by destruct Hs.
  destruct race; [| |apply sys_ok_carry]; (apply sys_ok_foldl; [|done]); intros;
    try apply sys_ok_carry; by apply sys_ok_fromGame.
Qed.

(** ** The relay server over HTTP *)

Lemma sys_ok_http r s : rq_method r <> DELETE -> sys_ok s -> sys_ok (httpDo r s).1.
Proof.
  intros Hm Hs. unfold httpDo. destruct (sy_srv s) as [srv|] eqn:E; [|done]. destruct (so_srv s Hs srv E) as [Hr Hu].
  destruct (server_http r (sy_now s) srv Hm Hr Hu) as [H1 H2].
  destruct (ServeHTTP _ _ _ _ _ _) as [a resp]. by apply sys_ok_srv.
Qed.

Lemma sys_ok_registration n s : sys_ok s -> sys_ok (registration n s).1.
Proof.
  intros Hs. unfold registration. cbv zeta.
  pose proof (sys_ok_http (healthRequest clientAddr) s ltac:(done) Hs) as H0.
  destruct (httpDo _ s) as [s0 r0]. cbn [fst] in H0.
  pose proof (sys_ok_http (createRequest (ac_APIKey (ar_cfg (nd_run n))) clientAddr (sessionID (ar_a (nd_run n)))) s0 ltac:(done) H0) as H1.
  destruct (httpDo _ s0) as [s1 [r1|]]; [|done]. cbn [fst] in H1.
  match goal with |- context [httpDo ?q s1] => pose proof (sys_ok_http q s1 ltac:(done) H1) as H2; destruct (httpDo q s1) as [s2 r2] end.
  exact H2.
Qed.
Lemma sys_ok_lookup n s : sys_ok s -> sys_ok (lookup n s).1.
Proof.
  intros Hs. unfold lookup.
  pose proof (sys_ok_http (lookupRequest clientAddr (sessionID (ar_a (nd_run n)))) s ltac:(done) Hs) as H1.
  by destruct (httpDo _ s).
Qed.

(** ** Coming to rest *)

Lemma sys_ok_tasks s i : sys_ok s -> sys_ok (runTasks s i).
Proof.
  intros Hs. unfold runTasks. apply sys_ok_nodeOf; [done|]. intros n _ _.
  destruct (WaitRelayConfirmed _ _); [|done]. apply sys_ok_upd; [|done].
  apply sys_ok_foldl; [|done]. intros. by apply sys_ok_act.
Qed.
Lemma sys_ok_stop i s : sys_ok s -> sys_ok (stopAdapter i s).
Proof.
  intros Hs. unfold stopAdapter. cbn [foldl]. cbv zeta. apply sys_ok_nodeOf; [by do 3 (apply sys_ok_act; [done|])|].
  intros n _ _. destruct (asked isLeave n); [apply sys_ok_http; [done|]|]; by do 3 (apply sys_ok_act; [done|]).
Qed.
Lemma sys_ok_stopDone s i : sys_ok s -> sys_ok (stopDone s i).
Proof.
  intros Hs. unfold stopDone. apply sys_ok_nodeOf; [done|]. intros n _ _. destruct (_ && _); [by apply sys_ok_stop|done].
Qed.
Lemma sys_ok_goOn s : sys_ok s -> sys_ok (goOn s).
Proof.
  intros Hs. unfold goOn. cbv zeta. set (s1 := foldl stopDone _ _).
  assert (H1 : sys_ok s1).
  { apply sys_ok_foldl; [intros; by apply sys_ok_stopDone|].
    apply sys_ok_foldl; [intros; by apply sys_ok_tasks|done]. }
  clearbody s1. destruct H1 as [? Hn ? ?]. split; try done. cbn [with_nodes sy_nodes].
  apply Forall_fmap. by eapply Forall_impl.
Qed.
Lemma sys_ok_settle race s : sys_ok s -> sys_ok (settle race s).
Proof. intros Hs. unfold settle. by apply sys_ok_goOn, sys_ok_carry, sys_ok_flights. Qed.

(** ** Starting *)

Lemma sys_ok_server cfg s : sys_ok s -> sys_ok (startServer cfg s).
Proof.
  intros []. split; try done. intros srv [= <-]. split; [by eapply run_ok_weaken, run_ok_start|].
  intros l pid p. by vm_compute.
Qed.

Lemma sys_ok_adapter cfg s : sys_ok s -> sys_ok (startAdapter cfg s).
Proof.
  intros Hs. unfold startAdapter. cbv zeta. set (es := startEvents _ _ _ _ _ _).
  destruct (ar_ok_run es _ (ar_ok_new cfg true)) as [(r & E & Hr)|(es1 & st & oor & es2 & r & Ees & _)].
  2: { exfalso. subst es. assert (H : AvGameRead st oor ∈ es1 ++ AvGameRead st oor :: es2) by (apply elem_of_app; right; by left).
       rewrite <- Ees in H. repeat (apply elem_of_cons in H as [H|H]; [discriminate|]). by apply elem_of_nil in H. }
  rewrite E. cbn [guarded].
  set (s1 := with_nodes _ s). assert (H1 : sys_ok s1).
  { destruct Hs as [? Hn ? ?]. split; try done. subst s1. cbn [with_nodes sy_nodes]. apply Forall_app. split; [done|].
    by constructor. }
  clearbody s1. set (s2 := foldl _ s1 _). assert (H2 : sys_ok s2). { subst s2. cbn [foldl]. by do 4 (apply sys_ok_act; [done|]). }
  clearbody s2. apply sys_ok_nodeOf; [done|]. intros n _ _.
  pose proof (sys_ok_registration n s2 H2) as H3. destruct (registration n s2) as [s3 ans]. cbn [fst] in H3.
  apply sys_ok_nodeOf; [by apply sys_ok_act|]. intros n' _ _.
  destruct (asked isHello n'); [apply sys_ok_hello|]; by apply sys_ok_act.
Qed.

(** ** Clients *)

Lemma own_adapter fl pf st et env id r : same_run (rs_adapter r) (rs_adapter (own fl pf st et env id r)).
Proof.
  unfold own. destruct (rs_conns r !! id) as [c|] eqn:E; [|done]. cbn [fmap option_fmap option_map].
  destruct (cl_phase c) as [| |ns todo rep e| |] eqn:P.
  - unfold register. rewrite E. cbn [fmap option_fmap option_map]. by rewrite P.
  - unfold serve. rewrite E, P. destruct (rs_done r); [done|]. destruct (ReadRequest fl (cl_in c)) as [[req rest]|]; [|done].
    pose proof (same_run_request env (toRpc pf req) (rs_adapter r)) as H. unfold handle.
    destruct (HandleRequest env (toRpc pf req) (rs_adapter r)) as [a res]. exact H.
  - unfold reply. rewrite E, P. destruct todo as [|[t v] todo], ns as [|x ns]; try done. by destruct rep.
  - unfold unregister. rewrite E. cbn [fmap option_fmap option_map]. by rewrite P.
  - unfold finish. rewrite E. cbn [fmap option_fmap option_map]. by rewrite P.
Qed.
Lemma serveRPC_adapter k env st id r : same_run (rs_adapter r) (rs_adapter (serveRPC k env st id r)).
Proof.
  revert r; induction k as [|k IH]; intros r; cbn [serveRPC]; [done|].
  match goal with |- context [if ?b then _ else _] => destruct b end; [done|].
  etransitivity; [apply own_adapter|apply IH].
Qed.

Lemma sys_ok_handle i id method data s : sys_ok s -> sys_ok (handleRPC i id method data s).
Proof.
  intros Hs. unfold handleRPC. apply sys_ok_nodeOf; [done|]. intros n _ Hr.
  set (x := if bool_decide (method = B "joinGame") then lookup n s else (s, noAnswers)).
  assert (Hx : sys_ok x.1). { subst x. case_bool_decide; [by apply sys_ok_lookup|done]. }
  destruct x as [s1 ans]. cbn [fst] in Hx. cbv zeta.
  set (r0 := upd id (feed data) (with_adapter (ar_a (nd_run n)) (nd_rpc n))).
  assert (E0 : rs_adapter r0 = ar_a (nd_run n)) by done.
  set (r := serveRPC _ _ _ _ r0). assert (Hsame : same_run (ar_a (nd_run n)) (rs_adapter r)).
  { rewrite <- E0. apply serveRPC_adapter. }
  clearbody r. apply sys_ok_upd; [done|]. intros n' _ _.
  exact (ar_ok_request (rs_adapter r) (nd_run n) Hr Hsame).
Qed.

Lemma sys_ok_rpcs l s : sys_ok s -> sys_ok (with_rpcs l s).
Proof. by intros []. Qed.
Lemma sys_ok_rpc i r s : sys_ok s -> sys_ok (upd_node i (set_rpc r) s).
Proof. intros Hs. by apply sys_ok_upd. Qed.

Lemma sys_ok_dialRPC addr s : sys_ok s -> sys_ok (dialRPC addr s).1.
Proof.
  intros Hs. unfold dialRPC. destruct (list_find _ _) as [[i n]|]; [|done]. cbn [NewMockJSONRPCClient fst].
  by apply sys_ok_rpcs, sys_ok_rpc.
Qed.
Lemma sys_ok_call race c method params s : sys_ok s -> sys_ok (callRPC race c method params s).1.
Proof.
  intros Hs. unfold callRPC. destruct (sy_rpcs s !! c) as [[[[i id] got] m]|]; [|done]. cbv zeta.
  destruct (callReceive _ _ _) as [m' res]. cbn [fst].
  by apply sys_ok_rpcs, sys_ok_settle, sys_ok_handle.
Qed.
Lemma sys_ok_drain c s : sys_ok s -> sys_ok (drainRPC c s).
Proof.
  intros Hs. unfold drainRPC. destruct (sy_rpcs s !! c) as [[[[i id] got] m]|]; [|done]. cbv zeta.
  destruct (ReadNotification _ _ _) as [m' res]. by apply sys_ok_rpcs.
Qed.
Lemma sys_ok_hangUp c s : sys_ok s -> sys_ok (hangUp c s).
Proof.
  intros Hs. unfold hangUp. destruct (sy_rpcs s !! c) as [[[[i id] got] m]|]; [|done].
  apply sys_ok_nodeOf; [done|]. intros n _ _. by apply sys_ok_rpc.
Qed.

(** ** Games *)

Lemma sys_ok_games l s : sys_ok s -> Forall game_ok l -> sys_ok (with_games l s).
Proof. by intros []. Qed.

Lemma sys_ok_dialGame race addr s : sys_ok s -> sys_ok (dialGame race addr s).1.
Proof.
  intros Hs. unfold dialGame. destruct (list_find _ _) as [[i n]|]; [|done]. cbn [fst].
  assert (H : sys_ok (settle race (act i (AvGame (MkConn 1 None)) s))) by (apply sys_ok_settle; by apply sys_ok_act).
  apply sys_ok_games; [done|]. apply Forall_app. split; [apply H|]. constructor; [|done]. by intros m [= <-].
Qed.

(** What a game writes reads back as one message. *)
Lemma game_message header args m :
  bw_healthy (mg_w m) -> bw_buf (mg_w m) = [] ->
  Z.of_nat (String.length header) <= MaxStringLength -> Forall arg_ok args -> len args <= MaxChunkSize ->
  exists m', SendMessage (fun _ => 0) header args m = (m', None) /\ bw_healthy (mg_w m') /\ bw_buf (mg_w m') = [] /\
    ReadMessage (drop (length (bw_out (mg_w m))) (bw_out (mg_w m'))) = ROk (header, chunk_of (fun _ => 0) <$> args) [].
Proof.
  intros Hw Hb Hh Ha Hl. unfold SendMessage.
  destruct (WriteMessage_flushes (fun _ => 0) header args (mg_w m) Hw Hh Ha) as (w & -> & Hw' & Ho & Hb').
  eexists. split; [done|]. cbn [mg_w]. split; [done|]. split; [done|].
  rewrite Ho. unfold bw_content. rewrite Hb, app_nil_r, drop_app_length.
  rewrite <- (app_nil_r (enc_message _ _ _)). by apply reads_ReadMessage.
Qed.

Lemma sys_ok_sends race g header args s :
  op_ok (OSend g header args) -> sys_ok s -> sys_ok (gameSends race g header args s).
Proof.
  intros (Hh & Ha & Hl) Hs. unfold gameSends. destruct (sy_games s !! g) as [[[i got] [m|]]|] eqn:E; try done.
  destruct (proj1 (Forall_lookup _ _) (so_games s Hs) g _ E m eq_refl) as [Hw Hb].
  destruct (game_message header args m Hw Hb Hh Ha Hl) as (m' & -> & Hw' & Hb' & R).
  cbv zeta. apply sys_ok_settle. unfold fuel. change 200%nat with (S (S 198)). cbn [hearGame]. rewrite R.
  change (ReadMessage []) with (RErr (A := string * list Chunk) (ReadingMessageHeader (ReadingStringLength (ErrIO EOF)))).
  cbn [waits].
  apply sys_ok_act; [cbn [readable]; by rewrite R|]. apply sys_ok_games; [done|]. apply Forall_insert; [apply Hs|].
  by intros ? [= <-].
Qed.
Lemma sys_ok_reads g s : sys_ok s -> sys_ok (gameReads g s).1.
Proof.
  intros Hs. unfold gameReads. destruct (sy_games s !! g) as [[[i got] [m|]]|] eqn:E; try done. cbv zeta.
  destruct (proj1 (Forall_lookup _ _) (so_games s Hs) g _ E m eq_refl) as [Hw Hb].
  unfold ReadGameMessage. destruct (ReadMessage _) as [msg rest|e|]; cbn [fst]; [..|done];
    (apply sys_ok_games; [done|]); (apply Forall_insert; [apply Hs|]); by intros ? [= <-].
Qed.
Lemma sys_ok_leaves g s : sys_ok s -> sys_ok (gameLeaves g s).
Proof.
  intros Hs. unfold gameLeaves. destruct (sy_games s !! g) as [[[i got] m]|]; [|done].
  apply sys_ok_stopDone. by do 2 (apply sys_ok_act; [done|]).
Qed.

(** ** Theorem *)

Lemma sys_ok_step race op s : op_ok op -> sys_ok s -> sys_ok (labStep race op s).
Proof.
  intros Ho Hs. destruct op; cbn [labStep theLab lab_sleep lab_udpPort lab_tcpPort lab_server lab_adapter lab_rpc
    lab_call lab_drain lab_game lab_send lab_read lab_listen lab_write lab_receive lab_closeRPC lab_closeGame
    lab_closeUDP lab_cancel].
  - apply sys_ok_settle. by destruct Hs.
  - by destruct Hs.
  - by destruct Hs.
  - by apply sys_ok_server.
  - by apply sys_ok_adapter.
  - by apply sys_ok_dialRPC.
  - by apply sys_ok_call.
  - by apply sys_ok_drain.
  - by apply sys_ok_dialGame.
  - by apply sys_ok_sends.
  - by apply sys_ok_reads.
  - by destruct Hs.
  - by destruct Hs.
  - destruct (sy_socks s !! k) as [[|d q]|]; by destruct Hs.
  - by apply sys_ok_hangUp.
  - by apply sys_ok_leaves.
  - done.
  - set (s1 := foldl _ s _). assert (H : sys_ok s1).
    { apply sys_ok_foldl; [|done]. intros s' i Hs'. apply sys_ok_stopDone. by apply sys_ok_act. }
    destruct H. by split.
  - by apply sys_ok_settle, sys_ok_fires.
Qed.

Lemma sys_ok_reach ops s : Forall (fun x => op_ok x.2) ops -> sys_ok s -> sys_ok (labRun ops s).
Proof.
  intros Ho. revert s; induction Ho as [|[race op] ops H Ho IH]; intros s Hs; [done|].
  unfold labRun in *. cbn [foldl]. apply IH. by apply sys_ok_step.
Qed.

(** C11. No scenario brings the system down.  Start from nothing and perform any
    sequence of operations on relay servers, adapters, clients, games and UDP
    sockets of any contents and length, to any address of the system, and let the
    timers of the adapters and the phases of the server's reaper come at any
    point, whatever order datagrams sent together are handled in; the messages of
    the games are well formed (a negative count would make an adapter panic) and
    there is no TCP connection to the relay.  Then no part panics; an adapter that
    has returned has cancelled its context and has closed, in reverse order,
    exactly what its [Run] had deferred a close for, one that has not returned has
    closed nothing and has exactly the resources of its statement open; and the
    server's tables are consistent, with every session valid. *)
Theorem system_safe (ops : list (Race * LabOp)) :
  Forall (fun x => op_ok x.2) ops ->
  let s := labRun ops noSystem in
  sy_crashed s = false /\
  (forall i n, sy_nodes s !! i = Some n ->
     let r := nd_run n in
     match ar_pc r with
     | AReturned err => ctxDone r = true /\ ar_open r = [] /\ exists dbg, ar_closed r = closedBy err dbg
     | pc => ar_closed r = [] /\ exists dbg, ar_open r = opened pc dbg
     end) /\
  (forall srv, sy_srv s = Some srv -> consistent (v_sm srv)).
Proof.
  intros Ho s. assert (Hs : sys_ok s). { apply sys_ok_reach; [done|]. by split. }
  destruct Hs as [H1 H2 H3 H4]. split_and!; [done| |intros srv Hsrv; eapply run_ok_consistent, (H3 srv Hsrv)].
  intros i n Hi. pose proof (proj1 (Forall_lookup _ _) H2 i n Hi) as Hr. cbv zeta.
  pose proof (aro_open _ Hr) as [dbg Ho']. pose proof (aro_closed _ Hr) as Hc. pose proof (aro_waited _ Hr) as Hw.
  destruct (ar_pc (nd_run n)) as [| | | | | | | | | |err]; try (by split; [|exists dbg]).
  split_and!; [by apply Hw; right|done|done].
Qed.

(** A test with a server and an adapter whose client hosts a game and quits,
    with timers and a stray datagram of 1450 bytes for the server. *)
Definition demo_script : list (Race * LabOp) :=
  (fun op => (Together, op)) <$>
  [OServer (serverConfig 10000 10001);
   OAdapter (adapterConfig 1 100 "Player1" 10002 (localhost 10000) ("http://" +:+ localhost 10001)); OSleep Time.Second;
   ODialRPC (localhost 10002); ODialGame (localhost 20001); OSend 0 CmdGameState [ArgString "Idle"];
   OListen; OWrite 0 (header 1 2 ++ replicate 1442 Byte.x00) (localhost 10000); OTimer (TKeepalive 0); OTimer TScan;
   OTimer TApply; OCall 0 (B "hostGame") [jtext "scmp_009"]; OCall 0 (B "quit") []].

Lemma system_safe_witness :
  let s := labRun demo_script noSystem in
  (ar_pc ∘ nd_run) <$> sy_nodes s = [AReturned None] /\
  sy_crashed s = false /\
  (forall i n, sy_nodes s !! i = Some n ->
     let r := nd_run n in
     match ar_pc r with
     | AReturned err => ctxDone r = true /\ ar_open r = [] /\ exists dbg, ar_closed r = closedBy err dbg
     | pc => ar_closed r = [] /\ exists dbg, ar_open r = opened pc dbg
     end) /\
  (forall srv, sy_srv s = Some srv -> consistent (v_sm srv)).
Proof.
  split; [vm_compute; reflexivity|]. apply (system_safe demo_script).
  repeat (apply Forall_cons; split; [|try apply Forall_nil]); try exact I.
  split; [vm_compute; discriminate|]. split; [|vm_compute; discriminate].
  constructor; [vm_compute; discriminate|constructor].
Defined.
